(* ===== verification/_CoqProject ===== *)
-Q . S2P
Prelude.v
Bytes.v
Constants.v
Header.v
Ie.v
Messages.v
Transport.v
UpTypes.v
Dataplane.v
Mock.v
Up.v
UpMock.v
CpTypes.v
Northbound.v
Cp.v
CpRuns.v
CpSpec.v
Grpc.v
System.v
Sdf.v
Vpp.v
