(* ===== verification/Prelude.v ===== *)
(** * A verification development for pfcp-go

    pfcp-go is a Packet Forwarding Control Protocol implementation: a control
    plane function (CP) that clients drive over gRPC, a user plane function
    (UP) that installs rules in a dataplane, and the protocol library both
    use to talk over UDP.  This development models its Go packages under
    [src/pkg] and proves what makes them correct, and where they are not.

    ** The program and the files

    - [protocol] is the wire format and the transport.  [Constants.v] has
      [constants.go]; [Header.v] has [header.go]; [Ie.v] has [ie.go];
      [Messages.v] has [messages.go]; [Transport.v] has [transport.go].
    - [up] is the user plane.  [UpTypes.v] has the types of [up.go];
      [Dataplane.v] the interface of [dataplane.go]; [Up.v] the rest of [up.go]
      and [handlers.go].
    - [dataplane/mock] and [dataplane/vpp] implement the interface.  [Mock.v]
      has [mock.go]; [Sdf.v] has [sdf_parser.go]; [Vpp.v] has [vpp.go] and
      [l2_filters.go].  [UpMock.v] puts the user plane over the mock.
    - [cp] is the control plane.  [CpTypes.v] and [Cp.v] have [cp.go] and
      [handlers.go]; [Northbound.v] has [northbound.go]; [CpRuns.v] the
      interleavings of its concurrent calls; [CpSpec.v] the functional
      specifications of its operations; [Grpc.v] has [grpc.go], the service in
      front of it.
    - [System.v] puts the two functions together over the wire.
    - [Prelude.v], this file, has the monads, the machine integers, the hint
      databases and the tactics; [Bytes.v] bytes, slices and big-endian
      integers.

    Definitions keep the names of the Go code.  A name that two Go packages
    declare (a session, a detection rule) is declared once in each of the
    files of the two packages.  A method of an interface's implementation
    carries a prefix ([mock_], [vpp_], [memory_], [CP_]).

    ** How Go is modelled

    - A call ends in a [res]: a value, an error, a run-time panic, or, for a
      loop the model bounds, no end.  A call on shared state is a [go S A]; it
      gives the state also when it fails.  Errors keep their format and
      arguments, so branches that report differently differ.
    - An integer is a [Z], wrapped by [u8] to [u64] where the code's type
      wraps.  Slices of the receive buffer keep their capacity ([gslice]).
    - A Go map is a [gmap].  Where a range over one can matter, the order is
      an argument.  Objects whose sharing matters live in a heap (the
      associations of [Cp.v]) or are numbered (the calls of [Transport.v]).
    - Concurrency: the transport's calls ([tstep]), the user plane's receive
      loop and transport ([up_step]) and the control plane's calls, receive
      loop and heartbeats ([cp_step]) are step relations, one step for what
      runs without another goroutine in between.  Time is not modelled; a
      timer may fire whenever it is set.
    - Outside the code: the socket's write results, VPP's replies
      ([vpp_reply]), the northbound store and the dataplane behind their
      interfaces.  Each is an argument or a class with laws.

    ** What is shown

    - Wire format: headers, elements, groups and messages are read back as
      they were written, and nothing else is accepted ([Header.v], [Ie.v],
      [Messages.v]); on which input each reader panics, exactly.
    - Transport: a response carries its request's sequence number; how often
      a request is sent, at least and at most; that every call returns and
      leaves no entry behind.
    - User plane: an invariant ties the session table to the dataplane in
      every reachable state, over any dataplane that obeys the laws
      [DataplaneLaws]; the mock and VPP obey them.  Establishment, with the
      rules its request asks for, and deletion are specified on every branch;
      which datagrams stop the receive loop, handlers included, exactly.
    - Control plane: the operations and handlers on every branch; SEIDs are
      unique and the store keeps up in every interleaving but for one race;
      which datagrams stop its receive loop.  The composed calls are runs of
      the interleaved steps ([CreateSession_refines], [DeleteSession_refines]),
      which is how the concrete runs are shown to be reachable.
    - Service: what of a request reaches the control plane's rules, and which
      requests panic before anything has changed.
    - VPP: the ports registered for a filter are those of its range, and the
      element the control plane builds is parsed back to it; the loop over the
      ports does not end when the range ends at 65535.
    - Both together: what the control plane sends becomes, at the user plane,
      the projection of its rules that the code keeps; the session is never
      deleted there.

    ** Bounds and fuel

    [unmarshal_ies] takes one round per element, each at least four bytes
    long, so the length of the data is fuel enough, as is shown
    ([unmarshal_ies_no_hang]).  [alloc_from] takes one round more than there
    are sessions ([alloc_from_total]).  [punt_ports] has its fuel as an
    argument; 65536 rounds are enough when the range ends below 65535, and no
    number is otherwise.  Runs stay below 2^64 - 1 sessions or allocations,
    where a 64-bit counter would wrap.

    ** What is not modelled

    The generated code under [api], the message structs apart; the programs
    under [cmd] and the test client, which only wire the packages together; the
    life cycle of goroutines ([Start], [Stop], tickers, wait groups); log
    output.  The functions of Go's standard library the code uses are modelled
    next to their use ([strings] and [strconv] in [Sdf.v], [net] in [Ie.v] and
    [Grpc.v]). *)
From Stdlib Require Export ZArith Lia.
From stdpp Require Export base list gmap strings option numbers.

#[global] Open Scope Z_scope.
Declare Scope pfcp_scope.
Delimit Scope pfcp_scope with pfcp.
#[global] Open Scope pfcp_scope.

(** ** Go errors, panics and results *)

(** An argument of a format call. *)
Inductive goarg :=
  | AInt (z : Z)
  | AStr (s : string).

(** [Errorf] is [fmt.Errorf] (and [errors.New]) with the format and its
    arguments; [Wrapf] is a format that ends in the [%w] verb. *)
Inductive goerror :=
  | Errorf (format : string) (args : list goarg)
  | Wrapf (format : string) (args : list goarg) (cause : goerror).

(** The run-time panics the modelled code can raise. *)
Inductive gopanic :=
  | SliceBoundsOutOfRange
  | IndexOutOfRange
  | NilDereference.

(** What a call comes to: it returns a value, returns a non-nil error,
    panics, or does not return (only loops with an explicit bound in the
    model give [Hang]). *)
Inductive res (A : Type) :=
  | Ok (a : A)
  | Err (e : goerror)
  | Panic (p : gopanic)
  | Hang.
Arguments Ok {A} a.
Arguments Err {A} e.
Arguments Panic {A} p.
Arguments Hang {A}.

(** The call came back to its caller, with a value or with an error. *)
Definition returned {A} (r : res A) : bool :=
  match r with Ok _ | Err _ => true | Panic _ | Hang => false end.

#[export] Instance res_ret : MRet res := @Ok.

#[export] Instance res_bind : MBind res := λ A B f r,
  match r with
  | Ok a => f a
  | Err e => Err e
  | Panic p => Panic p
  | Hang => Hang
  end.

(** A stateful Go call: the receiver (or the function's whole state) is
    threaded through, also when the call ends in an error. *)
Definition go (S A : Type) : Type := S → S * res A.

#[export] Instance go_ret {S} : MRet (go S) := λ A a s, (s, Ok a).

#[export] Instance go_bind {S} : MBind (go S) := λ A B f m s,
  match m s with
  | (s', Ok a) => f a s'
  | (s', Err e) => (s', Err e)
  | (s', Panic p) => (s', Panic p)
  | (s', Hang) => (s', Hang)
  end.

(** A call without state of its own, inside a stateful one. *)
Definition lift {S A} (r : res A) : go S A := λ s, (s, r).

Definition throw {S A} (e : goerror) : go S A := lift (Err e).

(** Read the state, replace it, change it. *)
Definition gget {S} : go S S := λ s, (s, Ok s).
Definition gmodify {S} (f : S → S) : go S () := λ s, (f s, Ok tt).

(** A call whose error value the caller drops ([_ = f()], or a bare [f()]):
    panics and divergence still reach the caller. *)
Definition discard {S A} (m : go S A) : go S () := λ s,
  match m s with
  | (s', Ok _) | (s', Err _) => (s', Ok tt)
  | (s', Panic p) => (s', Panic p)
  | (s', Hang) => (s', Hang)
  end.

(** [if err != nil { return fmt.Errorf(..., err) }]. *)
Definition wrap_err {S A} (w : goerror → goerror) (m : go S A) : go S A := λ s,
  match m s with
  | (s', Err e) => (s', Err (w e))
  | r => r
  end.

Definition wrap_res {A} (w : goerror → goerror) (r : res A) : res A :=
  match r with Err e => Err (w e) | _ => r end.

(** Run a call on a component of a larger state. *)
Definition zoom {S T A} (get : S → T) (put : T → S → S) (m : go T A) : go S A :=
  λ s, let '(t, r) := m (get s) in (put t s, r).

(** [for _, x := range xs { body }]: a panic or a return leaves the loop. *)
Fixpoint for_each {S A} (xs : list A) (body : A → go S ()) : go S () :=
  match xs with
  | [] => mret tt
  | x :: xs' => _ ← body x; for_each xs' body
  end.

(** The same for a loop that only builds up a value. *)
Fixpoint fold_res {A B} (f : A → B → res A) (a : A) (bs : list B) : res A :=
  match bs with
  | [] => Ok a
  | b :: bs' => a ← f a b; fold_res f a bs'
  end.

(** ** Machine integers *)

(** Conversion to an unsigned integer type truncates. *)
Definition u8 (z : Z) : Z := z mod 2 ^ 8.
Definition u16 (z : Z) : Z := z mod 2 ^ 16.
Definition u32 (z : Z) : Z := z mod 2 ^ 32.
Definition u64 (z : Z) : Z := z mod 2 ^ 64.

(** The values of an unsigned type of [w] bits. *)
Definition in_width (w z : Z) : Prop := 0 ≤ z < 2 ^ w.
#[export] Instance in_width_dec w z : Decision (in_width w z).
Proof. unfold in_width. apply _. Defined.

#[export] Instance if_bool_dec (b : bool) P Q `{!Decision P, !Decision Q} :
  Decision (if b then P else Q).
Proof. destruct b; apply _. Defined.

Abbreviation is_u8 := (in_width 8).
Abbreviation is_u16 := (in_width 16).
Abbreviation is_u32 := (in_width 32).
Abbreviation is_u64 := (in_width 64).

(** [len(s)], a Go [int]. *)
Definition len {A} (l : list A) : Z := Z.of_nat (length l).

(** ** Hint databases and tactics *)

Create HintDb pfcp discriminated.
Create Rewrite HintDb go_simp.

(** [go_step] unfolds one layer of the monads. *)
Ltac go_unfold :=
  cbv [mret mbind go_ret go_bind res_ret res_bind lift throw gget gmodify] in *.

(** Case analysis on the first match or conditional of the goal. *)
Ltac case_goal :=
  match goal with
  | |- context [match ?x with _ => _ end] => destruct x eqn:?
  end.

(** A decidable goal without variables, by evaluation. *)
Ltac by_compute :=
  match goal with
  | |- ?P => apply (bool_decide_eq_true_1 P); vm_compute; reflexivity
  end.

Ltac widths := unfold in_width, u8, u16, u32, u64 in *.

(** ** Lemmas of the monads *)

Lemma go_bind_Ok {S A B} (m : go S A) (f : A → go S B) s s' a :
  m s = (s', Ok a) → (m ≫= f) s = f a s'.
Proof. intros H. unfold mbind, go_bind. by rewrite H. Qed.

Lemma go_bind_Ok_inv {S A B} (m : go S A) (f : A → go S B) s s'' b :
  (m ≫= f) s = (s'', Ok b) → ∃ s' a, m s = (s', Ok a) ∧ f a s' = (s'', Ok b).
Proof.
  unfold mbind, go_bind. destruct (m s) as [s' [a|e|p|]] eqn:E; try done.
  intros H. by exists s', a.
Qed.

Lemma res_bind_Ok_inv {A B} (r : res A) (f : A → res B) b :
  r ≫= f = Ok b → ∃ a, r = Ok a ∧ f a = Ok b.
Proof. unfold mbind, res_bind. destruct r; try done. eauto. Qed.

(** Dropping an error changes the result only. *)
Lemma discard_fst {S A} (m : go S A) s : (discard m s).1 = (m s).1.
Proof. unfold discard. by destruct (m s) as [? [?|?|?|]]. Qed.

(** A loop whose bodies preserve an invariant preserves it, however it ends. *)
Lemma for_each_inv {S A} (I : S → Prop) (xs : list A) (body : A → go S ()) s :
  I s → (∀ x s, x ∈ xs → I s → I (body x s).1) → I (for_each xs body s).1.
Proof.
  revert s. induction xs as [|x xs IH]; intros s Hs Hb; [done|].
  simpl. unfold mbind, go_bind.
  pose proof (Hb x s ltac:(set_solver) Hs) as Hx.
  destruct (body x s) as [s' [[]|e|p|]]; simpl in *; try done.
  apply IH; [done|]. intros y t Hy. apply Hb. set_solver.
Qed.

(** A loop whose bodies all return reaches its end, in the state the bodies
    compose to. *)
Lemma for_each_Ok {S A} (xs : list A) (body : A → go S ()) (f : A → S → S) s :
  (∀ x s, x ∈ xs → body x s = (f x s, Ok tt)) →
  for_each xs body s = (foldl (λ s x, f x s) s xs, Ok tt).
Proof.
  revert s. induction xs as [|x xs IH]; intros s Hb; [done|]. simpl.
  erewrite go_bind_Ok by (apply Hb; set_solver).
  apply IH. intros y t Hy. apply Hb. set_solver.
Qed.

(** A loop whose bodies all come back comes back. *)
Lemma for_each_returned {S A} (xs : list A) (body : A → go S ()) s :
  (∀ x s, x ∈ xs → returned (body x s).2) → returned (for_each xs body s).2.
Proof.
  revert s. induction xs as [|x xs IH]; intros s Hb; [done|]. simpl. unfold mbind, go_bind.
  pose proof (Hb x s ltac:(set_solver)) as Hx.
  destruct (body x s) as [s' [[]|e|p|]]; simpl in *; try done.
  apply IH. intros y t Hy. apply Hb. set_solver.
Qed.

(** Dropping an error does not change whether a call comes back. *)
Lemma discard_returned {S A} (m : go S A) s : returned (discard m s).2 = returned (m s).2.
Proof. unfold discard. by destruct (m s) as [? [?|?|?|]]. Qed.

Lemma for_each_app {S A} (xs ys : list A) (body : A → go S ()) s :
  for_each (xs ++ ys) body s = (_ ← for_each xs body; for_each ys body) s.
Proof.
  revert s. induction xs as [|x xs IH]; intros s; simpl; [done|].
  unfold mbind, go_bind in *. by destruct (body x s) as [s' [[]|e|p|]].
Qed.

Lemma fold_res_Ok {A B} (f : A → B → res A) (g : A → B → A) a bs :
  (∀ a b, b ∈ bs → f a b = Ok (g a b)) → fold_res f a bs = Ok (foldl g a bs).
Proof.
  revert a. induction bs as [|b bs IH]; intros a Hf; [done|]. simpl.
  rewrite Hf by set_solver. simpl. apply IH. intros. apply Hf. set_solver.
Qed.

Lemma fold_res_inv {A B} (P : A → Prop) (f : A → B → res A) a bs a' :
  P a → (∀ a b a', b ∈ bs → P a → f a b = Ok a' → P a') →
  fold_res f a bs = Ok a' → P a'.
Proof.
  revert a. induction bs as [|b bs IH]; intros a Ha Hf; simpl; [by intros [= <-]|].
  intros (a1 & H1 & H2)%res_bind_Ok_inv. apply (IH a1); [| |done].
  - apply (Hf a b); [left|done|done].
  - intros. eapply Hf; [by right|done..].
Qed.

Lemma fold_res_app {A B} (f : A → B → res A) a bs1 bs2 :
  fold_res f a (bs1 ++ bs2) = (a ← fold_res f a bs1; fold_res f a bs2).
Proof.
  revert a. induction bs1 as [|b bs1 IH]; intros a; [done|]. simpl.
  destruct (f a b); simpl; try done.
Qed.

(** The loop that appends to a list. *)
Lemma foldl_snoc {A B} (f : A → B) acc xs :
  foldl (λ ys x, ys ++ [f x]) acc xs = acc ++ (f <$> xs).
Proof.
  revert acc. induction xs as [|x xs IH]; intros acc; simpl; [by rewrite app_nil_r|].
  by rewrite IH, <- app_assoc.
Qed.

(** ** Rules stored by id

    The rule that stands under an id when a list of rules is stored in
    order. *)
Definition last_with {R} (id : R → Z) (rs : list R) (i : Z) : option R :=
  list.last (filter (λ r, id r = i) rs).

Lemma last_with_nil {R} (id : R → Z) i (m : option R) : last_with id [] i ∪ m = m.
Proof. apply option_union_left_id. Qed.

(** Storing one more rule at the front of the list. *)
Lemma last_with_cons {R} (id : R → Z) r rs i m :
  last_with id (r :: rs) i ∪ m = last_with id rs i ∪ (if decide (id r = i) then Some r else m).
Proof.
  unfold last_with. rewrite filter_cons. case_decide; [|done]. rewrite last_cons.
  by destruct (list.last (filter _ rs)), m.
Qed.

Lemma last_with_nonempty {R} (id : R → Z) rs :
  rs ≠ [] → ∃ i, last_with id rs i ≠ None.
Proof.
  intros Hne. destruct (list.last rs) as [r|] eqn:E; [|by apply last_None in E].
  apply last_Some in E as [rs' ->]. exists (id r). unfold last_with.
  rewrite list.filter_app, filter_cons_True, filter_nil by done. by rewrite last_snoc.
Qed.

(** Storing a list of rules one by one. *)
Lemma last_with_stored {R} (id : R → Z) rs (m : gmap Z R) i :
  foldl (λ m r, <[id r := r]> m) m rs !! i = last_with id rs i ∪ m !! i.
Proof.
  revert m. induction rs as [|r rs IH]; intros m; [symmetry; apply last_with_nil|].
  simpl. by rewrite IH, last_with_cons, lookup_insert.
Qed.

(** ** Lemmas on widths and lengths *)

(** The value of a comparison, to rewrite with. *)
Lemma ltb_true x y : x < y → (x <? y) = true.
Proof. apply Z.ltb_lt. Qed.
Lemma ltb_false x y : y ≤ x → (x <? y) = false.
Proof. apply Z.ltb_ge. Qed.
Lemma leb_true x y : x ≤ y → (x <=? y) = true.
Proof. apply Z.leb_le. Qed.
Lemma leb_false x y : y < x → (x <=? y) = false.
Proof. apply Z.leb_gt. Qed.
Lemma eqb_false x y : x ≠ y → (x =? y) = false.
Proof. apply Z.eqb_neq. Qed.

Lemma u8_id z : is_u8 z → u8 z = z.
Proof. widths. intros. by apply Z.mod_small. Qed.
Lemma u16_id z : is_u16 z → u16 z = z.
Proof. widths. intros. by apply Z.mod_small. Qed.
Lemma u32_id z : is_u32 z → u32 z = z.
Proof. widths. intros. by apply Z.mod_small. Qed.
Lemma u64_id z : is_u64 z → u64 z = z.
Proof. widths. intros. by apply Z.mod_small. Qed.

Lemma u8_width z : is_u8 (u8 z).
Proof. widths. by apply Z.mod_pos_bound. Qed.
Lemma u16_width z : is_u16 (u16 z).
Proof. widths. by apply Z.mod_pos_bound. Qed.
Lemma u32_width z : is_u32 (u32 z).
Proof. widths. by apply Z.mod_pos_bound. Qed.
Lemma u64_width z : is_u64 (u64 z).
Proof. widths. by apply Z.mod_pos_bound. Qed.

Lemma len_nonneg {A} (l : list A) : 0 ≤ len l.
Proof. unfold len. lia. Qed.

Lemma len_app {A} (l1 l2 : list A) : len (l1 ++ l2) = len l1 + len l2.
Proof. unfold len. rewrite length_app. lia. Qed.

#[export] Hint Resolve u8_width u16_width u32_width u64_width len_nonneg : pfcp.
#[export] Hint Rewrite @len_app : go_simp.
