(* ===== verification/Bytes.v ===== *)
(** * Bytes, slices and big-endian integers

    What the code takes from Go itself and from its standard library to move
    integers in and out of byte slices: [byte(x)] conversions, slicing with
    its bounds checks, [copy], and [encoding/binary]'s [BigEndian.PutUintN]
    and [BigEndian.UintN] (for N = 8 n, n bytes).  The round trips of the
    wire formats rest on the lemmas of this file. *)
From Stdlib Require Export Strings.Byte.
From S2P Require Import Prelude.

#[export] Instance byte_eq_decision : EqDecision byte := Byte.byte_eq_dec.
#[export] Instance byte_inhabited : Inhabited byte := populate x00.

(** ** Operations *)

(** [byte(x)]: the low eight bits. *)
Definition byte_of_Z (z : Z) : byte := default x00 (Byte.of_N (Z.to_N (z mod 256))).
Definition Z_of_byte (b : byte) : Z := Z.of_N (Byte.to_N b).

(** [BigEndian.PutUintN]: byte i of n is [byte(v >> (8 (n - 1 - i)))]. *)
Fixpoint be_put (n : nat) (v : Z) : list byte :=
  match n with
  | O => []
  | S n' => byte_of_Z (Z.shiftr v (8 * Z.of_nat n')) :: be_put n' v
  end.

(** [BigEndian.UintN]: the bytes, shifted in from the left. *)
Definition be_get (bs : list byte) : Z :=
  foldl (λ acc b, Z.lor (Z.shiftl acc 8) (Z_of_byte b)) 0 bs.

Abbreviation PutUint16 := (be_put 2).
Abbreviation PutUint32 := (be_put 4).
Abbreviation PutUint64 := (be_put 8).

(** [b[lo:hi]], for [hi] at most the slice's length or the slice's capacity
    its length. *)
Definition go_slice (bs : list byte) (lo hi : Z) : res (list byte) :=
  if decide (0 ≤ lo ≤ hi ∧ hi ≤ len bs)
  then Ok (take (Z.to_nat (hi - lo)) (drop (Z.to_nat lo) bs))
  else Panic SliceBoundsOutOfRange.

(** [s[i]], of any slice. *)
Definition go_index {A} (s : list A) (i : Z) : res A :=
  if decide (0 ≤ i) then
    match s !! Z.to_nat i with Some x => Ok x | None => Panic IndexOutOfRange end
  else Panic IndexOutOfRange.

(** [make([]byte, n)]. *)
Definition go_make (n : Z) : list byte := replicate (Z.to_nat n) x00.

(** [copy(dst[off:], src)]: as many bytes as fit. *)
Definition go_copy (dst : list byte) (off : nat) (src : list byte) : list byte :=
  list_inserts off (take (length dst - off) src) dst.

(** A slice [arr[:n]] of a larger array: slicing it further is checked
    against the capacity, not against its length. *)
Record gslice := GSlice { gs_array : list byte; gs_len : nat }.

Definition gs_visible (s : gslice) : list byte := take (gs_len s) (gs_array s).

Definition gs_slice (s : gslice) (lo hi : Z) : res (list byte) :=
  go_slice (gs_array s) lo hi.

(** A slice that is its whole array. *)
Definition gs_of (bs : list byte) : gslice := GSlice bs (length bs).

(** [[]byte(s)] and [string(b)]. *)
Definition bytes_of_string (s : string) : list byte := String.list_byte_of_string s.
Definition string_of_bytes (b : list byte) : string := String.string_of_list_byte b.

(** ** Bytes *)

Lemma Z_of_byte_range b : is_u8 (Z_of_byte b).
Proof.
  widths. unfold Z_of_byte. pose proof (Byte.to_N_bounded b). lia.
Qed.

Lemma Z_of_byte_of_Z z : Z_of_byte (byte_of_Z z) = u8 z.
Proof.
  widths. unfold Z_of_byte, byte_of_Z. change (2 ^ 8) with 256.
  pose proof (Z.mod_pos_bound z 256 ltac:(lia)).
  destruct (Byte.of_N (Z.to_N (z mod 256))) as [b|] eqn:E; simpl.
  - apply Byte.to_of_N in E. rewrite E. lia.
  - apply Byte.of_N_None_iff in E. lia.
Qed.

Lemma Z_of_byte_inj b1 b2 : Z_of_byte b1 = Z_of_byte b2 → b1 = b2.
Proof.
  unfold Z_of_byte. intros H%N2Z.inj.
  pose proof (Byte.of_to_N b1). pose proof (Byte.of_to_N b2). congruence.
Qed.

Lemma byte_of_Z_of_byte b : byte_of_Z (Z_of_byte b) = b.
Proof.
  apply Z_of_byte_inj. rewrite Z_of_byte_of_Z.
  apply u8_id, Z_of_byte_range.
Qed.

Lemma byte_of_Z_congr z1 z2 : u8 z1 = u8 z2 → byte_of_Z z1 = byte_of_Z z2.
Proof. intros H. apply Z_of_byte_inj. by rewrite !Z_of_byte_of_Z. Qed.

Lemma byte_of_u8 z : byte_of_Z (u8 z) = byte_of_Z z.
Proof. apply byte_of_Z_congr, u8_id, u8_width. Qed.

#[export] Hint Resolve Z_of_byte_range : pfcp.

(** ** Big-endian integers *)

Lemma lor_shiftl_byte a b : Z.lor (Z.shiftl a 8) (Z_of_byte b) = a * 256 + Z_of_byte b.
Proof.
  rewrite <- Z.add_nocarry_lor; [by rewrite Z.shiftl_mul_pow2|].
  apply Z.bits_inj'. intros i Hi. rewrite Z.land_spec, Z.bits_0, Z.shiftl_spec by done.
  destruct (decide (i < 8)).
  - by rewrite Z.testbit_neg_r by lia.
  - rewrite <- (u8_id (Z_of_byte b)) by auto with pfcp. unfold u8.
    by rewrite Z.mod_pow2_bits_high, andb_false_r by lia.
Qed.

Lemma be_get_snoc bs b : be_get (bs ++ [b]) = be_get bs * 256 + Z_of_byte b.
Proof. unfold be_get. rewrite foldl_app. simpl. apply lor_shiftl_byte. Qed.

Lemma be_get_nil : be_get [] = 0.
Proof. done. Qed.

Lemma length_be_put n v : length (be_put n v) = n.
Proof. induction n; simpl; congruence. Qed.

(** The last byte written is the low one, the others are those of [v >> 8]. *)
Lemma be_put_snoc n v : be_put (S n) v = be_put n (Z.shiftr v 8) ++ [byte_of_Z v].
Proof.
  induction n as [|n IH].
  - simpl. by rewrite Z.shiftr_0_r.
  - change (be_put (S (S n)) v) with
      (byte_of_Z (Z.shiftr v (8 * Z.of_nat (S n))) :: be_put (S n) v).
    rewrite IH. simpl. f_equal. f_equal. rewrite Z.shiftr_shiftr by lia. f_equal. lia.
Qed.

Lemma shiftr8 v : Z.shiftr v 8 = v / 256.
Proof. by rewrite Z.shiftr_div_pow2. Qed.

Lemma pow256_S n : 256 ^ Z.of_nat (S n) = 256 * 256 ^ Z.of_nat n.
Proof. rewrite Nat2Z.inj_succ, Z.pow_succ_r by lia. done. Qed.

Lemma pow256_pos n : 0 < 256 ^ Z.of_nat n.
Proof. apply Z.pow_pos_nonneg; lia. Qed.

Lemma be_get_range bs : 0 ≤ be_get bs < 256 ^ len bs.
Proof.
  induction bs as [|b bs IH] using rev_ind; [done|].
  rewrite be_get_snoc, len_app. unfold len in *. simpl.
  rewrite Z.pow_add_r by lia. pose proof (Z_of_byte_range b). widths. lia.
Qed.

Lemma be_get_put n v : be_get (be_put n v) = v mod 256 ^ Z.of_nat n.
Proof.
  revert v. induction n as [|n IH]; intros v; [by rewrite Z.mod_1_r|].
  rewrite be_put_snoc, be_get_snoc, IH, Z_of_byte_of_Z, shiftr8, pow256_S.
  unfold u8. change (2 ^ 8) with 256. pose proof (pow256_pos n).
  rewrite Z.rem_mul_r by lia. lia.
Qed.

Lemma be_put_get bs n : length bs = n → be_put n (be_get bs) = bs.
Proof.
  revert n. induction bs as [|b bs IH] using rev_ind; intros n <-; [done|].
  rewrite length_app, Nat.add_1_r, be_put_snoc, be_get_snoc.
  pose proof (Z_of_byte_range b) as Hb. widths. change (2 ^ 8) with 256 in Hb.
  f_equal.
  - rewrite shiftr8, Z.div_add_l, (Z.div_small (Z_of_byte b)), Z.add_0_r by lia. by apply IH.
  - f_equal. apply Z_of_byte_inj. rewrite Z_of_byte_of_Z. unfold u8.
    change (2 ^ 8) with 256. rewrite Z.add_comm, Z.mod_add, Z.mod_small by lia. done.
Qed.

Lemma be_put_u n v : be_put n (v mod 256 ^ Z.of_nat n) = be_put n v.
Proof. rewrite <- be_get_put. apply be_put_get, length_be_put. Qed.

Lemma be_put_inj n v1 v2 :
  0 ≤ v1 < 256 ^ Z.of_nat n → 0 ≤ v2 < 256 ^ Z.of_nat n →
  be_put n v1 = be_put n v2 → v1 = v2.
Proof.
  intros H1 H2 H%(f_equal be_get). rewrite !be_get_put in H.
  by rewrite !Z.mod_small in H by done.
Qed.

Lemma Uint16_Put v : be_get (PutUint16 v) = u16 v.
Proof. apply be_get_put. Qed.
Lemma Uint32_Put v : be_get (PutUint32 v) = u32 v.
Proof. apply be_get_put. Qed.
Lemma Uint64_Put v : be_get (PutUint64 v) = u64 v.
Proof. apply be_get_put. Qed.

Lemma PutUint16_u16 v : PutUint16 (u16 v) = PutUint16 v.
Proof. apply (be_put_u 2). Qed.

Lemma Uint16_range a b : is_u16 (be_get [a; b]).
Proof. apply (be_get_range [a; b]). Qed.

Lemma be_get_width bs w : w = 8 * len bs → in_width w (be_get bs).
Proof.
  intros ->. pose proof (be_get_range bs). unfold in_width.
  rewrite Z.pow_mul_r; [done|lia|apply len_nonneg].
Qed.

#[export] Hint Resolve Uint16_range : pfcp.
#[export] Hint Rewrite length_be_put Uint16_Put Uint32_Put Uint64_Put : go_simp.

(** ** Slices *)

(** The first element of a list known to be long enough. *)
Ltac explode data H :=
  destruct data as [|? data]; [exfalso; unfold len in H; simpl in H; lia|].

Lemma go_slice_Ok bs lo hi :
  0 ≤ lo ≤ hi → hi ≤ len bs →
  go_slice bs lo hi = Ok (take (Z.to_nat (hi - lo)) (drop (Z.to_nat lo) bs)).
Proof. intros. unfold go_slice. by rewrite decide_True by done. Qed.

Lemma go_slice_panic bs lo hi :
  hi < lo ∨ len bs < hi → go_slice bs lo hi = Panic SliceBoundsOutOfRange.
Proof. intros. unfold go_slice. rewrite decide_False by lia. done. Qed.

Lemma go_index_Ok {A} `{!Inhabited A} (s : list A) i :
  0 ≤ i < len s → go_index s i = Ok (s !!! Z.to_nat i).
Proof.
  unfold len. intros Hi. unfold go_index. rewrite decide_True by lia.
  destruct (s !! Z.to_nat i) as [x|] eqn:E.
  - by rewrite (list_lookup_total_correct _ _ _ E).
  - apply lookup_ge_None in E. lia.
Qed.

Lemma go_index_lookup {A} (s : list A) i x :
  (0 <=? i) = true → s !! Z.to_nat i = Some x → go_index s i = Ok x.
Proof. intros Hi%Z.leb_le Hx. unfold go_index. by rewrite decide_True, Hx. Qed.

(** The next read, of a list whose cells are known. *)
Ltac index_known :=
  match goal with
  | |- (go_index ?s ?i ≫= _) = _ =>
    erewrite (go_index_lookup s i) by reflexivity; cbn [mbind res_bind]
  end.

Lemma go_index_panic {A} (s : list A) i :
  len s ≤ i → go_index s i = Panic IndexOutOfRange.
Proof.
  unfold len. intros Hi. unfold go_index. rewrite decide_True by lia.
  by rewrite lookup_ge_None_2 by lia.
Qed.

(** An index is in range exactly when reading there comes back. *)
Lemma go_index_returned {A} (s : list A) i : 0 ≤ i < len s → returned (go_index s i).
Proof.
  unfold len. intros Hi. unfold go_index. rewrite decide_True by lia.
  destruct (lookup_lt_is_Some_2 s (Z.to_nat i)) as [x ->]; [lia|done].
Qed.

Lemma go_slice_app bs1 bs2 bs3 lo hi :
  lo = len bs1 → hi = len bs1 + len bs2 →
  go_slice (bs1 ++ bs2 ++ bs3) lo hi = Ok bs2.
Proof.
  intros -> ->. pose proof (len_nonneg bs1). pose proof (len_nonneg bs2).
  pose proof (len_nonneg bs3).
  rewrite go_slice_Ok by (rewrite ?len_app; lia). f_equal.
  unfold len. rewrite Nat2Z.id.
  replace (Z.to_nat _) with (length bs2) by lia.
  by rewrite drop_app_length, take_app_length.
Qed.

Lemma go_copy_full (pre src : list byte) n :
  n = length pre → go_copy (pre ++ replicate (length src) x00) n src = pre ++ src.
Proof.
  intros ->. unfold go_copy. rewrite length_app, length_replicate.
  rewrite take_ge by lia.
  rewrite <- (Nat.add_0_r (length pre)) at 1. rewrite list_inserts_app_r. f_equal.
  rewrite <- (app_nil_r src) at 1. apply list_inserts_0_l. by rewrite length_replicate.
Qed.

Lemma string_of_bytes_of_string s : string_of_bytes (bytes_of_string s) = s.
Proof. apply String.string_of_list_byte_of_string. Qed.

Lemma bytes_of_string_of_bytes b : bytes_of_string (string_of_bytes b) = b.
Proof. apply String.list_byte_of_string_of_list_byte. Qed.

#[export] Hint Rewrite string_of_bytes_of_string bytes_of_string_of_bytes : go_simp.
