(* ===== verification/Constants.v ===== *)
(** * The constants of package protocol

    One definition per constant of [pkg/protocol/constants.go], in its order:
    protocol version, message types, information-element types, interface
    values, apply-action flags, causes and reporting flags. *)
From S2P Require Import Prelude.


Definition Version1 : Z := 1.
Definition UDPPort : Z := 8805.

Definition MsgTypeHeartbeatRequest : Z := 1.
Definition MsgTypeHeartbeatResponse : Z := 2.
Definition MsgTypePFDManagementRequest : Z := 3.
Definition MsgTypePFDManagementResponse : Z := 4.
Definition MsgTypeAssociationSetupRequest : Z := 5.
Definition MsgTypeAssociationSetupResponse : Z := 6.
Definition MsgTypeAssociationUpdateRequest : Z := 7.
Definition MsgTypeAssociationUpdateResponse : Z := 8.
Definition MsgTypeAssociationReleaseRequest : Z := 9.
Definition MsgTypeAssociationReleaseResponse : Z := 10.
Definition MsgTypeVersionNotSupported : Z := 11.
Definition MsgTypeNodeReportRequest : Z := 12.
Definition MsgTypeNodeReportResponse : Z := 13.
Definition MsgTypeSessionSetDeletionRequest : Z := 14.
Definition MsgTypeSessionSetDeletionResponse : Z := 15.

Definition MsgTypeSessionEstablishmentRequest : Z := 50.
Definition MsgTypeSessionEstablishmentResponse : Z := 51.
Definition MsgTypeSessionModificationRequest : Z := 52.
Definition MsgTypeSessionModificationResponse : Z := 53.
Definition MsgTypeSessionDeletionRequest : Z := 54.
Definition MsgTypeSessionDeletionResponse : Z := 55.
Definition MsgTypeSessionReportRequest : Z := 56.
Definition MsgTypeSessionReportResponse : Z := 57.

Definition IETypeCause : Z := 19.
Definition IETypeSourceInterface : Z := 20.
Definition IETypeNetworkInstance : Z := 22.
Definition IETypeSDFFilter : Z := 23.
Definition IETypeApplicationID : Z := 24.
Definition IETypeGateStatus : Z := 25.
Definition IETypeMBR : Z := 26.
Definition IETypeGBR : Z := 27.
Definition IETypePrecedence : Z := 29.
Definition IETypeReportingTriggers : Z := 37.
Definition IETypeDestinationInterface : Z := 42.
Definition IETypeApplyAction : Z := 44.
Definition IETypeNodeID : Z := 60.
Definition IETypeMeasurementMethod : Z := 62.
Definition IETypeURR_ID : Z := 81.
Definition IETypeUE_IPAddress : Z := 93.
Definition IETypeOuterHeaderRemoval : Z := 95.
Definition IETypeRecoveryTimeStamp : Z := 96.
Definition IETypeFAR_ID : Z := 108.
Definition IETypeQER_ID : Z := 109.
Definition IETypePDI : Z := 2.
Definition IETypeForwardingParameters : Z := 4.
Definition IETypeCreatePDR : Z := 1.
Definition IETypeCreateFAR : Z := 3.
Definition IETypeCreateQER : Z := 7.
Definition IETypeCreateURR : Z := 6.
Definition IETypePDR_ID : Z := 56.
Definition IETypeFlowDescription : Z := 106.

Definition SourceInterfaceAccess : Z := 0.
Definition SourceInterfaceCore : Z := 1.
Definition SourceInterfaceSGiLAN : Z := 2.
Definition SourceInterfaceCPFunction : Z := 3.

Definition DestinationInterfaceAccess : Z := 0.
Definition DestinationInterfaceCore : Z := 1.
Definition DestinationInterfaceSGiLAN : Z := 2.
Definition DestinationInterfaceCPFunction : Z := 3.

Definition ApplyActionDrop : Z := 0x01.
Definition ApplyActionForward : Z := 0x02.
Definition ApplyActionBuffer : Z := 0x04.
Definition ApplyActionNotify : Z := 0x08.
Definition ApplyActionDuplicate : Z := 0x10.

Definition CauseRequestAccepted : Z := 1.
Definition CauseRequestRejected : Z := 64.
Definition CauseSessionContextNotFound : Z := 65.
Definition CauseMandatoryIEMissing : Z := 66.
Definition CauseConditionalIEMissing : Z := 67.
Definition CauseInvalidLength : Z := 68.
Definition CauseMandatoryIEIncorrect : Z := 69.
Definition CauseInvalidForwardingPolicy : Z := 70.
Definition CauseInvalidFTEID : Z := 71.
Definition CauseNoEstablishedPFCPAssociation : Z := 72.
Definition CauseRuleCreationModificationFailure : Z := 73.
Definition CausePFCPEntityInCongestion : Z := 74.
Definition CauseNoResourcesAvailable : Z := 75.
Definition CauseServiceNotSupported : Z := 76.
Definition CauseSystemFailure : Z := 77.

Definition MeasurementMethodDuration : Z := 0x01.
Definition MeasurementMethodVolume : Z := 0x02.
Definition MeasurementMethodEvent : Z := 0x04.

Definition ReportingTriggerPeriodicReporting : Z := 0x00000001.
Definition ReportingTriggerVolumeThreshold : Z := 0x00000002.
Definition ReportingTriggerTimeThreshold : Z := 0x00000004.
Definition ReportingTriggerQuotaHoldingTime : Z := 0x00000008.
Definition ReportingTriggerStartOfTraffic : Z := 0x00000010.
Definition ReportingTriggerStopOfTraffic : Z := 0x00000020.
Definition ReportingTriggerDroppedDLTrafficThreshold : Z := 0x00000040.
Definition ReportingTriggerLinkedUsageReporting : Z := 0x00000080.
Definition ReportingTriggerVolumeQuota : Z := 0x00000100.
Definition ReportingTriggerTimeQuota : Z := 0x00000200.
Definition ReportingTriggerEnvelopeClosure : Z := 0x00000400.
