(* ===== verification/Header.v ===== *)
(** * The PFCP message header

    [pkg/protocol/header.go]: the header's fields, its two wire forms (eight
    bytes, or sixteen with a SEID), and the way back.  [Unmarshal] updates
    the receiver: the fields a message does not carry keep their old values,
    also when it returns an error half way. *)
From S2P Require Import Prelude Bytes.

Record MessageHeader := mkMessageHeader {
  Version : Z;
  FollowOn : bool;
  MessagePriority : bool;
  SEIDPresent : bool;
  MessageType : Z;
  MessageLength : Z;
  SEID : Z;
  SequenceNumber : Z;
  Priority : Z;
}.

(** The zero value. *)
Definition MessageHeader_zero : MessageHeader :=
  mkMessageHeader 0 false false false 0 0 0 0 0.

(** The flags octet. *)
Definition header_flags (h : MessageHeader) : Z :=
  let flags := u8 (Z.shiftl (Version h) 5) in
  let flags := if FollowOn h then Z.lor flags 0x04 else flags in
  let flags := if MessagePriority h then Z.lor flags 0x02 else flags in
  if SEIDPresent h then Z.lor flags 0x01 else flags.

Definition priority_octet (h : MessageHeader) : byte :=
  if MessagePriority h then byte_of_Z (u8 (Z.shiftl (Priority h) 4)) else x00.

Definition MessageHeader_Marshal (h : MessageHeader) : res (list byte) :=
  let buf := if SEIDPresent h then go_make 16 else go_make 8 in
  let buf := <[0%nat := byte_of_Z (header_flags h)]> buf in
  let buf := <[1%nat := byte_of_Z (MessageType h)]> buf in
  let buf := list_inserts 2 (PutUint16 (MessageLength h)) buf in
  if SEIDPresent h then
    let buf := list_inserts 4 (PutUint64 (SEID h)) buf in
    let buf := <[12%nat := byte_of_Z (Z.shiftr (SequenceNumber h) 16)]> buf in
    let buf := <[13%nat := byte_of_Z (Z.shiftr (SequenceNumber h) 8)]> buf in
    let buf := <[14%nat := byte_of_Z (SequenceNumber h)]> buf in
    Ok (<[15%nat := priority_octet h]> buf)
  else
    let buf := <[4%nat := byte_of_Z (Z.shiftr (SequenceNumber h) 16)]> buf in
    let buf := <[5%nat := byte_of_Z (Z.shiftr (SequenceNumber h) 8)]> buf in
    let buf := <[6%nat := byte_of_Z (SequenceNumber h)]> buf in
    Ok (<[7%nat := priority_octet h]> buf).

(** [uint32(a)<<16 | uint32(b)<<8 | uint32(c)]. *)
Definition uint24 (a b c : byte) : Z :=
  Z.lor (Z.lor (Z.shiftl (Z_of_byte a) 16) (Z.shiftl (Z_of_byte b) 8)) (Z_of_byte c).

(** The assignments of [Unmarshal] to its receiver. *)
Definition set_flags (flags : Z) (h : MessageHeader) : MessageHeader :=
  mkMessageHeader (Z.land (Z.shiftr flags 5) 0x07) (negb (Z.land flags 0x04 =? 0))
    (negb (Z.land flags 0x02 =? 0)) (negb (Z.land flags 0x01 =? 0)) (MessageType h)
    (MessageLength h) (SEID h) (SequenceNumber h) (Priority h).
Definition set_MessageType (t : Z) (h : MessageHeader) : MessageHeader :=
  mkMessageHeader (Version h) (FollowOn h) (MessagePriority h) (SEIDPresent h) t
    (MessageLength h) (SEID h) (SequenceNumber h) (Priority h).
Definition set_MessageLength (n : Z) (h : MessageHeader) : MessageHeader :=
  mkMessageHeader (Version h) (FollowOn h) (MessagePriority h) (SEIDPresent h)
    (MessageType h) n (SEID h) (SequenceNumber h) (Priority h).
Definition set_SEID (seid : Z) (h : MessageHeader) : MessageHeader :=
  mkMessageHeader (Version h) (FollowOn h) (MessagePriority h) (SEIDPresent h)
    (MessageType h) (MessageLength h) seid (SequenceNumber h) (Priority h).
Definition set_SequenceNumber (seq : Z) (h : MessageHeader) : MessageHeader :=
  mkMessageHeader (Version h) (FollowOn h) (MessagePriority h) (SEIDPresent h)
    (MessageType h) (MessageLength h) (SEID h) seq (Priority h).
Definition set_Priority (p : Z) (h : MessageHeader) : MessageHeader :=
  mkMessageHeader (Version h) (FollowOn h) (MessagePriority h) (SEIDPresent h)
    (MessageType h) (MessageLength h) (SEID h) (SequenceNumber h) p.

(** The sequence number at [data[i:]] and the priority in the octet after
    it; both forms of the header end in these. *)
Definition unmarshal_tail (data : list byte) (i : Z) : go MessageHeader () :=
  b0 ← lift (go_index data i);
  b1 ← lift (go_index data (i + 1));
  b2 ← lift (go_index data (i + 2));
  _ ← gmodify (set_SequenceNumber (uint24 b0 b1 b2));
  h ← gget;
  if MessagePriority h then
    p ← lift (go_index data (i + 3));
    gmodify (set_Priority (Z.shiftr (Z_of_byte p) 4))
  else mret tt.

Definition MessageHeader_Unmarshal (data : list byte) : go MessageHeader () :=
  if len data <? 8 then throw (Errorf "header too short: %d bytes" [AInt (len data)])
  else
    flags ← lift (go_index data 0);
    _ ← gmodify (set_flags (Z_of_byte flags));
    t ← lift (go_index data 1);
    _ ← gmodify (set_MessageType (Z_of_byte t));
    n ← lift (go_slice data 2 4);
    _ ← gmodify (set_MessageLength (be_get n));
    h ← gget;
    if SEIDPresent h then
      if len data <? 16
      then throw (Errorf "header with SEID too short: %d bytes" [AInt (len data)])
      else
        seid ← lift (go_slice data 4 12);
        _ ← gmodify (set_SEID (be_get seid));
        unmarshal_tail data 12
    else unmarshal_tail data 4.

Definition MessageHeader_Len (h : MessageHeader) : Z :=
  if SEIDPresent h then 16 else 8.

(** The headers whose every field fits its place on the wire. *)
Record MessageHeader_ok (h : MessageHeader) : Prop := {
  ok_Version : in_width 3 (Version h);
  ok_MessageType : is_u8 (MessageType h);
  ok_MessageLength : is_u16 (MessageLength h);
  ok_SEID : is_u64 (SEID h);
  ok_SequenceNumber : in_width 24 (SequenceNumber h);
  ok_Priority : in_width 4 (Priority h);
}.

#[export] Instance MessageHeader_ok_dec h : Decision (MessageHeader_ok h).
Proof.
  refine (cast_if (decide (in_width 3 (Version h) ∧ is_u8 (MessageType h) ∧
    is_u16 (MessageLength h) ∧ is_u64 (SEID h) ∧ in_width 24 (SequenceNumber h) ∧
    in_width 4 (Priority h)))); [constructor; tauto|intros []; tauto].
Defined.

(** What the peer reads back from a header written over the receiver [h0]:
    each field at its width on the wire; a field that is not sent keeps the
    receiver's value. *)
Definition header_on_wire (h0 h : MessageHeader) : MessageHeader :=
  {| Version := Version h mod 2 ^ 3;
     FollowOn := FollowOn h;
     MessagePriority := MessagePriority h;
     SEIDPresent := SEIDPresent h;
     MessageType := u8 (MessageType h);
     MessageLength := u16 (MessageLength h);
     SEID := if SEIDPresent h then u64 (SEID h) else SEID h0;
     SequenceNumber := SequenceNumber h mod 2 ^ 24;
     Priority := if MessagePriority h then Priority h mod 2 ^ 4 else Priority h0 |}.

(** The bits the header form leaves spare are clear. *)
Definition header_spare_clear (data : list byte) : bool :=
  let flags := Z_of_byte (data !!! 0%nat) in
  let last := Z_of_byte (data !!! (if Z.land flags 0x01 =? 0 then 7%nat else 15%nat)) in
  (Z.land flags 0x18 =? 0) &&
  (if Z.land flags 0x02 =? 0 then last =? 0 else Z.land last 0x0f =? 0).

(** ** Bit-level lemmas *)

Lemma u8_shiftl5 v : u8 (Z.shiftl v 5) = v mod 2 ^ 3 * 32.
Proof.
  unfold u8. rewrite Z.shiftl_mul_pow2 by lia. change (2 ^ 8) with (2 ^ 3 * 2 ^ 5).
  rewrite Z.mul_mod_distr_r by lia. done.
Qed.

Lemma u8_shiftl4 v : u8 (Z.shiftl v 4) = v mod 2 ^ 4 * 16.
Proof.
  unfold u8. rewrite Z.shiftl_mul_pow2 by lia. change (2 ^ 8) with (2 ^ 4 * 2 ^ 4).
  rewrite Z.mul_mod_distr_r by lia. done.
Qed.

Lemma below_8 v : 0 ≤ v < 8 →
  v = 0 ∨ v = 1 ∨ v = 2 ∨ v = 3 ∨ v = 4 ∨ v = 5 ∨ v = 6 ∨ v = 7.
Proof. lia. Qed.

(** The flags octet decodes to the version modulo eight and the three flags. *)
Lemma header_flags_decode h :
  let f := Z_of_byte (byte_of_Z (header_flags h)) in
  Z.land (Z.shiftr f 5) 7 = Version h mod 2 ^ 3 ∧
  negb (Z.land f 4 =? 0) = FollowOn h ∧
  negb (Z.land f 2 =? 0) = MessagePriority h ∧
  negb (Z.land f 1 =? 0) = SEIDPresent h.
Proof.
  unfold header_flags. rewrite Z_of_byte_of_Z, u8_shiftl5.
  pose proof (Z.mod_pos_bound (Version h) (2 ^ 3) ltac:(lia)) as Hv.
  set (v := Version h mod 2 ^ 3) in *. clearbody v.
  destruct (FollowOn h), (MessagePriority h), (SEIDPresent h);
    destruct (below_8 v Hv) as [->|[->|[->|[->|[->|[->|[->| ->]]]]]]]; by vm_compute.
Qed.

Lemma priority_octet_decode h :
  MessagePriority h = true →
  Z.shiftr (Z_of_byte (priority_octet h)) 4 = Priority h mod 2 ^ 4.
Proof.
  intros Hm. unfold priority_octet. rewrite Hm, byte_of_u8, Z_of_byte_of_Z, u8_shiftl4.
  rewrite Z.shiftr_div_pow2, Z.div_mul by lia. done.
Qed.

Lemma uint24_be_get a b c : uint24 a b c = be_get [a; b; c].
Proof.
  unfold uint24, be_get. simpl. rewrite Z.shiftl_lor, Z.shiftl_shiftl by lia. done.
Qed.

Lemma uint24_put v :
  uint24 (byte_of_Z (Z.shiftr v 16)) (byte_of_Z (Z.shiftr v 8)) (byte_of_Z v)
  = v mod 2 ^ 24.
Proof.
  rewrite uint24_be_get. change (2 ^ 24) with (256 ^ Z.of_nat 3).
  rewrite <- (be_get_put 3 v). cbn [be_put]. by rewrite Z.shiftr_0_r.
Qed.

(** ** Reading within the bounds

    No index of [Unmarshal] is out of range: its two guards cover all of them,
    so it comes to the same as reading with total look-ups. *)
Definition header_take (data : list byte) (h : MessageHeader) : MessageHeader * res () :=
  if len data <? 8
  then (h, Err (Errorf "header too short: %d bytes" [AInt (len data)]))
  else
    let flags := Z_of_byte (data !!! 0%nat) in
    let h :=
      {| Version := Z.land (Z.shiftr flags 5) 0x07;
         FollowOn := negb (Z.land flags 0x04 =? 0);
         MessagePriority := negb (Z.land flags 0x02 =? 0);
         SEIDPresent := negb (Z.land flags 0x01 =? 0);
         MessageType := Z_of_byte (data !!! 1%nat);
         MessageLength := be_get (take 2 (drop 2 data));
         SEID := SEID h;
         SequenceNumber := SequenceNumber h;
         Priority := Priority h |} in
    let finish seid seq prio :=
      {| Version := Version h; FollowOn := FollowOn h;
         MessagePriority := MessagePriority h; SEIDPresent := SEIDPresent h;
         MessageType := MessageType h; MessageLength := MessageLength h;
         SEID := seid; SequenceNumber := seq;
         Priority := if MessagePriority h then Z.shiftr (Z_of_byte prio) 4
                     else Priority h |} in
    if SEIDPresent h then
      if len data <? 16
      then (h, Err (Errorf "header with SEID too short: %d bytes" [AInt (len data)]))
      else (finish (be_get (take 8 (drop 4 data)))
                   (uint24 (data !!! 12%nat) (data !!! 13%nat) (data !!! 14%nat))
                   (data !!! 15%nat), Ok tt)
    else (finish (SEID h)
                 (uint24 (data !!! 4%nat) (data !!! 5%nat) (data !!! 6%nat))
                 (data !!! 7%nat), Ok tt).

Lemma unmarshal_tail_eq data i h :
  0 ≤ i → i + 4 ≤ len data →
  unmarshal_tail data i h =
    (mkMessageHeader (Version h) (FollowOn h) (MessagePriority h) (SEIDPresent h)
       (MessageType h) (MessageLength h) (SEID h)
       (uint24 (data !!! Z.to_nat i) (data !!! Z.to_nat (i + 1)) (data !!! Z.to_nat (i + 2)))
       (if MessagePriority h then Z.shiftr (Z_of_byte (data !!! Z.to_nat (i + 3))) 4
        else Priority h), Ok tt).
Proof.
  intros H0 Hi. unfold unmarshal_tail. rewrite !go_index_Ok by lia. go_unfold.
  destruct h as [V F [] P T L S Q O]; done.
Qed.

Lemma MessageHeader_Unmarshal_eq data h :
  MessageHeader_Unmarshal data h = header_take data h.
Proof.
  unfold MessageHeader_Unmarshal, header_take.
  destruct (Z.ltb_spec (len data) 8); [done|].
  rewrite !go_index_Ok, !(go_slice_Ok _ 2) by lia. go_unfold.
  cbn [set_flags set_MessageType set_MessageLength SEIDPresent].
  change (Z.to_nat 0) with 0%nat. unfold set_flags.
  destruct (negb (Z.land (Z_of_byte (data !!! 0%nat)) 1 =? 0)).
  - destruct (Z.ltb_spec (len data) 16); [done|].
    rewrite go_slice_Ok by lia. by rewrite unmarshal_tail_eq by lia.
  - by rewrite unmarshal_tail_eq by lia.
Qed.

(** ** The wire forms *)

(** The bytes of a header, in order. *)
Lemma MessageHeader_Marshal_bytes h :
  MessageHeader_Marshal h = Ok
    (byte_of_Z (header_flags h) :: byte_of_Z (MessageType h) ::
     PutUint16 (MessageLength h) ++
     (if SEIDPresent h then PutUint64 (SEID h) else []) ++
     [byte_of_Z (Z.shiftr (SequenceNumber h) 16);
      byte_of_Z (Z.shiftr (SequenceNumber h) 8);
      byte_of_Z (SequenceNumber h); priority_octet h]).
Proof. unfold MessageHeader_Marshal. by destruct (SEIDPresent h). Qed.

Lemma MessageHeader_Marshal_length h bs :
  MessageHeader_Marshal h = Ok bs → len bs = MessageHeader_Len h.
Proof.
  rewrite MessageHeader_Marshal_bytes. intros [= <-]. unfold MessageHeader_Len.
  by destruct (SEIDPresent h).
Qed.

(** Reading back what was written, whatever follows it. *)
Lemma MessageHeader_Unmarshal_Marshal h h0 bs rest :
  MessageHeader_Marshal h = Ok bs →
  MessageHeader_Unmarshal (bs ++ rest) h0 = (header_on_wire h0 h, Ok tt).
Proof.
  intros Hb. pose proof (MessageHeader_Marshal_length _ _ Hb) as Hlen.
  unfold MessageHeader_Len in Hlen. pose proof (len_nonneg rest) as Hrest.
  destruct (header_flags_decode h) as (HV & HF & HM & HS).
  rewrite MessageHeader_Unmarshal_eq. unfold header_take, header_on_wire.
  rewrite len_app, Hlen.
  rewrite (proj2 (Z.ltb_ge _ _)) by (destruct (SEIDPresent h); lia).
  rewrite MessageHeader_Marshal_bytes in Hb. injection Hb as <-.
  cbn -[byte_of_Z header_flags Z.shiftr Z.land PutUint16 PutUint64 uint24 u16 u64].
  rewrite HV, HF, HM, HS. destruct (SEIDPresent h) eqn:Hs.
  - rewrite (proj2 (Z.ltb_ge _ _)) by lia.
    f_equal. f_equal.
    + apply Z_of_byte_of_Z.
    + apply Uint16_Put.
    + apply Uint64_Put.
    + apply uint24_put.
    + destruct (MessagePriority h) eqn:Hm; [|done]. by apply priority_octet_decode.
  - f_equal. f_equal.
    + apply Z_of_byte_of_Z.
    + apply Uint16_Put.
    + apply uint24_put.
    + destruct (MessagePriority h) eqn:Hm; [|done]. by apply priority_octet_decode.
Qed.

Lemma header_on_wire_ok h0 h :
  MessageHeader_ok h →
  header_on_wire h0 h =
    {| Version := Version h; FollowOn := FollowOn h;
       MessagePriority := MessagePriority h; SEIDPresent := SEIDPresent h;
       MessageType := MessageType h; MessageLength := MessageLength h;
       SEID := if SEIDPresent h then SEID h else SEID h0;
       SequenceNumber := SequenceNumber h;
       Priority := if MessagePriority h then Priority h else Priority h0 |}.
Proof.
  intros []. unfold header_on_wire. widths.
  by rewrite !Z.mod_small by done.
Qed.

(** Writing back what was read: the header's own bytes, when the spare bits
    are clear. *)
Lemma header_flags_encode b h :
  Z.land (Z_of_byte b) 0x18 = 0 →
  Version h = Z.land (Z.shiftr (Z_of_byte b) 5) 0x07 →
  FollowOn h = negb (Z.land (Z_of_byte b) 0x04 =? 0) →
  MessagePriority h = negb (Z.land (Z_of_byte b) 0x02 =? 0) →
  SEIDPresent h = negb (Z.land (Z_of_byte b) 0x01 =? 0) →
  byte_of_Z (header_flags h) = b.
Proof.
  unfold header_flags. intros Hs -> -> -> ->. revert Hs. by destruct b; vm_compute.
Qed.

Lemma priority_nibble_encode b :
  Z.land (Z_of_byte b) 0x0f = 0 →
  byte_of_Z (u8 (Z.shiftl (Z.shiftr (Z_of_byte b) 4) 4)) = b.
Proof. destruct b; vm_compute; done. Qed.

Lemma Z_of_byte_0 b : Z_of_byte b = 0 → b = x00.
Proof. intros H. by apply Z_of_byte_inj. Qed.

Lemma priority_octet_encode m b h :
  (if m : bool then Z_of_byte b =? 0 else Z.land (Z_of_byte b) 0x0f =? 0) = true →
  MessagePriority h = negb m →
  (m = false → Priority h = Z.shiftr (Z_of_byte b) 4) →
  priority_octet h = b.
Proof.
  unfold priority_octet. intros Hc -> Hp. destruct m; simpl in *.
  - symmetry. by apply Z_of_byte_0, Z.eqb_eq.
  - rewrite Hp by done. by apply priority_nibble_encode, Z.eqb_eq.
Qed.

Lemma uint24_bytes a b c :
  [byte_of_Z (Z.shiftr (uint24 a b c) 16); byte_of_Z (Z.shiftr (uint24 a b c) 8);
   byte_of_Z (uint24 a b c)] = [a; b; c].
Proof.
  rewrite uint24_be_get. rewrite <- (be_put_get [a; b; c] 3) at 4 by done.
  cbn [be_put]. by rewrite Z.shiftr_0_r.
Qed.

Lemma MessageHeader_Marshal_Unmarshal data h0 h :
  MessageHeader_Unmarshal data h0 = (h, Ok tt) →
  header_spare_clear data = true →
  MessageHeader_Marshal h = Ok (take (Z.to_nat (MessageHeader_Len h)) data).
Proof.
  rewrite MessageHeader_Unmarshal_eq. unfold header_take, header_spare_clear. intros Hu Hc.
  destruct (Z.ltb_spec (len data) 8) as [|H8]; [done|]. do 8 explode data H8.
  revert Hu Hc.
  cbn -[byte_of_Z header_flags Z.shiftr Z.land PutUint16 PutUint64 uint24 be_get len].
  rewrite andb_true_iff, Z.eqb_eq. intros Hu [Hs Hp].
  destruct (Z.land (Z_of_byte b) 1 =? 0) eqn:H1; cbn [negb] in Hu.
  - injection Hu as <-. rewrite MessageHeader_Marshal_bytes.
    cbn -[byte_of_Z header_flags Z.shiftr Z.land PutUint16 uint24 be_get].
    rewrite (header_flags_encode b) by (cbn -[Z.land]; by rewrite ?H1).
    rewrite (priority_octet_encode _ b6 _ Hp) by (cbn -[Z.land]; try intros ->; done).
    rewrite byte_of_Z_of_byte, be_put_get by done.
    by injection (uint24_bytes b3 b4 b5) as -> -> ->.
  - destruct (Z.ltb_spec (len (b :: b0 :: b1 :: b2 :: b3 :: b4 :: b5 :: b6 :: data)) 16)
      as [|H16]; [done|].
    do 8 (destruct data as [|? data]; [exfalso; unfold len in H16; simpl in H16; lia|]).
    injection Hu as <-. rewrite MessageHeader_Marshal_bytes.
    cbn -[byte_of_Z header_flags Z.shiftr Z.land PutUint16 PutUint64 uint24 be_get].
    rewrite (header_flags_encode b) by (cbn -[Z.land]; by rewrite ?H1).
    rewrite (priority_octet_encode _ b14 _ Hp) by (cbn -[Z.land]; try intros ->; done).
    rewrite byte_of_Z_of_byte, !be_put_get by done.
    by injection (uint24_bytes b11 b12 b13) as -> -> ->.
Qed.

(** What the receiver holds after a call, whatever the bytes and however the
    call ends, fits the wire again. *)
Lemma MessageHeader_Unmarshal_ok data h0 :
  MessageHeader_ok h0 → MessageHeader_ok (MessageHeader_Unmarshal data h0).1.
Proof.
  intros H0. rewrite MessageHeader_Unmarshal_eq. unfold header_take. case_match; [done|].
  assert (∀ b, in_width 3 (Z.land (Z.shiftr (Z_of_byte b) 5) 0x07)) as HV.
  { intros b. change 0x07 with (Z.ones 3). rewrite Z.land_ones by lia.
    by apply Z.mod_pos_bound. }
  assert (∀ b p, in_width 4 p → ∀ m : bool,
    in_width 4 (if m then Z.shiftr (Z_of_byte b) 4 else p)) as HP.
  { intros b p Hp []; [|done]. rewrite Z.shiftr_div_pow2 by lia.
    pose proof (Z_of_byte_range b). widths. split; [apply Z.div_pos; lia|].
    apply Z.div_lt_upper_bound; lia. }
  assert (∀ a b c, in_width 24 (uint24 a b c)) as HS.
  { intros. rewrite uint24_be_get. by apply be_get_width. }
  assert (is_u16 (be_get (take 2 (drop 2 data)))) as HL.
  { apply be_get_width. unfold len in *. rewrite length_take, length_drop. lia. }
  destruct H0. simpl. case_match; [case_match|]; simpl; constructor; simpl;
    auto with pfcp.
  apply be_get_width. unfold len in *. rewrite length_take, length_drop. lia.
Qed.

(** The header is accepted exactly when its form fits in the data; nothing
    panics. *)
Definition header_fits (data : list byte) : bool :=
  (8 <=? len data) &&
  ((Z.land (Z_of_byte (data !!! 0%nat)) 0x01 =? 0) || (16 <=? len data)).

Lemma MessageHeader_Unmarshal_result data h0 :
  if header_fits data
  then (MessageHeader_Unmarshal data h0).2 = Ok tt
  else ∃ e, (MessageHeader_Unmarshal data h0).2 = Err e.
Proof.
  rewrite MessageHeader_Unmarshal_eq. unfold header_take, header_fits. rewrite !Z.leb_antisym.
  destruct (len data <? 8); simpl; [eauto|].
  destruct (Z.land _ 1 =? 0); simpl; [done|].
  destruct (len data <? 16); simpl; eauto.
Qed.

Lemma MessageHeader_Len_bound h : 8 ≤ MessageHeader_Len h ≤ 16.
Proof. unfold MessageHeader_Len. destruct (SEIDPresent h); lia. Qed.

(** An accepted header lies within the data. *)
Lemma MessageHeader_Unmarshal_Len data h0 h :
  MessageHeader_Unmarshal data h0 = (h, Ok tt) → MessageHeader_Len h ≤ len data.
Proof.
  rewrite MessageHeader_Unmarshal_eq. unfold header_take, MessageHeader_Len.
  destruct (Z.ltb_spec (len data) 8); [done|]. simpl.
  destruct (negb (Z.land _ 1 =? 0)) eqn:E.
  - destruct (Z.ltb_spec (len data) 16); [done|]. intros [= <-]. done.
  - intros [= <-]. done.
Qed.

(** ** Properties *)

(** C18: what a header becomes on the wire and back: [Marshal] writes [Len]
    bytes, and reading them, whatever follows, gives every field modulo its
    width (three bits of version, 24 of sequence number, four of priority,
    16 of length) and leaves the receiver's SEID and priority alone when the
    header does not carry them. *)
Theorem MessageHeader_wire h h0 rest :
  ∃ bs, MessageHeader_Marshal h = Ok bs ∧ len bs = MessageHeader_Len h ∧
    MessageHeader_Unmarshal (bs ++ rest) h0 = (header_on_wire h0 h, Ok tt).
Proof.
  eexists. split; [apply MessageHeader_Marshal_bytes|]. split.
  - eapply MessageHeader_Marshal_length, MessageHeader_Marshal_bytes.
  - eapply MessageHeader_Unmarshal_Marshal, MessageHeader_Marshal_bytes.
Qed.

(** C33: an accepted header is the only one with its bytes: writing the header
    just read gives back the bytes it was read from, provided the bits the
    format leaves spare are clear. *)
Theorem MessageHeader_reencode data h0 h :
  MessageHeader_Unmarshal data h0 = (h, Ok tt) → header_spare_clear data = true →
  MessageHeader_Marshal h = Ok (take (Z.to_nat (MessageHeader_Len h)) data).
Proof. apply MessageHeader_Marshal_Unmarshal. Qed.

Lemma MessageHeader_reencode_witness :
  let data := byte_of_Z <$> [0x23; 0x32; 0; 7; 0; 0; 0; 0; 0; 0; 0; 5; 1; 2; 3; 0x90; 0xff] in
  let h := (MessageHeader_Unmarshal data MessageHeader_zero).1 in
  SEID h = 5 ∧ MessageHeader_Marshal h = Ok (take (Z.to_nat (MessageHeader_Len h)) data).
Proof.
  cbv zeta. split; [by vm_compute|].
  apply (MessageHeader_reencode _ MessageHeader_zero); by vm_compute.
Defined.
