(* ===== verification/Ie.v ===== *)
(** * Information elements

    [pkg/protocol/ie.go]: the type-length-value element, its wire form, the
    constructors of the elements this program sends, grouped elements, and
    the getters that read a value back.

    [IE_Unmarshal] follows the code's unsigned 16-bit arithmetic on the
    length, so the slice bounds it computes can wrap. *)
From S2P Require Import Prelude Bytes Constants.

Record IE := mkIE {
  Type_ : Z;
  EnterpriseID : Z;
  Value : list byte;
}.

#[export] Instance IE_eq_dec : EqDecision IE.
Proof. solve_decision. Defined.

(** [&IE{}]. *)
Definition IE_zero : IE := mkIE 0 0 [].

Definition IE_Marshal (ie : IE) : res (list byte) :=
  let hasEnterpriseID := 32768 <=? Type_ ie in
  let length := len (Value ie) in
  let length := if hasEnterpriseID then length + 2 else length in
  let buf := go_make (4 + length) in
  let buf := list_inserts 0 (PutUint16 (Type_ ie)) buf in
  let buf := list_inserts 2 (PutUint16 (u16 length)) buf in
  if hasEnterpriseID then
    let buf := list_inserts 4 (PutUint16 (EnterpriseID ie)) buf in
    Ok (go_copy buf 6 (Value ie))
  else
    Ok (go_copy buf 4 (Value ie)).

(** The assignments of [Unmarshal] to its receiver. *)
Definition set_Type (t : Z) (ie : IE) : IE := mkIE t (EnterpriseID ie) (Value ie).
Definition set_EnterpriseID (e : Z) (ie : IE) : IE := mkIE (Type_ ie) e (Value ie).
Definition set_Value (v : list byte) (ie : IE) : IE := mkIE (Type_ ie) (EnterpriseID ie) v.

(** [length] and the bounds computed from it are [uint16]s; [int(length)] is
    not. *)
Definition IE_Unmarshal (data : list byte) : go IE Z :=
  if len data <? 4 then throw (Errorf "IE too short: %d bytes" [AInt (len data)])
  else
    t ← lift (go_slice data 0 2);
    _ ← gmodify (set_Type (be_get t));
    l ← lift (go_slice data 2 4);
    let length := be_get l in
    if len data <? 4 + length
    then throw (Errorf "IE data truncated: need %d bytes, have %d"
                  [AInt (u16 (4 + length)); AInt (len data)])
    else
      ie ← gget;
      let hasEnterpriseID := 32768 <=? Type_ ie in
      _ ←
        (if hasEnterpriseID then
           if length <? 2 then throw (Errorf "IE with enterprise ID too short" [])
           else
             e ← lift (go_slice data 4 6);
             _ ← gmodify (set_EnterpriseID (be_get e));
             _ ← gmodify (set_Value (go_make (length - 2)));
             src ← lift (go_slice data 6 (u16 (u16 (6 + length) - 2)));
             gmodify (λ ie, set_Value (go_copy (Value ie) 0 src) ie)
         else
           _ ← gmodify (set_Value (go_make length));
           src ← lift (go_slice data 4 (u16 (4 + length)));
           gmodify (λ ie, set_Value (go_copy (Value ie) 0 src) ie));
      mret (4 + length).

(** ** Constructors *)

Definition NewCauseIE (cause : Z) : IE := mkIE IETypeCause 0 [byte_of_Z cause].

Definition NewNodeIDIE (nodeID : list byte) : IE :=
  let value := go_make (1 + len nodeID) in
  let value := <[0%nat := x00]> value in
  mkIE IETypeNodeID 0 (go_copy value 1 nodeID).

Definition NewRecoveryTimeStampIE (timestamp : Z) : IE :=
  mkIE IETypeRecoveryTimeStamp 0 (PutUint32 timestamp).

Definition NewSourceInterfaceIE (iface : Z) : IE :=
  mkIE IETypeSourceInterface 0 [byte_of_Z iface].

Definition NewDestinationInterfaceIE (iface : Z) : IE :=
  mkIE IETypeDestinationInterface 0 [byte_of_Z iface].

Definition NewApplyActionIE (action : Z) : IE :=
  mkIE IETypeApplyAction 0 [byte_of_Z action].

Definition NewPDR_ID_IE (id : Z) : IE := mkIE IETypePDR_ID 0 (PutUint16 id).
Definition NewFAR_ID_IE (id : Z) : IE := mkIE IETypeFAR_ID 0 (PutUint32 id).
Definition NewQER_ID_IE (id : Z) : IE := mkIE IETypeQER_ID 0 (PutUint32 id).
Definition NewURR_ID_IE (id : Z) : IE := mkIE IETypeURR_ID 0 (PutUint32 id).

Definition NewPrecedenceIE (precedence : Z) : IE :=
  mkIE IETypePrecedence 0 (PutUint32 precedence).

(** [net.IP] is a byte slice of length 4 or 16 (any other is invalid); [To4]
    and [To16] return a nil slice, here the empty list, when there is no such
    form. *)
Definition v4InV6Prefix : list byte :=
  replicate 10 x00 ++ [byte_of_Z 0xff; byte_of_Z 0xff].

Definition IP_To4 (ip : list byte) : option (list byte) :=
  if decide (length ip = 4%nat) then Some ip
  else if decide (length ip = 16%nat ∧ take 12 ip = v4InV6Prefix)
  then Some (drop 12 ip) else None.

Definition IP_To16 (ip : list byte) : option (list byte) :=
  if decide (length ip = 4%nat) then Some (v4InV6Prefix ++ ip)
  else if decide (length ip = 16%nat) then Some ip else None.

Definition NewUE_IPAddressIE (ip : list byte) (isV6 : bool) : IE :=
  let flags := 0 in
  if isV6 then
    let flags := Z.lor flags 0x01 in
    let value := <[0%nat := byte_of_Z flags]> (go_make (1 + 16)) in
    mkIE IETypeUE_IPAddress 0 (go_copy value 1 (default [] (IP_To16 ip)))
  else
    let flags := Z.lor flags 0x02 in
    let value := <[0%nat := byte_of_Z flags]> (go_make (1 + 4)) in
    mkIE IETypeUE_IPAddress 0 (go_copy value 1 (default [] (IP_To4 ip))).

Definition NewSDFFilterIE (flowDescription : string) : IE :=
  let flags := 0x01 in
  let fdBytes := bytes_of_string flowDescription in
  let value := go_make (2 + 2 + len fdBytes) in
  let value := <[0%nat := byte_of_Z flags]> value in
  let value := <[1%nat := x00]> value in
  let value := list_inserts 2 (PutUint16 (u16 (len fdBytes))) value in
  mkIE IETypeSDFFilter 0 (go_copy value 4 fdBytes).

Definition NewApplicationIDIE (appID : string) : IE :=
  mkIE IETypeApplicationID 0 (bytes_of_string appID).

(** ** Grouped elements *)

(** The concatenation of the children's wire forms: the loop that
    [NewGroupedIE] and [Message.Marshal] share. *)
Fixpoint IEs_Marshal (ies : list IE) : res (list byte) :=
  match ies with
  | [] => Ok []
  | ie :: ies' => b ← IE_Marshal ie; bs ← IEs_Marshal ies'; Ok (b ++ bs)
  end.

Definition NewGroupedIE (ieType : Z) (children : list IE) : res IE :=
  value ← IEs_Marshal children; Ok (mkIE ieType 0 value).

(** The loop [for offset < len(data)]: each round hands [data[offset:]] to
    [IE.Unmarshal] on a fresh element and appends it to [acc].  The elements
    read before an error are kept: [Message.Unmarshal] has stored them in its
    receiver by then.  The loop stops because a round consumes at least four
    bytes; [fuel] bounds the rounds by the data's length. *)
Fixpoint unmarshal_ies (fuel : nat) (data : list byte) (acc : list IE) : list IE * res () :=
  match data with
  | [] => (acc, Ok tt)
  | _ =>
    match fuel with
    | O => (acc, Hang)
    | S fuel =>
      match IE_Unmarshal data IE_zero with
      | (ie, Ok n) => unmarshal_ies fuel (drop (Z.to_nat n) data) (acc ++ [ie])
      | (_, Err e) => (acc, Err e)
      | (_, Panic p) => (acc, Panic p)
      | (_, Hang) => (acc, Hang)
      end
    end
  end.

Definition ParseGroupedIE (data : list byte) : res (list IE) :=
  match unmarshal_ies (length data) data [] with
  | (ies, Ok _) => Ok ies
  | (_, Err e) => Err e
  | (_, Panic p) => Panic p
  | (_, Hang) => Hang
  end.

(** ** Getters *)

Definition GetCause (ie : IE) : res Z :=
  if negb (Type_ ie =? IETypeCause) || (len (Value ie) <? 1)
  then Err (Errorf "invalid Cause IE" [])
  else b ← go_index (Value ie) 0; Ok (Z_of_byte b).

Definition GetPDR_ID (ie : IE) : res Z :=
  if negb (Type_ ie =? IETypePDR_ID) || (len (Value ie) <? 2)
  then Err (Errorf "invalid PDR_ID IE" [])
  else bs ← go_slice (Value ie) 0 2; Ok (be_get bs).

Definition GetFAR_ID (ie : IE) : res Z :=
  if negb (Type_ ie =? IETypeFAR_ID) || (len (Value ie) <? 4)
  then Err (Errorf "invalid FAR_ID IE" [])
  else bs ← go_slice (Value ie) 0 4; Ok (be_get bs).

(** ** Reading within the bounds

    The guards of [Unmarshal] cover every read but that of the value: it comes
    to the same as taking the other fields out with total functions. *)
Definition IE_take (data : list byte) (ie : IE) : IE * res Z :=
  if len data <? 4
  then (ie, Err (Errorf "IE too short: %d bytes" [AInt (len data)]))
  else
    let ie := mkIE (be_get (take 2 data)) (EnterpriseID ie) (Value ie) in
    let length := be_get (take 2 (drop 2 data)) in
    if len data <? 4 + length
    then (ie, Err (Errorf "IE data truncated: need %d bytes, have %d"
                     [AInt (u16 (4 + length)); AInt (len data)]))
    else
      let hasEnterpriseID := 32768 <=? Type_ ie in
      if hasEnterpriseID then
        if length <? 2
        then (ie, Err (Errorf "IE with enterprise ID too short" []))
        else
          let ie := mkIE (Type_ ie) (be_get (take 2 (drop 4 data))) (go_make (length - 2)) in
          match go_slice data 6 (u16 (u16 (6 + length) - 2)) with
          | Ok src => (mkIE (Type_ ie) (EnterpriseID ie) (go_copy (Value ie) 0 src),
                       Ok (4 + length))
          | Err e => (ie, Err e)
          | Panic p => (ie, Panic p)
          | Hang => (ie, Hang)
          end
      else
        let ie := mkIE (Type_ ie) (EnterpriseID ie) (go_make length) in
        match go_slice data 4 (u16 (4 + length)) with
        | Ok src => (mkIE (Type_ ie) (EnterpriseID ie) (go_copy (Value ie) 0 src),
                     Ok (4 + length))
        | Err e => (ie, Err e)
        | Panic p => (ie, Panic p)
        | Hang => (ie, Hang)
        end.

Lemma IE_Unmarshal_eq data ie : IE_Unmarshal data ie = IE_take data ie.
Proof.
  unfold IE_Unmarshal, IE_take. destruct (Z.ltb_spec (len data) 4); [done|].
  rewrite !(go_slice_Ok data 0), !(go_slice_Ok data 2) by lia. go_unfold.
  change (take (Z.to_nat (2 - 0)) (drop (Z.to_nat 0) data)) with (take 2 data).
  change (take (Z.to_nat (4 - 2)) (drop (Z.to_nat 2) data)) with (take 2 (drop 2 data)).
  cbv [set_Type set_EnterpriseID set_Value Type_ EnterpriseID Value].
  destruct (Z.ltb_spec (len data) (4 + be_get (take 2 (drop 2 data)))); [done|].
  destruct (32768 <=? be_get (take 2 data)).
  - destruct (Z.ltb_spec (be_get (take 2 (drop 2 data))) 2); [done|].
    rewrite (go_slice_Ok data 4 6) by lia.
    change (take (Z.to_nat (6 - 4)) (drop (Z.to_nat 4) data)) with (take 2 (drop 4 data)).
    by destruct (go_slice data 6 _).
  - by destruct (go_slice data 4 _).
Qed.

(** ** The wire form of one element *)

(** The value of the length field. *)
Definition IE_length (ie : IE) : Z :=
  if 32768 <=? Type_ ie then len (Value ie) + 2 else len (Value ie).

(** The elements that have a wire form of their own: fields at their widths,
    no enterprise id unless the type calls for one, and a length the reader's
    16-bit arithmetic can carry past the four bytes of type and length. *)
Record IE_ok (ie : IE) : Prop := {
  ok_Type : is_u16 (Type_ ie);
  ok_EnterpriseID : if 32768 <=? Type_ ie then is_u16 (EnterpriseID ie)
                    else EnterpriseID ie = 0;
  ok_Value : IE_length ie < 65532;
}.

#[export] Instance IE_ok_dec ie : Decision (IE_ok ie).
Proof.
  refine (cast_if (decide (is_u16 (Type_ ie) ∧
    (if 32768 <=? Type_ ie then is_u16 (EnterpriseID ie) else EnterpriseID ie = 0) ∧
    IE_length ie < 65532)));
    [constructor; tauto|intros []; tauto].
Defined.

Definition IE_bytes (ie : IE) : list byte :=
  PutUint16 (Type_ ie) ++ PutUint16 (IE_length ie) ++
  (if 32768 <=? Type_ ie then PutUint16 (EnterpriseID ie) else []) ++ Value ie.

Lemma IE_length_nonneg ie : 0 ≤ IE_length ie.
Proof. unfold IE_length. pose proof (len_nonneg (Value ie)). case_match; lia. Qed.

Lemma IE_bytes_len ie : len (IE_bytes ie) = 4 + IE_length ie.
Proof.
  unfold IE_bytes, IE_length. rewrite !len_app. case_match; unfold len; simpl; lia.
Qed.

(** The buffer the code fills is the concatenation of the fields. *)
Lemma IE_Marshal_bytes ie : IE_Marshal ie = Ok (IE_bytes ie).
Proof.
  unfold IE_Marshal, IE_bytes, IE_length, go_make.
  rewrite PutUint16_u16. case_match.
  - replace (Z.to_nat _) with (6 + length (Value ie))%nat by (unfold len; lia).
    f_equal. by apply (go_copy_full
      (PutUint16 (Type_ ie) ++ PutUint16 (len (Value ie) + 2) ++
       PutUint16 (EnterpriseID ie))).
  - replace (Z.to_nat _) with (4 + length (Value ie))%nat by (unfold len; lia).
    f_equal. by apply (go_copy_full
      (PutUint16 (Type_ ie) ++ PutUint16 (len (Value ie)))).
Qed.

(** Filling a fresh slice of the right size. *)
Lemma go_copy_make src n : n = len src → go_copy (go_make n) 0 src = src.
Proof.
  intros ->. unfold go_make, len. rewrite Nat2Z.id. by apply (go_copy_full [] src 0).
Qed.

Lemma len_take_exact {A} n (l : list A) : 0 ≤ n ≤ len l → len (take (Z.to_nat n) l) = n.
Proof. unfold len. intros. rewrite length_take. lia. Qed.

Lemma be_put_2 a b : PutUint16 (be_get [a; b]) = [a; b].
Proof. by apply be_put_get. Qed.

(** The end of the value, as the code computes it, is [4 + length] modulo
    2^16 for both forms ... *)
Lemma value_end_enterprise l : u16 (u16 (6 + l) - 2) = u16 (4 + l).
Proof. widths. rewrite Zminus_mod_idemp_l. f_equal. lia. Qed.

(** ... so the slice is the value, unless the length is within four of 2^16:
    then the end wraps below the start. *)
Lemma go_slice_value pre data k l :
  k = len pre → is_u16 l → 4 ≤ k ≤ 4 + l → 4 + l ≤ k + len data →
  go_slice (pre ++ data) k (u16 (4 + l)) =
    if l <? 65532 then Ok (take (Z.to_nat (4 + l - k)) data)
    else Panic SliceBoundsOutOfRange.
Proof.
  widths. intros -> Hl Hp Hd. destruct (Z.ltb_spec l 65532).
  - rewrite Z.mod_small by lia. rewrite go_slice_Ok by (rewrite ?len_app; lia).
    do 2 f_equal. unfold len. by rewrite Nat2Z.id, drop_app_length.
  - apply go_slice_panic. left.
    replace (4 + l) with (l + 4 - 65536 + 1 * 2 ^ 16) by lia.
    rewrite Z.mod_add, Z.mod_small by lia. lia.
Qed.

(** Reading an element: what each branch of [IE_Unmarshal] comes to, on data
    taken apart at its type, its length and the enterprise id. *)
Lemma IE_Unmarshal_plain t0 t1 l0 l1 data ie0 :
  let t := be_get [t0; t1] in let l := be_get [l0; l1] in
  t < 32768 → l ≤ len data →
  IE_Unmarshal (t0 :: t1 :: l0 :: l1 :: data) ie0 =
    if l <? 65532
    then (mkIE t (EnterpriseID ie0) (take (Z.to_nat l) data), Ok (4 + l))
    else (mkIE t (EnterpriseID ie0) (go_make l), Panic SliceBoundsOutOfRange).
Proof.
  cbv zeta. intros Ht Hd. rewrite IE_Unmarshal_eq; unfold IE_take.
  change (t0 :: t1 :: l0 :: l1 :: data) with ([t0; t1; l0; l1] ++ data).
  rewrite !len_app. change (len [t0; t1; l0; l1]) with 4. pose proof (len_nonneg data).
  rewrite (ltb_false _ 4) by lia. cbn [take drop app Type_ EnterpriseID].
  rewrite !take_0, ?drop_0.
  rewrite (ltb_false (4 + _)), (leb_false 32768) by lia.
  pose proof (Uint16_range l0 l1) as Hl. pose proof Hl as [Hl0 _].
  change (t0 :: t1 :: l0 :: l1 :: data) with ([t0; t1; l0; l1] ++ data).
  rewrite (go_slice_value [t0; t1; l0; l1] data 4 (be_get [l0; l1])) by first [done|lia].
  destruct (be_get [l0; l1] <? 65532); [|done].
  replace (4 + be_get [l0; l1] - 4) with (be_get [l0; l1]) by lia.
  cbn [Value]. by rewrite go_copy_make by (rewrite len_take_exact; lia).
Qed.

Lemma IE_Unmarshal_enterprise t0 t1 l0 l1 e0 e1 data ie0 :
  let t := be_get [t0; t1] in let l := be_get [l0; l1] in let e := be_get [e0; e1] in
  32768 ≤ t → 2 ≤ l ≤ 2 + len data →
  IE_Unmarshal (t0 :: t1 :: l0 :: l1 :: e0 :: e1 :: data) ie0 =
    if l <? 65532
    then (mkIE t e (take (Z.to_nat (l - 2)) data), Ok (4 + l))
    else (mkIE t e (go_make (l - 2)), Panic SliceBoundsOutOfRange).
Proof.
  cbv zeta. intros Ht Hd. rewrite IE_Unmarshal_eq; unfold IE_take. rewrite value_end_enterprise.
  change (t0 :: t1 :: l0 :: l1 :: e0 :: e1 :: data)
    with ([t0; t1; l0; l1; e0; e1] ++ data).
  rewrite !len_app. change (len [t0; t1; l0; l1; e0; e1]) with 6.
  pose proof (len_nonneg data).
  rewrite (ltb_false _ 4) by lia. cbn [take drop app Type_ EnterpriseID].
  rewrite !take_0, ?drop_0.
  rewrite (ltb_false (6 + _)), (leb_true 32768), (ltb_false _ 2) by lia.
  pose proof (Uint16_range l0 l1) as Hl. pose proof Hl as [Hl0 _].
  change (t0 :: t1 :: l0 :: l1 :: e0 :: e1 :: data)
    with ([t0; t1; l0; l1; e0; e1] ++ data).
  rewrite (go_slice_value [t0; t1; l0; l1; e0; e1] data 6 (be_get [l0; l1]))
    by first [done|lia].
  destruct (be_get [l0; l1] <? 65532); [|done].
  replace (4 + be_get [l0; l1] - 6) with (be_get [l0; l1] - 2) by lia.
  cbn [Value]. by rewrite go_copy_make by (rewrite len_take_exact; lia).
Qed.

(** The outcome of a read is one of these. *)
Inductive IE_outcome (data : list byte) : res Z → Prop :=
  | IE_too_short e : len data < 4 → IE_outcome data (Err e)
  | IE_truncated t0 t1 l0 l1 rest e :
      data = t0 :: t1 :: l0 :: l1 :: rest → len rest < be_get [l0; l1] →
      IE_outcome data (Err e)
  | IE_enterprise_short t0 t1 l0 l1 rest e :
      data = t0 :: t1 :: l0 :: l1 :: rest → 32768 ≤ be_get [t0; t1] →
      be_get [l0; l1] < 2 → IE_outcome data (Err e)
  | IE_wraps t0 t1 l0 l1 rest :
      data = t0 :: t1 :: l0 :: l1 :: rest → 65532 ≤ be_get [l0; l1] ≤ len rest →
      IE_outcome data (Panic SliceBoundsOutOfRange)
  | IE_read t0 t1 l0 l1 rest :
      data = t0 :: t1 :: l0 :: l1 :: rest →
      be_get [l0; l1] < 65532 → be_get [l0; l1] ≤ len rest →
      (32768 ≤ be_get [t0; t1] → 2 ≤ be_get [l0; l1]) →
      IE_outcome data (Ok (4 + be_get [l0; l1])).

Lemma IE_Unmarshal_outcome data ie0 : IE_outcome data (IE_Unmarshal data ie0).2.
Proof.
  destruct (Z.ltb_spec (len data) 4) as [H4|H4].
  { rewrite IE_Unmarshal_eq; unfold IE_take. rewrite ltb_true by done. by constructor. }
  do 4 explode data H4. rename b into t0, b0 into t1, b1 into l0, b2 into l1. clear H4.
  assert (len (t0 :: t1 :: l0 :: l1 :: data) = 4 + len data) as Hlen
    by (unfold len; simpl; lia). pose proof (len_nonneg data).
  destruct (Z.ltb_spec (len data) (be_get [l0; l1])) as [Hd|Hd].
  { rewrite IE_Unmarshal_eq; unfold IE_take. rewrite Hlen. rewrite (ltb_false _ 4) by lia.
    cbn [take drop]. rewrite !take_0. rewrite (ltb_true (4 + _)) by lia. by eapply IE_truncated. }
  destruct (Z.leb_spec 32768 (be_get [t0; t1])) as [Ht|Ht].
  - destruct (Z.ltb_spec (be_get [l0; l1]) 2) as [H2|H2].
    { rewrite IE_Unmarshal_eq; unfold IE_take. rewrite Hlen. rewrite (ltb_false _ 4) by lia.
      cbn [take drop Type_]. rewrite !take_0. rewrite (ltb_false (4 + _)) by lia.
      rewrite (leb_true 32768), (ltb_true _ 2) by lia.
      by eapply IE_enterprise_short. }
    assert (2 ≤ len data) as H2' by lia. do 2 explode data H2'.
    assert (len (b :: b0 :: data) = 2 + len data) as Hl2 by (unfold len; simpl; lia).
    rewrite IE_Unmarshal_enterprise by lia.
    case_match eqn:E; simpl; [eapply IE_read|eapply IE_wraps]; try done; lia.
  - rewrite IE_Unmarshal_plain by lia.
    case_match eqn:E; simpl; [eapply IE_read|eapply IE_wraps]; try done; lia.
Qed.

(** A read consumes the element's wire form from the front of the data ... *)
Lemma IE_Unmarshal_sound data ie0 ie n :
  IE_Unmarshal data ie0 = (ie, Ok n) →
  ∃ rest, data = IE_bytes ie ++ rest ∧ n = len (IE_bytes ie) ∧
    is_u16 (Type_ ie) ∧ IE_length ie < 65532 ∧
    (if 32768 <=? Type_ ie then is_u16 (EnterpriseID ie)
     else EnterpriseID ie = EnterpriseID ie0).
Proof.
  intros Hu. pose proof (IE_Unmarshal_outcome data ie0) as Ho. rewrite Hu in Ho.
  inversion Ho as [| | | |t0 t1 l0 l1 rest -> Hl Hd He Hn]; subst n; clear Ho.
  pose proof (Uint16_range t0 t1). pose proof (Uint16_range l0 l1).
  rewrite IE_bytes_len. unfold IE_bytes, IE_length.
  destruct (Z.leb_spec 32768 (be_get [t0; t1])) as [Ht|Ht].
  - assert (2 ≤ len rest) as H2 by lia. do 2 explode rest H2.
    rename b into e0, b0 into e1. clear H2.
    change (e0 :: e1 :: rest) with ([e0; e1] ++ rest) in Hd.
    rewrite len_app in Hd. change (len [e0; e1]) with 2 in Hd.
    rewrite IE_Unmarshal_enterprise, (ltb_true _ 65532) in Hu by lia. injection Hu as <-.
    exists (drop (Z.to_nat (be_get [l0; l1] - 2)) rest). cbn [Type_ EnterpriseID Value].
    rewrite leb_true, len_take_exact by lia.
    replace (be_get [l0; l1] - 2 + 2) with (be_get [l0; l1]) by lia.
    rewrite !be_put_2, <- !app_assoc, take_drop. split_and!; auto with pfcp lia.
  - rewrite IE_Unmarshal_plain, (ltb_true _ 65532) in Hu by lia. injection Hu as <-.
    exists (drop (Z.to_nat (be_get [l0; l1])) rest). cbn [Type_ EnterpriseID Value].
    rewrite leb_false, len_take_exact by (widths; lia).
    rewrite !be_put_2, <- !app_assoc, app_nil_l, take_drop. split_and!; auto with pfcp lia.
Qed.

Lemma PutUint16_cons v : ∃ a b, PutUint16 v = [a; b] ∧ be_get [a; b] = u16 v.
Proof. eexists _, _. split; [done|]. apply Uint16_Put. Qed.

(** ... and every wire form of an element that has one is read back, whatever
    follows it. *)
Lemma IE_Unmarshal_complete ie ie0 rest :
  is_u16 (Type_ ie) → IE_length ie < 65532 →
  (if 32768 <=? Type_ ie then is_u16 (EnterpriseID ie)
   else EnterpriseID ie = EnterpriseID ie0) →
  IE_Unmarshal (IE_bytes ie ++ rest) ie0 = (ie, Ok (len (IE_bytes ie))).
Proof.
  intros Ht Hl He. pose proof (IE_length_nonneg ie) as Hl0.
  assert (is_u16 (IE_length ie)) as Hl16 by (widths; lia).
  rewrite IE_bytes_len. unfold IE_bytes.
  destruct (PutUint16_cons (Type_ ie)) as (t0 & t1 & -> & Et).
  destruct (PutUint16_cons (IE_length ie)) as (l0 & l1 & -> & El).
  rewrite u16_id in Et, El by done. pose proof (len_nonneg rest).
  destruct ie as [t e v]. unfold IE_length in *. cbn [Type_ EnterpriseID Value] in *.
  pose proof (len_nonneg v). destruct (Z.leb_spec 32768 t) as [H3|H3].
  - destruct (PutUint16_cons e) as (e0 & e1 & -> & Ee). rewrite u16_id in Ee by done.
    cbn [app]. rewrite IE_Unmarshal_enterprise by (rewrite ?len_app; lia).
    rewrite ltb_true, Et, El, Ee by lia.
    replace (Z.to_nat _) with (length v) by (unfold len; lia).
    by rewrite take_app_length.
  - cbn [app]. rewrite IE_Unmarshal_plain by (rewrite ?len_app; lia).
    rewrite ltb_true, Et, El by lia.
    replace (Z.to_nat _) with (length v) by (unfold len; lia).
    by rewrite take_app_length, He.
Qed.

Lemma IE_ok_zero ie : IE_ok ie ↔
  is_u16 (Type_ ie) ∧ IE_length ie < 65532 ∧
  (if 32768 <=? Type_ ie then is_u16 (EnterpriseID ie)
   else EnterpriseID ie = EnterpriseID IE_zero).
Proof. split; [intros []; done|intros (?&?&?); by constructor]. Qed.

(** On a fresh receiver: reading and writing are inverse to each other. *)
Lemma IE_Unmarshal_iff data ie n :
  IE_Unmarshal data IE_zero = (ie, Ok n) ↔
  IE_ok ie ∧ n = len (IE_bytes ie) ∧ ∃ rest, data = IE_bytes ie ++ rest.
Proof.
  rewrite IE_ok_zero. split.
  - intros (rest & -> & -> & ? & ? & ?)%IE_Unmarshal_sound. eauto 10.
  - intros ((? & ? & ?) & -> & rest & ->). by apply IE_Unmarshal_complete.
Qed.

(** ** Grouped elements *)

Definition IEs_bytes (ies : list IE) : list byte := concat (IE_bytes <$> ies).

Lemma IEs_Marshal_bytes ies : IEs_Marshal ies = Ok (IEs_bytes ies).
Proof.
  induction ies as [|ie ies IH]; [done|]. simpl. by rewrite IE_Marshal_bytes, IH.
Qed.

Lemma NewGroupedIE_bytes t ies : NewGroupedIE t ies = Ok (mkIE t 0 (IEs_bytes ies)).
Proof. unfold NewGroupedIE. by rewrite IEs_Marshal_bytes. Qed.

Lemma IEs_bytes_app ies1 ies2 : IEs_bytes (ies1 ++ ies2) = IEs_bytes ies1 ++ IEs_bytes ies2.
Proof. unfold IEs_bytes. by rewrite fmap_app, concat_app. Qed.

Lemma IE_bytes_nonempty ie : (4 ≤ length (IE_bytes ie))%nat.
Proof.
  pose proof (IE_bytes_len ie). pose proof (IE_length_nonneg ie). unfold len in *. lia.
Qed.

(** The loop never runs out of rounds, and reads exactly the sequences of
    elements that have wire forms. *)
Lemma unmarshal_ies_complete ies fuel acc :
  Forall IE_ok ies → (length (IEs_bytes ies) ≤ fuel)%nat →
  unmarshal_ies fuel (IEs_bytes ies) acc = (acc ++ ies, Ok tt).
Proof.
  intros Hok. revert fuel acc. induction Hok as [|ie ies Hie Hok IH]; intros fuel acc Hf.
  - unfold IEs_bytes. simpl. rewrite app_nil_r. by destruct fuel.
  - pose proof (IE_bytes_nonempty ie) as H4.
    change (IEs_bytes (ie :: ies)) with (IE_bytes ie ++ IEs_bytes ies) in *.
    rewrite length_app in Hf.
    destruct fuel as [|fuel]; [lia|]. cbn [unmarshal_ies].
    rewrite (proj2 (IE_Unmarshal_iff _ ie (len (IE_bytes ie)))) by eauto.
    destruct (IE_bytes ie) as [|b bs] eqn:E; [done|]. cbn [app]. rewrite <- E in *.
    rewrite app_comm_cons, <- E. unfold len. rewrite Nat2Z.id, drop_app_length.
    rewrite IH by lia. by rewrite <- app_assoc.
Qed.

(** One round of the loop. *)
Lemma unmarshal_ies_step fuel data acc :
  data ≠ [] →
  unmarshal_ies (S fuel) data acc =
    match IE_Unmarshal data IE_zero with
    | (ie, Ok n) => unmarshal_ies fuel (drop (Z.to_nat n) data) (acc ++ [ie])
    | (_, Err e) => (acc, Err e)
    | (_, Panic p) => (acc, Panic p)
    | (_, Hang) => (acc, Hang)
    end.
Proof. by destruct data. Qed.

(** A round that reads leaves a strictly shorter rest. *)
Lemma unmarshal_round data ie n :
  IE_Unmarshal data IE_zero = (ie, Ok n) →
  ∃ rest, IE_ok ie ∧ data = IE_bytes ie ++ rest ∧ drop (Z.to_nat n) data = rest ∧
    (4 + length rest ≤ length data)%nat.
Proof.
  intros (Hok & -> & rest & ->)%IE_Unmarshal_iff. exists rest.
  pose proof (IE_bytes_nonempty ie). unfold len.
  rewrite Nat2Z.id, drop_app_length, length_app. split_and!; [done..|lia].
Qed.

Lemma unmarshal_ies_sound fuel data acc ies :
  unmarshal_ies fuel data acc = (ies, Ok tt) →
  ∃ new, ies = acc ++ new ∧ Forall IE_ok new ∧ data = IEs_bytes new.
Proof.
  revert data acc. induction fuel as [|fuel IH]; intros data acc;
    destruct (decide (data = [])) as [->|Hd].
  1,3: simpl; intros [= <-]; exists []; rewrite app_nil_r; done.
  - by destruct data.
  - rewrite unmarshal_ies_step by done.
    destruct (IE_Unmarshal data IE_zero) as [ie [n|e|p|]] eqn:Hu; try done.
    destruct (unmarshal_round _ _ _ Hu) as (rest & Hok & -> & -> & _).
    intros (new & -> & Hnew & ->)%IH. exists (ie :: new).
    rewrite <- app_assoc. split_and!; [done|by constructor|done].
Qed.

(** More fuel than bytes is never used up. *)
Lemma unmarshal_ies_no_hang fuel data acc :
  (length data ≤ fuel)%nat → (unmarshal_ies fuel data acc).2 ≠ Hang.
Proof.
  revert data acc. induction fuel as [|fuel IH]; intros data acc Hf;
    destruct (decide (data = [])) as [->|Hd].
  1,3: done.
  - destruct data; [done|simpl in *; lia].
  - rewrite unmarshal_ies_step by done.
    pose proof (IE_Unmarshal_outcome data IE_zero) as Ho.
    destruct (IE_Unmarshal data IE_zero) as [ie [n|e|p|]] eqn:Hu; simpl in *; try done.
    + destruct (unmarshal_round _ _ _ Hu) as (rest & _ & _ & -> & Hr). apply IH. lia.
    + inversion Ho.
Qed.

(** Data shorter than 2^16 cannot reach the wrapped bound. *)
Lemma IE_Unmarshal_no_panic data ie0 :
  len data < 65536 → returned (IE_Unmarshal data ie0).2.
Proof.
  intros Hd. destruct (IE_Unmarshal_outcome data ie0); try done. subst.
  unfold len in *. simpl in Hd. lia.
Qed.

Lemma unmarshal_ies_no_panic fuel data acc :
  len data < 65536 → (length data ≤ fuel)%nat → returned (unmarshal_ies fuel data acc).2.
Proof.
  revert data acc. induction fuel as [|fuel IH]; intros data acc Hl Hf;
    destruct (decide (data = [])) as [->|Hd].
  1,3: done.
  - destruct data; [done|simpl in *; lia].
  - rewrite unmarshal_ies_step by done.
    pose proof (IE_Unmarshal_no_panic data IE_zero Hl) as Ho.
    destruct (IE_Unmarshal data IE_zero) as [ie [n|e|p|]] eqn:Hu; simpl in *; try done.
    destruct (unmarshal_round _ _ _ Hu) as (rest & _ & _ & -> & Hr).
    apply IH; unfold len in *; lia.
Qed.

(** [acc] only gets longer, also when the loop stops at an error. *)
Lemma unmarshal_ies_ok fuel data acc :
  Forall IE_ok acc → Forall IE_ok (unmarshal_ies fuel data acc).1.
Proof.
  revert data acc. induction fuel as [|fuel IH]; intros data acc Ha; destruct (decide (data = [])) as [->|Hd].
  1,3: done.
  - by destruct data.
  - rewrite unmarshal_ies_step by done.
    destruct (IE_Unmarshal data IE_zero) as [ie [n|e|p|]] eqn:Hu; simpl in *; try done.
    destruct (unmarshal_round _ _ _ Hu) as (rest & Hok & _).
    apply IH, Forall_app; auto.
Qed.

Lemma ParseGroupedIE_bytes ies : Forall IE_ok ies → ParseGroupedIE (IEs_bytes ies) = Ok ies.
Proof.
  intros. unfold ParseGroupedIE. by rewrite unmarshal_ies_complete.
Qed.

(** ** The constructors' elements *)

Lemma IE_ok_simple t v : 0 ≤ t < 32768 → len v < 65532 → IE_ok (mkIE t 0 v).
Proof.
  intros Ht Hv. constructor; simpl; [widths; lia|by rewrite leb_false by lia|].
  unfold IE_length. simpl. by rewrite leb_false by lia.
Qed.

Lemma NewNodeIDIE_value nodeID : NewNodeIDIE nodeID = mkIE IETypeNodeID 0 (x00 :: nodeID).
Proof.
  unfold NewNodeIDIE, go_make. f_equal.
  replace (Z.to_nat _) with (S (length nodeID)) by (unfold len; lia).
  by apply (go_copy_full [x00]).
Qed.

Lemma NewSDFFilterIE_value fd :
  NewSDFFilterIE fd = mkIE IETypeSDFFilter 0
    (byte_of_Z 1 :: x00 :: PutUint16 (len (bytes_of_string fd)) ++ bytes_of_string fd).
Proof.
  unfold NewSDFFilterIE, go_make. f_equal. rewrite PutUint16_u16.
  replace (Z.to_nat _) with (4 + length (bytes_of_string fd))%nat by (unfold len; lia).
  by apply (go_copy_full ([byte_of_Z 1; x00] ++ PutUint16 (len (bytes_of_string fd)))).
Qed.

Lemma NewUE_IPAddressIE_len ip v6 :
  len (Value (NewUE_IPAddressIE ip v6)) = if v6 then 17 else 5.
Proof.
  destruct v6; unfold len; simpl; unfold go_copy; by rewrite length_inserts.
Qed.

(** Every constructed element is well formed; the variable-length ones when
    their text leaves room in the 16-bit length. *)
Lemma NewGroupedIE_ok t ies ie :
  0 ≤ t < 32768 → len (IEs_bytes ies) < 65532 → NewGroupedIE t ies = Ok ie → IE_ok ie.
Proof. rewrite NewGroupedIE_bytes. intros Ht Hl [= <-]. by apply IE_ok_simple. Qed.

Lemma NewNodeIDIE_ok nodeID : len nodeID < 65531 → IE_ok (NewNodeIDIE nodeID).
Proof.
  intros H. rewrite NewNodeIDIE_value. apply IE_ok_simple; [done|].
  unfold len in *. simpl. lia.
Qed.

Lemma NewSDFFilterIE_ok fd : len (bytes_of_string fd) < 65528 → IE_ok (NewSDFFilterIE fd).
Proof.
  intros H. rewrite NewSDFFilterIE_value. apply IE_ok_simple; [done|].
  unfold len in *. simpl. lia.
Qed.

Lemma NewUE_IPAddressIE_ok ip v6 : IE_ok (NewUE_IPAddressIE ip v6).
Proof.
  pose proof (NewUE_IPAddressIE_len ip v6). unfold NewUE_IPAddressIE in *.
  destruct v6; apply IE_ok_simple; try done; simpl in *; lia.
Qed.

(** The others have a value of at most four bytes. *)
Ltac small_ie := apply IE_ok_simple; done.

Lemma NewCauseIE_ok c : IE_ok (NewCauseIE c). Proof. small_ie. Qed.
Lemma NewRecoveryTimeStampIE_ok t : IE_ok (NewRecoveryTimeStampIE t). Proof. small_ie. Qed.
Lemma NewSourceInterfaceIE_ok i : IE_ok (NewSourceInterfaceIE i). Proof. small_ie. Qed.
Lemma NewDestinationInterfaceIE_ok i : IE_ok (NewDestinationInterfaceIE i).
Proof. small_ie. Qed.
Lemma NewApplyActionIE_ok a : IE_ok (NewApplyActionIE a). Proof. small_ie. Qed.
Lemma NewPDR_ID_IE_ok i : IE_ok (NewPDR_ID_IE i). Proof. small_ie. Qed.
Lemma NewFAR_ID_IE_ok i : IE_ok (NewFAR_ID_IE i). Proof. small_ie. Qed.
Lemma NewQER_ID_IE_ok i : IE_ok (NewQER_ID_IE i). Proof. small_ie. Qed.
Lemma NewURR_ID_IE_ok i : IE_ok (NewURR_ID_IE i). Proof. small_ie. Qed.
Lemma NewPrecedenceIE_ok p : IE_ok (NewPrecedenceIE p). Proof. small_ie. Qed.
Lemma NewApplicationIDIE_ok a :
  len (bytes_of_string a) < 65532 → IE_ok (NewApplicationIDIE a).
Proof. intros. by apply IE_ok_simple. Qed.

#[export] Hint Resolve NewCauseIE_ok NewRecoveryTimeStampIE_ok NewSourceInterfaceIE_ok
  NewDestinationInterfaceIE_ok NewApplyActionIE_ok NewPDR_ID_IE_ok NewFAR_ID_IE_ok
  NewQER_ID_IE_ok NewURR_ID_IE_ok NewPrecedenceIE_ok NewUE_IPAddressIE_ok
  NewNodeIDIE_ok NewSDFFilterIE_ok NewApplicationIDIE_ok : pfcp.

(** The guards of the getters cover what they read. *)
Lemma GetPDR_ID_spec ie :
  GetPDR_ID ie = if bool_decide (Type_ ie = IETypePDR_ID) && (2 <=? len (Value ie))
                 then Ok (be_get (take 2 (Value ie))) else Err (Errorf "invalid PDR_ID IE" []).
Proof.
  unfold GetPDR_ID. rewrite Z.leb_antisym. destruct (Z.eqb_spec (Type_ ie) IETypePDR_ID) as [E|E].
  - rewrite bool_decide_true by done. simpl. destruct (Z.ltb_spec (len (Value ie)) 2); [done|].
    by rewrite go_slice_Ok by lia.
  - by rewrite bool_decide_false by done.
Qed.

Lemma GetFAR_ID_spec ie :
  GetFAR_ID ie = if bool_decide (Type_ ie = IETypeFAR_ID) && (4 <=? len (Value ie))
                 then Ok (be_get (take 4 (Value ie))) else Err (Errorf "invalid FAR_ID IE" []).
Proof.
  unfold GetFAR_ID. rewrite Z.leb_antisym. destruct (Z.eqb_spec (Type_ ie) IETypeFAR_ID) as [E|E].
  - rewrite bool_decide_true by done. simpl. destruct (Z.ltb_spec (len (Value ie)) 4); [done|].
    by rewrite go_slice_Ok by lia.
  - by rewrite bool_decide_false by done.
Qed.

(** What the getters read back. *)
Lemma GetCause_New c : GetCause (NewCauseIE c) = Ok (u8 c).
Proof. unfold GetCause. simpl. by rewrite Z_of_byte_of_Z. Qed.

Lemma GetPDR_ID_New id : GetPDR_ID (NewPDR_ID_IE id) = Ok (u16 id).
Proof.
  change (GetPDR_ID (NewPDR_ID_IE id)) with (Ok (be_get (PutUint16 id))).
  by rewrite Uint16_Put.
Qed.

Lemma GetFAR_ID_New id : GetFAR_ID (NewFAR_ID_IE id) = Ok (u32 id).
Proof.
  change (GetFAR_ID (NewFAR_ID_IE id)) with (Ok (be_get (PutUint32 id))).
  by rewrite Uint32_Put.
Qed.

(** ** Properties *)

(** C3: [ParseGroupedIE] and the marshalling of a list of elements are
    inverse to each other: the bytes the parser accepts are exactly the wire
    forms of lists of well-formed elements, each accepted by exactly one. *)
Theorem ParseGroupedIE_exact data ies :
  ParseGroupedIE data = Ok ies ↔ Forall IE_ok ies ∧ IEs_Marshal ies = Ok data.
Proof.
  rewrite IEs_Marshal_bytes. split.
  - unfold ParseGroupedIE.
    destruct (unmarshal_ies _ _ _) as [ies' [[]|e|p|]] eqn:E; try done. intros [= <-].
    apply unmarshal_ies_sound in E as (new & -> & Hok & ->). done.
  - intros [Hok [= <-]]. by apply ParseGroupedIE_bytes.
Qed.

(** C19: reading one element into a fresh receiver succeeds exactly on the
    wire form of a well-formed element followed by anything, and reports the
    number of bytes of that form. *)
Theorem IE_Unmarshal_exact data ie n :
  IE_Unmarshal data IE_zero = (ie, Ok n) ↔
  IE_ok ie ∧ ∃ bs rest, IE_Marshal ie = Ok bs ∧ data = bs ++ rest ∧ n = len bs.
Proof.
  rewrite IE_Unmarshal_iff. split.
  - intros (Hok & -> & rest & ->). split; [done|].
    exists (IE_bytes ie), rest. by rewrite IE_Marshal_bytes.
  - intros (Hok & bs & rest & Hb & -> & ->). rewrite IE_Marshal_bytes in Hb.
    injection Hb as <-. eauto.
Qed.

(** C34: [IE.Unmarshal] panics exactly when the element announces a length of
    65532 or more and all of it is there (the end of the value then wraps
    around in 16 bits); in every other case it returns. *)
Theorem IE_Unmarshal_panics_iff data ie0 :
  returned (IE_Unmarshal data ie0).2 = false ↔
  65532 ≤ be_get (take 2 (drop 2 data)) ∧
  4 + be_get (take 2 (drop 2 data)) ≤ len data.
Proof.
  destruct (IE_Unmarshal_outcome data ie0) as [|t0 t1 l0 l1 rest e -> H|
    t0 t1 l0 l1 rest e -> Ht H|t0 t1 l0 l1 rest -> H|t0 t1 l0 l1 rest -> Hl H Ht];
    simpl; try change (len (t0 :: t1 :: l0 :: l1 :: rest)) with (len ([t0; t1; l0; l1] ++ rest));
    rewrite ?take_0, ?len_app; change (len [t0; t1; l0; l1]) with 4 || idtac; lia.
Qed.
