(* ===== verification/Messages.v ===== *)
(** * Messages

    [pkg/protocol/messages.go]: a header and a list of information elements,
    the wire form, the search for elements, and the constructors of the
    messages the two functions exchange.

    [Message_Unmarshal] takes a [gslice], because the code slices the data up
    to the length the header announces and Go checks that bound against the
    capacity of the receive buffer, not against the bytes received. *)
From S2P Require Import Prelude Bytes Constants Header Ie.

Record Message := mkMessage {
  Header : MessageHeader;
  IEs : list IE;
}.

Definition Message_zero : Message := mkMessage MessageHeader_zero [].

Definition Message_Marshal : go Message (list byte) :=
  m ← gget;
  _ ← lift (MessageHeader_Marshal (Header m));
  iesBuf ← lift (IEs_Marshal (IEs m));
  _ ← gmodify (λ m, mkMessage (set_MessageLength (u16 (len iesBuf)) (Header m)) (IEs m));
  m ← gget;
  headerBuf ← lift (MessageHeader_Marshal (Header m));
  mret (headerBuf ++ iesBuf).

Definition Message_Unmarshal (data : gslice) : go Message () := λ m,
  let '(h, r) := MessageHeader_Unmarshal (gs_visible data) (Header m) in
  let m := mkMessage h (IEs m) in
  match r with
  | Ok _ =>
    let headerLen := MessageHeader_Len h in
    match gs_slice data headerLen (headerLen + MessageLength h) with
    | Ok iesData =>
      let '(ies, r) := unmarshal_ies (length iesData) iesData (IEs m) in
      (mkMessage h ies, r)
    | Err e => (m, Err e)
    | Panic p => (m, Panic p)
    | Hang => (m, Hang)
    end
  | Err e => (m, Err e)
  | Panic p => (m, Panic p)
  | Hang => (m, Hang)
  end.

(** [FindIE] returns a nil pointer when there is no such element. *)
Definition FindIE (m : Message) (ieType : Z) : option IE :=
  List.find (λ ie, Type_ ie =? ieType) (IEs m).

Definition FindAllIEs (m : Message) (ieType : Z) : list IE :=
  List.filter (λ ie, Type_ ie =? ieType) (IEs m).

(** ** Constructors *)

(** [MessageHeader{Version: Version1, MessageType: t, SequenceNumber: n}]. *)
Definition node_header (t seqNum : Z) : MessageHeader :=
  {| Version := Version1; FollowOn := false; MessagePriority := false;
     SEIDPresent := false; MessageType := t; MessageLength := 0; SEID := 0;
     SequenceNumber := seqNum; Priority := 0 |}.

(** The same with [SEIDPresent: true, SEID: seid]. *)
Definition session_header (t seqNum seid : Z) : MessageHeader :=
  {| Version := Version1; FollowOn := false; MessagePriority := false;
     SEIDPresent := true; MessageType := t; MessageLength := 0; SEID := seid;
     SequenceNumber := seqNum; Priority := 0 |}.

Definition NewHeartbeatRequest (seqNum recoveryTS : Z) : Message :=
  mkMessage (node_header MsgTypeHeartbeatRequest seqNum)
    [NewRecoveryTimeStampIE recoveryTS].

Definition NewHeartbeatResponse (seqNum recoveryTS : Z) : Message :=
  mkMessage (node_header MsgTypeHeartbeatResponse seqNum)
    [NewRecoveryTimeStampIE recoveryTS].

Definition NewAssociationSetupRequest (seqNum : Z) (nodeID : list byte)
    (recoveryTS : Z) : Message :=
  mkMessage (node_header MsgTypeAssociationSetupRequest seqNum)
    [NewNodeIDIE nodeID; NewRecoveryTimeStampIE recoveryTS].

Definition NewAssociationSetupResponse (seqNum : Z) (nodeID : list byte)
    (cause recoveryTS : Z) : Message :=
  mkMessage (node_header MsgTypeAssociationSetupResponse seqNum)
    [NewNodeIDIE nodeID; NewCauseIE cause; NewRecoveryTimeStampIE recoveryTS].

Definition NewAssociationReleaseRequest (seqNum : Z) (nodeID : list byte) : Message :=
  mkMessage (node_header MsgTypeAssociationReleaseRequest seqNum) [NewNodeIDIE nodeID].

Definition NewAssociationReleaseResponse (seqNum : Z) (nodeID : list byte)
    (cause : Z) : Message :=
  mkMessage (node_header MsgTypeAssociationReleaseResponse seqNum)
    [NewNodeIDIE nodeID; NewCauseIE cause].

Definition NewSessionEstablishmentRequest (seqNum seid : Z)
    (createPDRs createFARs createQERs createURRs : list IE) : Message :=
  let ies := [] in
  let ies := ies ++ createPDRs in
  let ies := ies ++ createFARs in
  let ies := ies ++ createQERs in
  let ies := ies ++ createURRs in
  mkMessage (session_header MsgTypeSessionEstablishmentRequest seqNum seid) ies.

Definition NewSessionEstablishmentResponse (seqNum seid cause localSEID : Z) : Message :=
  let fseidValue := go_make 9 in
  let fseidValue := <[0%nat := byte_of_Z 0x02]> fseidValue in
  let fseidValue := list_inserts 1 (PutUint64 localSEID) fseidValue in
  let fseidIE := mkIE IETypePDI 0 fseidValue in
  mkMessage (session_header MsgTypeSessionEstablishmentResponse seqNum seid)
    [NewCauseIE cause; fseidIE].

Definition NewSessionDeletionRequest (seqNum seid : Z) : Message :=
  mkMessage (session_header MsgTypeSessionDeletionRequest seqNum seid) [].

Definition NewSessionDeletionResponse (seqNum seid cause : Z) : Message :=
  mkMessage (session_header MsgTypeSessionDeletionResponse seqNum seid) [NewCauseIE cause].

(** The messages that survive a trip over the wire: header fields at their
    width and zero where they are not sent, elements with wire forms, and a
    total length the header's 16-bit field can hold. *)
Record Message_ok (m : Message) : Prop := {
  ok_Header : MessageHeader_ok (Header m);
  ok_no_SEID : SEIDPresent (Header m) = false → SEID (Header m) = 0;
  ok_no_Priority : MessagePriority (Header m) = false → Priority (Header m) = 0;
  ok_IEs : Forall IE_ok (IEs m);
  ok_length : len (IEs_bytes (IEs m)) < 65536;
}.

(** What [Marshal] leaves in the message. *)
Definition marshalled (m : Message) : Message :=
  mkMessage (set_MessageLength (u16 (len (IEs_bytes (IEs m)))) (Header m)) (IEs m).

(** The bytes [Marshal] returns. *)
Definition Message_bytes (m : Message) : list byte :=
  match Message_Marshal m with (_, Ok bs) => bs | _ => [] end.

(** ** Marshalling *)

Lemma Message_Marshal_total m : ∃ bs, Message_Marshal m = (marshalled m, Ok bs).
Proof.
  unfold Message_Marshal. go_unfold.
  rewrite MessageHeader_Marshal_bytes, IEs_Marshal_bytes, MessageHeader_Marshal_bytes.
  eauto.
Qed.

Lemma Message_Marshal_bytes m :
  ∃ hb, MessageHeader_Marshal (Header (marshalled m)) = Ok hb ∧
    Message_Marshal m = (marshalled m, Ok (hb ++ IEs_bytes (IEs m))).
Proof.
  eexists. split; [apply MessageHeader_Marshal_bytes|].
  unfold Message_Marshal. go_unfold.
  by rewrite MessageHeader_Marshal_bytes, IEs_Marshal_bytes, MessageHeader_Marshal_bytes.
Qed.

(** Writing a message again gives the same bytes: only its length field had
    changed. *)
Lemma Message_bytes_marshalled m : Message_bytes (marshalled m) = Message_bytes m.
Proof.
  destruct (Message_Marshal_bytes m) as (hb & Hhb & Hm).
  destruct (Message_Marshal_bytes (marshalled m)) as (hb' & Hhb' & Hm').
  change (marshalled (marshalled m)) with (marshalled m) in *.
  change (IEs (marshalled m)) with (IEs m) in *.
  unfold Message_bytes. rewrite Hm, Hm'. congruence.
Qed.

Lemma set_MessageLength_ok n h :
  MessageHeader_ok h → is_u16 n → MessageHeader_ok (set_MessageLength n h).
Proof. intros []. by constructor. Qed.

(** ** Unmarshalling *)

Lemma gs_visible_prefix bs stale :
  gs_visible (GSlice (bs ++ stale) (length bs)) = bs.
Proof. unfold gs_visible. simpl. by rewrite take_app_length. Qed.

(** The elements are cut out of the array behind the header. *)
Lemma Message_Unmarshal_slice arr n m0 h :
  MessageHeader_Unmarshal (take n arr) (Header m0) = (h, Ok tt) →
  MessageHeader_Len h + MessageLength h ≤ len arr → is_u16 (MessageLength h) →
  let iesData := take (Z.to_nat (MessageLength h)) (drop (Z.to_nat (MessageHeader_Len h)) arr) in
  Message_Unmarshal (GSlice arr n) m0 =
    let '(ies, r) := unmarshal_ies (length iesData) iesData (IEs m0) in
    (mkMessage h ies, r).
Proof.
  intros Hh Hl Hw. unfold Message_Unmarshal, gs_visible, gs_slice. simpl.
  rewrite Hh. pose proof (MessageHeader_Len_bound h). widths.
  rewrite go_slice_Ok by lia. by rewrite Z.add_simpl_l.
Qed.

Lemma Message_Unmarshal_Marshal m m' bs stale :
  Message_ok m → Message_Marshal m = (m', Ok bs) →
  Message_Unmarshal (GSlice (bs ++ stale) (length bs)) Message_zero = (m', Ok tt).
Proof.
  intros [Hh Hs Hp Hi Hlen]. destruct (Message_Marshal_bytes m) as (hb & Hhb & ->).
  intros [= <- <-].
  set (L := len (IEs_bytes (IEs m))) in *.
  assert (is_u16 L) as HL by (pose proof (len_nonneg (IEs_bytes (IEs m))); widths; lia).
  pose proof (MessageHeader_Marshal_length _ _ Hhb) as Hl.
  assert (MessageHeader_Unmarshal (hb ++ IEs_bytes (IEs m)) MessageHeader_zero
          = (Header (marshalled m), Ok tt)) as Hu.
  { rewrite (MessageHeader_Unmarshal_Marshal _ _ _ _ Hhb), header_on_wire_ok.
    - unfold marshalled, set_MessageLength. simpl. do 2 f_equal.
      + destruct (SEIDPresent (Header m)); [done|]. by rewrite Hs.
      + destruct (MessagePriority (Header m)); [done|]. by rewrite Hp.
    - apply set_MessageLength_ok; [done|]. apply u16_width. }
  assert (MessageLength (Header (marshalled m)) = L) as HML by (by apply u16_id).
  rewrite <- app_assoc at 1.
  rewrite (Message_Unmarshal_slice _ _ _ (Header (marshalled m))); rewrite ?HML; try done.
  - rewrite <- Hl. unfold L, len. rewrite !Nat2Z.id, drop_app_length, take_app_length.
    by rewrite unmarshal_ies_complete.
  - rewrite app_assoc. by rewrite take_app_length.
  - rewrite !len_app, <- Hl. fold L. pose proof (len_nonneg stale). lia.
Qed.

Lemma take_drop_app_l {A} n m (d e : list A) :
  (n + m ≤ length d)%nat → take n (drop m (d ++ e)) = take n (drop m d).
Proof. intros. rewrite drop_app_le, take_app_le; rewrite ?length_drop; done || lia. Qed.

(** The header depends only on the bytes it occupies. *)
Lemma MessageHeader_Unmarshal_prefix d e h0 :
  header_fits d = true →
  MessageHeader_Unmarshal (d ++ e) h0 = MessageHeader_Unmarshal d h0.
Proof.
  unfold header_fits. rewrite andb_true_iff, orb_true_iff, !Z.leb_le. intros [H8 H].
  rewrite !MessageHeader_Unmarshal_eq. unfold header_take. rewrite len_app. pose proof (len_nonneg e).
  rewrite !(ltb_false _ 8) by lia. unfold len in H8.
  rewrite !(lookup_total_app_l d e 0), !(take_drop_app_l 2 2 d e) by lia.
  rewrite (lookup_total_app_l d e 1) by lia. simpl.
  destruct H as [->|H16]; simpl.
  - by rewrite !lookup_total_app_l by lia.
  - rewrite !(ltb_false _ 16) by lia. unfold len in H16.
    by rewrite !lookup_total_app_l, take_drop_app_l by lia.
Qed.

Lemma MessageHeader_Unmarshal_Ok_iff data h0 :
  (MessageHeader_Unmarshal data h0).2 = Ok tt ↔ header_fits data = true.
Proof.
  pose proof (MessageHeader_Unmarshal_result data h0). destruct (header_fits data).
  - done.
  - destruct H as [e ->]. by split.
Qed.

Lemma MessageHeader_Unmarshal_length data h0 h :
  MessageHeader_Unmarshal data h0 = (h, Ok tt) → is_u16 (MessageLength h).
Proof.
  rewrite !MessageHeader_Unmarshal_eq. unfold header_take. destruct (Z.ltb_spec (len data) 8); [done|].
  assert (is_u16 (be_get (take 2 (drop 2 data)))).
  { apply be_get_width. unfold len in *. rewrite length_take, length_drop. lia. }
  simpl. case_match; [case_match|]; intros [= <-]; done.
Qed.

(** Past the header, one of two things happens: the announced end of the
    message is past the array and the slicing panics, or the elements are
    parsed. *)
Lemma Message_Unmarshal_cases arr n m0 :
  let h := (MessageHeader_Unmarshal (take n arr) (Header m0)).1 in
  header_fits (take n arr) = true →
  if len arr <? MessageHeader_Len h + MessageLength h
  then Message_Unmarshal (GSlice arr n) m0
       = (mkMessage h (IEs m0), Panic SliceBoundsOutOfRange)
  else ∃ d, len d < 65536 ∧ Message_Unmarshal (GSlice arr n) m0 =
       (mkMessage h (unmarshal_ies (length d) d (IEs m0)).1,
        (unmarshal_ies (length d) d (IEs m0)).2).
Proof.
  intros h Hf. subst h.
  destruct (MessageHeader_Unmarshal (take n arr) (Header m0)) as [h r] eqn:Hu.
  assert (r = Ok tt) as ->.
  { apply (MessageHeader_Unmarshal_Ok_iff _ (Header m0)) in Hf. by rewrite Hu in Hf. }
  pose proof (MessageHeader_Unmarshal_length _ _ _ Hu) as Hw.
  pose proof (MessageHeader_Len_bound h). simpl.
  destruct (Z.ltb_spec (len arr) (MessageHeader_Len h + MessageLength h)).
  - unfold Message_Unmarshal, gs_visible, gs_slice. simpl. rewrite Hu.
    rewrite go_slice_panic by lia. done.
  - exists (take (Z.to_nat (MessageLength h)) (drop (Z.to_nat (MessageHeader_Len h)) arr)).
    split; [unfold len; rewrite length_take; widths; lia|].
    rewrite (Message_Unmarshal_slice arr n m0 h) by done. by destruct (unmarshal_ies _ _ _).
Qed.

(** When the call does not return, and only then, the slicing panicked. *)
Lemma Message_Unmarshal_panics arr n m0 :
  let h := (MessageHeader_Unmarshal (take n arr) (Header m0)).1 in
  returned (Message_Unmarshal (GSlice arr n) m0).2 = false ↔
  header_fits (take n arr) = true ∧
  len arr < MessageHeader_Len h + MessageLength h.
Proof.
  intros h. subst h. destruct (header_fits (take n arr)) eqn:Hf.
  - pose proof (Message_Unmarshal_cases arr n m0 Hf) as Hc. cbv zeta in Hc.
    destruct (Z.ltb_spec (len arr) (MessageHeader_Len
      (MessageHeader_Unmarshal (take n arr) (Header m0)).1 + MessageLength
      (MessageHeader_Unmarshal (take n arr) (Header m0)).1)) as [Hp|Hp].
    + rewrite Hc. done.
    + destruct Hc as (d & Hd & ->). simpl.
      pose proof (unmarshal_ies_no_panic (length d) d (IEs m0) Hd ltac:(lia)) as Hr.
      split; [by destruct (returned _)|lia].
  - pose proof (MessageHeader_Unmarshal_result (take n arr) (Header m0)) as Hr.
    rewrite Hf in Hr. destruct Hr as [e He]. unfold Message_Unmarshal, gs_visible. simpl.
    destruct (MessageHeader_Unmarshal (take n arr) (Header m0)) as [h r].
    simpl in He. subst r. simpl. split; [done|by intros []].
Qed.

(** Well-formedness is kept on every path. *)
Lemma Message_Unmarshal_keeps_wf data m0 :
  MessageHeader_ok (Header m0) → Forall IE_ok (IEs m0) →
  let m := (Message_Unmarshal data m0).1 in
  MessageHeader_ok (Header m) ∧ Forall IE_ok (IEs m).
Proof.
  intros Hh Hi. unfold Message_Unmarshal.
  pose proof (MessageHeader_Unmarshal_ok (gs_visible data) _ Hh) as Hh'.
  destruct (MessageHeader_Unmarshal _ _) as [h [[]|e|p|]]; simpl in *; try done.
  destruct (gs_slice _ _ _) as [d|e|p|]; simpl; try done.
  pose proof (unmarshal_ies_ok (length d) d _ Hi) as Hi'.
  by destruct (unmarshal_ies _ _ _).
Qed.

(** ** Properties *)

(** C1: a message that fits the wire survives [Marshal] followed by
    [Unmarshal] into a fresh message from a receive buffer that still holds
    other bytes behind the datagram; what the reader gets is the message the
    sender's [Marshal] left, its length field filled in. *)
Theorem Message_roundtrip m stale :
  Message_ok m →
  ∃ bs, Message_Marshal m = (marshalled m, Ok bs) ∧
    len bs = MessageHeader_Len (Header m) + len (IEs_bytes (IEs m)) ∧
    Message_Unmarshal (GSlice (bs ++ stale) (length bs)) Message_zero
      = (marshalled m, Ok tt).
Proof.
  intros Hok. destruct (Message_Marshal_bytes m) as (hb & Hhb & E).
  eexists. split; [exact E|]. split.
  - rewrite len_app, (MessageHeader_Marshal_length _ _ Hhb). done.
  - by apply (Message_Unmarshal_Marshal m).
Qed.

Definition sample_heartbeat : Message := NewHeartbeatRequest 7 0x65000000.

Lemma Message_roundtrip_witness :
  ∃ bs, Message_Marshal sample_heartbeat = (marshalled sample_heartbeat, Ok bs) ∧
    len bs = MessageHeader_Len (Header sample_heartbeat)
             + len (IEs_bytes (IEs sample_heartbeat)) ∧
    Message_Unmarshal (GSlice (bs ++ replicate 20 x00) (length bs)) Message_zero
      = (marshalled sample_heartbeat, Ok tt).
Proof.
  apply Message_roundtrip. constructor; [by_compute|done..|by_compute|done].
Defined.

(** C7: [Message.Unmarshal] panics exactly when the header is complete and
    the length it announces runs past the capacity of the buffer; it never
    diverges. *)
Theorem Message_Unmarshal_panics_iff arr n m0 :
  let h := (MessageHeader_Unmarshal (take n arr) (Header m0)).1 in
  returned (Message_Unmarshal (GSlice arr n) m0).2 = false ↔
  header_fits (take n arr) = true ∧
  len arr < MessageHeader_Len h + MessageLength h.
Proof. apply Message_Unmarshal_panics. Qed.

(** C25: how many bytes were received makes no difference once the header is
    complete: two reads of the same buffer at different received lengths give
    the same message.  A datagram that was cut short is completed with what
    the buffer holds from earlier datagrams. *)
Theorem Message_Unmarshal_ignores_received_length arr n1 n2 m0 :
  header_fits (take n1 arr) = true → (n1 ≤ n2)%nat →
  Message_Unmarshal (GSlice arr n1) m0 = Message_Unmarshal (GSlice arr n2) m0.
Proof.
  intros Hf Hn. unfold Message_Unmarshal, gs_visible, gs_slice. simpl.
  assert (MessageHeader_Unmarshal (take n2 arr) (Header m0)
          = MessageHeader_Unmarshal (take n1 arr) (Header m0)) as ->; [|done].
  replace n2 with (n1 + (n2 - n1))%nat by lia.
  rewrite <- take_take_drop. by apply MessageHeader_Unmarshal_prefix.
Qed.

(** A heartbeat of sixteen bytes, received again with its last four bytes
    missing. *)
Lemma Message_Unmarshal_ignores_received_length_witness :
  let arr := Message_bytes sample_heartbeat ++ replicate 20 x00 in
  header_fits (take 12 arr) = true ∧
  Message_Unmarshal (GSlice arr 12) Message_zero
    = Message_Unmarshal (GSlice arr 16) Message_zero ∧
  Message_Unmarshal (GSlice arr 16) Message_zero = (marshalled sample_heartbeat, Ok tt).
Proof.
  cbv zeta. split; [by vm_compute|]. split; [|by vm_compute].
  apply Message_Unmarshal_ignores_received_length; [by vm_compute|lia].
Defined.

(** C32: whatever arrives, the message left in the receiver, also on an error
    path, has a header that fits the wire and only well-formed elements. *)
Theorem Message_Unmarshal_wf data m0 :
  MessageHeader_ok (Header m0) → Forall IE_ok (IEs m0) →
  let m := (Message_Unmarshal data m0).1 in
  MessageHeader_ok (Header m) ∧ Forall IE_ok (IEs m).
Proof. apply Message_Unmarshal_keeps_wf. Qed.

Lemma Message_Unmarshal_wf_witness :
  let m := (Message_Unmarshal (gs_of (replicate 40 (byte_of_Z 0x2a))) Message_zero).1 in
  MessageHeader_ok (Header m) ∧ Forall IE_ok (IEs m).
Proof.
  apply Message_Unmarshal_wf; [by_compute|constructor].
Defined.
