(* ===== verification/Transport.v ===== *)
(** * The transport

    [pkg/protocol/transport.go]: request/response matching by sequence
    number, retransmission, and the receive loop.

    A call of [SendRequest] runs in its caller's goroutine; several run at
    once, together with the one goroutine of [receiveLoop].  Each call is a
    [call] record: its arguments, its [pendingRequest] and where it stands.
    [pending] maps a sequence number to the call whose request is stored
    there (the Go map holds pointers to requests, here the call's number), and
    [delivering] is the message the receive loop has found the call for and is
    about to send on its channel.
    The steps of a call between two points where the mutex is free or a
    channel is read are functions on the transport's state; [tstep] lets them
    interleave in any order.  Time is not modelled: a retry timer may fire
    whenever its call waits.

    The handlers are values of a type [H], the names the user of the
    transport gives them. *)
From S2P Require Import Prelude Bytes Constants Header Ie Messages.

(** ** The socket *)

(** [net.UDPAddr]. *)
Record UDPAddr := mkUDPAddr { IP : list byte; Port : Z; Zone : string }.

#[export] Instance UDPAddr_eq_dec : EqDecision UDPAddr.
Proof. solve_decision. Defined.

(** [net.UDPConn], as far as the transport writes to it: the datagrams
    written so far, the number of calls, and the outcome the operating system
    gives each call. *)
Record UDPConn := mkUDPConn {
  written : list (list byte * UDPAddr);
  writes : nat;
  write_result : nat → option goerror;
}.

Definition WriteToUDP (data : list byte) (addr : UDPAddr) : go UDPConn () := λ c,
  match write_result c (writes c) with
  | Some e => (mkUDPConn (written c) (S (writes c)) (write_result c), Err e)
  | None =>
    (mkUDPConn (written c ++ [(data, addr)]) (S (writes c)) (write_result c), Ok tt)
  end.

(** [send]: the message's length field is written on the way. *)
Definition send (addr : UDPAddr) : go (Message * UDPConn) () := λ '(msg, c),
  match wrap_err (Wrapf "marshal: %w" []) Message_Marshal msg with
  | (msg, Ok data) => let '(c, r) := WriteToUDP data addr c in ((msg, c), r)
  | (msg, Err e) => ((msg, c), Err e)
  | (msg, Panic p) => ((msg, c), Panic p)
  | (msg, Hang) => ((msg, c), Hang)
  end.

Definition SendResponse (msg : Message) (addr : UDPAddr) : go UDPConn () := λ c,
  let '((_, c), r) := send addr (msg, c) in (c, r).

(** ** State *)

(** Where a call of [SendRequest] stands. *)
Inductive pc :=
  | PcAlloc  (* before [t.nextSeqNum()] *)
  | PcRegister  (* before the request is put in [t.pending] *)
  | PcSend  (* before the first [t.send] *)
  | PcSelect  (* at the [select] *)
  | PcReturned (r : res Message).

Record call := mkCall {
  c_msg : Message;
  c_addr : UDPAddr;
  c_maxRetries : Z;
  c_attempts : Z;
  c_respChan : option Message;  (* a channel with room for one message *)
  c_pc : pc;
  c_sends : nat;  (* calls of [t.send] made so far *)
}.

Record Transport (H : Type) := mkTransport {
  conn : UDPConn;
  handlers : gmap Z H;
  pending : gmap Z nat;
  seqNum : Z;
  ctx_done : bool;
  buf : list byte;  (* the receive loop's buffer *)
  delivering : option (Message * nat);
  calls : gmap nat call;
}.
Arguments mkTransport {H}.
Arguments conn {H}.
Arguments handlers {H}.
Arguments pending {H}.
Arguments seqNum {H}.
Arguments ctx_done {H}.
Arguments buf {H}.
Arguments delivering {H}.
Arguments calls {H}.

Section transport.
Context {H : Type}.
Implicit Types t : Transport H.

Definition set_conn (c : UDPConn) t : Transport H :=
  mkTransport c (handlers t) (pending t) (seqNum t) (ctx_done t) (buf t) (delivering t)
    (calls t).
Definition set_pending (p : gmap Z nat) t : Transport H :=
  mkTransport (conn t) (handlers t) p (seqNum t) (ctx_done t) (buf t) (delivering t) (calls t).
Definition set_seqNum (n : Z) t : Transport H :=
  mkTransport (conn t) (handlers t) (pending t) n (ctx_done t) (buf t) (delivering t) (calls t).
Definition set_buf (b : list byte) t : Transport H :=
  mkTransport (conn t) (handlers t) (pending t) (seqNum t) (ctx_done t) b (delivering t)
    (calls t).
Definition set_delivering (d : option (Message * nat)) t : Transport H :=
  mkTransport (conn t) (handlers t) (pending t) (seqNum t) (ctx_done t) (buf t) d (calls t).
Definition set_call (i : nat) (c : call) t : Transport H :=
  mkTransport (conn t) (handlers t) (pending t) (seqNum t) (ctx_done t) (buf t) (delivering t)
    (<[i := c]> (calls t)).

(** [NewTransport], once the socket is open. *)
Definition NewTransport (c : UDPConn) : Transport H :=
  mkTransport c ∅ ∅ 1 false (go_make 65535) None ∅.

Definition RegisterHandler (msgType : Z) (handler : H) t : Transport H :=
  mkTransport (conn t) (<[msgType := handler]> (handlers t)) (pending t) (seqNum t)
    (ctx_done t) (buf t) (delivering t) (calls t).

(** [Close]: the context is cancelled. *)
Definition Close t : Transport H :=
  mkTransport (conn t) (handlers t) (pending t) (seqNum t) true (buf t) (delivering t) (calls t).

(** [nextSeqNum]; [t.seqNum] is a [uint32]. *)
Definition nextSeqNum t : Transport H * Z :=
  let seq := seqNum t in
  let n := u32 (seqNum t + 1) in
  (set_seqNum (if 0xFFFFFF <? n then 1 else n) t, seq).

(** ** [SendRequest] *)

Definition c_seq (c : call) : Z := SequenceNumber (Header (c_msg c)).

Definition set_pc (p : pc) (c : call) : call :=
  mkCall (c_msg c) (c_addr c) (c_maxRetries c) (c_attempts c) (c_respChan c) p (c_sends c).

(** The deferred [delete(t.pending, seq)] and the return. *)
Definition call_return (i : nat) (c : call) (r : res Message) t : Transport H :=
  set_call i (set_pc (PcReturned r) c) (set_pending (delete (c_seq c) (pending t)) t).

(** [msg.Header.SequenceNumber = t.nextSeqNum()]. *)
Definition call_alloc (i : nat) (c : call) t : Transport H :=
  let '(t, seq) := nextSeqNum t in
  let msg := mkMessage (set_SequenceNumber seq (Header (c_msg c))) (IEs (c_msg c)) in
  set_call i (mkCall msg (c_addr c) (c_maxRetries c) (c_attempts c) None PcRegister
                (c_sends c)) t.

(** [t.pending[seq] = req]. *)
Definition call_register (i : nat) (c : call) t : Transport H :=
  set_call i (set_pc PcSend c) (set_pending (<[c_seq c := i]> (pending t)) t).

(** [if err := t.send(msg, addr); err != nil { return nil, err }], and on to
    the [select]. *)
Definition call_send (i : nat) (c : call) t : Transport H :=
  let '((msg, cn), r) := send (c_addr c) (c_msg c, conn t) in
  let c := mkCall msg (c_addr c) (c_maxRetries c) (c_attempts c) (c_respChan c) PcSelect
             (S (c_sends c)) in
  let t := set_conn cn t in
  match r with
  | Ok _ => set_call i c t
  | Err e => call_return i c (Err e) t
  | Panic p => call_return i c (Panic p) t
  | Hang => call_return i c Hang t
  end.

(** [case <-t.ctx.Done()]. *)
Definition call_closed (i : nat) (c : call) t : Transport H :=
  call_return i c (Err (Errorf "transport closed" [])) t.

(** [case resp := <-req.respChan]. *)
Definition call_response (i : nat) (c : call) (resp : Message) t : Transport H :=
  let c := mkCall (c_msg c) (c_addr c) (c_maxRetries c) (c_attempts c) None (c_pc c)
             (c_sends c) in
  call_return i c (Ok resp) t.

(** [case <-retryTimer.C]. *)
Definition call_timeout (i : nat) (c : call) t : Transport H :=
  let c := mkCall (c_msg c) (c_addr c) (c_maxRetries c) (c_attempts c + 1) (c_respChan c)
             (c_pc c) (c_sends c) in
  if c_maxRetries c <=? c_attempts c
  then call_return i c (Err (Errorf "max retries exceeded" [])) t
  else call_send i c t.

(** ** The receive loop *)

(** What [handleMessage] does with a message.  [addr] is its sender, which
    only a handler gets to see. *)
Inductive dispatch :=
  | ToPending (i : nat)
  | ToHandler (h : H) (addr : UDPAddr)
  | Ignored.

(** The two look-ups, each under the mutex. *)
Definition lookup_message (msg : Message) (addr : UDPAddr) t : dispatch :=
  match pending t !! SequenceNumber (Header msg) with
  | Some i => ToPending i
  | None =>
    match handlers t !! MessageType (Header msg) with
    | Some h => ToHandler h addr
    | None => Ignored
    end
  end.

(** [select { case pending.respChan <- msg: default: }], without the mutex. *)
Definition deliver (msg : Message) (i : nat) t : Transport H :=
  match calls t !! i with
  | Some c =>
    match c_respChan c with
    | None =>
      set_call i (mkCall (c_msg c) (c_addr c) (c_maxRetries c) (c_attempts c) (Some msg) (c_pc c)
                    (c_sends c)) t
    | Some _ => t
    end
  | None => t
  end.

(** The call of the handler, which runs in the same goroutine, is left to the
    handlers' owner. *)
Definition handleMessage (msg : Message) (addr : UDPAddr) t : Transport H * dispatch :=
  match lookup_message msg addr t with
  | ToPending i => (deliver msg i t, ToPending i)
  | d => (t, d)
  end.

(** [t.conn.ReadFromUDP(buf)] gave a datagram: its bytes overwrite the front
    of the buffer, the rest of the buffer stays. *)
Definition ReadFromUDP (datagram b : list byte) : list byte * nat :=
  let n := Nat.min (length datagram) (length b) in
  (take n datagram ++ drop n b, n).

(** One round of [receiveLoop] on a datagram, up to [handleMessage]: an
    unreadable message is dropped. *)
Definition read_message (datagram : list byte) : go (Transport H) (option Message) := λ t,
  let '(b, n) := ReadFromUDP datagram (buf t) in
  let t := set_buf b t in
  match Message_Unmarshal (GSlice b n) Message_zero with
  | (msg, Ok _) => (t, Ok (Some msg))
  | (msg, Err _) => (t, Ok None)
  | (_, Panic p) => (t, Panic p)
  | (_, Hang) => (t, Hang)
  end.

(** The round with [handleMessage], up to the call of a handler. *)
Definition hand_over (msg : Message) (addr : UDPAddr) :
    go (Transport H) (Message * dispatch) := λ t,
  let '(t, d) := handleMessage msg addr t in (t, Ok (msg, d)).

Definition receive (datagram : list byte) (addr : UDPAddr) :
    go (Transport H) (Message * dispatch) :=
  o ← read_message datagram;
  match o with
  | Some msg => hand_over msg addr
  | None => mret (Message_zero, Ignored)
  end.

(** ** Interleavings *)

(** A fresh call of [SendRequest(msg, addr, timeout, maxRetries)]. *)
Definition new_call (msg : Message) (addr : UDPAddr) (maxRetries : Z) : call :=
  mkCall msg addr maxRetries 0 None PcAlloc 0.

(** The receive loop makes its round at once, or is interrupted where it has
    found a pending request and not yet sent on its channel: the call can
    return meanwhile.  A round that has begun before the context is cancelled
    still ends, so no step of it asks whether it is. *)
Inductive tstep : Transport H → Transport H → Prop :=
  | step_call t i msg addr maxRetries :
      calls t !! i = None →
      tstep t (set_call i (new_call msg addr maxRetries) t)
  | step_alloc t i c :
      calls t !! i = Some c → c_pc c = PcAlloc → tstep t (call_alloc i c t)
  | step_register t i c :
      calls t !! i = Some c → c_pc c = PcRegister → tstep t (call_register i c t)
  | step_send t i c :
      calls t !! i = Some c → c_pc c = PcSend → tstep t (call_send i c t)
  | step_closed t i c :
      calls t !! i = Some c → c_pc c = PcSelect → ctx_done t = true →
      tstep t (call_closed i c t)
  | step_response t i c resp :
      calls t !! i = Some c → c_pc c = PcSelect → c_respChan c = Some resp →
      tstep t (call_response i c resp t)
  | step_timeout t i c :
      calls t !! i = Some c → c_pc c = PcSelect → tstep t (call_timeout i c t)
  | step_receive t datagram addr t' r :
      delivering t = None → receive datagram addr t = (t', r) → tstep t t'
  | step_lookup t datagram addr t' msg i :
      delivering t = None → read_message datagram t = (t', Ok (Some msg)) →
      lookup_message msg addr t' = ToPending i →
      tstep t (set_delivering (Some (msg, i)) t')
  | step_deliver t msg i :
      delivering t = Some (msg, i) → tstep t (deliver msg i (set_delivering None t))
  | step_respond t msg addr :
      tstep t (set_conn (SendResponse msg addr (conn t)).1 t)
  | step_close t : tstep t (Close t).

Definition reachable (t : Transport H) : Prop :=
  ∃ c hs, rtc tstep (mkTransport c hs ∅ 1 false (go_make 65535) None ∅) t.

End transport.

(** The retry timer of call [i] fires [n] times in a row. *)
Fixpoint timeouts {H} (i : nat) (n : nat) (t : Transport H) : Transport H :=
  match n with
  | O => t
  | S n =>
    match calls t !! i with
    | Some c => match c_pc c with
                | PcSelect => timeouts i n (call_timeout i c t)
                | _ => t
                end
    | None => t
    end
  end.

(** The next [n] sequence numbers. *)
Fixpoint next_seqs {H} (n : nat) (t : Transport H) : list Z :=
  match n with
  | O => []
  | S n => let '(t, seq) := nextSeqNum t in seq :: next_seqs n t
  end.

(** ** Invariant *)

Definition waiting (c : call) : Prop :=
  match c_pc c with PcSend | PcSelect => True | _ => False end.

(** The transmissions a call may make in all. *)
Definition max_sends (c : call) : Z := Z.max 1 (c_maxRetries c).

(** Past the registration of its request. *)
Definition registered (c : call) : Prop :=
  match c_pc c with PcAlloc | PcRegister => False | _ => True end.

(** How often a call's request is among datagrams written to the socket. *)
Definition copies (w : list (list byte * UDPAddr)) (c : call) : nat :=
  length (filter (λ x, x = (Message_bytes (c_msg c), c_addr c)) w).

(** What holds of a call at each point of its code, [w] being what has been
    written to the socket. *)
Definition call_ok (w : list (list byte * UDPAddr)) (c : call) : Prop :=
  (c_pc c ≠ PcAlloc → 1 ≤ c_seq c ≤ 0xFFFFFF) ∧
  (∀ m, c_respChan c = Some m → SequenceNumber (Header m) = c_seq c) ∧
  match c_pc c with
  | PcAlloc | PcRegister => c_sends c = 0%nat ∧ c_attempts c = 0 ∧ c_respChan c = None
  | PcSend => c_sends c = 0%nat ∧ c_attempts c = 0
  | PcSelect => Z.of_nat (c_sends c) = c_attempts c + 1 ∧ 0 ≤ c_attempts c < max_sends c ∧
      (c_sends c ≤ copies w c)%nat
  | PcReturned r => 1 ≤ Z.of_nat (c_sends c) ≤ max_sends c ∧ returned r ∧
      (c_sends c ≤ copies w c + match r with Ok _ => 0 | _ => 1 end)%nat ∧
      ∀ m, r = Ok m → SequenceNumber (Header m) = c_seq c
  end.

Record tinv {H} (t : Transport H) : Prop := {
  inv_seqNum : 1 ≤ seqNum t ≤ 0xFFFFFF;
  inv_buf : len (buf t) = 65535;
  inv_calls : map_Forall (λ _ c, call_ok (written (conn t)) c) (calls t);
  inv_pending : ∀ s i, pending t !! s = Some i →
    ∃ c, calls t !! i = Some c ∧ c_seq c = s ∧ waiting c;
  inv_delivering : ∀ m i, delivering t = Some (m, i) →
    ∃ c, calls t !! i = Some c ∧ c_seq c = SequenceNumber (Header m) ∧ registered c;
}.

(** ** Lemmas *)

Lemma copies_app w l c : copies (w ++ l) c = (copies w c + copies l c)%nat.
Proof. unfold copies. by rewrite list.filter_app, length_app. Qed.

Lemma call_ok_app w l c : call_ok w c → call_ok (w ++ l) c.
Proof.
  unfold call_ok. rewrite copies_app. intros (Hq & Hm & Hc). split_and!; [done..|].
  destruct (c_pc c) as [| | | |r]; destruct_and?; split_and!; try done; lia.
Qed.

Lemma waiting_registered c : waiting c → registered c.
Proof. unfold waiting, registered. by destruct (c_pc c). Qed.

(** One transmission: the datagram is written unless the socket refuses. *)
Lemma send_spec addr msg c :
  send addr (msg, c) =
    ((marshalled msg,
      mkUDPConn (written c ++ match write_result c (writes c) with
                              | None => [(Message_bytes msg, addr)]
                              | Some _ => []
                              end) (S (writes c)) (write_result c)),
     match write_result c (writes c) with None => Ok tt | Some e => Err e end).
Proof.
  unfold send, wrap_err, Message_bytes. destruct (Message_Marshal_total msg) as [bs ->].
  unfold WriteToUDP. destruct (write_result c (writes c)); [by rewrite app_nil_r|done].
Qed.

Lemma send_marshalled addr msg c :
  ∃ c' r, send addr (msg, c) = ((marshalled msg, c'), r) ∧ returned r.
Proof. rewrite send_spec. do 2 eexists. split; [done|]. by destruct (write_result c _). Qed.

Section invariant.
Context {H : Type}.
Implicit Types t : Transport H.

Lemma nextSeqNum_spec t :
  1 ≤ seqNum t ≤ 0xFFFFFF →
  nextSeqNum t = (set_seqNum (1 + seqNum t mod 0xFFFFFF) t, seqNum t).
Proof.
  intros Hs. unfold nextSeqNum. rewrite u32_id by (widths; lia). do 2 f_equal.
  destruct (Z.ltb_spec 0xFFFFFF (seqNum t + 1)).
  - replace (seqNum t) with 0xFFFFFF by lia. done.
  - rewrite Z.mod_small by lia. lia.
Qed.

(** What another call is known by survives a call's step. *)
Lemma lookup_other (m : gmap nat call) i j c0 c c' (P : call → Prop) :
  m !! i = Some c0 → (P c0 → P c) →
  m !! j = Some c' → P c' → ∃ c'', <[i := c]> m !! j = Some c'' ∧ P c''.
Proof.
  intros Hi HP Hj Hc'. destruct (decide (i = j)) as [->|].
  - exists c. rewrite lookup_insert_eq. split; [done|]. apply HP. congruence.
  - exists c'. by rewrite lookup_insert_ne.
Qed.

Lemma tinv_set_call i c c' t :
  tinv t → calls t !! i = Some c → call_ok (written (conn t)) c' →
  (waiting c → waiting c') → (registered c → registered c' ∧ c_seq c' = c_seq c) →
  tinv (set_call i c' t).
Proof.
  intros [Hs Hb Hc Hp Hd] Hi Hok Hw Hreg. constructor; simpl; [done..| | |].
  - by apply map_Forall_insert_2.
  - intros s j (c0 & Hc0 & Hr)%Hp. eapply (lookup_other _ i j c c' c0); [done| |done|done].
    intros [Hseq Hwc]. destruct (Hreg (waiting_registered _ Hwc)) as [_ ->]. auto.
  - intros m j (c0 & Hc0 & Hr)%Hd. eapply (lookup_other _ i j c c' c0); [done| |done|done].
    intros [Hseq Hrc]. destruct (Hreg Hrc) as [? ->]. auto.
Qed.

Lemma tinv_return i c0 c r t :
  tinv t → calls t !! i = Some c0 → c_seq c = c_seq c0 →
  call_ok (written (conn t)) (set_pc (PcReturned r) c) → tinv (call_return i c r t).
Proof.
  intros [Hs Hb Hc Hp Hd] Hi Hseq Hok. constructor; simpl; [done..| | |].
  - by apply map_Forall_insert_2.
  - intros s j [Hne Hj]%lookup_delete_Some. destruct (Hp s j Hj) as (c1 & Hc1 & <- & Hr).
    exists c1. rewrite lookup_insert_ne; [done|]. intros <-. simplify_eq.
  - intros m j (c1 & Hc1 & Hr)%Hd. eapply (lookup_other _ i j c0 _ c1); [done| |done|done].
    intros [<- _]. split; [by apply Hseq|done].
Qed.

(** Datagrams are only ever added. *)
Lemma tinv_set_conn c l t :
  tinv t → written c = written (conn t) ++ l → tinv (set_conn c t).
Proof.
  intros [Hs Hb Hc Hp Hd] Hw. constructor; simpl; try done. rewrite Hw.
  eapply map_Forall_impl; [exact Hc|]. intros. by apply call_ok_app.
Qed.

Lemma call_ok_at t i c :
  tinv t → calls t !! i = Some c → call_ok (written (conn t)) c.
Proof. intros Hi Hc. by apply (inv_calls t Hi i). Qed.

Lemma tinv_alloc t i c :
  tinv t → calls t !! i = Some c → c_pc c = PcAlloc → tinv (call_alloc i c t).
Proof.
  intros Hi Hc Hpc. unfold call_alloc. rewrite nextSeqNum_spec by apply Hi.
  destruct (call_ok_at _ _ _ Hi Hc) as (_ & _ & Hok). rewrite Hpc in Hok.
  apply (tinv_set_call i c).
  - destruct Hi. constructor; simpl; try done.
    pose proof (Z.mod_pos_bound (seqNum t) 0xFFFFFF). lia.
  - done.
  - unfold call_ok, c_seq. simpl. destruct Hok as (-> & -> & _).
    split_and!; [|done..]. intros _. apply Hi.
  - unfold waiting. by rewrite Hpc.
  - unfold registered. by rewrite Hpc.
Qed.

Lemma tinv_register t i c :
  tinv t → calls t !! i = Some c → c_pc c = PcRegister → tinv (call_register i c t).
Proof.
  intros Hi Hc Hpc. destruct (call_ok_at _ _ _ Hi Hc) as (Hq & Hr & Hok).
  rewrite Hpc in Hok, Hq. destruct Hi as [Hs Hb Hcs Hp Hd].
  constructor; simpl; [done..| | |].
  - apply map_Forall_insert_2; [|done]. unfold call_ok. simpl. split_and!; [intros _; by apply Hq|done|tauto..].
  - intros s j [[<- <-]|[Hne Hj]]%lookup_insert_Some.
    + eexists. by rewrite lookup_insert_eq.
    + destruct (Hp s j Hj) as (c1 & Hc1 & <- & Hw). exists c1.
      rewrite lookup_insert_ne; [done|]. intros <-. simplify_eq.
  - intros m j (c1 & Hc1 & Hr1)%Hd. eapply (lookup_other _ i j c _ c1); [done| |done|done].
    intros [<- Hr2]. unfold registered in Hr2. by rewrite Hpc in Hr2.
Qed.

(** Both uses of [call_send]: the first transmission and a repetition. *)
Lemma tinv_send t i c0 c :
  tinv t → calls t !! i = Some c0 → waiting c0 →
  c_seq c = c_seq c0 → c_respChan c = c_respChan c0 →
  Z.of_nat (c_sends c) = c_attempts c → c_attempts c < max_sends c →
  (c_sends c ≤ copies (written (conn t)) c)%nat →
  tinv (call_send i c t).
Proof.
  intros Hi Hc0 Hw Hseq Hch Hsends Hmax Hcopies. unfold call_send. rewrite send_spec.
  destruct (call_ok_at _ _ _ Hi Hc0) as (Hq & Hr & _).
  assert (1 ≤ c_seq c ≤ 0xFFFFFF) as Hb.
  { rewrite Hseq. apply Hq. unfold waiting in Hw. by destruct (c_pc c0). }
  assert (∀ m, c_respChan c = Some m → SequenceNumber (Header m) = c_seq c) as Hm.
  { intros m Hm. rewrite Hch in Hm. rewrite (Hr m Hm), <- Hseq. done. }
  destruct (write_result (conn t) (writes (conn t))) as [e|].
  - apply (tinv_return i c0); [by eapply tinv_set_conn|done..|].
    unfold call_ok, copies, max_sends in *. cbn -[Z.of_nat].
    rewrite app_nil_r, Message_bytes_marshalled. split_and!; try lia; done.
  - apply (tinv_set_call i c0); [by eapply tinv_set_conn|done| |done|by rewrite <- Hseq].
    unfold call_ok, max_sends in *. cbn -[Z.of_nat copies]. rewrite copies_app.
    unfold copies in *. cbn -[Z.of_nat filter].
    rewrite Message_bytes_marshalled, filter_cons_True, filter_nil by done. cbn -[Z.of_nat filter].
    split_and!; try lia; done.
Qed.

Lemma tinv_timeout t i c :
  tinv t → calls t !! i = Some c → c_pc c = PcSelect → tinv (call_timeout i c t).
Proof.
  intros Hi Hc Hpc. destruct (call_ok_at _ _ _ Hi Hc) as (Hq & Hr & Hok).
  rewrite Hpc in Hok. destruct Hok as (Hs & Ha & Hcp). unfold call_timeout. simpl.
  destruct (Z.leb_spec (c_maxRetries c) (c_attempts c + 1)).
  - apply (tinv_return i c); [done..|]. unfold call_ok, copies, max_sends in *. cbn -[Z.of_nat].
    split_and!; [|done|lia..|done|lia|done]. intros _. apply Hq. by rewrite Hpc.
  - apply (tinv_send _ _ c); try done; unfold waiting, max_sends in *; simpl;
      by rewrite ?Hpc || lia.
Qed.

(** The message goes to the call its number names, wherever that call is. *)
Lemma tinv_deliver t msg i c :
  tinv t → calls t !! i = Some c → c_seq c = SequenceNumber (Header msg) → registered c →
  tinv (deliver msg i t).
Proof.
  intros Hi Hc Hseq Hreg. unfold deliver. rewrite Hc. destruct (c_respChan c) eqn:Hch; [done|].
  destruct (call_ok_at _ _ _ Hi Hc) as (Hq & Hr & Hok).
  apply (tinv_set_call i c); [done..| |done|done].
  unfold call_ok, max_sends, copies, c_seq in *. cbn -[Z.of_nat filter].
  split_and!; [done|by intros m [= <-]|].
  unfold registered in Hreg. by destruct (c_pc c).
Qed.

(** The look-up only answers with requests under way. *)
Lemma lookup_message_pending t msg addr i :
  tinv t → lookup_message msg addr t = ToPending i →
  ∃ c, calls t !! i = Some c ∧ c_seq c = SequenceNumber (Header msg) ∧ registered c.
Proof.
  intros Hi. unfold lookup_message. destruct (pending t !! _) as [j|] eqn:Hp.
  - intros [= ->]. destruct (inv_pending t Hi _ _ Hp) as (c & Hc & Hseq & Hw).
    exists c. split_and!; [done..|]. by apply waiting_registered.
  - by destruct (handlers t !! _).
Qed.

Lemma tinv_handleMessage t msg addr :
  tinv t → tinv (handleMessage msg addr t).1.
Proof.
  intros Hi. unfold handleMessage. destruct (lookup_message msg addr t) as [i|h a|] eqn:Hl; try done.
  destruct (lookup_message_pending _ _ _ _ Hi Hl) as (c & Hc & Hs & Hr). by apply (tinv_deliver t msg i c).
Qed.

Lemma ReadFromUDP_length d b : length (ReadFromUDP d b).1 = length b.
Proof.
  unfold ReadFromUDP. simpl. rewrite length_app, length_take, length_drop. lia.
Qed.

Lemma tinv_read_message t d : tinv t → tinv (read_message d t).1.
Proof.
  intros Hi. unfold read_message. destruct (ReadFromUDP d (buf t)) as [b n] eqn:Hb.
  assert (tinv (set_buf b t)) as Hi'.
  { pose proof (ReadFromUDP_length d (buf t)) as Hl. rewrite Hb in Hl. simpl in Hl.
    destruct Hi. constructor; simpl; try done. unfold len in *. congruence. }
  by destruct (Message_Unmarshal _ _) as [msg [[]|e|p|]].
Qed.

Lemma tinv_receive t d addr : tinv t → tinv (receive d addr t).1.
Proof.
  intros Hi. pose proof (tinv_read_message t d Hi) as Ht. unfold receive, mbind, go_bind.
  destruct (read_message d t) as [t' [[msg|]|e|p|]]; try done.
  pose proof (tinv_handleMessage t' msg addr Ht). unfold hand_over.
  by destruct (handleMessage _ _ _).
Qed.

Lemma tinv_set_delivering t d :
  tinv t → (∀ m i, d = Some (m, i) →
    ∃ c, calls t !! i = Some c ∧ c_seq c = SequenceNumber (Header m) ∧ registered c) →
  tinv (set_delivering d t).
Proof. intros [] Hd. by constructor. Qed.

Lemma tstep_tinv t t' : tstep t t' → tinv t → tinv t'.
Proof.
  intros Hstep Hi. destruct Hstep as
    [t i m a n Hn|t i c Hc Hp|t i c Hc Hp|t i c Hc Hp|t i c Hc Hp _|t i c m Hc Hp Hm
    |t i c Hc Hp|t d a t' r _ Hr|t d a t' m i _ Hr Hl|t m i Hd|t m a|t].
  - destruct Hi as [Hs Hb Hcs Hpd Hdl]. constructor; simpl; [done..| | |].
    + apply map_Forall_insert_2; [|done]. by unfold call_ok.
    + intros s j (c1 & Hc1 & <- & Hw)%Hpd. exists c1.
      rewrite lookup_insert_ne; [done|]. intros <-. congruence.
    + intros m' j (c1 & Hc1 & Hw)%Hdl. exists c1.
      rewrite lookup_insert_ne; [done|]. intros <-. congruence.
  - by apply tinv_alloc.
  - by apply tinv_register.
  - destruct (call_ok_at _ _ _ Hi Hc) as (_ & _ & Hok). rewrite Hp in Hok.
    apply (tinv_send _ _ c); try done; unfold waiting, max_sends; rewrite ?Hp; lia || done.
  - apply (tinv_return i c); [done..|].
    destruct (call_ok_at _ _ _ Hi Hc) as (Hq & Hr & Hok). rewrite Hp in Hok, Hq.
    unfold call_ok, copies, max_sends in *. cbn -[Z.of_nat filter].
    split_and!; [intros _; by apply Hq|done|lia..|done|lia|done].
  - apply (tinv_return i c); [done..|].
    destruct (call_ok_at _ _ _ Hi Hc) as (Hq & Hr & Hok). rewrite Hp in Hok, Hq.
    unfold call_ok, copies, max_sends in *. cbn -[Z.of_nat filter].
    split_and!; [intros _; by apply Hq|done|lia..|done|lia|intros ? [= <-]; by apply Hr].
  - by apply tinv_timeout.
  - pose proof (tinv_receive t d a Hi) as Ht. by rewrite Hr in Ht.
  - pose proof (tinv_read_message t d Hi) as Ht. rewrite Hr in Ht.
    apply tinv_set_delivering; [done|]. intros m' j [= <- <-].
    by apply (lookup_message_pending t' m a).
  - destruct (inv_delivering t Hi m i Hd) as (c & Hc & Hseq & Hreg).
    apply (tinv_deliver _ m i c); [by apply tinv_set_delivering|done..].
  - unfold SendResponse. rewrite send_spec. simpl. by eapply tinv_set_conn.
  - destruct Hi. by constructor.
Qed.

Lemma reachable_tinv t : reachable t → tinv t.
Proof.
  intros (c & hs & Hr).
  assert (tinv (mkTransport c hs ∅ 1 false (go_make 65535) None ∅)) as Hi.
  { constructor; simpl; [lia|by vm_compute|done| |done].
    intros s i. by rewrite lookup_empty. }
  revert Hi. induction Hr as [|x y z Hxy _ IH]; [done|]. intros Hx.
  by apply IH, (tstep_tinv x).
Qed.

End invariant.

(** A timeout ends the call or uses up one attempt. *)
Lemma call_timeout_progress {H} (t : Transport H) i c :
  c_pc c = PcSelect →
  ∃ c', calls (call_timeout i c t) !! i = Some c' ∧
    ((∃ r, c_pc c' = PcReturned r) ∨
     c_pc c' = PcSelect ∧ c_attempts c' = c_attempts c + 1 ∧
     c_maxRetries c' = c_maxRetries c).
Proof.
  intros Hp. unfold call_timeout. simpl. case_match.
  - eexists. unfold call_return. simpl. rewrite lookup_insert_eq. eauto.
  - unfold call_send. cbn [c_addr c_msg].
    destruct (send_marshalled (c_addr c) (c_msg c) (conn t)) as (cn & r & -> & _).
    destruct r; eexists; simpl; rewrite lookup_insert_eq; eauto 10.
Qed.

Lemma timeouts_returned {H} i n (t : Transport H) c r :
  calls t !! i = Some c → c_pc c = PcReturned r → timeouts i n t = t.
Proof. intros Hc Hp. destruct n; simpl; [done|]. by rewrite Hc, Hp. Qed.

Lemma timeouts_end {H} i n (t : Transport H) c :
  calls t !! i = Some c → c_pc c = PcSelect →
  max_sends c - c_attempts c ≤ Z.of_nat n → c_attempts c < max_sends c →
  ∃ c' r, calls (timeouts i n t) !! i = Some c' ∧ c_pc c' = PcReturned r.
Proof.
  revert t c. induction n as [|n IH]; intros t c Hc Hp Hn Hm; [lia|].
  cbn [timeouts]. rewrite Hc, Hp.
  destruct (call_timeout_progress t i c Hp) as (c' & Hc' & [[r Hr]|(Hp' & Ha & HM)]).
  - exists c', r. by erewrite timeouts_returned.
  - destruct (decide (c_attempts c' < max_sends c')) as [Hlt|Hge].
    + apply (IH _ c'); unfold max_sends in *; try done. lia.
    + exfalso. unfold call_timeout in Hc'. revert Hc'. cbn [c_maxRetries c_attempts].
      unfold max_sends in *. rewrite HM in Hge.
      rewrite leb_true by lia. unfold call_return. simpl. rewrite lookup_insert_eq.
      intros [= <-]. done.
Qed.

Lemma next_seqs_spec {H} n (t : Transport H) :
  1 ≤ seqNum t ≤ 0xFFFFFF →
  next_seqs n t = (λ k, 1 + (seqNum t - 1 + Z.of_nat k) mod 0xFFFFFF) <$> seq 0 n.
Proof.
  revert t. induction n as [|n IH]; intros t Ht; [done|].
  cbn [next_seqs]. rewrite nextSeqNum_spec by done.
  pose proof (Z.mod_pos_bound (seqNum t) 0xFFFFFF ltac:(lia)).
  rewrite IH by (simpl; lia). cbn [seq fmap list_fmap]. f_equal.
  - rewrite Z.mod_small by lia. lia.
  - rewrite <- (fmap_S_seq 0 n), <- list_fmap_compose. apply list_fmap_ext.
    intros _ k _. unfold compose. simpl. f_equal.
    replace (1 + seqNum t mod 16777215 - 1 + Z.of_nat k)
      with (seqNum t mod 16777215 + Z.of_nat k) by lia.
    rewrite Zplus_mod_idemp_l. f_equal. lia.
Qed.

(** The datagrams whose header is complete and announces an end past the
    65535 bytes of the receive buffer; eight bytes are enough for one. *)
Definition oversize (datagram : list byte) : bool :=
  let h := (MessageHeader_Unmarshal datagram MessageHeader_zero).1 in
  header_fits datagram && (65535 <? MessageHeader_Len h + MessageLength h).

(** Reading panics on exactly those. *)
Lemma read_message_panics {H} (t : Transport H) datagram :
  len (buf t) = 65535 → len datagram ≤ 65535 →
  returned (read_message datagram t).2 = negb (oversize datagram).
Proof.
  intros Hb Hd. unfold read_message. pose proof (ReadFromUDP_length datagram (buf t)) as Hl.
  destruct (ReadFromUDP datagram (buf t)) as [b n] eqn:E. simpl in Hl.
  assert (take n b = datagram ∧ len b = 65535) as [Hn Hlb].
  { unfold ReadFromUDP in E. injection E as <- <-. unfold len in *.
    split; [|lia]. rewrite Nat.min_l by lia. rewrite (take_ge datagram) by lia.
    by rewrite take_app_length. }
  pose proof (Message_Unmarshal_panics b n Message_zero) as Hp.
  rewrite Hn, Hlb in Hp. simpl in Hp. unfold oversize.
  assert (returned (Message_Unmarshal (GSlice b n) Message_zero).2 = negb
    (header_fits datagram && (65535 <?
      MessageHeader_Len (MessageHeader_Unmarshal datagram MessageHeader_zero).1 +
      MessageLength (MessageHeader_Unmarshal datagram MessageHeader_zero).1))) as <-.
  { apply Bool.eq_iff_eq_true. rewrite negb_true_iff, andb_false_iff.
    rewrite Z.ltb_nlt, <- not_false_iff_true, Hp. destruct (header_fits datagram); naive_solver. }
  by destruct (Message_Unmarshal _ _) as [msg [[]|e|p|]].
Qed.

Lemma receive_panics {H} (t : Transport H) datagram addr :
  len (buf t) = 65535 → len datagram ≤ 65535 →
  returned (receive datagram addr t).2 = negb (oversize datagram).
Proof.
  intros Hb Hd. rewrite <- (read_message_panics t) by done. unfold receive, mbind, go_bind.
  destruct (read_message datagram t) as [t' [[msg|]|e|p|]]; try done.
  unfold hand_over. by destruct (handleMessage _ _ _).
Qed.

(** A handler is given the datagram's sender. *)
Lemma receive_addr {H} (t t' : Transport H) datagram addr msg h a :
  receive datagram addr t = (t', Ok (msg, ToHandler h a)) → a = addr.
Proof.
  intros (t1 & o & _ & H2)%go_bind_Ok_inv. destruct o as [m|]; [|done].
  unfold hand_over, handleMessage, lookup_message in H2.
  destruct (pending t1 !! _); [done|]. destruct (handlers t1 !! _); [|done].
  by injection H2 as _ _ _ <-.
Qed.

(** ** Properties *)

(** C5: in every reachable state of the transport, a call of [SendRequest]
    that returned a message returned one with the sequence number of its own
    request, and that number fits the header's 24 bits. *)
Theorem SendRequest_response_matches {H} (t : Transport H) i c resp :
  reachable t → calls t !! i = Some c → c_pc c = PcReturned (Ok resp) →
  SequenceNumber (Header resp) = c_seq c ∧ 1 ≤ c_seq c < 2 ^ 24.
Proof.
  intros Hr Hc Hp. destruct (call_ok_at _ _ _ (reachable_tinv _ Hr) Hc) as (Hq & _ & Hok).
  rewrite Hp in Hok, Hq. destruct Hok as [_ Hok]. split; [by apply Hok|].
  destruct (Hq ltac:(done)). lia.
Qed.

(** C10: in every reachable state, a call with [N] retries that waits at its
    [select] has sent its request at least once and at most [max 1 N] times,
    once more than its timer has fired, and that many copies of the datagram
    are on the socket; a call that returned has sent it at least once and at
    most [max 1 N] times, all of them written when it returned a message and
    all but the last otherwise.  Each firing of the timer short of the last
    makes one more transmission, and the last one ends the call without. *)
Theorem SendRequest_transmissions {H} (t : Transport H) i c :
  reachable t → calls t !! i = Some c →
  let sends := Z.of_nat (c_sends c) in
  let max := Z.max 1 (c_maxRetries c) in
  match c_pc c with
  | PcAlloc | PcRegister | PcSend => sends = 0
  | PcSelect =>
    1 ≤ sends ≤ max ∧ sends = c_attempts c + 1 ∧ (c_sends c ≤ copies (written (conn t)) c)%nat ∧
    let t' := call_timeout i c t in
    if c_maxRetries c <=? c_attempts c + 1
    then conn t' = conn t ∧
         (c_pc <$> calls t' !! i) = Some (PcReturned (Err (Errorf "max retries exceeded" [])))
    else writes (conn t') = S (writes (conn t)) ∧ (c_sends <$> calls t' !! i) = Some (S (c_sends c)) ∧
         match write_result (conn t) (writes (conn t)) with
         | None => written (conn t') = written (conn t) ++ [(Message_bytes (c_msg c), c_addr c)] ∧
                   (c_pc <$> calls t' !! i) = Some PcSelect
         | Some e => written (conn t') = written (conn t) ∧
                     (c_pc <$> calls t' !! i) = Some (PcReturned (Err e))
         end
  | PcReturned r =>
    1 ≤ sends ≤ max ∧ returned r ∧
    (c_sends c ≤ copies (written (conn t)) c + match r with Ok _ => 0 | _ => 1 end)%nat
  end.
Proof.
  intros Hr Hc. destruct (call_ok_at _ _ _ (reachable_tinv _ Hr) Hc) as (_ & _ & Hok).
  unfold max_sends in Hok. cbv zeta. destruct (c_pc c) as [| | | |r] eqn:Hp;
    destruct_and?; split_and?; try done; try lia.
  unfold call_timeout, call_send. cbn [c_maxRetries c_attempts c_addr c_msg c_sends].
  destruct (c_maxRetries c <=? c_attempts c + 1).
  { simpl. by rewrite lookup_insert_eq. }
  rewrite send_spec. destruct (write_result (conn t) (writes (conn t))); simpl;
    by rewrite lookup_insert_eq, ?app_nil_r.
Qed.

(** C17: in every reachable state, the pending map holds only requests of
    calls that are under way, each under its own sequence number: no return
    path leaves its entry behind. *)
Theorem pending_no_leak {H} (t : Transport H) s i :
  reachable t → pending t !! s = Some i →
  ∃ c, calls t !! i = Some c ∧ c_seq c = s ∧ (c_pc c = PcSend ∨ c_pc c = PcSelect).
Proof.
  intros Hr Hp. destruct (inv_pending t (reachable_tinv _ Hr) _ _ Hp) as (c & Hc & Hs & Hw).
  exists c. split_and!; [done..|]. unfold waiting in Hw. destruct (c_pc c); auto; done.
Qed.

(** C22: [SendRequest] ends: from any reachable state in which a call with [N]
    retries waits, it has returned when its retry timer has fired [max 1 N]
    more times, whatever the socket answers. *)
Theorem SendRequest_returns {H} (t : Transport H) i c :
  reachable t → calls t !! i = Some c → c_pc c = PcSelect →
  ∃ c' r, calls (timeouts i (Z.to_nat (Z.max 1 (c_maxRetries c))) t) !! i = Some c' ∧
    c_pc c' = PcReturned r.
Proof.
  intros Hr Hc Hp. destruct (call_ok_at _ _ _ (reachable_tinv _ Hr) Hc) as (_ & _ & Hok).
  rewrite Hp in Hok. apply (timeouts_end _ _ _ c); unfold max_sends in *; try done; lia.
Qed.

(** C23: the sequence numbers handed out run through 1 .. 0xFFFFFF and start
    again at 1, so 0xFFFFFF calls in a row get pairwise different ones. *)
Theorem nextSeqNum_distinct {H} (t : Transport H) n :
  1 ≤ seqNum t ≤ 0xFFFFFF → Z.of_nat n ≤ 0xFFFFFF →
  NoDup (next_seqs n t) ∧ Forall (λ s, 1 ≤ s ≤ 0xFFFFFF) (next_seqs n t).
Proof.
  intros Ht Hn. rewrite next_seqs_spec by done. split.
  - apply NoDup_fmap_2_strong; [|apply NoDup_seq].
    intros k1 k2 H1%elem_of_seq H2%elem_of_seq Heq.
    assert (Z.of_nat k1 - Z.of_nat k2 = 0); [|lia].
    pose proof (Z.div_mod (seqNum t - 1 + Z.of_nat k1) 0xFFFFFF ltac:(lia)).
    pose proof (Z.div_mod (seqNum t - 1 + Z.of_nat k2) 0xFFFFFF ltac:(lia)). nia.
  - apply Forall_fmap, Forall_forall. intros k _. simpl.
    pose proof (Z.mod_pos_bound (seqNum t - 1 + Z.of_nat k) 0xFFFFFF ltac:(lia)). lia.
Qed.

(** C26: a message whose sequence number belongs to a pending request is
    consumed as its response whatever its type and whoever sent it: no
    handler sees it, and the call takes it when its channel is empty.  The
    peers number their requests independently, so a peer's request can be
    swallowed this way. *)
Theorem handleMessage_pending_wins {H} (t : Transport H) msg addr i c :
  pending t !! SequenceNumber (Header msg) = Some i → calls t !! i = Some c →
  (handleMessage msg addr t).2 = ToPending i ∧
  (c_respChan c = None →
   ∃ c', calls (handleMessage msg addr t).1 !! i = Some c' ∧ c_respChan c' = Some msg).
Proof.
  intros Hp Hc. unfold handleMessage, lookup_message. rewrite Hp. split; [done|].
  intros Hn. simpl. unfold deliver. rewrite Hc, Hn. eexists. simpl. by rewrite lookup_insert_eq.
Qed.

(** ** A run of the transport, for the witnesses

    A heartbeat request with three tries: it is sent, its timer fires once,
    the peer's response arrives and the call returns it. *)
Definition demo_conn : UDPConn := mkUDPConn [] 0 (λ _, None).
Definition demo_addr : UDPAddr := mkUDPAddr (byte_of_Z <$> [127; 0; 0; 1]) 8805 EmptyString.
Definition demo0 : Transport nat := mkTransport demo_conn ∅ ∅ 1 false (go_make 65535) None ∅.
Definition demo_call0 : call := new_call (NewHeartbeatRequest 0 77) demo_addr 3.
Definition demo_get (t : Transport nat) : call := default demo_call0 (calls t !! 0%nat).
Definition demo1 := set_call 0 demo_call0 demo0.
Definition demo2 := call_alloc 0 (demo_get demo1) demo1.
Definition demo3 := call_register 0 (demo_get demo2) demo2.
Definition demo4 := call_send 0 (demo_get demo3) demo3.
Definition demo5 := call_timeout 0 (demo_get demo4) demo4.
Definition demo_response : Message := marshalled (NewHeartbeatResponse 1 78).
Definition demo6 := (receive (Message_bytes demo_response) demo_addr demo5).1.
Definition demo7 := call_response 0 (demo_get demo6) demo_response demo6.

Lemma demo_call k :
  In k [demo1; demo2; demo3; demo4; demo5; demo6; demo7] →
  calls k !! 0%nat = Some (demo_get k).
Proof. simpl. intros Hk. destruct_or! Hk; subst; by vm_compute. Qed.

Lemma demo5_reachable : reachable demo5.
Proof.
  exists demo_conn, ∅.
  eapply rtc_l; [by apply (step_call _ 0 (NewHeartbeatRequest 0 77) demo_addr 3)|].
  change (rtc tstep demo1 demo5).
  eapply rtc_l; [apply (step_alloc _ 0 (demo_get demo1)); by vm_compute|].
  eapply rtc_l; [apply (step_register _ 0 (demo_get demo2)); by vm_compute|].
  eapply rtc_l; [apply (step_send _ 0 (demo_get demo3)); by vm_compute|].
  eapply rtc_l; [apply (step_timeout _ 0 (demo_get demo4)); by vm_compute|].
  apply rtc_refl.
Qed.

Lemma demo7_reachable : reachable demo7.
Proof.
  destruct demo5_reachable as (c & hs & Hr). exists c, hs. etrans; [exact Hr|].
  eapply rtc_l; [eapply (step_receive _ (Message_bytes demo_response) demo_addr demo6);
    [done|apply surjective_pairing]|].
  eapply rtc_l; [apply (step_response _ 0 (demo_get demo6)); by vm_compute|].
  apply rtc_refl.
Qed.

Lemma SendRequest_response_matches_witness :
  SequenceNumber (Header demo_response) = c_seq (demo_get demo7) ∧
  1 ≤ c_seq (demo_get demo7) < 2 ^ 24.
Proof.
  apply (SendRequest_response_matches demo7 0);
    [apply demo7_reachable|by vm_compute|by vm_compute].
Defined.

(** Two transmissions while the call waits, and a third when its timer fires
    again. *)
Lemma SendRequest_transmissions_witness :
  c_sends (demo_get demo5) = 2%nat ∧ (2 ≤ copies (written (conn demo5)) (demo_get demo5))%nat ∧
  writes (conn (call_timeout 0 (demo_get demo5) demo5)) = 3%nat.
Proof.
  assert (calls demo5 !! 0%nat = Some (demo_get demo5)) as Hc by by vm_compute.
  pose proof (SendRequest_transmissions demo5 0 (demo_get demo5) demo5_reachable Hc) as H.
  cbv zeta in H. split; [by vm_compute|].
  assert (c_pc (demo_get demo5) = PcSelect) as Hp by by vm_compute. rewrite Hp in H.
  assert ((c_maxRetries (demo_get demo5) <=? c_attempts (demo_get demo5) + 1) = false) as Hm
    by by vm_compute.
  rewrite Hm in H. destruct H as (_ & _ & H1 & H2 & _). split.
  - by replace (c_sends (demo_get demo5)) with 2%nat in H1 by (by vm_compute).
  - rewrite H2. by vm_compute.
Defined.

Lemma pending_no_leak_witness :
  ∃ c, calls demo5 !! 0%nat = Some c ∧ c_seq c = 1 ∧
    (c_pc c = PcSend ∨ c_pc c = PcSelect).
Proof. apply pending_no_leak; [apply demo5_reachable|by vm_compute]. Defined.

Lemma SendRequest_returns_witness :
  ∃ c' r, calls (timeouts 0 (Z.to_nat (Z.max 1 3)) demo5) !! 0%nat = Some c' ∧
    c_pc c' = PcReturned r.
Proof.
  apply (SendRequest_returns demo5 0 (demo_get demo5));
    [apply demo5_reachable|by vm_compute|by vm_compute].
Defined.

Lemma nextSeqNum_distinct_witness :
  next_seqs 3 (set_seqNum 0xFFFFFE demo0) = [0xFFFFFE; 0xFFFFFF; 1] ∧
  NoDup (next_seqs 3 (set_seqNum 0xFFFFFE demo0)) ∧
  Forall (λ s, 1 ≤ s ≤ 0xFFFFFF) (next_seqs 3 (set_seqNum 0xFFFFFE demo0)).
Proof. split; [by vm_compute|]. apply nextSeqNum_distinct; simpl; lia. Defined.

(** The peer's own heartbeat request, sequence number 1, is taken for the
    response. *)
Lemma handleMessage_pending_wins_witness :
  (handleMessage (NewHeartbeatRequest 1 99) demo_addr demo5).2 = ToPending 0 ∧
  (c_respChan (demo_get demo5) = None →
   ∃ c', calls (handleMessage (NewHeartbeatRequest 1 99) demo_addr demo5).1 !! 0%nat = Some c' ∧
     c_respChan c' = Some (NewHeartbeatRequest 1 99)).
Proof. apply handleMessage_pending_wins; by vm_compute. Defined.
