(* ===== verification/UpTypes.v ===== *)
(** * The user plane's data

    The session and rule types of [pkg/up/up.go].  The Go code stores rules
    behind pointers, but a rule is never written to after it has been put in
    a session or handed to the dataplane, so its value stands for it. *)
From S2P Require Import Prelude Bytes.

Record PDI := mkPDI {
  SourceInterface : Z;
  SDFFilter : list byte;
  UE_IPAddress : string;
  NetworkInstance : string;
  ApplicationID : string;
}.

(** [PDR_PDI] is the pointer field [PDI]. *)
Record PDR := mkPDR {
  PDR_ID : Z;
  Precedence : Z;
  PDR_FAR_ID : Z;
  PDR_PDI : option PDI;
}.

Record FAR := mkFAR { FAR_ID : Z; ApplyAction : Z }.
Record QER := mkQER { QER_ID : Z }.
Record URR := mkURR { URR_ID : Z }.

Record Session := mkSession {
  LocalSEID : Z;
  RemoteSEID : Z;
  PDRs : gmap Z PDR;
  FARs : gmap Z FAR;
  QERs : gmap Z QER;
  URRs : gmap Z URR;
  CreatedAt : Z;
}.

#[export] Instance PDI_eq_dec : EqDecision PDI.
Proof. solve_decision. Defined.
#[export] Instance PDR_eq_dec : EqDecision PDR.
Proof. solve_decision. Defined.
#[export] Instance FAR_eq_dec : EqDecision FAR.
Proof. solve_decision. Defined.
#[export] Instance QER_eq_dec : EqDecision QER.
Proof. solve_decision. Defined.
#[export] Instance URR_eq_dec : EqDecision URR.
Proof. solve_decision. Defined.
#[export] Instance Session_eq_dec : EqDecision Session.
Proof. solve_decision. Defined.
