(* ===== verification/Dataplane.v ===== *)
(** * The dataplane interface

    [pkg/up/dataplane.go]: the operations the user plane calls, as a class,
    and what it relies on, as a second class of laws.  The user plane's
    theorems are proved against the laws; the two implementations, the mock
    and VPP, discharge them.

    The laws speak of an implementation through two views, the rules
    installed for a session, and through [has_session], which tells whether
    the implementation accepts forwarding rules for the session (VPP refuses
    them until a detection rule has been installed).  They do not say that a
    call returns: an implementation may report an error after it has recorded
    the rule, or not come back at all. *)
From S2P Require Import Prelude Bytes UpTypes.

Class Dataplane (D : Type) := {
  InstallPDR : Z → PDR → go D ();
  RemovePDR : Z → Z → go D ();
  InstallFAR : Z → FAR → go D ();
  RemoveFAR : Z → Z → go D ();
  InstallQER : Z → QER → go D ();
  RemoveQER : Z → Z → go D ();
  InstallURR : Z → URR → go D ();
  RemoveURR : Z → Z → go D ();
  DeleteSession : Z → go D ();
}.

Class DataplaneLaws (D : Type) `{!Dataplane D} := {
  installed_pdr : D → Z → Z → option PDR;
  installed_far : D → Z → Z → option FAR;
  has_session : D → Z → Prop;

  InstallPDR_pdr d seid pdr s i :
    installed_pdr (InstallPDR seid pdr d).1 s i =
      if decide (s = seid ∧ i = PDR_ID pdr) then Some pdr else installed_pdr d s i;
  InstallPDR_far d seid pdr s i :
    installed_far (InstallPDR seid pdr d).1 s i = installed_far d s i;
  InstallPDR_session d seid pdr s :
    has_session (InstallPDR seid pdr d).1 s ↔ s = seid ∨ has_session d s;

  InstallFAR_pdr d seid far s i :
    installed_pdr (InstallFAR seid far d).1 s i = installed_pdr d s i;
  InstallFAR_far d seid far s i :
    has_session d seid →
    installed_far (InstallFAR seid far d).1 s i =
      if decide (s = seid ∧ i = FAR_ID far) then Some far else installed_far d s i;
  InstallFAR_far_other d seid far s i :
    s ≠ seid → installed_far (InstallFAR seid far d).1 s i = installed_far d s i;
  InstallFAR_session d seid far s :
    has_session (InstallFAR seid far d).1 s ↔ has_session d s;

  DeleteSession_pdr d seid s i :
    installed_pdr (DeleteSession seid d).1 s i =
      if decide (s = seid) then None else installed_pdr d s i;
  DeleteSession_far d seid s i :
    installed_far (DeleteSession seid d).1 s i =
      if decide (s = seid) then None else installed_far d s i;
  DeleteSession_session d seid s :
    s ≠ seid → has_session (DeleteSession seid d).1 s ↔ has_session d s;
}.
