(* ===== verification/Mock.v ===== *)
(** * The mock dataplane

    [pkg/dataplane/mock/mock.go]: four two-level maps.  A missing inner map
    is a nil Go map: reading it finds nothing, deleting from it is skipped by
    the code, and the install operations create it first. *)
From S2P Require Import Prelude Bytes UpTypes Dataplane.

Record MockDataplane := mkMockDataplane {
  pdrs : gmap Z (gmap Z PDR);
  fars : gmap Z (gmap Z FAR);
  qers : gmap Z (gmap Z QER);
  urrs : gmap Z (gmap Z URR);
}.

Definition NewMockDataplane : MockDataplane := mkMockDataplane ∅ ∅ ∅ ∅.

(** [if m[seid] == nil { m[seid] = make(...) }; m[seid][id] = rule]. *)
Definition install {R} (seid id : Z) (rule : R) (m : gmap Z (gmap Z R)) : gmap Z (gmap Z R) :=
  let m := match m !! seid with None => <[seid := ∅]> m | Some _ => m end in
  alter (λ rules, <[id := rule]> rules) seid m.

(** [if m[seid] != nil { delete(m[seid], id) }]. *)
Definition remove {R} (seid id : Z) (m : gmap Z (gmap Z R)) : gmap Z (gmap Z R) :=
  match m !! seid with
  | Some _ => alter (λ rules, delete id rules) seid m
  | None => m
  end.

Definition mock_InstallPDR (seid : Z) (pdr : PDR) : go MockDataplane () := λ m,
  (mkMockDataplane (install seid (PDR_ID pdr) pdr (pdrs m)) (fars m) (qers m) (urrs m), Ok tt).
Definition mock_RemovePDR (seid pdrID : Z) : go MockDataplane () := λ m,
  (mkMockDataplane (remove seid pdrID (pdrs m)) (fars m) (qers m) (urrs m), Ok tt).
Definition mock_InstallFAR (seid : Z) (far : FAR) : go MockDataplane () := λ m,
  (mkMockDataplane (pdrs m) (install seid (FAR_ID far) far (fars m)) (qers m) (urrs m), Ok tt).
Definition mock_RemoveFAR (seid farID : Z) : go MockDataplane () := λ m,
  (mkMockDataplane (pdrs m) (remove seid farID (fars m)) (qers m) (urrs m), Ok tt).
Definition mock_InstallQER (seid : Z) (qer : QER) : go MockDataplane () := λ m,
  (mkMockDataplane (pdrs m) (fars m) (install seid (QER_ID qer) qer (qers m)) (urrs m), Ok tt).
Definition mock_RemoveQER (seid qerID : Z) : go MockDataplane () := λ m,
  (mkMockDataplane (pdrs m) (fars m) (remove seid qerID (qers m)) (urrs m), Ok tt).
Definition mock_InstallURR (seid : Z) (urr : URR) : go MockDataplane () := λ m,
  (mkMockDataplane (pdrs m) (fars m) (qers m) (install seid (URR_ID urr) urr (urrs m)), Ok tt).
Definition mock_RemoveURR (seid urrID : Z) : go MockDataplane () := λ m,
  (mkMockDataplane (pdrs m) (fars m) (qers m) (remove seid urrID (urrs m)), Ok tt).

Definition mock_DeleteSession (seid : Z) : go MockDataplane () := λ m,
  (mkMockDataplane (delete seid (pdrs m)) (delete seid (fars m)) (delete seid (qers m))
     (delete seid (urrs m)), Ok tt).

(** [len] of a map that may be nil. *)
Definition rule_count {R} (seid : Z) (m : gmap Z (gmap Z R)) : Z :=
  Z.of_nat (size (default ∅ (m !! seid))).

Definition GetSessionRules (seid : Z) (m : MockDataplane) : res (Z * Z * Z * Z) :=
  match pdrs m !! seid with
  | None => Err (Errorf "session %d not found" [AInt seid])
  | Some _ => Ok (rule_count seid (pdrs m), rule_count seid (fars m),
                  rule_count seid (qers m), rule_count seid (urrs m))
  end.

#[export] Instance mock_dataplane : Dataplane MockDataplane := {
  InstallPDR := mock_InstallPDR;
  RemovePDR := mock_RemovePDR;
  InstallFAR := mock_InstallFAR;
  RemoveFAR := mock_RemoveFAR;
  InstallQER := mock_InstallQER;
  RemoveQER := mock_RemoveQER;
  InstallURR := mock_InstallURR;
  RemoveURR := mock_RemoveURR;
  DeleteSession := mock_DeleteSession;
}.

(** The rule with an id in a session. *)
Definition rule {R} (m : gmap Z (gmap Z R)) (seid id : Z) : option R :=
  m !! seid ≫= (.!! id).

(** ** Lemmas *)

Lemma rule_install {R} seid id (r : R) m s i :
  rule (install seid id r m) s i =
    if decide (s = seid ∧ i = id) then Some r else rule m s i.
Proof.
  unfold rule, install. destruct (decide (s = seid)) as [->|Hs].
  - destruct (m !! seid) as [rs|] eqn:Hm.
    + rewrite lookup_alter_eq, Hm. simpl. rewrite lookup_insert.
      repeat case_decide; naive_solver.
    + rewrite lookup_alter_eq, lookup_insert_eq. simpl. rewrite lookup_insert.
      repeat case_decide; naive_solver.
  - rewrite lookup_alter_ne by done. rewrite decide_False by naive_solver.
    destruct (m !! seid); [done|]. by rewrite lookup_insert_ne.
Qed.

Lemma rule_remove {R} seid id (m : gmap Z (gmap Z R)) s i :
  rule (remove seid id m) s i = if decide (s = seid ∧ i = id) then None else rule m s i.
Proof.
  unfold rule, remove. destruct (decide (s = seid)) as [->|Hs].
  - destruct (m !! seid) as [rs|] eqn:Hm.
    + rewrite lookup_alter_eq, Hm. simpl. rewrite lookup_delete.
      repeat case_decide; naive_solver.
    + rewrite Hm. simpl. by case_decide.
  - rewrite decide_False by naive_solver.
    destruct (m !! seid); [|done]. by rewrite lookup_alter_ne.
Qed.

Lemma rule_delete {R} seid (m : gmap Z (gmap Z R)) s i :
  rule (delete seid m) s i = if decide (s = seid) then None else rule m s i.
Proof.
  unfold rule. rewrite lookup_delete. repeat case_decide; by simplify_eq.
Qed.

(** The mock takes forwarding rules for any session. *)
#[export] Instance mock_laws : DataplaneLaws MockDataplane.
Proof.
  refine {| installed_pdr d := rule (pdrs d); installed_far d := rule (fars d);
            has_session _ _ := True |}; intros; simpl; try done.
  all: by first [apply rule_install | apply rule_delete
    | rewrite rule_install, decide_False by naive_solver | naive_solver].
Defined.
