(* ===== verification/Up.v ===== *)
(** * The user plane function

    [pkg/up/up.go] and [pkg/up/handlers.go], over any dataplane.  A handler
    is a stateful call on the function's whole state; the datagrams it sends
    end up in the transport's connection.  [up_receive] is one round of the
    receive loop together with the handler it starts: both run in the
    transport's one receiving goroutine, so handlers never overlap each
    other. *)
From S2P Require Import Prelude Bytes Constants Header Ie Messages Transport UpTypes Dataplane.

(** The names of the registered methods. *)
Inductive UPHandler :=
  | HSessionEstablishmentRequest
  | HSessionModificationRequest
  | HSessionDeletionRequest
  | HHeartbeatRequest.

Record Config := mkConfig {
  NodeID : string;
  CPAddress : string;
  LocalAddr : string;
  HeartbeatInterval : Z;
}.

Record UPFunction (D : Type) := mkUPFunction {
  config : Config;
  nodeID : list byte;
  recoveryTS : Z;
  transport : Transport UPHandler;
  cpAddr : UDPAddr;
  sessions : gmap Z Session;
  dataplane : D;
}.
Arguments mkUPFunction {D}.
Arguments config {D}.
Arguments nodeID {D}.
Arguments recoveryTS {D}.
Arguments transport {D}.
Arguments cpAddr {D}.
Arguments sessions {D}.
Arguments dataplane {D}.

(** ** Reading rules out of information elements *)

(** [var pdr PDR; pdr.PDI = &PDI{}] and [var far FAR]. *)
Definition PDI_zero : PDI := mkPDI 0 [] EmptyString EmptyString EmptyString.
Definition PDR_zero : PDR := mkPDR 0 0 0 (Some PDI_zero).
Definition FAR_zero : FAR := mkFAR 0 0.

(** [id, _ := get()]: the zero value stands in for an error. *)
Definition or_zero (r : res Z) : Z := match r with Ok z => z | _ => 0 end.

(** The inner switch, on an element of the PDI. *)
Definition set_pdi_field (pdi : PDI) (pdiIE : IE) : res PDI :=
  let t := Type_ pdiIE in
  let v := Value pdiIE in
  if t =? IETypeSourceInterface then
    if 0 <? len v
    then b ← go_index v 0;
         Ok (mkPDI (Z_of_byte b) (SDFFilter pdi) (UE_IPAddress pdi) (NetworkInstance pdi)
               (ApplicationID pdi))
    else Ok pdi
  else if t =? IETypeSDFFilter then
    Ok (mkPDI (SourceInterface pdi) v (UE_IPAddress pdi) (NetworkInstance pdi)
          (ApplicationID pdi))
  else if t =? IETypeUE_IPAddress then
    Ok (mkPDI (SourceInterface pdi) (SDFFilter pdi) (string_of_bytes v) (NetworkInstance pdi)
          (ApplicationID pdi))
  else if t =? IETypeNetworkInstance then
    Ok (mkPDI (SourceInterface pdi) (SDFFilter pdi) (UE_IPAddress pdi) (string_of_bytes v)
          (ApplicationID pdi))
  else if t =? IETypeApplicationID then
    Ok (mkPDI (SourceInterface pdi) (SDFFilter pdi) (UE_IPAddress pdi) (NetworkInstance pdi)
          (string_of_bytes v))
  else Ok pdi.

(** [pdr.PDI.Field = ...]: the pointer is followed. *)
Definition on_pdi (f : PDI → res PDI) (pdr : PDR) : res PDR :=
  match PDR_PDI pdr with
  | Some pdi =>
    pdi ← f pdi; Ok (mkPDR (PDR_ID pdr) (Precedence pdr) (PDR_FAR_ID pdr) (Some pdi))
  | None => Panic NilDereference
  end.

(** The outer switch, on an element of the detection rule. *)
Definition set_pdr_field (pdr : PDR) (ie : IE) : res PDR :=
  let t := Type_ ie in
  if t =? IETypePDR_ID then
    Ok (mkPDR (or_zero (GetPDR_ID ie)) (Precedence pdr) (PDR_FAR_ID pdr) (PDR_PDI pdr))
  else if t =? IETypePrecedence then
    Ok (mkPDR (PDR_ID pdr) 0 (PDR_FAR_ID pdr) (PDR_PDI pdr))
  else if t =? IETypeFAR_ID then
    Ok (mkPDR (PDR_ID pdr) (Precedence pdr) (or_zero (GetFAR_ID ie)) (PDR_PDI pdr))
  else if t =? IETypePDI then
    match ParseGroupedIE (Value ie) with
    | Ok pdiIEs => fold_res (λ pdr pdiIE, on_pdi (λ pdi, set_pdi_field pdi pdiIE) pdr) pdr pdiIEs
    | Err _ => Ok pdr
    | Panic p => Panic p
    | Hang => Hang
    end
  else Ok pdr.

(** The switch on an element of the forwarding rule. *)
Definition set_far_field (far : FAR) (ie : IE) : res FAR :=
  let t := Type_ ie in
  if t =? IETypeFAR_ID then Ok (mkFAR (or_zero (GetFAR_ID ie)) (ApplyAction far))
  else if t =? IETypeApplyAction then
    if 0 <? len (Value ie)
    then b ← go_index (Value ie) 0; Ok (mkFAR (FAR_ID far) (Z_of_byte b))
    else Ok far
  else Ok far.

(** [session.PDRs[pdr.ID] = &pdr] and [session.FARs[far.ID] = &far]. *)
Definition put_PDR (pdr : PDR) (s : Session) : Session :=
  mkSession (LocalSEID s) (RemoteSEID s) (<[PDR_ID pdr := pdr]> (PDRs s)) (FARs s) (QERs s)
    (URRs s) (CreatedAt s).
Definition put_FAR (far : FAR) (s : Session) : Session :=
  mkSession (LocalSEID s) (RemoteSEID s) (PDRs s) (<[FAR_ID far := far]> (FARs s)) (QERs s)
    (URRs s) (CreatedAt s).

(** ** [allocSEID] *)

(** [for seid := uint64(1); ; seid++]: the search ends at the latest one past
    the number of sessions, which is the fuel. *)
Fixpoint alloc_from {V} (fuel : nat) (seid : Z) (m : gmap Z V) : res Z :=
  match fuel with
  | O => Hang
  | S fuel =>
    match m !! seid with
    | None => Ok seid
    | Some _ => alloc_from fuel (u64 (seid + 1)) m
    end
  end.

Section up.
Context {D : Type} `{!Dataplane D}.
Implicit Types up : UPFunction D.

Definition set_transport (t : Transport UPHandler) up : UPFunction D :=
  mkUPFunction (config up) (nodeID up) (recoveryTS up) t (cpAddr up) (sessions up)
    (dataplane up).
Definition set_sessions (s : gmap Z Session) up : UPFunction D :=
  mkUPFunction (config up) (nodeID up) (recoveryTS up) (transport up) (cpAddr up) s
    (dataplane up).
Definition set_dataplane (d : D) up : UPFunction D :=
  mkUPFunction (config up) (nodeID up) (recoveryTS up) (transport up) (cpAddr up)
    (sessions up) d.

Definition on_conn {A} (m : go UDPConn A) : go (UPFunction D) A :=
  zoom (λ up, conn (transport up)) (λ c up, set_transport (set_conn c (transport up)) up) m.

Definition allocSEID up : res Z := alloc_from (S (size (sessions up))) 1 (sessions up).

(** ** Handlers *)

(** The body of the loop over the Create PDR elements. *)
Definition create_PDR (seid : Z) (createPDR : IE) : go (Session * D) () := λ '(s, d),
  match ParseGroupedIE (Value createPDR) with
  | Err _ => ((s, d), Ok tt)
  | Ok pdrIEs =>
    match fold_res set_pdr_field PDR_zero pdrIEs with
    | Ok pdr =>
      let s := put_PDR pdr s in
      let '(d, r) := discard (InstallPDR seid pdr) d in ((s, d), r)
    | Err e => ((s, d), Err e)
    | Panic p => ((s, d), Panic p)
    | Hang => ((s, d), Hang)
    end
  | Panic p => ((s, d), Panic p)
  | Hang => ((s, d), Hang)
  end.

(** The body of the loop over the Create FAR elements. *)
Definition create_FAR (seid : Z) (createFAR : IE) : go (Session * D) () := λ '(s, d),
  match ParseGroupedIE (Value createFAR) with
  | Err _ => ((s, d), Ok tt)
  | Ok farIEs =>
    match fold_res set_far_field FAR_zero farIEs with
    | Ok far =>
      let s := put_FAR far s in
      let '(d, r) := discard (InstallFAR seid far) d in ((s, d), r)
    | Err e => ((s, d), Err e)
    | Panic p => ((s, d), Panic p)
    | Hang => ((s, d), Hang)
    end
  | Panic p => ((s, d), Panic p)
  | Hang => ((s, d), Hang)
  end.

Definition handleSessionEstablishmentRequest (now : Z) (msg : Message) (addr : UDPAddr) :
    go (UPFunction D) () :=
  up ← gget;
  seid ← lift (allocSEID up);
  let session := mkSession seid (SEID (Header msg)) ∅ ∅ ∅ ∅ now in
  let createPDRs := FindAllIEs msg IETypeCreatePDR in
  let createFARs := FindAllIEs msg IETypeCreateFAR in
  let '((session, d), r) :=
    (_ ← for_each createPDRs (create_PDR seid);
     for_each createFARs (create_FAR seid)) (session, dataplane up) in
  _ ← gmodify (set_dataplane d);
  _ ← lift r;
  _ ← gmodify (λ up, set_sessions (<[seid := session]> (sessions up)) up);
  let resp := NewSessionEstablishmentResponse (SequenceNumber (Header msg))
                (SEID (Header msg)) CauseRequestAccepted seid in
  on_conn (SendResponse resp addr).

Definition handleSessionModificationRequest (msg : Message) (addr : UDPAddr) :
    go (UPFunction D) () :=
  let resp := mkMessage
    {| Version := Version1; FollowOn := false; MessagePriority := false; SEIDPresent := true;
       MessageType := MsgTypeSessionModificationResponse; MessageLength := 0;
       SEID := SEID (Header msg); SequenceNumber := SequenceNumber (Header msg);
       Priority := 0 |}
    [NewCauseIE CauseRequestAccepted] in
  on_conn (SendResponse resp addr).

Definition handleSessionDeletionRequest (msg : Message) (addr : UDPAddr) :
    go (UPFunction D) () :=
  let seid := SEID (Header msg) in
  _ ← gmodify (λ up, set_sessions (delete seid (sessions up)) up);
  _ ← discard (zoom dataplane set_dataplane (DeleteSession seid));
  let resp := NewSessionDeletionResponse (SequenceNumber (Header msg)) (SEID (Header msg))
                CauseRequestAccepted in
  on_conn (SendResponse resp addr).

Definition handleHeartbeatRequest (msg : Message) (addr : UDPAddr) : go (UPFunction D) () :=
  up ← gget;
  let resp := NewHeartbeatResponse (SequenceNumber (Header msg)) (recoveryTS up) in
  on_conn (SendResponse resp addr).

Definition run_handler (h : UPHandler) (now : Z) (msg : Message) (addr : UDPAddr) :
    go (UPFunction D) () :=
  match h with
  | HSessionEstablishmentRequest => handleSessionEstablishmentRequest now msg addr
  | HSessionModificationRequest => handleSessionModificationRequest msg addr
  | HSessionDeletionRequest => handleSessionDeletionRequest msg addr
  | HHeartbeatRequest => handleHeartbeatRequest msg addr
  end.

(** ** Life cycle *)

Definition registerHandlers (t : Transport UPHandler) : Transport UPHandler :=
  let t := RegisterHandler MsgTypeSessionEstablishmentRequest HSessionEstablishmentRequest t in
  let t := RegisterHandler MsgTypeSessionModificationRequest HSessionModificationRequest t in
  let t := RegisterHandler MsgTypeSessionDeletionRequest HSessionDeletionRequest t in
  RegisterHandler MsgTypeHeartbeatRequest HHeartbeatRequest t.

(** [newTransport] and [resolve] are what opening the socket and resolving
    the control plane's address give; [now] is the clock in seconds. *)
Definition NewUPFunction (cfg : Config) (dp : D) (newTransport : res (Transport UPHandler))
    (resolve : string → res UDPAddr) (now : Z) : res (UPFunction D) :=
  t ← wrap_res (Wrapf "create transport: %w" []) newTransport;
  a ← wrap_res (Wrapf "resolve CP address: %w" []) (resolve (CPAddress cfg));
  Ok (mkUPFunction cfg (bytes_of_string (NodeID cfg)) (u32 now) (registerHandlers t) a ∅ dp).

(** [establishAssociation], with the transport's [SendRequest] to the control
    plane as an argument. *)
Definition establishAssociation (SendRequest : Message → UDPAddr → res Message) up : res () :=
  let req := NewAssociationSetupRequest 0 (nodeID up) (recoveryTS up) in
  resp ← wrap_res (Wrapf "send association setup request: %w" [])
           (SendRequest req (cpAddr up));
  match FindIE resp IETypeCause with
  | None => Err (Errorf "no cause IE in response" [])
  | Some causeIE =>
    match GetCause causeIE with
    | Ok cause =>
      if cause =? CauseRequestAccepted then Ok tt
      else Err (Errorf "association setup rejected: cause=%d" [AInt cause])
    | _ => Err (Errorf "association setup rejected: cause=%d" [AInt 0])
    end
  end.

(** One round of the receive loop with the handler it calls; the handler's
    error is dropped. *)
Definition up_receive (now : Z) (datagram : list byte) (addr : UDPAddr) :
    go (UPFunction D) () :=
  '(msg, d) ← zoom transport set_transport (receive datagram addr);
  match d with
  | ToHandler h addr => discard (run_handler h now msg addr)
  | ToPending _ | Ignored => mret tt
  end.

End up.

(** ** [allocSEID] *)

Lemma alloc_from_Ok {V} fuel seid (m : gmap Z V) s :
  0 ≤ seid → seid + Z.of_nat fuel ≤ 2 ^ 64 → alloc_from fuel seid m = Ok s →
  seid ≤ s < seid + Z.of_nat fuel ∧ m !! s = None ∧
  ∀ k, seid ≤ k < s → is_Some (m !! k).
Proof.
  revert seid. induction fuel as [|fuel IH]; intros seid H0 Hf; [done|]. cbn [alloc_from].
  destruct (m !! seid) as [v|] eqn:Hm.
  - intros Ha. destruct (decide (fuel = 0%nat)) as [->|Hfuel]; [done|].
    rewrite u64_id in Ha by (widths; lia).
    destruct (IH (seid + 1) ltac:(lia) ltac:(lia) Ha) as (Hs & Hn & Hk).
    split_and!; [lia..|done|]. intros k Hk'.
    destruct (decide (k = seid)) as [->|]; [by rewrite Hm|]. apply Hk. lia.
  - intros [= <-]. split_and!; [lia..|done|]. lia.
Qed.

Lemma alloc_from_Hang {V} fuel seid (m : gmap Z V) :
  0 ≤ seid → seid + Z.of_nat fuel ≤ 2 ^ 64 →
  (∃ s, alloc_from fuel seid m = Ok s) ∨
  alloc_from fuel seid m = Hang ∧ ∀ k, seid ≤ k < seid + Z.of_nat fuel → is_Some (m !! k).
Proof.
  revert seid. induction fuel as [|fuel IH]; intros seid H0 Hf; [right; split; [done|lia]|].
  cbn [alloc_from]. destruct (m !! seid) as [v|] eqn:Hm; [|eauto].
  destruct (decide (fuel = 0%nat)) as [->|Hfuel].
  { right. split; [done|]. intros k Hk. replace k with seid by lia. by rewrite Hm. }
  rewrite u64_id by (widths; lia).
  destruct (IH (seid + 1) ltac:(lia) ltac:(lia)) as [?|[-> Hk]]; [by left|].
  right. split; [done|]. intros k Hk'.
  destruct (decide (k = seid)) as [->|]; [by rewrite Hm|]. apply Hk. lia.
Qed.

(** Keys that fill an interval are at most as many as the entries. *)
Lemma keys_interval_size {V} (m : gmap Z V) lo n :
  (∀ k, lo ≤ k < lo + Z.of_nat n → is_Some (m !! k)) → (n ≤ size m)%nat.
Proof.
  intros Hk.
  assert (n = size (list_to_set (seqZ lo (Z.of_nat n)) : gset Z)) as ->.
  { rewrite size_list_to_set by apply NoDup_seqZ. rewrite length_seqZ. lia. }
  rewrite <- (size_dom (D := gset Z)). apply subseteq_size. intros k.
  rewrite elem_of_list_to_set, elem_of_seqZ, elem_of_dom. apply Hk.
Qed.

Lemma alloc_from_total {V} (m : gmap Z V) :
  Z.of_nat (size m) < 2 ^ 64 - 1 →
  ∃ s, alloc_from (S (size m)) 1 m = Ok s ∧ 1 ≤ s ≤ Z.of_nat (size m) + 1 ∧
    m !! s = None ∧ ∀ k, 1 ≤ k < s → is_Some (m !! k).
Proof.
  intros Hsz. destruct (alloc_from_Hang (S (size m)) 1 m) as [[s Hs]|[_ Hk]]; [lia..| |].
  - exists s. split; [done|].
    destruct (alloc_from_Ok (S (size m)) 1 m s) as (? & ? & ?); [lia..|done|].
    split_and!; [lia..|done|done].
  - apply keys_interval_size in Hk. lia.
Qed.

(** ** Rules read from well-formed elements *)

Definition pdr_ok (p : PDR) : Prop :=
  is_u16 (PDR_ID p) ∧ Precedence p = 0 ∧ is_u32 (PDR_FAR_ID p) ∧ is_Some (PDR_PDI p).

Definition far_ok (f : FAR) : Prop := is_u32 (FAR_ID f) ∧ is_u8 (ApplyAction f).

Lemma ParseGroupedIE_cases data :
  len data < 65536 →
  (∃ ies, ParseGroupedIE data = Ok ies ∧ Forall IE_ok ies) ∨ ∃ e, ParseGroupedIE data = Err e.
Proof.
  intros Hd. unfold ParseGroupedIE.
  pose proof (unmarshal_ies_no_panic (length data) data [] Hd ltac:(lia)) as Hr.
  pose proof (unmarshal_ies_ok (length data) data [] ltac:(by constructor)) as Hok.
  destruct (unmarshal_ies _ _ _) as [ies [[]|e|p|]]; simpl in *; eauto; done.
Qed.

Lemma IE_ok_len ie : IE_ok ie → len (Value ie) < 65536.
Proof. intros [_ _ H]. unfold IE_length in H. case_match; lia. Qed.

Lemma Forall_FindAllIEs msg t : Forall IE_ok (IEs msg) → Forall IE_ok (FindAllIEs msg t).
Proof.
  rewrite !List.Forall_forall. unfold FindAllIEs.
  intros Hf ie [Hin _]%List.filter_In. auto.
Qed.

(** ** What the handler makes of a rule's elements

    An independent account of the switches: a field takes the last element
    that sets it.  The elements of all the readable PDI groups count as one
    list. *)

(** The last element with a property. *)
Definition last_where (P : IE → Prop) `{∀ ie, Decision (P ie)} (ies : list IE) : option IE :=
  list.last (filter P ies).
Definition last_of (t : Z) : list IE → option IE := last_where (λ ie, Type_ ie = t).

(** A numeric id of [n] bytes; a value too short for it reads as 0. *)
Definition id_of (n : nat) (o : option IE) : Z :=
  from_option (λ ie, if Z.of_nat n <=? len (Value ie) then be_get (take n (Value ie)) else 0) 0 o.

(** An octet; elements without a value are passed over. *)
Definition octet_of (t : Z) (ies : list IE) : Z :=
  from_option (λ ie, from_option Z_of_byte 0 (head (Value ie))) 0
    (last_where (λ ie, Type_ ie = t ∧ Value ie ≠ []) ies).

Definition value_of (t : Z) (ies : list IE) : list byte :=
  from_option Value [] (last_of t ies).

Definition pdi_of (ies : list IE) : PDI :=
  mkPDI (octet_of IETypeSourceInterface ies) (value_of IETypeSDFFilter ies)
    (string_of_bytes (value_of IETypeUE_IPAddress ies))
    (string_of_bytes (value_of IETypeNetworkInstance ies))
    (string_of_bytes (value_of IETypeApplicationID ies)).

(** The elements inside a group that can be read, none otherwise. *)
Definition group_of (ie : IE) : option (list IE) :=
  match ParseGroupedIE (Value ie) with Ok ies => Some ies | _ => None end.

Definition pdi_elements (ies : list IE) : list IE :=
  concat (omap group_of (filter (λ ie, Type_ ie = IETypePDI) ies)).

(** The Precedence element is not read. *)
Definition pdr_of (ies : list IE) : PDR :=
  mkPDR (id_of 2 (last_of IETypePDR_ID ies)) 0 (id_of 4 (last_of IETypeFAR_ID ies))
    (Some (pdi_of (pdi_elements ies))).

Definition far_of (ies : list IE) : FAR :=
  mkFAR (id_of 4 (last_of IETypeFAR_ID ies)) (octet_of IETypeApplyAction ies).

(** The rules a message asks for, in order: those of its readable Create
    elements. *)
Definition requested_PDRs (msg : Message) : list PDR :=
  pdr_of <$> omap group_of (FindAllIEs msg IETypeCreatePDR).
Definition requested_FARs (msg : Message) : list FAR :=
  far_of <$> omap group_of (FindAllIEs msg IETypeCreateFAR).

Lemma last_where_snoc P `{∀ ie, Decision (P ie)} ies ie :
  last_where P (ies ++ [ie]) = if decide (P ie) then Some ie else last_where P ies.
Proof.
  unfold last_where. rewrite list.filter_app, filter_cons, filter_nil.
  case_decide; [by rewrite last_snoc|by rewrite app_nil_r].
Qed.

Lemma last_of_snoc t ies ie :
  last_of t (ies ++ [ie]) = if decide (Type_ ie = t) then Some ie else last_of t ies.
Proof. apply last_where_snoc. Qed.

Lemma value_of_snoc t ies ie :
  value_of t (ies ++ [ie]) = if decide (Type_ ie = t) then Value ie else value_of t ies.
Proof. unfold value_of. rewrite last_of_snoc. by case_decide. Qed.

Lemma octet_of_snoc t ies ie :
  octet_of t (ies ++ [ie]) =
    match Value ie with
    | b :: _ => if decide (Type_ ie = t) then Z_of_byte b else octet_of t ies
    | [] => octet_of t ies
    end.
Proof.
  unfold octet_of. rewrite last_where_snoc.
  destruct (Value ie) as [|b v] eqn:E; [by rewrite decide_False by naive_solver|].
  case_decide as Ht; destruct (decide (Type_ ie = t)); try naive_solver.
  simpl. by rewrite E.
Qed.

Lemma pdi_elements_snoc ies ie :
  pdi_elements (ies ++ [ie]) =
    pdi_elements ies ++
      if decide (Type_ ie = IETypePDI) then default [] (group_of ie) else [].
Proof.
  unfold pdi_elements. rewrite list.filter_app, omap_app, concat_app. f_equal.
  rewrite filter_cons, filter_nil. case_decide; [|done]. simpl.
  destruct (group_of ie); simpl; by rewrite ?app_nil_r.
Qed.

(** The comparison of types of the switches. *)
Lemma eqb_decide {A} (x y : Z) (a b : A) :
  (if x =? y then a else b) = if decide (x = y) then a else b.
Proof. destruct (Z.eqb_spec x y); by case_decide. Qed.

Lemma or_zero_PDR_ID ie : Type_ ie = IETypePDR_ID → or_zero (GetPDR_ID ie) = id_of 2 (Some ie).
Proof.
  intros Ht. unfold id_of. rewrite GetPDR_ID_spec, bool_decide_true by done. simpl.
  change (Z.of_nat 2) with 2. by destruct (2 <=? len (Value ie)).
Qed.

Lemma or_zero_FAR_ID ie : Type_ ie = IETypeFAR_ID → or_zero (GetFAR_ID ie) = id_of 4 (Some ie).
Proof.
  intros Ht. unfold id_of. rewrite GetFAR_ID_spec, bool_decide_true by done. simpl.
  change (Z.of_nat 4) with 4. by destruct (4 <=? len (Value ie)).
Qed.

(** Go through the cases of a switch: once the type is known, the other
    comparisons evaluate. *)
Ltac on_types ie tac :=
  repeat match goal with
  | |- context [decide (Type_ ie = ?t)] =>
    let Ht := fresh "Ht" in
    destruct (decide (Type_ ie = t)) as [Ht|?];
    [rewrite ?Ht; tac Ht|]
  end.
Ltac by_type ie := on_types ie ltac:(fun _ => reflexivity); reflexivity.

(** One round of each loop. *)
Lemma set_pdi_field_of ies ie : set_pdi_field (pdi_of ies) ie = Ok (pdi_of (ies ++ [ie])).
Proof.
  unfold set_pdi_field, pdi_of. rewrite octet_of_snoc, !value_of_snoc, !eqb_decide.
  destruct (Value ie) as [|b v]; by_type ie.
Qed.

Lemma fold_pdi_of ies1 ies2 :
  fold_res set_pdi_field (pdi_of ies1) ies2 = Ok (pdi_of (ies1 ++ ies2)).
Proof.
  revert ies1. induction ies2 as [|ie ies2 IH]; intros ies1; [by rewrite app_nil_r|].
  cbn [fold_res]. rewrite set_pdi_field_of. cbn [mbind res_bind]. by rewrite IH, <- app_assoc.
Qed.

(** The loop over the PDI's elements follows the pointer each time. *)
Lemma fold_on_pdi id prec far pdi ies :
  fold_res (λ pdr pdiIE, on_pdi (λ pdi, set_pdi_field pdi pdiIE) pdr)
    (mkPDR id prec far (Some pdi)) ies
  = (pdi ← fold_res set_pdi_field pdi ies; Ok (mkPDR id prec far (Some pdi))).
Proof.
  revert pdi. induction ies as [|ie ies IH]; intros pdi; [done|]. cbn [fold_res].
  assert (on_pdi (λ pdi, set_pdi_field pdi ie) (mkPDR id prec far (Some pdi)) =
    (pdi ← set_pdi_field pdi ie; Ok (mkPDR id prec far (Some pdi)))) as -> by done.
  destruct (set_pdi_field pdi ie); try done. apply IH.
Qed.

Lemma set_pdr_field_of ies ie :
  IE_ok ie → set_pdr_field (pdr_of ies) ie = Ok (pdr_of (ies ++ [ie])).
Proof.
  intros Hie. unfold set_pdr_field, pdr_of.
  rewrite !last_of_snoc, pdi_elements_snoc, !eqb_decide.
  destruct (decide (Type_ ie = IETypePDR_ID)) as [Ht|]; [|
    destruct (decide (Type_ ie = IETypeFAR_ID)) as [Ht|]; [|
    destruct (decide (Type_ ie = IETypePDI)) as [Ht|]]].
  - rewrite !(decide_False (P := Type_ ie = IETypeFAR_ID)),
      (decide_False (P := Type_ ie = IETypePDI)) by (by rewrite Ht).
    by rewrite app_nil_r, or_zero_PDR_ID.
  - rewrite (decide_False (P := Type_ ie = IETypePrecedence)),
      (decide_False (P := Type_ ie = IETypePDI)) by (by rewrite Ht).
    by rewrite app_nil_r, or_zero_FAR_ID.
  - rewrite (decide_False (P := Type_ ie = IETypePrecedence)) by (by rewrite Ht).
    cbn [PDR_ID Precedence PDR_FAR_ID PDR_PDI]. unfold group_of.
    destruct (ParseGroupedIE_cases (Value ie)) as [(l & -> & _)|(e & ->)];
      [by apply IE_ok_len| |by rewrite app_nil_r].
    by rewrite fold_on_pdi, fold_pdi_of.
  - rewrite app_nil_r. by case_decide.
Qed.

Lemma set_far_field_of ies ie : set_far_field (far_of ies) ie = Ok (far_of (ies ++ [ie])).
Proof.
  unfold set_far_field, far_of. rewrite last_of_snoc, octet_of_snoc, !eqb_decide.
  destruct (decide (Type_ ie = IETypeFAR_ID)) as [Ht|].
  - rewrite or_zero_FAR_ID by done. destruct (Value ie); [done|].
    by rewrite (decide_False (P := Type_ ie = IETypeApplyAction)) by (by rewrite Ht).
  - destruct (Value ie); by case_decide.
Qed.

Lemma fold_pdr_of ies : Forall IE_ok ies → fold_res set_pdr_field PDR_zero ies = Ok (pdr_of ies).
Proof.
  change PDR_zero with (pdr_of []). induction ies as [|ie ies IH] using rev_ind; [done|].
  intros [Hies Hie]%Forall_app. rewrite fold_res_app, IH by done. cbn [mbind res_bind fold_res].
  rewrite set_pdr_field_of; [done|]. by apply Forall_cons_1 in Hie as [? _].
Qed.

Lemma fold_far_of ies : fold_res set_far_field FAR_zero ies = Ok (far_of ies).
Proof.
  change FAR_zero with (far_of []). induction ies as [|ie ies IH] using rev_ind; [done|].
  rewrite fold_res_app, IH. cbn [mbind res_bind fold_res]. by rewrite set_far_field_of.
Qed.

Lemma id_of_width n o : in_width (8 * Z.of_nat n) (id_of n o).
Proof.
  assert (in_width (8 * Z.of_nat n) 0) as H0.
  { unfold in_width. pose proof (Z.pow_pos_nonneg 2 (8 * Z.of_nat n)). lia. }
  destruct o as [ie|]; [|done]. simpl. destruct (Z.leb_spec (Z.of_nat n) (len (Value ie))); [|done].
  apply be_get_width. unfold len in *. rewrite length_take. lia.
Qed.

Lemma octet_of_width t ies : is_u8 (octet_of t ies).
Proof.
  unfold octet_of. destruct (last_where _ ies) as [ie|]; simpl; [|by_compute].
  destruct (head (Value ie)); simpl; [auto with pfcp|by_compute].
Qed.

Lemma pdr_of_ok ies : pdr_ok (pdr_of ies).
Proof. split_and!; [apply (id_of_width 2)|done|apply (id_of_width 4)|done]. Qed.

Lemma far_of_ok ies : far_ok (far_of ies).
Proof. split; [apply (id_of_width 4)|apply octet_of_width]. Qed.

(** ** Invariant *)

(** A session's rules are stored under their own ids. *)
Record session_ok (s : Session) : Prop := {
  sok_PDRs : map_Forall (λ i p, PDR_ID p = i ∧ pdr_ok p) (PDRs s);
  sok_FARs : map_Forall (λ i f, FAR_ID f = i ∧ far_ok f) (FARs s);
  sok_QERs : QERs s = ∅;
  sok_URRs : URRs s = ∅;
}.

Section invariant.
Context {D : Type} `{!Dataplane D, !DataplaneLaws D}.
Implicit Types (up : UPFunction D) (d : D) (s : Session).

(** The dataplane holds the forwarding rules of a session, whenever it has
    been given a detection rule for it. *)
Definition fars_match d seid s : Prop :=
  PDRs s ≠ ∅ ∨ FARs s = ∅ → ∀ i, installed_far d seid i = FARs s !! i.

(** The session table and the dataplane agree: every session is stored under
    its own SEID, a positive one, and the dataplane holds its rules; for any
    other SEID the dataplane holds no rule. *)
Record up_inv up : Prop := {
  inv_SEID : map_Forall (λ k s, LocalSEID s = k ∧ is_u64 k ∧ k ≠ 0) (sessions up);
  inv_session : map_Forall (λ _ s, session_ok s) (sessions up);
  inv_pdr : ∀ seid i,
    installed_pdr (dataplane up) seid i = sessions up !! seid ≫= (λ s, PDRs s !! i);
  inv_far : ∀ seid s, sessions up !! seid = Some s → fars_match (dataplane up) seid s;
  inv_far_none : ∀ seid i, sessions up !! seid = None →
    installed_far (dataplane up) seid i = None;
}.

(** What the establishment loops keep about the session being built and the
    dataplane, [d0] being the dataplane before the first of them. *)
Record building (seid now rseid : Z) (d0 : D) (sd : Session * D) : Prop := {
  b_fields : LocalSEID sd.1 = seid ∧ RemoteSEID sd.1 = rseid ∧ CreatedAt sd.1 = now;
  b_ok : session_ok sd.1;
  b_pdr : ∀ i, installed_pdr sd.2 seid i = PDRs sd.1 !! i;
  b_far : fars_match sd.2 seid sd.1;
  b_session : PDRs sd.1 ≠ ∅ → has_session sd.2 seid;
  b_other_pdr : ∀ k i, k ≠ seid → installed_pdr sd.2 k i = installed_pdr d0 k i;
  b_other_far : ∀ k i, k ≠ seid → installed_far sd.2 k i = installed_far d0 k i;
}.

Lemma create_PDR_building seid now rseid d0 ie sd :
  IE_ok ie → FARs sd.1 = ∅ → building seid now rseid d0 sd →
  FARs (create_PDR seid ie sd).1.1 = ∅ ∧ building seid now rseid d0 (create_PDR seid ie sd).1.
Proof.
  intros Hie HF Hb. destruct sd as [s d]. simpl in HF. unfold create_PDR.
  destruct (ParseGroupedIE_cases (Value ie)) as [(ies & -> & Hies)|(e & ->)];
    [by apply IE_ok_len| |done].
  rewrite fold_pdr_of by done. pose proof (pdr_of_ok ies) as Hp.
  set (p := pdr_of ies) in *. clearbody p.
  pose proof (discard_fst (InstallPDR seid p) d) as Hd.
  destruct (discard (InstallPDR seid p) d) as [d' r]. simpl in Hd. subst d'. simpl.
  split; [done|]. destruct Hb as [? [HP HFs HQ HU] Hpdr Hfar Hs Hop Hof]. simpl in *.
  constructor; simpl; [done|constructor; simpl; try done|..].
  - by apply map_Forall_insert_2.
  - intros i. rewrite InstallPDR_pdr, lookup_insert.
    repeat case_decide; naive_solver.
  - intros _ i. rewrite InstallPDR_far. simpl. rewrite HF. rewrite <- HF. by apply Hfar; right.
  - intros _. apply InstallPDR_session. by left.
  - intros k i Hk. rewrite InstallPDR_pdr, decide_False by naive_solver. by apply Hop.
  - intros k i Hk. rewrite InstallPDR_far. by apply Hof.
Qed.

Lemma create_FAR_building seid now rseid d0 ie sd :
  IE_ok ie → building seid now rseid d0 sd →
  building seid now rseid d0 (create_FAR seid ie sd).1.
Proof.
  intros Hie Hb. destruct sd as [s d]. unfold create_FAR.
  destruct (ParseGroupedIE_cases (Value ie)) as [(ies & -> & Hies)|(e & ->)];
    [by apply IE_ok_len| |done].
  rewrite fold_far_of. pose proof (far_of_ok ies) as Hf.
  set (far := far_of ies) in *. clearbody far.
  pose proof (discard_fst (InstallFAR seid far) d) as Hd.
  destruct (discard (InstallFAR seid far) d) as [d' r]. simpl in Hd. subst d'. simpl.
  destruct Hb as [? [HP HFs HQ HU] Hpdr Hfar Hs Hop Hof]. simpl in *.
  constructor; simpl; [done|constructor; simpl; try done|..].
  - by apply map_Forall_insert_2.
  - intros i. by rewrite InstallFAR_pdr.
  - intros [HPne|HFe] i; simpl in *; [|by apply insert_non_empty in HFe].
    rewrite InstallFAR_far, lookup_insert by auto.
    rewrite (Hfar (or_introl HPne)). repeat case_decide; naive_solver.
  - intros HPne. by apply InstallFAR_session, Hs.
  - intros k i Hk. rewrite InstallFAR_pdr. by apply Hop.
  - intros k i Hk. rewrite InstallFAR_far_other by done. by apply Hof.
Qed.

(** Neither loop ends in an error: the errors of a rule are skipped. *)
Lemma for_each_no_err {S A} (xs : list A) (body : A → go S ()) st :
  Forall (λ x, ∀ st e, (body x st).2 ≠ Err e) xs → ∀ e, (for_each xs body st).2 ≠ Err e.
Proof.
  intros Hxs. revert st. induction Hxs as [|x xs Hx Hxs IH]; intros st e; [done|].
  simpl. unfold mbind, go_bind. specialize (Hx st).
  destruct (body x st) as [st' [[]|e'|p|]]; simpl in *; done.
Qed.

Lemma discard_no_err {A} (m : go D A) d e : (discard m d).2 ≠ Err e.
Proof. unfold discard. by destruct (m d) as [? [?|?|?|]]. Qed.

Lemma create_PDR_no_err seid ie sd e : IE_ok ie → (create_PDR seid ie sd).2 ≠ Err e.
Proof.
  intros Hie. destruct sd as [s d]. unfold create_PDR.
  destruct (ParseGroupedIE_cases (Value ie)) as [(ies & -> & Hies)|(e' & ->)];
    [by apply IE_ok_len| |done].
  rewrite fold_pdr_of by done. pose proof (discard_no_err (InstallPDR seid (pdr_of ies)) d e).
  by destruct (discard (InstallPDR seid (pdr_of ies)) d).
Qed.

Lemma create_FAR_no_err seid ie sd e : IE_ok ie → (create_FAR seid ie sd).2 ≠ Err e.
Proof.
  intros Hie. destruct sd as [s d]. unfold create_FAR.
  destruct (ParseGroupedIE_cases (Value ie)) as [(ies & -> & Hies)|(e' & ->)];
    [by apply IE_ok_len| |done].
  rewrite fold_far_of. pose proof (discard_no_err (InstallFAR seid (far_of ies)) d e).
  by destruct (discard _ d).
Qed.

(** What the loops store: each id's last readable rule. *)
Lemma create_PDR_run seid ie s d :
  IE_ok ie →
  create_PDR seid ie (s, d) =
    match group_of ie with
    | Some ies =>
      let '(d, r) := discard (InstallPDR seid (pdr_of ies)) d in
      ((put_PDR (pdr_of ies) s, d), r)
    | None => ((s, d), Ok tt)
    end.
Proof.
  intros Hie. unfold create_PDR, group_of.
  destruct (ParseGroupedIE_cases (Value ie)) as [(ies & -> & Hies)|(e & ->)];
    [by apply IE_ok_len| |done]. by rewrite fold_pdr_of.
Qed.

Lemma create_FAR_run seid ie s d :
  IE_ok ie →
  create_FAR seid ie (s, d) =
    match group_of ie with
    | Some ies =>
      let '(d, r) := discard (InstallFAR seid (far_of ies)) d in
      ((put_FAR (far_of ies) s, d), r)
    | None => ((s, d), Ok tt)
    end.
Proof.
  intros Hie. unfold create_FAR, group_of.
  destruct (ParseGroupedIE_cases (Value ie)) as [(ies & -> & Hies)|(e & ->)];
    [by apply IE_ok_len| |done]. by rewrite fold_far_of.
Qed.

Lemma create_PDRs_stored seid ies s d s' d' :
  Forall IE_ok ies → for_each ies (create_PDR seid) (s, d) = ((s', d'), Ok tt) →
  (∀ i, PDRs s' !! i = last_with PDR_ID (pdr_of <$> omap group_of ies) i ∪ PDRs s !! i) ∧
  FARs s' = FARs s.
Proof.
  intros Hies. revert s d. induction Hies as [|ie ies Hie Hies IH]; intros s d.
  { intros [= <- <-]. split; [|done]. intros i. symmetry. apply last_with_nil. }
  cbn [for_each]. intros ([s1 d1] & [] & H1 & (Hp & Hf)%IH)%go_bind_Ok_inv.
  rewrite create_PDR_run in H1 by done. cbn [omap list_omap]. destruct (group_of ie) as [l|].
  - destruct (discard _ d) as [d2 r]. injection H1 as <- <- ->. split; [|done].
    intros i. rewrite fmap_cons, last_with_cons, Hp. simpl. by rewrite lookup_insert.
  - injection H1 as <- <-. by split.
Qed.

Lemma create_FARs_stored seid ies s d s' d' :
  Forall IE_ok ies → for_each ies (create_FAR seid) (s, d) = ((s', d'), Ok tt) →
  (∀ i, FARs s' !! i = last_with FAR_ID (far_of <$> omap group_of ies) i ∪ FARs s !! i) ∧
  PDRs s' = PDRs s.
Proof.
  intros Hies. revert s d. induction Hies as [|ie ies Hie Hies IH]; intros s d.
  { intros [= <- <-]. split; [|done]. intros i. symmetry. apply last_with_nil. }
  cbn [for_each]. intros ([s1 d1] & [] & H1 & (Hf & Hp)%IH)%go_bind_Ok_inv.
  rewrite create_FAR_run in H1 by done. cbn [omap list_omap]. destruct (group_of ie) as [l|].
  - destruct (discard _ d) as [d2 r]. injection H1 as <- <- ->. split; [|done].
    intros i. rewrite fmap_cons, last_with_cons, Hf. simpl. by rewrite lookup_insert.
  - injection H1 as <- <-. by split.
Qed.

(** The two loops of the establishment handler. *)
Definition establish_loops seid (msg : Message) : go (Session * D) () :=
  _ ← for_each (FindAllIEs msg IETypeCreatePDR) (create_PDR seid);
  for_each (FindAllIEs msg IETypeCreateFAR) (create_FAR seid).

Lemma establish_loops_building seid now rseid msg d0 :
  Forall IE_ok (IEs msg) →
  (∀ i, installed_pdr d0 seid i = None) → (∀ i, installed_far d0 seid i = None) →
  let sd := establish_loops seid msg (mkSession seid rseid ∅ ∅ ∅ ∅ now, d0) in
  building seid now rseid d0 sd.1 ∧ ∀ e, sd.2 ≠ Err e.
Proof.
  intros Hies Hp Hf. unfold establish_loops.
  pose proof (Forall_FindAllIEs msg IETypeCreatePDR Hies) as HP.
  pose proof (Forall_FindAllIEs msg IETypeCreateFAR Hies) as HF.
  set (sd0 := (mkSession seid rseid ∅ ∅ ∅ ∅ now, d0)).
  pose proof (for_each_inv (λ sd, FARs sd.1 = ∅ ∧ building seid now rseid d0 sd)
    (FindAllIEs msg IETypeCreatePDR) (create_PDR seid) sd0) as Hl1.
  pose proof (for_each_no_err (FindAllIEs msg IETypeCreatePDR) (create_PDR seid) sd0) as Hn1.
  unfold mbind, go_bind.
  destruct (for_each (FindAllIEs msg IETypeCreatePDR) _ _) as [sd1 r1]. simpl in *.
  assert (building seid now rseid d0 sd1) as Hb1; [apply Hl1|].
  { split; [done|]. constructor; simpl; try done.
    intros _ i. simpl. by rewrite Hf. }
  { intros ie sd Hin [? ?]. rewrite List.Forall_forall in HP. apply create_PDR_building; [by apply HP, list_elem_of_In|done|done]. }
  assert (∀ e, r1 ≠ Err e) as Hr1.
  { apply Hn1. eapply List.Forall_impl; [|exact HP]. intros. by apply create_PDR_no_err. }
  destruct r1 as [[]|e|p|]; [|by destruct (Hr1 e)|done..]. split.
  - apply for_each_inv; [done|]. intros ie sd Hin Hb. rewrite List.Forall_forall in HF.
    apply create_FAR_building; [by apply HF, list_elem_of_In|done].
  - apply for_each_no_err. eapply List.Forall_impl; [|exact HF].
    intros. by apply create_FAR_no_err.
Qed.

Lemma establish_loops_stored seid msg s d s' d' :
  Forall IE_ok (IEs msg) → PDRs s = ∅ → FARs s = ∅ →
  establish_loops seid msg (s, d) = ((s', d'), Ok tt) →
  (∀ i, PDRs s' !! i = last_with PDR_ID (requested_PDRs msg) i) ∧
  (∀ i, FARs s' !! i = last_with FAR_ID (requested_FARs msg) i).
Proof.
  intros Hies HP HF. unfold establish_loops.
  intros ([s1 d1] & [] & H1 & H2)%go_bind_Ok_inv.
  apply create_PDRs_stored in H1 as [Hp1 Hf1]; [|by apply Forall_FindAllIEs].
  apply create_FARs_stored in H2 as [Hf2 Hp2]; [|by apply Forall_FindAllIEs].
  split; intros i; rewrite ?Hp2, ?Hp1, ?Hf2, ?Hf1, ?HP, ?HF, lookup_empty; apply option_union_right_id.
Qed.

(** The response of an establishment. *)
Definition establishment_response (msg : Message) (seid : Z) : Message :=
  NewSessionEstablishmentResponse (SequenceNumber (Header msg)) (SEID (Header msg))
    CauseRequestAccepted seid.

Lemma establish_run now msg addr up seid :
  allocSEID up = Ok seid →
  handleSessionEstablishmentRequest now msg addr up =
    match establish_loops seid msg
            (mkSession seid (SEID (Header msg)) ∅ ∅ ∅ ∅ now, dataplane up) with
    | ((s, d), Ok _) =>
      on_conn (SendResponse (establishment_response msg seid) addr)
        (set_sessions (<[seid := s]> (sessions up)) (set_dataplane d up))
    | ((s, d), Err e) => (set_dataplane d up, Err e)
    | ((s, d), Panic p) => (set_dataplane d up, Panic p)
    | ((s, d), Hang) => (set_dataplane d up, Hang)
    end.
Proof.
  intros Ha. unfold handleSessionEstablishmentRequest, establish_loops.
  unfold mbind, go_bind, gget, lift, gmodify. rewrite Ha.
  destruct (for_each (FindAllIEs msg IETypeCreatePDR) _ _) as [[s1 d1] [[]|e|p|]]; try done.
  by destruct (for_each (FindAllIEs msg IETypeCreateFAR) _ _) as [[s2 d2] [[]|e|p|]].
Qed.

Lemma on_conn_spec (m : go UDPConn ()) up :
  on_conn m up = (set_transport (set_conn (m (conn (transport up))).1 (transport up)) up,
                  (m (conn (transport up))).2).
Proof. unfold on_conn, zoom. by destruct (m _). Qed.

Lemma on_conn_same (m : go UDPConn ()) up :
  sessions (on_conn m up).1 = sessions up ∧ dataplane (on_conn m up).1 = dataplane up.
Proof. by rewrite on_conn_spec. Qed.

Lemma up_inv_ext up up' :
  sessions up' = sessions up → dataplane up' = dataplane up → up_inv up → up_inv up'.
Proof. intros Hs Hd []. constructor; rewrite ?Hs, ?Hd; done. Qed.

Lemma up_inv_insert up seid now rseid s d :
  up_inv up → is_u64 seid → seid ≠ 0 → sessions up !! seid = None →
  building seid now rseid (dataplane up) (s, d) →
  up_inv (set_sessions (<[seid := s]> (sessions up)) (set_dataplane d up)).
Proof.
  intros [HS Hok Hp Hf Hn] Hw H0 Hnew [(HL & _ & _) Hso Hbp Hbf _ Hop Hof]. simpl in *.
  constructor; simpl.
  - by apply map_Forall_insert_2.
  - by apply map_Forall_insert_2.
  - intros k i. destruct (decide (k = seid)) as [->|Hk].
    + by rewrite lookup_insert_eq, Hbp.
    + by rewrite lookup_insert_ne, Hop, Hp.
  - intros k s' [[<- <-]|[Hk Hs']]%lookup_insert_Some; [done|].
    intros Hpre i. rewrite Hof by done. by apply Hf.
  - intros k i [Hk Hne]%lookup_insert_None. rewrite Hof by done. by apply Hn.
Qed.

Lemma allocSEID_total up :
  Z.of_nat (size (sessions up)) < 2 ^ 64 - 1 →
  ∃ seid, allocSEID up = Ok seid ∧ 1 ≤ seid ≤ Z.of_nat (size (sessions up)) + 1 ∧
    sessions up !! seid = None ∧ ∀ k, 1 ≤ k < seid → is_Some (sessions up !! k).
Proof. apply alloc_from_total. Qed.

(** An establishment stores one new session under a fresh SEID and answers;
    if the dataplane panics or hangs half way, no session is stored. *)
Lemma establish_spec now msg addr up :
  up_inv up → Forall IE_ok (IEs msg) → Z.of_nat (size (sessions up)) < 2 ^ 64 - 1 →
  ∃ seid s d, allocSEID up = Ok seid ∧ sessions up !! seid = None ∧
    up_inv (set_sessions (<[seid := s]> (sessions up)) (set_dataplane d up)) ∧
    building seid now (SEID (Header msg)) (dataplane up) (s, d) ∧
    (handleSessionEstablishmentRequest now msg addr up =
       on_conn (SendResponse (establishment_response msg seid) addr)
         (set_sessions (<[seid := s]> (sessions up)) (set_dataplane d up)) ∧
     (∀ i, PDRs s !! i = last_with PDR_ID (requested_PDRs msg) i) ∧
     (∀ i, FARs s !! i = last_with FAR_ID (requested_FARs msg) i) ∨
     (handleSessionEstablishmentRequest now msg addr up).1 = set_dataplane d up ∧
     returned (handleSessionEstablishmentRequest now msg addr up).2 = false).
Proof.
  intros Hinv Hies Hsz. destruct (allocSEID_total up Hsz) as (seid & Ha & Hr & Hnone & _).
  pose proof (establish_loops_building seid now (SEID (Header msg)) msg (dataplane up) Hies)
    as Hl. destruct Hl as [Hb He].
  { intros i. by rewrite (inv_pdr up Hinv), Hnone. }
  { intros i. by apply (inv_far_none up Hinv). }
  rewrite (establish_run _ _ _ _ _ Ha).
  destruct (establish_loops _ _ _) as [[s d] r] eqn:Hloops. simpl in *.
  exists seid, s, d. split_and!; [done..| |done|].
  - eapply up_inv_insert; try done; [|lia]. widths. lia.
  - destruct r as [[]|e|p|]; [|by destruct (He e)|by right..]. left. split; [done|].
    by eapply establish_loops_stored in Hloops.
Qed.

Lemma SendResponse_returns msg addr c : returned (SendResponse msg addr c).2.
Proof.
  unfold SendResponse. destruct (send_marshalled addr msg c) as (c' & r & -> & Hr). done.
Qed.

(** ** The handlers keep the invariant *)

Lemma deletion_inv msg addr up :
  up_inv up → returned (handleSessionDeletionRequest msg addr up).2 →
  up_inv (handleSessionDeletionRequest msg addr up).1.
Proof.
  intros [HS Hok Hp Hf Hn]. unfold handleSessionDeletionRequest.
  unfold mbind, go_bind, gmodify. set (k0 := SEID (Header msg)).
  unfold discard, zoom. simpl.
  pose proof (DeleteSession_pdr (dataplane up) k0) as HDp.
  pose proof (DeleteSession_far (dataplane up) k0) as HDf.
  destruct (DeleteSession k0 (dataplane up)) as [d r]. simpl in *.
  assert (up_inv (set_dataplane d (set_sessions (delete k0 (sessions up)) up))) as Hi.
  { constructor; simpl.
    - by apply map_Forall_delete.
    - by apply map_Forall_delete.
    - intros k i. rewrite HDp. case_decide as Hk.
      + subst k. by rewrite lookup_delete_eq.
      + by rewrite lookup_delete_ne, Hp.
    - intros k s [Hk Hs]%lookup_delete_Some Hpre i. rewrite HDf, decide_False by done.
      by apply Hf.
    - intros k i Hk. rewrite HDf. case_decide; [done|].
      rewrite lookup_delete_ne in Hk by done. by apply Hn. }
  destruct r as [[]|e|p|]; simpl; try done; intros _;
    (eapply up_inv_ext; [apply on_conn_same|apply on_conn_same|exact Hi]).
Qed.

Lemma run_handler_inv h now msg addr up :
  up_inv up → Forall IE_ok (IEs msg) → Z.of_nat (size (sessions up)) < 2 ^ 64 - 1 →
  returned (run_handler h now msg addr up).2 → up_inv (run_handler h now msg addr up).1.
Proof.
  intros Hi Hies Hsz Hr. destruct h; simpl in *.
  - destruct (establish_spec now msg addr up Hi Hies Hsz)
      as (seid & s & d & _ & _ & Hi' & _ & [(-> & _ & _) | [_ Hn]]).
    + eapply up_inv_ext; [apply on_conn_same|apply on_conn_same|exact Hi'].
    + by rewrite Hn in Hr.
  - eapply up_inv_ext; [apply on_conn_same|apply on_conn_same|exact Hi].
  - by apply deletion_inv.
  - eapply up_inv_ext; [apply on_conn_same|apply on_conn_same|exact Hi].
Qed.

End invariant.

(** ** Runs of the user plane *)

(** A message that reaches the dispatch is well formed. *)
Lemma receive_wf {H} (t t' : Transport H) d addr msg disp :
  receive d addr t = (t', Ok (msg, disp)) →
  MessageHeader_ok (Header msg) ∧ Forall IE_ok (IEs msg).
Proof.
  assert (MessageHeader_ok (Header Message_zero)) as H0 by by_compute.
  intros (t1 & o & H1 & H2)%go_bind_Ok_inv. destruct o as [m|]; [|by injection H2 as _ <- _].
  unfold hand_over in H2. destruct (handleMessage m addr t1) as [t2 d2]. injection H2 as _ <- _.
  revert H1. unfold read_message. destruct (ReadFromUDP d (buf t)) as [b n].
  pose proof (Message_Unmarshal_keeps_wf (GSlice b n) Message_zero H0 ltac:(by constructor)) as Hw.
  destruct (Message_Unmarshal _ _) as [m' [[]|e|p|]]; simpl in *; try done.
  by intros [= _ <-].
Qed.

Lemma SendResponse_Ok msg addr c c' :
  SendResponse msg addr c = (c', Ok tt) →
  written c' = written c ++ [(Message_bytes msg, addr)].
Proof.
  unfold SendResponse, send, wrap_err, Message_bytes.
  destruct (Message_Marshal_total msg) as [bs ->]. unfold WriteToUDP.
  destruct (write_result c (writes c)); [done|]. by intros [= <-].
Qed.

Section runs.
Context {D : Type} `{!Dataplane D, !DataplaneLaws D}.
Implicit Types up : UPFunction D.

(** A round of the receive loop that comes back, or a step of the transport
    (the heartbeat loop's requests, retransmissions, closing). *)
Inductive up_step : UPFunction D → UPFunction D → Prop :=
  | up_datagram up now datagram addr up' :
      delivering (transport up) = None → Z.of_nat (size (sessions up)) < 2 ^ 64 - 1 →
      up_receive now datagram addr up = (up', Ok tt) → up_step up up'
  | up_transport up t : tstep (transport up) t → up_step up (set_transport t up).

(** No session, and a dataplane that holds no rule. *)
Definition up_initial up : Prop :=
  sessions up = ∅ ∧
  ∀ seid i, installed_pdr (dataplane up) seid i = None ∧
            installed_far (dataplane up) seid i = None.

Lemma up_initial_inv up : up_initial up → up_inv up.
Proof.
  intros [Hs Hd]. constructor; rewrite ?Hs; try done.
  - intros seid i. rewrite lookup_empty. apply Hd.
  - intros seid i _. apply Hd.
Qed.

Lemma discard_Ok {S A} (m : go S A) s s' :
  discard m s = (s', Ok tt) → (m s).1 = s' ∧ returned (m s).2.
Proof. unfold discard. destruct (m s) as [s1 [a|e|p|]]; intros; by simplify_eq. Qed.

(** A round of the receive loop, split at the dispatch. *)
Lemma up_receive_cases now d addr up :
  match receive d addr (transport up) with
  | (t, Ok (msg, ToHandler h a)) =>
    Forall IE_ok (IEs msg) ∧
    up_receive now d addr up = discard (run_handler h now msg a) (set_transport t up)
  | (t, Ok _) => up_receive now d addr up = (set_transport t up, Ok tt)
  | (t, r) => returned r = returned (up_receive now d addr up).2 ∧
              (up_receive now d addr up).1 = set_transport t up ∧
              (up_receive now d addr up).2 ≠ Ok tt
  end.
Proof.
  destruct (receive d addr (transport up)) as [t r] eqn:Hrec.
  unfold up_receive, mbind, go_bind, zoom. rewrite Hrec.
  destruct r as [[msg [i|h a|]]|e|p|]; try done.
  split; [|done]. by apply (receive_wf _ _ _ _ _ _ Hrec).
Qed.

Lemma up_receive_inv now d addr up up' :
  Z.of_nat (size (sessions up)) < 2 ^ 64 - 1 →
  up_receive now d addr up = (up', Ok tt) → up_inv up → up_inv up'.
Proof.
  intros Hsz Hr Hi. pose proof (up_receive_cases now d addr up) as Hc. rewrite Hr in Hc.
  destruct (receive d addr (transport up)) as [t [[msg [i|h a|]]|e|p|]];
    try (by destruct Hc as (_ & _ & Hc)).
  1,3: injection Hc as ->; eapply up_inv_ext; [..|exact Hi]; done.
  destruct Hc as [Hies Hc]. symmetry in Hc. apply discard_Ok in Hc as [<- Hret].
  apply run_handler_inv; [|done..]. eapply up_inv_ext; [..|exact Hi]; done.
Qed.

(** Every handler comes back when the dataplane's calls do. *)
Lemma on_conn_response_returned msg addr up :
  returned (on_conn (SendResponse msg addr) up).2.
Proof. rewrite on_conn_spec. apply SendResponse_returns. Qed.

Lemma run_handler_returned h now msg addr up :
  (∀ seid p d, returned (InstallPDR seid p d).2) →
  (∀ seid f d, returned (InstallFAR seid f d).2) →
  (∀ seid d, returned (DeleteSession seid d).2) →
  Forall IE_ok (IEs msg) → Z.of_nat (size (sessions up)) < 2 ^ 64 - 1 →
  returned (run_handler h now msg addr up).2.
Proof.
  intros HP HF HD Hies Hsz. destruct h; simpl; try apply on_conn_response_returned.
  - destruct (allocSEID_total up Hsz) as (seid & Ha & _). rewrite (establish_run _ _ _ _ _ Ha).
    assert (∀ sd, returned (establish_loops seid msg sd).2) as Hl.
    { intros sd. unfold establish_loops, mbind, go_bind.
      assert (returned (for_each (FindAllIEs msg IETypeCreatePDR) (create_PDR seid) sd).2) as H1.
      { apply for_each_returned. intros ie [s d] Hin%list_elem_of_In. rewrite create_PDR_run.
        2: { by eapply List.Forall_forall in Hin; [|by apply Forall_FindAllIEs]. }
        destruct (group_of ie) as [l|]; [|done]. pose proof (HP seid (pdr_of l) d) as Hd.
        rewrite <- discard_returned in Hd. by destruct (discard _ d). }
      destruct (for_each _ _ sd) as [sd1 [[]|e|p|]]; try done.
      apply for_each_returned. intros ie [s d] Hin%list_elem_of_In. rewrite create_FAR_run.
      2: { by eapply List.Forall_forall in Hin; [|by apply Forall_FindAllIEs]. }
      destruct (group_of ie) as [l|]; [|done]. pose proof (HF seid (far_of l) d) as Hd.
      rewrite <- discard_returned in Hd. by destruct (discard _ d). }
    specialize (Hl (mkSession seid (SEID (Header msg)) ∅ ∅ ∅ ∅ now, dataplane up)).
    destruct (establish_loops _ _ _) as [[s d] [[]|e|p|]]; try done.
    apply on_conn_response_returned.
  - unfold handleSessionDeletionRequest, mbind, go_bind, gmodify, discard, zoom. simpl.
    pose proof (HD (SEID (Header msg)) (dataplane up)) as Hd.
    destruct (DeleteSession _ _) as [d [[]|e|p|]]; try done; apply on_conn_response_returned.
Qed.

Lemma up_step_inv up up' : up_step up up' → up_inv up → up_inv up'.
Proof.
  intros [up1 now d addr up2 _ Hsz Hr|up1 t Ht] Hi.
  - by eapply up_receive_inv.
  - eapply up_inv_ext; [..|exact Hi]; done.
Qed.

(** A property of the dataplane alone that the user plane's calls keep. *)
Definition preserved (P : D → Prop) : Prop :=
  (∀ seid p d, P d → P (InstallPDR seid p d).1) ∧
  (∀ seid f d, P d → P (InstallFAR seid f d).1) ∧
  (∀ seid d, P d → P (DeleteSession seid d).1).

Lemma establish_loops_preserved P seid msg sd :
  preserved P → Forall IE_ok (IEs msg) → P sd.2 → P (establish_loops seid msg sd).1.2.
Proof.
  intros (HP & HF & _) Hies H0. unfold establish_loops, mbind, go_bind.
  assert (P (for_each (FindAllIEs msg IETypeCreatePDR) (create_PDR seid) sd).1.2) as H1.
  { apply (for_each_inv (λ sd, P sd.2)); [done|]. intros ie [s d] Hin%list_elem_of_In Hd.
    rewrite create_PDR_run by (by eapply List.Forall_forall in Hin; [|by apply Forall_FindAllIEs]).
    destruct (group_of ie) as [l|]; [|done].
    rewrite (surjective_pairing (discard _ d)), discard_fst. by apply HP. }
  destruct (for_each _ _ sd) as [sd1 [[]|e|p|]]; try done.
  apply (for_each_inv (λ sd, P sd.2)); [done|]. intros ie [s d] Hin%list_elem_of_In Hd.
  rewrite create_FAR_run by (by eapply List.Forall_forall in Hin; [|by apply Forall_FindAllIEs]).
  destruct (group_of ie) as [l|]; [|done].
  rewrite (surjective_pairing (discard _ d)), discard_fst. by apply HF.
Qed.

Lemma on_conn_keeps (P : D → Prop) (m : go UDPConn ()) up :
  P (dataplane up) → P (dataplane (on_conn m up).1).
Proof. by rewrite (proj2 (on_conn_same m up)). Qed.

Lemma run_handler_preserved P h now msg addr up :
  preserved P → Forall IE_ok (IEs msg) → Z.of_nat (size (sessions up)) < 2 ^ 64 - 1 →
  P (dataplane up) → P (dataplane (run_handler h now msg addr up).1).
Proof.
  intros HP Hies Hsz H0. destruct h; simpl.
  - destruct (allocSEID_total up Hsz) as (seid & Ha & _). rewrite (establish_run _ _ _ _ _ Ha).
    pose proof (establish_loops_preserved P seid msg
      (mkSession seid (SEID (Header msg)) ∅ ∅ ∅ ∅ now, dataplane up) HP Hies H0) as Hd.
    destruct (establish_loops _ _ _) as [[s d] [[]|e|p|]]; try done. by apply on_conn_keeps.
  - by apply (on_conn_keeps P (SendResponse _ addr) up).
  - unfold handleSessionDeletionRequest, mbind, go_bind, gmodify, discard, zoom. simpl.
    destruct HP as (_ & _ & HD). pose proof (HD (SEID (Header msg)) (dataplane up) H0) as Hd.
    destruct (DeleteSession _ _) as [d [[]|e|p|]]; simpl in *; try done; by apply on_conn_keeps.
  - by apply (on_conn_keeps P (SendResponse _ addr) up).
Qed.

Lemma up_reachable_preserved P up0 up :
  preserved P → P (dataplane up0) → rtc up_step up0 up → P (dataplane up).
Proof.
  intros HP H0 Hr. revert H0. induction Hr as [|x y z Hxy _ IH]; [done|]. intros Hx. apply IH.
  destruct Hxy as [up1 now d addr up2 _ Hsz Hrec|up1 t Ht]; [|done].
  pose proof (up_receive_cases now d addr up1) as Hc. rewrite Hrec in Hc.
  destruct (receive d addr (transport up1)) as [t [[msg [i|h a|]]|e|p|]];
    try (by destruct Hc as (_ & _ & Hc)); try (by injection Hc as ->).
  destruct Hc as [Hies Hc]. symmetry in Hc. apply discard_Ok in Hc as [<- _].
  by apply run_handler_preserved.
Qed.

Lemma up_reachable up0 up : up_initial up0 → rtc up_step up0 up → up_inv up.
Proof.
  intros H0 Hr. apply up_initial_inv in H0. revert H0.
  induction Hr as [|x y z Hxy _ IH]; [done|]. intros Hx. by apply IH, (up_step_inv x).
Qed.

(** ** Properties *)

(** C4: in every state the user plane reaches from an empty start, through
    any datagrams and any interleaving with the transport's own steps, the
    session table and the dataplane agree (sessions under their own SEIDs,
    rules under their own ids and within their widths, exactly the sessions'
    detection rules installed, and the forwarding rules of every session that
    has a detection rule), as long as every dataplane call came back. *)
Theorem up_reachable_inv up0 up : up_initial up0 → rtc up_step up0 up → up_inv up.
Proof. apply up_reachable. Qed.

(** C24: [allocSEID] terminates with the least SEID, counted from 1, that no
    session has. *)
Theorem allocSEID_least_free up :
  Z.of_nat (size (sessions up)) < 2 ^ 64 - 1 →
  ∃ seid, allocSEID up = Ok seid ∧ 1 ≤ seid ≤ Z.of_nat (size (sessions up)) + 1 ∧
    sessions up !! seid = None ∧ ∀ k, 1 ≤ k < seid → is_Some (sessions up !! k).
Proof. apply allocSEID_total. Qed.

(** C8: a session establishment that succeeds adds exactly one session,
    under a SEID no session had, bound to the peer's SEID; its rules are those
    the request's readable Create elements spell out, read field by field and
    the last one for each id; the dataplane holds exactly its detection rules
    for it, its forwarding rules if it has a detection rule, and the other
    sessions' rules as before; and one datagram is sent, a response with the
    request's sequence number and SEID that accepts the request and names the
    new SEID. *)
Theorem establishment_spec now msg addr up up' :
  up_inv up → Forall IE_ok (IEs msg) → Z.of_nat (size (sessions up)) < 2 ^ 64 - 1 →
  handleSessionEstablishmentRequest now msg addr up = (up', Ok tt) →
  ∃ seid s, 1 ≤ seid < 2 ^ 64 ∧ sessions up !! seid = None ∧
    sessions up' = <[seid := s]> (sessions up) ∧
    LocalSEID s = seid ∧ RemoteSEID s = SEID (Header msg) ∧ CreatedAt s = now ∧
    (∀ i, PDRs s !! i = last_with PDR_ID (requested_PDRs msg) i) ∧
    (∀ i, FARs s !! i = last_with FAR_ID (requested_FARs msg) i) ∧
    QERs s = ∅ ∧ URRs s = ∅ ∧
    (∀ i, installed_pdr (dataplane up') seid i = PDRs s !! i) ∧
    (requested_PDRs msg ≠ [] → ∀ i, installed_far (dataplane up') seid i = FARs s !! i) ∧
    (∀ k i, k ≠ seid → installed_pdr (dataplane up') k i = installed_pdr (dataplane up) k i ∧
                       installed_far (dataplane up') k i = installed_far (dataplane up) k i) ∧
    written (conn (transport up')) = written (conn (transport up)) ++
      [(Message_bytes (NewSessionEstablishmentResponse (SequenceNumber (Header msg))
          (SEID (Header msg)) CauseRequestAccepted seid), addr)].
Proof.
  intros Hi Hies Hsz Hr. destruct (establish_spec now msg addr up Hi Hies Hsz)
    as (seid & s & d & Ha & Hnone & Hi' & [(HL & HR & HC) Hso Hp Hfm _ Hop Hof] & Hcase).
  rewrite Hr in Hcase. destruct Hcase as [(Hc & HP & HF)|[_ Hc]]; [|done].
  destruct (allocSEID_total up Hsz) as (seid' & Ha' & Hb & _). rewrite Ha in Ha'.
  injection Ha' as <-. rewrite on_conn_spec in Hc. injection Hc as -> Hok.
  exists seid, s. simpl in *. split_and!; try done; try apply Hso; [lia..| | |].
  - intros Hne i. apply Hfm. left. intros He.
    destruct (last_with_nonempty PDR_ID (requested_PDRs msg) Hne) as [j Hj].
    by rewrite <- HP, He in Hj.
  - intros k i Hk. split; [by apply Hop|by apply Hof].
  - apply (SendResponse_Ok (establishment_response msg seid) addr).
    rewrite Hok. apply surjective_pairing.
Qed.

(** C27: the user plane's receive loop, handlers included, panics on exactly
    the datagrams whose header is complete and announces an end past the 65535
    bytes of the receive buffer, provided the dataplane's calls come back:
    nothing else a datagram can hold stops it. *)
Theorem up_receive_panics_iff now datagram addr up :
  (∀ seid p d, returned (InstallPDR seid p d).2) →
  (∀ seid f d, returned (InstallFAR seid f d).2) →
  (∀ seid d, returned (DeleteSession seid d).2) →
  len (buf (transport up)) = 65535 → len datagram ≤ 65535 →
  Z.of_nat (size (sessions up)) < 2 ^ 64 - 1 →
  let h := (MessageHeader_Unmarshal datagram MessageHeader_zero).1 in
  returned (up_receive now datagram addr up).2 = false ↔
  header_fits datagram = true ∧ 65535 < MessageHeader_Len h + MessageLength h.
Proof.
  intros HP HF HD Hb Hd Hsz h. pose proof (up_receive_cases now datagram addr up) as Hc.
  pose proof (receive_panics (transport up) datagram addr Hb Hd) as Hp.
  assert (returned (up_receive now datagram addr up).2 = negb (oversize datagram)) as ->.
  { rewrite <- Hp. destruct (receive datagram addr (transport up)) as [t [[msg [i|hd a|]]|e|p|]];
      try (by rewrite Hc); try (by destruct Hc as (<- & _)).
    destruct Hc as [Hies ->]. rewrite discard_returned. by apply Is_true_true, run_handler_returned. }
  unfold oversize. fold h. rewrite negb_false_iff, andb_true_iff. by rewrite Z.ltb_lt.
Qed.

(** C12: a session deletion removes the session with the header's SEID and
    its rules, touches no other session, and answers that the request is
    accepted whether or not there was such a session. *)
Theorem deletion_spec msg addr up up' :
  handleSessionDeletionRequest msg addr up = (up', Ok tt) →
  let k0 := SEID (Header msg) in
  sessions up' = delete k0 (sessions up) ∧
  (∀ k i, installed_pdr (dataplane up') k i =
     if decide (k = k0) then None else installed_pdr (dataplane up) k i) ∧
  (∀ k i, installed_far (dataplane up') k i =
     if decide (k = k0) then None else installed_far (dataplane up) k i) ∧
  written (conn (transport up')) = written (conn (transport up)) ++
    [(Message_bytes (NewSessionDeletionResponse (SequenceNumber (Header msg)) k0
        CauseRequestAccepted), addr)].
Proof.
  intros Hr k0. unfold handleSessionDeletionRequest in Hr.
  unfold mbind, go_bind, gmodify in Hr. fold k0 in Hr. unfold discard, zoom in Hr. simpl in Hr.
  pose proof (DeleteSession_pdr (dataplane up) k0) as HDp.
  pose proof (DeleteSession_far (dataplane up) k0) as HDf.
  destruct (DeleteSession k0 (dataplane up)) as [d r]. simpl in *.
  assert (on_conn (SendResponse (NewSessionDeletionResponse (SequenceNumber (Header msg)) k0
      CauseRequestAccepted) addr)
    (set_dataplane d (set_sessions (delete k0 (sessions up)) up)) = (up', Ok tt)) as Hc
    by (destruct r as [[]|e|p|]; done).
  rewrite on_conn_spec in Hc. injection Hc as <- Hok. simpl in *.
  split_and!; [done|done|done|].
  eapply SendResponse_Ok. by rewrite <- Hok, <- surjective_pairing.
Qed.

(** C36: whatever precedence the control plane asks for, every detection rule
    that is ever installed has precedence 0. *)
Theorem installed_precedence_zero up0 up seid i p :
  up_initial up0 → rtc up_step up0 up →
  installed_pdr (dataplane up) seid i = Some p → Precedence p = 0.
Proof.
  intros H0 Hr. destruct (up_reachable _ _ H0 Hr) as [_ Hok Hp _ _]. rewrite Hp.
  intros (s & Hs & Hpi)%bind_Some. destruct (Hok _ _ Hs) as [HP _ _ _].
  by destruct (HP _ _ Hpi) as (_ & _ & ? & _).
Qed.

End runs.
