(* ===== verification/UpMock.v ===== *)
(** * The user plane over the mock dataplane

    The mock discharges the laws, so what [Up.v] proves holds of a user plane
    that runs over it, and the counts it reports are the session table's.
    The run at the end, one establishment and one deletion of a session with
    a detection rule and a forwarding rule, is where the theorems of [Up.v]
    are applied to concrete states. *)
From S2P Require Import Prelude Bytes Constants Header Ie Messages Transport UpTypes Dataplane Mock Up.

(** ** A run *)

Definition demo_up0 : UPFunction MockDataplane :=
  mkUPFunction (mkConfig "up1" "127.0.0.1:8805" ":8806" 10) (bytes_of_string "up1") 1000
    (registerHandlers (NewTransport demo_conn)) demo_addr ∅ NewMockDataplane.

(** A Create PDR element (id 7, precedence 100, source interface 0, an SDF
    filter, forwarding rule 3) and a Create FAR element (id 3, action 2). *)
Definition demo_create_PDR : IE :=
  mkIE IETypeCreatePDR 0 (IEs_bytes
    [NewPDR_ID_IE 7; NewPrecedenceIE 100;
     mkIE IETypePDI 0 (IEs_bytes [NewSourceInterfaceIE 0; NewSDFFilterIE "permit out"]);
     NewFAR_ID_IE 3]).
Definition demo_create_FAR : IE :=
  mkIE IETypeCreateFAR 0 (IEs_bytes [NewFAR_ID_IE 3; NewApplyActionIE 2]).

Definition demo_establish : Message :=
  marshalled (NewSessionEstablishmentRequest 9 0 [demo_create_PDR] [demo_create_FAR] [] []).
Definition demo_delete : Message := marshalled (NewSessionDeletionRequest 10 1).

Definition demo_up1 := (up_receive 5 (Message_bytes demo_establish) demo_addr demo_up0).1.
Definition demo_up2 := (up_receive 6 (Message_bytes demo_delete) demo_addr demo_up1).1.

(** The handlers, called on the messages themselves. *)
Definition demo_up1' :=
  (handleSessionEstablishmentRequest 5 demo_establish demo_addr demo_up0).1.
Definition demo_up2' := (handleSessionDeletionRequest demo_delete demo_addr demo_up1').1.

Lemma demo_up0_initial : up_initial demo_up0.
Proof. done. Qed.

Lemma demo_up1_reachable : rtc up_step demo_up0 demo_up1.
Proof.
  apply rtc_once. apply (up_datagram _ 5 (Message_bytes demo_establish) demo_addr).
  - by vm_compute.
  - by vm_compute.
  - unfold demo_up1. rewrite (surjective_pairing (up_receive _ _ _ _)) at 1.
    by f_equal.
Qed.

Lemma demo_up2_reachable : rtc up_step demo_up0 demo_up2.
Proof.
  etrans; [apply demo_up1_reachable|].
  apply rtc_once. apply (up_datagram _ 6 (Message_bytes demo_delete) demo_addr).
  - by vm_compute.
  - by vm_compute.
  - unfold demo_up2. rewrite (surjective_pairing (up_receive _ _ _ _)) at 1.
    by f_equal.
Qed.

(** ** What the mock reports *)

Lemma rule_lookup {R} (m : gmap Z (gmap Z R)) seid (rs : gmap Z R) :
  (∀ i, rule m seid i = rs !! i) → default ∅ (m !! seid) = rs.
Proof.
  intros Hr. apply map_eq. intros i. rewrite <- Hr. unfold rule.
  by destruct (m !! seid) as [?|]; simpl; rewrite ?lookup_empty.
Qed.

(** What the user plane never gives the mock, and what the mock keeps: no
    QERs, no URRs, and no session without a detection rule. *)
Definition mock_ok (d : MockDataplane) : Prop :=
  qers d = ∅ ∧ urrs d = ∅ ∧ map_Forall (λ _ rs, rs ≠ ∅) (pdrs d).

Lemma mock_ok_preserved : preserved mock_ok.
Proof.
  split_and!.
  - intros seid p d (Hq & Hu & Hp). split_and!; [done..|]. simpl. intros k rs Hk.
    unfold install in Hk. destruct (decide (k = seid)) as [->|Hne].
    + rewrite lookup_alter_eq in Hk. apply fmap_Some in Hk as (rs' & _ & ->).
      apply insert_non_empty.
    + rewrite lookup_alter_ne in Hk by done. apply (Hp k).
      destruct (pdrs d !! seid); [done|]. by rewrite lookup_insert_ne in Hk.
  - intros seid f d Hd. exact Hd.
  - intros seid d (Hq & Hu & Hp). simpl. split_and!; simpl.
    + by rewrite Hq, delete_empty.
    + by rewrite Hu, delete_empty.
    + by apply map_Forall_delete.
Qed.

(** No session, over a new mock. *)
Definition mock_start (up : UPFunction MockDataplane) : Prop :=
  sessions up = ∅ ∧ dataplane up = NewMockDataplane.

(** C37: in every state reached from an empty mock, the mock reports, for a
    session with a detection rule, the sizes of the session's four rule maps
    (the last two are 0); for any other SEID, a session without a detection
    rule included, it reports an error. *)
Theorem GetSessionRules_counts (up0 up : UPFunction MockDataplane) seid :
  mock_start up0 → rtc up_step up0 up →
  GetSessionRules seid (dataplane up) =
    match sessions up !! seid with
    | Some s =>
      if decide (PDRs s = ∅) then Err (Errorf "session %d not found" [AInt seid])
      else Ok (Z.of_nat (size (PDRs s)), Z.of_nat (size (FARs s)),
               Z.of_nat (size (QERs s)), Z.of_nat (size (URRs s)))
    | None => Err (Errorf "session %d not found" [AInt seid])
    end.
Proof.
  intros [Hs0 Hd0] Hr.
  assert (up_initial up0) as H0 by (split; [done|]; by rewrite Hd0).
  assert (mock_ok (dataplane up)) as (Hq & Hu & Hne).
  { apply (up_reachable_preserved mock_ok up0); [apply mock_ok_preserved| |done].
    by rewrite Hd0. }
  destruct (up_reachable _ _ H0 Hr) as [_ Hok Hp Hf _]. unfold GetSessionRules.
  assert (default ∅ (pdrs (dataplane up) !! seid) = default ∅ (PDRs <$> sessions up !! seid))
    as Hp'.
  { apply rule_lookup. intros i. pose proof (Hp seid i) as Hpi. simpl in Hpi. rewrite Hpi.
    destruct (sessions up !! seid); simpl; [done|by rewrite lookup_empty]. }
  destruct (sessions up !! seid) as [s|] eqn:Hs; simpl in Hp'.
  - destruct (pdrs (dataplane up) !! seid) as [rs|] eqn:Hm; simpl in Hp'; subst.
    + rewrite decide_False by by apply (Hne _ _ Hm).
      destruct (Hok _ _ Hs) as [_ _ HQ HU].
      assert (∀ i, rule (fars (dataplane up)) seid i = FARs s !! i) as Hf'
        by (apply (Hf _ _ Hs); left; by apply (Hne _ _ Hm)).
      apply rule_lookup in Hf'. unfold rule_count.
      by rewrite Hf', Hm, Hq, Hu, HQ, HU, !lookup_empty.
    + by rewrite decide_True.
  - destruct (pdrs (dataplane up) !! seid) as [rs|] eqn:Hm; [|done]. simpl in Hp'. subst.
    by destruct (Hne _ _ Hm).
Qed.

(** ** Witnesses *)

Lemma up_reachable_inv_witness :
  rtc up_step demo_up0 demo_up1 ∧ up_inv demo_up1 ∧
  (PDR_ID <$> installed_pdr (dataplane demo_up1) 1 7) = Some 7 ∧
  installed_far (dataplane demo_up1) 1 3 = Some (mkFAR 3 2).
Proof.
  split; [apply demo_up1_reachable|]. split; [|split; by vm_compute].
  apply (up_reachable_inv demo_up0); [apply demo_up0_initial|apply demo_up1_reachable].
Defined.

Lemma allocSEID_least_free_witness :
  ∃ seid, allocSEID demo_up1 = Ok seid ∧
    1 ≤ seid ≤ Z.of_nat (size (sessions demo_up1)) + 1 ∧
    sessions demo_up1 !! seid = None ∧ ∀ k, 1 ≤ k < seid → is_Some (sessions demo_up1 !! k).
Proof. apply allocSEID_least_free. by vm_compute. Defined.

Lemma establishment_spec_witness :
  ∃ seid s, 1 ≤ seid < 2 ^ 64 ∧ sessions demo_up0 !! seid = None ∧
    sessions demo_up1' = <[seid := s]> (sessions demo_up0) ∧
    LocalSEID s = seid ∧ RemoteSEID s = SEID (Header demo_establish) ∧ CreatedAt s = 5 ∧
    (∀ i, PDRs s !! i = last_with PDR_ID (requested_PDRs demo_establish) i) ∧
    (∀ i, FARs s !! i = last_with FAR_ID (requested_FARs demo_establish) i) ∧
    QERs s = ∅ ∧ URRs s = ∅ ∧
    (∀ i, installed_pdr (dataplane demo_up1') seid i = PDRs s !! i) ∧
    (requested_PDRs demo_establish ≠ [] → ∀ i,
       installed_far (dataplane demo_up1') seid i = FARs s !! i) ∧
    (∀ k i, k ≠ seid →
       installed_pdr (dataplane demo_up1') k i = installed_pdr (dataplane demo_up0) k i ∧
       installed_far (dataplane demo_up1') k i = installed_far (dataplane demo_up0) k i) ∧
    written (conn (transport demo_up1')) = written (conn (transport demo_up0)) ++
      [(Message_bytes (NewSessionEstablishmentResponse
          (SequenceNumber (Header demo_establish)) (SEID (Header demo_establish))
          CauseRequestAccepted seid), demo_addr)].
Proof.
  apply (establishment_spec 5 demo_establish demo_addr).
  - apply up_initial_inv, demo_up0_initial.
  - by_compute.
  - by vm_compute.
  - unfold demo_up1'. rewrite (surjective_pairing (handleSessionEstablishmentRequest _ _ _ _)) at 1.
    by f_equal.
Defined.

Lemma deletion_spec_witness :
  sessions demo_up1' !! 1 ≠ None ∧
  let k0 := SEID (Header demo_delete) in
  sessions demo_up2' = delete k0 (sessions demo_up1') ∧
  (∀ k i, installed_pdr (dataplane demo_up2') k i =
     if decide (k = k0) then None else installed_pdr (dataplane demo_up1') k i) ∧
  (∀ k i, installed_far (dataplane demo_up2') k i =
     if decide (k = k0) then None else installed_far (dataplane demo_up1') k i) ∧
  written (conn (transport demo_up2')) = written (conn (transport demo_up1')) ++
    [(Message_bytes (NewSessionDeletionResponse (SequenceNumber (Header demo_delete)) k0
        CauseRequestAccepted), demo_addr)].
Proof.
  split; [by vm_compute|].
  apply (deletion_spec demo_delete demo_addr).
  unfold demo_up2'. rewrite (surjective_pairing (handleSessionDeletionRequest _ _ _)) at 1.
  by f_equal.
Defined.

(** Precedence 100 was asked for. *)
Lemma installed_precedence_zero_witness :
  let p := default PDR_zero (installed_pdr (dataplane demo_up1) 1 7) in
  installed_pdr (dataplane demo_up1) 1 7 = Some p ∧ PDR_FAR_ID p = 3 ∧ Precedence p = 0.
Proof.
  intros p. split; [by vm_compute|]. split; [by vm_compute|].
  apply (installed_precedence_zero demo_up0 demo_up1 1 7 p);
    [apply demo_up0_initial|apply demo_up1_reachable|by vm_compute].
Defined.

Lemma GetSessionRules_counts_witness :
  GetSessionRules 1 (dataplane demo_up1) = Ok (1, 1, 0, 0) ∧
  GetSessionRules 1 (dataplane demo_up2) = Err (Errorf "session %d not found" [AInt 1]).
Proof.
  split.
  - rewrite (GetSessionRules_counts demo_up0 demo_up1 1);
      [by vm_compute|done|apply demo_up1_reachable].
  - rewrite (GetSessionRules_counts demo_up0 demo_up2 1);
      [by vm_compute|done|apply demo_up2_reachable].
Defined.

Lemma up_receive_panics_iff_witness :
  returned (up_receive 5 (byte_of_Z <$> [0x20; 1; 0xff; 0xff; 0; 0; 1; 0]) demo_addr
    demo_up1).2 = false.
Proof.
  apply up_receive_panics_iff; [done|done|done|by vm_compute|by vm_compute|by vm_compute|].
  by vm_compute.
Defined.
