(* ===== verification/CpTypes.v ===== *)
(** * The control plane's data

    The association, session and rule types of [pkg/cp/cp.go].  A [net.IP] is
    a byte slice that may be nil; the other pointer fields are options.  The
    rules a session is created from are never nil and never written to after
    they have been built, so values stand for the pointers to them. *)
From S2P Require Import Prelude Bytes Transport.

Record Config := mkConfig {
  NodeID : string;
  ListenAddr : string;
  HeartbeatInterval : Z;
  RetransmitN1 : Z;
  RetransmitT1 : Z;
}.

(** [LastHeartbeat] is the zero time, here [None], until a heartbeat has been
    answered. *)
Record Association := mkAssociation {
  Assoc_NodeID : list byte;
  RemoteAddr : UDPAddr;
  RecoveryTS : Z;
  Features : list byte;
  LastHeartbeat : option Z;
  EstablishedAt : Z;
}.

Record PacketDetectionInfo := mkPacketDetectionInfo {
  SourceInterface : Z;
  NetworkInstance : string;
  UE_IPAddress : option (list byte);
  SDFFilter : string;
  ApplicationID : string;
}.

Record PDR := mkPDR {
  PDR_ID : Z;
  Precedence : Z;
  PDI : option PacketDetectionInfo;
  PDR_FAR_ID : Z;
  QER_IDs : list Z;
  URR_IDs : list Z;
}.

Record ForwardingParams := mkForwardingParams {
  DestinationInterface : Z;
  FP_NetworkInstance : string;
}.

Record FAR := mkFAR {
  FAR_ID : Z;
  ApplyAction : Z;
  ForwardingParameters : option ForwardingParams;
}.

Record QER := mkQER {
  QER_ID : Z;
  GateStatus : Z;
  MBR_UL : Z;
  MBR_DL : Z;
  GBR_UL : Z;
  GBR_DL : Z;
}.

Record URR := mkURR {
  URR_ID : Z;
  MeasurementMethod : Z;
  ReportingTriggers : Z;
  VolumeThreshold : Z;
  TimeThreshold : Z;
}.

Record Session := mkSession {
  LocalSEID : Z;
  RemoteSEID : Z;
  Session_NodeID : string;
  PDRs : gmap Z PDR;
  FARs : gmap Z FAR;
  QERs : gmap Z QER;
  URRs : gmap Z URR;
  CreatedAt : Z;
}.

#[export] Instance Association_eq_dec : EqDecision Association.
Proof. solve_decision. Defined.
#[export] Instance PDI_eq_dec : EqDecision PacketDetectionInfo.
Proof. solve_decision. Defined.
#[export] Instance PDR_eq_dec : EqDecision PDR.
Proof. solve_decision. Defined.
#[export] Instance ForwardingParams_eq_dec : EqDecision ForwardingParams.
Proof. solve_decision. Defined.
#[export] Instance FAR_eq_dec : EqDecision FAR.
Proof. solve_decision. Defined.
#[export] Instance QER_eq_dec : EqDecision QER.
Proof. solve_decision. Defined.
#[export] Instance URR_eq_dec : EqDecision URR.
Proof. solve_decision. Defined.
#[export] Instance Session_eq_dec : EqDecision Session.
Proof. solve_decision. Defined.
