(* ===== verification/Northbound.v ===== *)
(** * The northbound store

    [pkg/cp/northbound.go]: the interface the control plane records its
    sessions through, with the laws it relies on, and the map-backed store
    that discharges them. *)
From S2P Require Import Prelude CpTypes.

(** [GetSession] gives a nil session when there is none. *)
Class NorthboundStore (N : Type) := {
  StoreSession : Z → Session → go N ();
  GetSession : Z → go N (option Session);
  DeleteSession : Z → go N ();
  ListSessions : go N (list Z);
}.

(** [stored] is what the store holds.  The control plane drops the errors of
    the store, so the laws ask that a call comes back, changed what it says,
    and leaves the other sessions alone. *)
Class NorthboundLaws (N : Type) `{!NorthboundStore N} := {
  stored : N → gmap Z Session;
  StoreSession_spec n seid s :
    stored (StoreSession seid s n).1 = <[seid := s]> (stored n) ∧
    returned (StoreSession seid s n).2;
  DeleteSession_spec n seid :
    stored (DeleteSession seid n).1 = delete seid (stored n) ∧
    returned (DeleteSession seid n).2;
}.

(** ** [MemoryStore] *)

Record MemoryStore := mkMemoryStore { ms_sessions : gmap Z Session }.

Definition NewMemoryStore : MemoryStore := mkMemoryStore ∅.

Definition memory_StoreSession (seid : Z) (session : Session) : go MemoryStore () := λ m,
  (mkMemoryStore (<[seid := session]> (ms_sessions m)), Ok tt).

Definition memory_GetSession (seid : Z) : go MemoryStore (option Session) := λ m,
  match ms_sessions m !! seid with
  | None => (m, Ok None)
  | Some session => (m, Ok (Some session))
  end.

Definition memory_DeleteSession (seid : Z) : go MemoryStore () := λ m,
  (mkMemoryStore (delete seid (ms_sessions m)), Ok tt).

(** The order of a Go map's iteration is not determined: [order] is one. *)
Definition memory_ListSessions (order : gmap Z Session → list Z) : go MemoryStore (list Z) :=
  λ m, (m, Ok (foldl (λ seids seid, seids ++ [seid]) [] (order (ms_sessions m)))).

#[export] Instance memory_store : NorthboundStore MemoryStore := {
  StoreSession := memory_StoreSession;
  GetSession := memory_GetSession;
  DeleteSession := memory_DeleteSession;
  ListSessions := memory_ListSessions (λ m, (map_to_list m).*1);
}.

#[export] Instance memory_laws : NorthboundLaws MemoryStore.
Proof. by refine {| stored := ms_sessions |}. Defined.
