(* ===== verification/Cp.v ===== *)
(** * The control plane function

    [pkg/cp/cp.go] and [pkg/cp/handlers.go], over any northbound store.

    The handlers run in the transport's receiving goroutine, the heartbeat
    loop in one of its own, and [CreateSession] and [DeleteSession] in the
    goroutines of their callers, several at once.  The two calls are written
    here twice: as the code composes them, around the transport's
    [SendRequest], and as the steps they make between the points where other
    goroutines can run, for [cp_step] to interleave.  [CreateSession_refines]
    and [DeleteSession_refines] relate the two.

    Associations are shared through pointers (the heartbeat loop writes to
    those it found in the map earlier), so they live in a heap. *)
From S2P Require Import Prelude Bytes Constants Header Ie Messages Transport CpTypes Northbound.

(** The names of the registered methods. *)
Inductive CPHandler :=
  | HAssociationSetupRequest
  | HAssociationReleaseRequest
  | HHeartbeatRequest
  | HSessionReportRequest.

(** [associations] maps a node id to an address in the heap [assocs]. *)
Record CPFunction (N : Type) := mkCPFunction {
  config : Config;
  nodeID : list byte;
  recoveryTS : Z;
  transport : Transport CPHandler;
  associations : gmap string nat;
  assocs : list Association;
  sessions : gmap Z Session;
  nextSEID : Z;
  store : option N;
}.
Arguments mkCPFunction {N}.
Arguments config {N}.
Arguments nodeID {N}.
Arguments recoveryTS {N}.
Arguments transport {N}.
Arguments associations {N}.
Arguments assocs {N}.
Arguments sessions {N}.
Arguments nextSEID {N}.
Arguments store {N}.

(** ** Rules as information elements *)

(** The elements of a Packet Detection Information. *)
Definition marshalPDI (pdi : PacketDetectionInfo) : res IE :=
  let pdiIEs := [NewSourceInterfaceIE (SourceInterface pdi)] in
  let pdiIEs :=
    match UE_IPAddress pdi with
    | Some ip =>
      let isV6 := match IP_To4 ip with None => true | Some _ => false end in
      pdiIEs ++ [NewUE_IPAddressIE ip isV6]
    | None => pdiIEs
    end in
  let pdiIEs :=
    if decide (SDFFilter pdi = EmptyString) then pdiIEs
    else pdiIEs ++ [NewSDFFilterIE (SDFFilter pdi)] in
  let pdiIEs :=
    if decide (ApplicationID pdi = EmptyString) then pdiIEs
    else pdiIEs ++ [NewApplicationIDIE (ApplicationID pdi)] in
  NewGroupedIE IETypePDI pdiIEs.

(** The body of the loop of [marshalPDRs]. *)
Definition marshalPDR (pdr : PDR) : res IE :=
  let pdrIEs := [NewPDR_ID_IE (PDR_ID pdr); NewPrecedenceIE (Precedence pdr)] in
  pdrIEs ←
    match PDI pdr with
    | Some pdi => pdiIE ← marshalPDI pdi; Ok (pdrIEs ++ [pdiIE])
    | None => Ok pdrIEs
    end;
  let pdrIEs := pdrIEs ++ [NewFAR_ID_IE (PDR_FAR_ID pdr)] in
  let pdrIEs := pdrIEs ++ (NewQER_ID_IE <$> QER_IDs pdr) in
  let pdrIEs := pdrIEs ++ (NewURR_ID_IE <$> URR_IDs pdr) in
  NewGroupedIE IETypeCreatePDR pdrIEs.

Definition marshalFAR (far : FAR) : res IE :=
  let farIEs := [NewFAR_ID_IE (FAR_ID far); NewApplyActionIE (ApplyAction far)] in
  farIEs ←
    match ForwardingParameters far with
    | Some fp =>
      fpIE ← NewGroupedIE IETypeForwardingParameters
               [NewDestinationInterfaceIE (DestinationInterface fp)];
      Ok (farIEs ++ [fpIE])
    | None => Ok farIEs
    end;
  NewGroupedIE IETypeCreateFAR farIEs.

Definition marshalQER (qer : QER) : res IE :=
  NewGroupedIE IETypeCreateQER [NewQER_ID_IE (QER_ID qer)].

Definition marshalURR (urr : URR) : res IE :=
  NewGroupedIE IETypeCreateURR [NewURR_ID_IE (URR_ID urr)].

(** The loop the four functions share. *)
Definition marshal_rules {R} (marshal : R → res IE) (rules : list R) : res (list IE) :=
  fold_res (λ ies rule, ie ← marshal rule; Ok (ies ++ [ie])) [] rules.

Definition marshalPDRs : list PDR → res (list IE) := marshal_rules marshalPDR.
Definition marshalFARs : list FAR → res (list IE) := marshal_rules marshalFAR.
Definition marshalQERs : list QER → res (list IE) := marshal_rules marshalQER.
Definition marshalURRs : list URR → res (list IE) := marshal_rules marshalURR.

(** The request of [CreateSession]. *)
Definition session_request (pdrs : list PDR) (fars : list FAR) (qers : list QER)
    (urrs : list URR) : res Message :=
  createPDRs ← wrap_res (Wrapf "marshal PDRs: %w" []) (marshalPDRs pdrs);
  createFARs ← wrap_res (Wrapf "marshal FARs: %w" []) (marshalFARs fars);
  createQERs ← wrap_res (Wrapf "marshal QERs: %w" []) (marshalQERs qers);
  createURRs ← wrap_res (Wrapf "marshal URRs: %w" []) (marshalURRs urrs);
  Ok (NewSessionEstablishmentRequest 0 0 createPDRs createFARs createQERs createURRs).

(** The response carries a cause, and it is Request Accepted. *)
Definition check_accepted (rejected : string) (resp : Message) : res () :=
  match FindIE resp IETypeCause with
  | None => Err (Errorf "no cause IE in response" [])
  | Some causeIE =>
    match GetCause causeIE with
    | Ok cause =>
      if cause =? CauseRequestAccepted then Ok tt else Err (Errorf rejected [AInt cause])
    | _ => Err (Errorf rejected [AInt 0])
    end
  end.

(** [for _, rule := range rules { m[rule.ID] = rule }]. *)
Definition by_id {R} (id : R → Z) (rules : list R) : gmap Z R :=
  foldl (λ m r, <[id r := r]> m) ∅ rules.

(** The session recorded once the response has come. *)
Definition new_session (now seid : Z) (node : string) (pdrs : list PDR) (fars : list FAR)
    (qers : list QER) (urrs : list URR) (resp : Message) : Session :=
  mkSession seid (SEID (Header resp)) node (by_id PDR_ID pdrs) (by_id FAR_ID fars)
    (by_id QER_ID qers) (by_id URR_ID urrs) now.

Section cp.
Context {N : Type} `{!NorthboundStore N}.
Implicit Types cp : CPFunction N.

Definition set_transport (t : Transport CPHandler) cp : CPFunction N :=
  mkCPFunction (config cp) (nodeID cp) (recoveryTS cp) t (associations cp) (assocs cp)
    (sessions cp) (nextSEID cp) (store cp).
Definition set_associations (m : gmap string nat) (h : list Association) cp : CPFunction N :=
  mkCPFunction (config cp) (nodeID cp) (recoveryTS cp) (transport cp) m h (sessions cp)
    (nextSEID cp) (store cp).
Definition set_sessions (s : gmap Z Session) cp : CPFunction N :=
  mkCPFunction (config cp) (nodeID cp) (recoveryTS cp) (transport cp) (associations cp)
    (assocs cp) s (nextSEID cp) (store cp).
Definition set_nextSEID (n : Z) cp : CPFunction N :=
  mkCPFunction (config cp) (nodeID cp) (recoveryTS cp) (transport cp) (associations cp)
    (assocs cp) (sessions cp) n (store cp).
Definition set_store (n : option N) cp : CPFunction N :=
  mkCPFunction (config cp) (nodeID cp) (recoveryTS cp) (transport cp) (associations cp)
    (assocs cp) (sessions cp) (nextSEID cp) n.

Definition on_conn {A} (m : go UDPConn A) : go (CPFunction N) A :=
  zoom (λ cp, conn (transport cp)) (λ c cp, set_transport (set_conn c (transport cp)) cp) m.

(** [if cp.store != nil { cp.store.Op(...) }], the error dropped. *)
Definition on_store (op : go N ()) : go (CPFunction N) () := λ cp,
  match store cp with
  | None => (cp, Ok tt)
  | Some n => let '(n, r) := discard op n in (set_store (Some n) cp, r)
  end.

(** [cp.associations[nodeID]], the pointer followed. *)
Definition association (node : string) cp : option Association :=
  associations cp !! node ≫= (λ a, assocs cp !! a).

(** ** Sessions *)

Definition allocSEID : go (CPFunction N) Z :=
  cp ← gget;
  let seid := nextSEID cp in
  _ ← gmodify (set_nextSEID (u64 (nextSEID cp + 1)));
  mret seid.

(** The three regions of the two calls that hold the lock. *)
Definition lookup_association (node : string) : go (CPFunction N) Association :=
  cp ← gget;
  match association node cp with
  | None => throw (Errorf "no association with node %s" [AStr node])
  | Some assoc => mret assoc
  end.

Definition lookup_session (seid : Z) : go (CPFunction N) Session :=
  cp ← gget;
  match sessions cp !! seid with
  | None => throw (Errorf "session %d not found" [AInt seid])
  | Some session => mret session
  end.

Definition insert_session (seid : Z) (session : Session) : go (CPFunction N) () :=
  gmodify (λ cp, set_sessions (<[seid := session]> (sessions cp)) cp).

Definition remove_session (seid : Z) : go (CPFunction N) () :=
  gmodify (λ cp, set_sessions (delete seid (sessions cp)) cp).

Section calls.
(** The transport's [SendRequest]: it comes back with a response or an error,
    and other goroutines may have changed the state meanwhile. *)
Variable SendRequest : Message → UDPAddr → Z → Z → go (CPFunction N) Message.

Definition CreateSession (now : Z) (node : string) (pdrs : list PDR) (fars : list FAR)
    (qers : list QER) (urrs : list URR) : go (CPFunction N) Z :=
  assoc ← lookup_association node;
  seid ← allocSEID;
  req ← lift (session_request pdrs fars qers urrs);
  cp ← gget;
  resp ← wrap_err (Wrapf "send request: %w" [])
           (SendRequest req (RemoteAddr assoc) (RetransmitT1 (config cp))
              (RetransmitN1 (config cp)));
  _ ← lift (check_accepted "session establishment rejected: cause=%d" resp);
  let session := new_session now seid node pdrs fars qers urrs resp in
  _ ← insert_session seid session;
  _ ← on_store (StoreSession seid session);
  mret seid.

Definition CP_DeleteSession (seid : Z) : go (CPFunction N) () :=
  session ← lookup_session seid;
  assoc ← lookup_association (Session_NodeID session);
  let req := NewSessionDeletionRequest 0 (RemoteSEID session) in
  cp ← gget;
  resp ← wrap_err (Wrapf "send request: %w" [])
           (SendRequest req (RemoteAddr assoc) (RetransmitT1 (config cp))
              (RetransmitN1 (config cp)));
  _ ← lift (check_accepted "session deletion rejected: cause=%d" resp);
  _ ← remove_session seid;
  on_store (DeleteSession seid).

(** ** Heartbeats *)

(** [assoc.LastHeartbeat = time.Now()], through the pointer. *)
Definition heard (now : Z) (a : nat) cp : CPFunction N :=
  set_associations (associations cp)
    (alter (λ x, mkAssociation (Assoc_NodeID x) (RemoteAddr x) (RecoveryTS x) (Features x)
                   (Some now) (EstablishedAt x)) a (assocs cp)) cp.

(** One round of the loop of [sendHeartbeats]; [3*time.Second] is in
    nanoseconds. *)
Definition send_heartbeat (now : Z) (a : nat) : go (CPFunction N) () := λ cp,
  match assocs cp !! a with
  | None => (cp, Panic NilDereference)
  | Some assoc =>
    let req := NewHeartbeatRequest 0 (recoveryTS cp) in
    match SendRequest req (RemoteAddr assoc) 3000000000 3 cp with
    | (cp, Ok _) => (heard now a cp, Ok tt)
    | (cp, Err _) => (cp, Ok tt)
    | (cp, Panic p) => (cp, Panic p)
    | (cp, Hang) => (cp, Hang)
    end
  end.

(** [order] is the order in which the range over the map finds the
    associations: a permutation of its values.  [clock] is the time at which
    each one's answer comes. *)
Definition sendHeartbeats (clock : nat → Z) (order : gmap string nat → list nat) :
    go (CPFunction N) () :=
  cp ← gget;
  for_each (order (associations cp)) (λ a, send_heartbeat (clock a) a).

End calls.

(** ** Handlers *)

Definition handleAssociationSetupRequest (now : Z) (msg : Message) (addr : UDPAddr) :
    go (CPFunction N) () :=
  match FindIE msg IETypeNodeID with
  | None => throw (Errorf "no node ID in association setup request" [])
  | Some nodeIDIE =>
    match FindIE msg IETypeRecoveryTimeStamp with
    | None => throw (Errorf "no recovery timestamp in association setup request" [])
    | Some _ =>
      id ← lift (go_slice (Value nodeIDIE) 1 (len (Value nodeIDIE)));
      let node := string_of_bytes id in
      let assoc := mkAssociation id addr 0 [] None now in
      _ ← gmodify (λ cp, set_associations (<[node := length (assocs cp)]> (associations cp))
                           (assocs cp ++ [assoc]) cp);
      cp ← gget;
      let resp := NewAssociationSetupResponse (SequenceNumber (Header msg)) (nodeID cp)
                    CauseRequestAccepted (recoveryTS cp) in
      on_conn (SendResponse resp addr)
    end
  end.

Definition handleAssociationReleaseRequest (msg : Message) (addr : UDPAddr) :
    go (CPFunction N) () :=
  match FindIE msg IETypeNodeID with
  | None => throw (Errorf "no node ID in association release request" [])
  | Some nodeIDIE =>
    id ← lift (go_slice (Value nodeIDIE) 1 (len (Value nodeIDIE)));
    let node := string_of_bytes id in
    _ ← gmodify (λ cp, set_associations (delete node (associations cp)) (assocs cp) cp);
    cp ← gget;
    let resp := NewAssociationReleaseResponse (SequenceNumber (Header msg)) (nodeID cp)
                  CauseRequestAccepted in
    on_conn (SendResponse resp addr)
  end.

Definition handleHeartbeatRequest (msg : Message) (addr : UDPAddr) : go (CPFunction N) () :=
  cp ← gget;
  let resp := NewHeartbeatResponse (SequenceNumber (Header msg)) (recoveryTS cp) in
  on_conn (SendResponse resp addr).

Definition handleSessionReportRequest (msg : Message) (addr : UDPAddr) :
    go (CPFunction N) () := mret tt.

Definition run_handler (h : CPHandler) (now : Z) (msg : Message) (addr : UDPAddr) :
    go (CPFunction N) () :=
  match h with
  | HAssociationSetupRequest => handleAssociationSetupRequest now msg addr
  | HAssociationReleaseRequest => handleAssociationReleaseRequest msg addr
  | HHeartbeatRequest => handleHeartbeatRequest msg addr
  | HSessionReportRequest => handleSessionReportRequest msg addr
  end.

(** ** Life cycle *)

Definition registerHandlers (t : Transport CPHandler) : Transport CPHandler :=
  let t := RegisterHandler MsgTypeAssociationSetupRequest HAssociationSetupRequest t in
  let t := RegisterHandler MsgTypeAssociationReleaseRequest HAssociationReleaseRequest t in
  let t := RegisterHandler MsgTypeHeartbeatRequest HHeartbeatRequest t in
  RegisterHandler MsgTypeSessionReportRequest HSessionReportRequest t.

(** [newTransport] is what opening the socket gives, [now] the clock in
    seconds. *)
Definition NewCPFunction (cfg : Config) (store : option N)
    (newTransport : res (Transport CPHandler)) (now : Z) : res (CPFunction N) :=
  t ← wrap_res (Wrapf "create transport: %w" []) newTransport;
  Ok (mkCPFunction cfg (bytes_of_string (NodeID cfg)) (u32 now) (registerHandlers t) ∅ [] ∅ 1
        store).

(** One round of the receive loop with the handler it calls; the handler's
    error is dropped. *)
Definition cp_receive (now : Z) (datagram : list byte) (addr : UDPAddr) :
    go (CPFunction N) () :=
  '(msg, d) ← zoom transport set_transport (receive datagram addr);
  match d with
  | ToHandler h addr => discard (run_handler h now msg addr)
  | ToPending _ | Ignored => mret tt
  end.

End cp.
