(* ===== verification/CpRuns.v ===== *)
(** * Concurrent runs of the control plane

    Calls of [CreateSession] and [DeleteSession] that interleave with each
    other, with the receive loop and with the heartbeat loop.  A call moves
    by [advance]: each step is what the code does in one go, from one point
    where another goroutine can run to the next (a region under the lock, the
    wait for a response, the call of the store).  The response is whatever
    the network gives. *)
From S2P Require Import Prelude Bytes Constants Header Ie Messages Transport CpTypes Northbound Cp.

(** The arguments of a call of [CreateSession]. *)
Record create_args := mkCreateArgs {
  a_node : string;
  a_pdrs : list PDR;
  a_fars : list FAR;
  a_qers : list QER;
  a_urrs : list URR;
}.

(** Where a call stands. *)
Inductive cp_call :=
  | CreateStart (a : create_args)
  | CreateAlloc (a : create_args) (assoc : Association)
  | CreateWaiting (a : create_args) (addr : UDPAddr) (seid : Z) (req : Message)
  | CreateStoring (seid : Z) (session : Session)
  | CreateReturned (r : res Z)
  | DeleteStart (seid : Z)
  | DeleteFound (seid : Z) (session : Session)
  | DeleteWaiting (seid : Z) (addr : UDPAddr) (req : Message)
  | DeleteStoring (seid : Z)
  | DeleteReturned (r : res ()).

Section runs.
Context {N : Type} `{!NorthboundStore N}.
Implicit Types cp : CPFunction N.

(** Run one region: go on with its value, or return its failure. *)
Definition and_then {A B} (m : go (CPFunction N) A) (k : A → cp_call) (fail : res B → cp_call)
    cp : CPFunction N * cp_call :=
  match m cp with
  | (cp, Ok a) => (cp, k a)
  | (cp, Err e) => (cp, fail (Err e))
  | (cp, Panic p) => (cp, fail (Panic p))
  | (cp, Hang) => (cp, fail Hang)
  end.

Definition advance (now : Z) (response : res Message) (c : cp_call) :
    CPFunction N → CPFunction N * cp_call :=
  match c with
  | CreateStart a =>
    and_then (lookup_association (a_node a)) (λ assoc, CreateAlloc a assoc) CreateReturned
  | CreateAlloc a assoc =>
    and_then
      (seid ← allocSEID;
       req ← lift (session_request (a_pdrs a) (a_fars a) (a_qers a) (a_urrs a));
       mret (seid, req))
      (λ '(seid, req), CreateWaiting a (RemoteAddr assoc) seid req) CreateReturned
  | CreateWaiting a addr seid req =>
    and_then
      (resp ← lift (wrap_res (Wrapf "send request: %w" []) response);
       _ ← lift (check_accepted "session establishment rejected: cause=%d" resp);
       let session := new_session now seid (a_node a) (a_pdrs a) (a_fars a) (a_qers a)
                        (a_urrs a) resp in
       _ ← insert_session seid session;
       mret session)
      (λ session, CreateStoring seid session) CreateReturned
  | CreateStoring seid session =>
    and_then (on_store (StoreSession seid session)) (λ _, CreateReturned (Ok seid))
      CreateReturned
  | DeleteStart seid =>
    and_then (lookup_session seid) (λ session, DeleteFound seid session) DeleteReturned
  | DeleteFound seid session =>
    and_then (lookup_association (Session_NodeID session))
      (λ assoc, DeleteWaiting seid (RemoteAddr assoc)
                  (NewSessionDeletionRequest 0 (RemoteSEID session))) DeleteReturned
  | DeleteWaiting seid addr req =>
    and_then
      (resp ← lift (wrap_res (Wrapf "send request: %w" []) response);
       _ ← lift (check_accepted "session deletion rejected: cause=%d" resp);
       remove_session seid)
      (λ _, DeleteStoring seid) DeleteReturned
  | DeleteStoring seid =>
    and_then (on_store (DeleteSession seid)) (λ _, DeleteReturned (Ok tt)) DeleteReturned
  | CreateReturned _ | DeleteReturned _ => λ cp, (cp, c)
  end.

Record cp_run := mkRun { r_cp : CPFunction N; r_calls : gmap nat cp_call }.

(** The call is about to allocate a SEID. *)
Definition allocates (c : cp_call) : bool :=
  match c with CreateAlloc _ _ => true | _ => false end.

(** The last two steps are those of the transport and of the heartbeat loop;
    [nextSEID] wraps around after 2^64 allocations, which runs stay clear
    of. *)
Inductive cp_step : cp_run → cp_run → Prop :=
  | step_create run i a :
      r_calls run !! i = None →
      cp_step run (mkRun (r_cp run) (<[i := CreateStart a]> (r_calls run)))
  | step_delete run i seid :
      r_calls run !! i = None →
      cp_step run (mkRun (r_cp run) (<[i := DeleteStart seid]> (r_calls run)))
  | step_advance run i c now response cp' c' :
      r_calls run !! i = Some c → (allocates c → nextSEID (r_cp run) < 2 ^ 64 - 1) →
      advance now response c (r_cp run) = (cp', c') →
      cp_step run (mkRun cp' (<[i := c']> (r_calls run)))
  | step_datagram run now datagram addr cp' r :
      delivering (transport (r_cp run)) = None →
      cp_receive now datagram addr (r_cp run) = (cp', r) →
      cp_step run (mkRun cp' (r_calls run))
  | step_transport run t :
      tstep (transport (r_cp run)) t →
      cp_step run (mkRun (set_transport t (r_cp run)) (r_calls run))
  | step_heard run now a :
      cp_step run (mkRun (heard now a (r_cp run)) (r_calls run)).

(** What [NewCPFunction] gives, with an empty store and no call yet. *)
Definition run_initial `{!NorthboundLaws N} (run : cp_run) : Prop :=
  associations (r_cp run) = ∅ ∧ sessions (r_cp run) = ∅ ∧ nextSEID (r_cp run) = 1 ∧
  r_calls run = ∅.

End runs.
Arguments cp_run : clear implicits.

(** ** Invariant *)

(** The SEID a call of [CreateSession] owns, that of one that waits for its
    response, and the SEID of a deletion that has found its session. *)
Definition owned (c : cp_call) : option Z :=
  match c with
  | CreateWaiting _ _ seid _ | CreateStoring seid _ | CreateReturned (Ok seid) => Some seid
  | _ => None
  end.
Definition awaited (c : cp_call) : option Z :=
  match c with CreateWaiting _ _ seid _ => Some seid | _ => None end.
Definition deleted (c : cp_call) : option Z :=
  match c with
  | DeleteFound seid _ | DeleteWaiting seid _ _ | DeleteStoring seid => Some seid
  | _ => None
  end.

(** What a call relies on. *)
Definition cp_call_ok (m : gmap Z Session) (c : cp_call) : Prop :=
  match c with
  | CreateWaiting _ _ seid _ => m !! seid = None
  | CreateStoring seid s => m !! seid = Some s ∨ m !! seid = None
  | DeleteStoring seid => m !! seid = None
  | _ => True
  end.

(** A session is stored under its SEID and keeps its rules under their ids. *)
Definition cp_session_ok (next k : Z) (s : Session) : Prop :=
  LocalSEID s = k ∧ 1 ≤ k < next ∧
  map_Forall (λ i r, PDR_ID r = i) (PDRs s) ∧ map_Forall (λ i r, FAR_ID r = i) (FARs s) ∧
  map_Forall (λ i r, QER_ID r = i) (QERs s) ∧ map_Forall (λ i r, URR_ID r = i) (URRs s).

Record calls_inv (next : Z) (m : gmap Z Session) (cs : gmap nat cp_call) : Prop := {
  ci_ok : ∀ i c, cs !! i = Some c → cp_call_ok m c;
  ci_owned : ∀ i c k, cs !! i = Some c → owned c = Some k → 1 ≤ k < next;
  ci_deleted : ∀ i c k, cs !! i = Some c → deleted c = Some k → 1 ≤ k < next;
  ci_distinct : ∀ i j ci cj k, cs !! i = Some ci → cs !! j = Some cj →
    owned ci = Some k → owned cj = Some k → i = j;
  ci_disjoint : ∀ i j ci cj k, cs !! i = Some ci → cs !! j = Some cj →
    awaited ci = Some k → deleted cj = Some k → False;
}.

Record cp_inv {N} `{!NorthboundStore N, !NorthboundLaws N} (run : cp_run N) : Prop := {
  ri_next : 1 ≤ nextSEID (r_cp run) < 2 ^ 64;
  ri_sessions : map_Forall (cp_session_ok (nextSEID (r_cp run))) (sessions (r_cp run));
  ri_assoc : map_Forall (λ node a, ∃ x, assocs (r_cp run) !! a = Some x ∧
    node = string_of_bytes (Assoc_NodeID x)) (associations (r_cp run));
  ri_calls : calls_inv (nextSEID (r_cp run)) (sessions (r_cp run)) (r_calls run);
  ri_store : ∀ n k s, store (r_cp run) = Some n → sessions (r_cp run) !! k = Some s →
    stored n !! k = Some s ∨ ∃ i, r_calls run !! i = Some (CreateStoring k s);
}.

(** ** Lemmas *)

(** One call moves, and the table and the counter with it. *)
Lemma calls_inv_set next next' m m' cs i c' :
  calls_inv next m cs → next ≤ next' →
  (∀ j cj, j ≠ i → cs !! j = Some cj → cp_call_ok m cj → cp_call_ok m' cj) →
  cp_call_ok m' c' →
  (∀ k, owned c' = Some k → 1 ≤ k < next' ∧
     ∀ j cj, j ≠ i → cs !! j = Some cj → owned cj ≠ Some k) →
  (∀ k, deleted c' = Some k → 1 ≤ k < next' ∧
     ∀ j cj, j ≠ i → cs !! j = Some cj → awaited cj ≠ Some k) →
  (∀ k, awaited c' = Some k → ∀ j cj, j ≠ i → cs !! j = Some cj → deleted cj ≠ Some k) →
  calls_inv next' m' (<[i := c']> cs).
Proof.
  intros [Hok Hown Hdel Hdist Hdisj] Hn Hm Hc' Ho Hd Ha. constructor.
  - intros j cj [[<- <-]|[Hj Hcj]]%lookup_insert_Some; [done|]. eauto.
  - intros j cj k [[<- <-]|[Hj Hcj]]%lookup_insert_Some Hk; [by apply Ho|].
    pose proof (Hown _ _ _ Hcj Hk). lia.
  - intros j cj k [[<- <-]|[Hj Hcj]]%lookup_insert_Some Hk; [by apply Hd|].
    pose proof (Hdel _ _ _ Hcj Hk). lia.
  - intros j1 j2 c1 c2 k [[<- <-]|[Hj1 H1]]%lookup_insert_Some
      [[<- <-]|[Hj2 H2]]%lookup_insert_Some Hk1 Hk2; [done| | |by eapply Hdist].
    + apply Ho in Hk1 as [_ Hk1]. by destruct (Hk1 j2 c2).
    + apply Ho in Hk2 as [_ Hk2]. by destruct (Hk2 j1 c1).
  - intros j1 j2 c1 c2 k [[<- <-]|[Hj1 H1]]%lookup_insert_Some
      [[<- <-]|[Hj2 H2]]%lookup_insert_Some Hk1 Hk2; [by destruct c'| | |exact (Hdisj _ _ _ _ _ H1 H2 Hk1 Hk2)].
    + by destruct (Ha _ Hk1 j2 c2).
    + apply Hd in Hk2 as [_ Hk2]. by destruct (Hk2 j1 c1).
Qed.

(** A call that neither gets nor finds a SEID. *)
Lemma calls_inv_same next m cs i c' :
  calls_inv next m cs → cp_call_ok m c' →
  (∀ k, owned c' = Some k → ∃ c, cs !! i = Some c ∧ owned c = Some k) →
  (∀ k, deleted c' = Some k → ∃ c, cs !! i = Some c ∧ deleted c = Some k) →
  awaited c' = None →
  calls_inv next m (<[i := c']> cs).
Proof.
  intros Hi Hc' Ho Hd Ha. destruct Hi as [Hok Hown Hdel Hdist Hdisj] eqn:E.
  eapply calls_inv_set; try done.
  - intros k (c & Hc & Hk)%Ho. split; [by eapply Hown|].
    intros j cj Hj Hcj Hkj. apply Hj. by eapply Hdist.
  - intros k (c & Hc & Hk)%Hd. split; [by eapply Hdel|].
    intros j cj Hj Hcj Hkj. by eapply (Hdisj j i).
  - intros k Hk. congruence.
Qed.

Lemma by_id_spec {R} (id : R → Z) rules (m : gmap Z R) :
  map_Forall (λ i r, id r = i) m → map_Forall (λ i r, id r = i)
    (foldl (λ m r, <[id r := r]> m) m rules).
Proof.
  revert m. induction rules as [|r rules IH]; intros m Hm; [done|]. simpl. apply IH.
  by apply map_Forall_insert_2.
Qed.

Lemma by_id_keys {R} (id : R → Z) rules : map_Forall (λ i r, id r = i) (by_id id rules).
Proof. by apply by_id_spec. Qed.

#[export] Hint Resolve by_id_keys : pfcp.

Section invariant.
Context {N : Type} `{!NorthboundStore N, !NorthboundLaws N}.
Implicit Types (cp : CPFunction N) (run : cp_run N).

(** The store's operations, as the control plane calls them. *)
Lemma on_store_spec (op : go N ()) cp :
  (∀ n, returned (op n).2) →
  on_store op cp = (set_store ((λ n, (op n).1) <$> store cp) cp, Ok tt).
Proof.
  intros Hr. unfold on_store. destruct cp as [c n r t a h s x [st|]]; [|done]. simpl.
  unfold discard. specialize (Hr st). by destruct (op st) as [st' [[]|e|p|]].
Qed.

Lemma StoreSession_on_store seid s cp :
  on_store (StoreSession seid s) cp =
    (set_store ((λ n, (StoreSession seid s n).1) <$> store cp) cp, Ok tt).
Proof. apply on_store_spec. intros n. apply StoreSession_spec. Qed.

Lemma DeleteSession_on_store seid cp :
  on_store (DeleteSession seid) cp =
    (set_store ((λ n, (DeleteSession seid n).1) <$> store cp) cp, Ok tt).
Proof. apply on_store_spec. intros n. apply DeleteSession_spec. Qed.

(** A step outside the calls that leaves the sessions, the counter and the
    store alone. *)
Lemma cp_inv_frame cp cs cp' :
  sessions cp' = sessions cp → nextSEID cp' = nextSEID cp → store cp' = store cp →
  map_Forall (λ node a, ∃ x, assocs cp' !! a = Some x ∧
    node = string_of_bytes (Assoc_NodeID x)) (associations cp') →
  cp_inv (mkRun cp cs) → cp_inv (mkRun cp' cs).
Proof.
  intros Hs Hn Hst Ha [H1 H2 _ H4 H5]. simpl in *.
  constructor; simpl; rewrite ?Hs, ?Hn, ?Hst; done.
Qed.

(** A call that moves and leaves the whole function alone. *)
Lemma cp_inv_call cp cs i c c' :
  cs !! i = Some c → (∀ k s, c ≠ CreateStoring k s) →
  cp_inv (mkRun cp cs) → calls_inv (nextSEID cp) (sessions cp) (<[i := c']> cs) →
  cp_inv (mkRun cp (<[i := c']> cs)).
Proof.
  intros Hc Hns [H1 H2 H3 H4 H5] Hi. simpl in *. constructor; simpl; try done.
  intros n k s Hn Hk. destruct (H5 n k s Hn Hk) as [?|[j Hj]]; [by left|]. right.
  exists j. rewrite lookup_insert_ne; [done|]. intros ->.
  rewrite Hc in Hj. injection Hj as ->. by eapply Hns.
Qed.

(** Failures of a call. *)
Lemma cp_inv_fail cp cs i c c' :
  cs !! i = Some c → (∀ k s, c ≠ CreateStoring k s) → cp_inv (mkRun cp cs) →
  owned c' = None → deleted c' = None → awaited c' = None → cp_call_ok (sessions cp) c' →
  cp_inv (mkRun cp (<[i := c']> cs)).
Proof.
  intros Hc Hns Hi Ho Hd Ha Hok. eapply cp_inv_call; [done..|].
  apply calls_inv_same; [by destruct Hi|done|intros; congruence|intros; congruence|done].
Qed.

(** [allocSEID], and the request, which is always built. *)
Lemma advance_alloc cp cs i a assoc cp' c' now resp :
  cs !! i = Some (CreateAlloc a assoc) → nextSEID cp < 2 ^ 64 - 1 → cp_inv (mkRun cp cs) →
  advance now resp (CreateAlloc a assoc) cp = (cp', c') → cp_inv (mkRun cp' (<[i := c']> cs)).
Proof.
  intros Hc Hn Hi. pose proof Hi as [H1 H2 H3 H4 H5]. simpl in *.
  unfold advance, and_then, allocSEID. go_unfold. rewrite u64_id by (widths; lia).
  assert (map_Forall (cp_session_ok (nextSEID cp + 1)) (sessions cp)) as H2'.
  { eapply map_Forall_impl; [exact H2|]. intros k s (? & ? & ?). split_and!; [done|lia|lia|tauto..]. }
  assert (sessions cp !! nextSEID cp = None) as Hnew.
  { destruct (sessions cp !! nextSEID cp) eqn:E; [|done]. apply H2 in E as (_ & ? & _). lia. }
  assert (∀ j cj k, cs !! j = Some cj → owned cj = Some k ∨ deleted cj = Some k →
    k ≠ nextSEID cp) as Hne.
  { destruct H4 as [_ Hown Hdel _ _]. intros j cj k Hcj [Hk|Hk];
      [pose proof (Hown _ _ _ Hcj Hk)|pose proof (Hdel _ _ _ Hcj Hk)]; lia. }
  destruct (session_request _ _ _ _) as [req|e|p|]; intros [= <- <-];
    (constructor; simpl; [lia|done|done| |]).
  all: try (intros n k s Hst Hk; destruct (H5 n k s Hst Hk) as [?|[j Hj]]; [by left|right];
    exists j; rewrite lookup_insert_ne by congruence; done).
  all: eapply calls_inv_set; try done; try lia.
  - intros k [= <-]. split; [lia|]. intros j cj _ Hcj Hk. by apply (Hne j cj (nextSEID cp)); auto.
  - intros k [= <-] j cj _ Hcj Hk. by apply (Hne j cj (nextSEID cp)); auto.
Qed.

(** The response, and the session inserted. *)
Lemma advance_response cp cs i a addr seid req cp' c' now resp :
  cs !! i = Some (CreateWaiting a addr seid req) → cp_inv (mkRun cp cs) →
  advance now resp (CreateWaiting a addr seid req) cp = (cp', c') →
  cp_inv (mkRun cp' (<[i := c']> cs)).
Proof.
  intros Hc Hi. pose proof Hi as [H1 H2 H3 H4 H5]. simpl in *.
  assert (∀ c, owned c = None → deleted c = None → awaited c = None →
    cp_call_ok (sessions cp) c → cp_inv (mkRun cp (<[i := c]> cs))) as Hfail.
  { intros. by eapply cp_inv_fail. }
  unfold advance, and_then. go_unfold.
  destruct resp as [resp|e|p|]; simpl; try (intros [= <- <-]; by apply Hfail).
  destruct (check_accepted _ resp) as [_x|e|p|]; simpl;
    try (intros [= <- <-]; by apply Hfail).
  intros [= <- <-]. destruct H4 as [Hok Hown Hdel Hdist Hdisj] eqn:E.
  assert (1 ≤ seid < nextSEID cp) as Hseid by by eapply (Hown i).
  set (s := new_session _ _ _ _ _ _ _ _).
  constructor; simpl; [done| |done| |].
  - apply map_Forall_insert_2; [|done]. split_and!; simpl; auto with pfcp; lia.
  - eapply calls_inv_set; try done.
    + intros j cj Hj Hcj. destruct cj; simpl; try done.
      * rewrite lookup_insert_ne; [done|]. intros ->. apply Hj. by eapply Hdist.
      * rewrite lookup_insert_ne; [done|]. intros ->. apply Hj. by eapply Hdist.
      * rewrite lookup_insert_ne; [done|]. intros ->. by eapply (Hdisj i j).
    + left. apply lookup_insert_eq.
    + intros k [= <-]. split; [done|]. intros j cj Hj Hcj Hk. apply Hj. by eapply Hdist.
  - intros n k s' Hn. rewrite lookup_insert_Some. intros [[<- <-]|[Hk Hs]].
    + right. exists i. apply lookup_insert_eq.
    + destruct (H5 n k s' Hn Hs) as [?|[j Hj]]; [by left|right]. exists j.
      rewrite lookup_insert_ne by congruence. done.
Qed.

(** The session handed to the store. *)
Lemma advance_storing cp cs i seid s cp' c' now resp :
  cs !! i = Some (CreateStoring seid s) → cp_inv (mkRun cp cs) →
  advance now resp (CreateStoring seid s) cp = (cp', c') →
  cp_inv (mkRun cp' (<[i := c']> cs)).
Proof.
  intros Hc Hi. pose proof Hi as [H1 H2 H3 H4 H5]. simpl in *.
  unfold advance, and_then. rewrite StoreSession_on_store. intros [= <- <-].
  constructor; simpl; [done..| |].
  - apply calls_inv_same; [done|done| |done|done]. intros k [= <-]. eauto.
  - intros n k s'. destruct (store cp) as [n0|] eqn:Hst; [|done]. simpl. intros [= <-] Hs.
    destruct (StoreSession_spec n0 seid s) as [-> _].
    destruct (decide (k = seid)) as [->|Hk].
    + left. rewrite lookup_insert_eq. destruct H4 as [Hok _ _ _ _].
      specialize (Hok _ _ Hc). simpl in Hok. destruct Hok as [Hok|Hok]; congruence.
    + rewrite lookup_insert_ne by done.
      destruct (H5 n0 k s' eq_refl Hs) as [?|[j Hj]]; [by left|right]. exists j.
      rewrite lookup_insert_ne by congruence. done.
Qed.

(** The deletion's response, and the session removed. *)
Lemma advance_removal cp cs i seid addr req cp' c' now resp :
  cs !! i = Some (DeleteWaiting seid addr req) → cp_inv (mkRun cp cs) →
  advance now resp (DeleteWaiting seid addr req) cp = (cp', c') →
  cp_inv (mkRun cp' (<[i := c']> cs)).
Proof.
  intros Hc Hi. pose proof Hi as [H1 H2 H3 H4 H5]. simpl in *.
  assert (∀ c, owned c = None → deleted c = None → awaited c = None →
    cp_call_ok (sessions cp) c → cp_inv (mkRun cp (<[i := c]> cs))) as Hfail.
  { intros. by eapply cp_inv_fail. }
  unfold advance, and_then. go_unfold.
  destruct resp as [resp|e|p|]; simpl; try (intros [= <- <-]; by apply Hfail).
  destruct (check_accepted _ resp) as [_x|e|p|]; simpl;
    try (intros [= <- <-]; by apply Hfail).
  intros [= <- <-]. destruct H4 as [Hok Hown Hdel Hdist Hdisj] eqn:E.
  constructor; simpl; [done| |done| |].
  - by apply map_Forall_delete.
  - eapply calls_inv_set; try done.
    + intros j cj Hj Hcj. destruct cj; simpl; rewrite ?lookup_delete; repeat case_decide;
        naive_solver.
    + simpl. apply lookup_delete_eq.
    + intros k [= <-]. split; [by eapply (Hdel i)|]. intros j cj Hj Hcj Hk.
      by eapply (Hdisj j i).
  - intros n k s' Hn. rewrite lookup_delete_Some. intros [Hk Hs].
    destruct (H5 n k s' Hn Hs) as [?|[j Hj]]; [by left|right]. exists j.
    rewrite lookup_insert_ne by congruence. done.
Qed.

(** The session struck from the store. *)
Lemma advance_struck cp cs i seid cp' c' now resp :
  cs !! i = Some (DeleteStoring seid) → cp_inv (mkRun cp cs) →
  advance now resp (DeleteStoring seid) cp = (cp', c') →
  cp_inv (mkRun cp' (<[i := c']> cs)).
Proof.
  intros Hc Hi. pose proof Hi as [H1 H2 H3 H4 H5]. simpl in *.
  unfold advance, and_then. rewrite DeleteSession_on_store. intros [= <- <-].
  constructor; simpl; [done..| |].
  - by apply calls_inv_same.
  - intros n k s'. destruct (store cp) as [n0|] eqn:Hst; [|done]. simpl. intros [= <-] Hs.
    destruct (DeleteSession_spec n0 seid) as [-> _].
    destruct H4 as [Hok _ _ _ _]. specialize (Hok _ _ Hc). simpl in Hok.
    rewrite lookup_delete_ne by congruence.
    destruct (H5 n0 k s' eq_refl Hs) as [?|[j Hj]]; [by left|right]. exists j.
    rewrite lookup_insert_ne by congruence. done.
Qed.

Lemma advance_inv cp cs i c cp' c' now resp :
  cs !! i = Some c → (allocates c → nextSEID cp < 2 ^ 64 - 1) → cp_inv (mkRun cp cs) →
  advance now resp c cp = (cp', c') → cp_inv (mkRun cp' (<[i := c']> cs)).
Proof.
  intros Hc Hn Hi. pose proof Hi as [_ H2 _ H4 _]. simpl in H2, H4.
  destruct c as [a|a assoc|a addr seid req|seid s|r|seid|seid s|seid addr req|seid|r].
  - unfold advance, and_then, lookup_association. go_unfold.
    destruct (association _ cp); intros [= <- <-]; by eapply cp_inv_fail.
  - by apply advance_alloc; [|apply Hn|].
  - by eapply advance_response.
  - by eapply advance_storing.
  - intros [= <- <-]. by rewrite insert_id.
  - unfold advance, and_then, lookup_session. go_unfold.
    destruct (sessions cp !! seid) as [s|] eqn:Hs; intros [= <- <-]; [|by eapply cp_inv_fail].
    apply H2 in Hs as Hok. destruct Hok as (_ & Hr & _).
    eapply cp_inv_call; try done. eapply calls_inv_set; try done.
    intros k [= <-]. split; [done|]. intros j cj _ Hcj Hk. destruct cj; simplify_eq/=.
    destruct H4 as [Hok _ _ _ _]. specialize (Hok _ _ Hcj). simpl in Hok. congruence.
  - unfold advance, and_then, lookup_association. go_unfold.
    destruct (association _ cp); intros [= <- <-]; [|by eapply cp_inv_fail].
    eapply cp_inv_call; try done. apply calls_inv_same; try done.
    intros k [= <-]. eauto.
  - by eapply advance_removal.
  - by eapply advance_struck.
  - intros [= <- <-]. by rewrite insert_id.
Qed.

(** ** The receive loop *)

(** Every association is kept under its node id. *)
Definition assoc_ok cp : Prop :=
  map_Forall (λ node a, ∃ x, assocs cp !! a = Some x ∧
    node = string_of_bytes (Assoc_NodeID x)) (associations cp).

(** What the receiving goroutine leaves alone. *)
Definition same_sessions cp cp' : Prop :=
  sessions cp' = sessions cp ∧ nextSEID cp' = nextSEID cp ∧ store cp' = store cp.

Lemma on_conn_eq {A} (m : go UDPConn A) cp :
  on_conn m cp = (set_transport (set_conn (m (conn (transport cp))).1 (transport cp)) cp,
                  (m (conn (transport cp))).2).
Proof. unfold on_conn, zoom. by destruct (m _). Qed.

Lemma assoc_ok_insert cp id x :
  assoc_ok cp → Assoc_NodeID x = id →
  assoc_ok (set_associations (<[string_of_bytes id := length (assocs cp)]> (associations cp))
              (assocs cp ++ [x]) cp).
Proof.
  intros Ha <-. apply map_Forall_insert_2; simpl.
  - exists x. by rewrite list_lookup_middle.
  - eapply map_Forall_impl; [exact Ha|]. intros node a (y & Hy & ->). exists y.
    split; [|done]. by apply lookup_app_l_Some.
Qed.

Lemma run_handler_frame h now msg addr cp :
  assoc_ok cp →
  same_sessions cp (run_handler h now msg addr cp).1 ∧
  assoc_ok (run_handler h now msg addr cp).1.
Proof.
  intros Ha. destruct h; simpl.
  - unfold handleAssociationSetupRequest. destruct (FindIE msg IETypeNodeID) as [ie|]; [|done].
    destruct (FindIE _ _); [|done]. go_unfold.
    destruct (go_slice _ _ _) as [id|e|p|]; try done. rewrite on_conn_eq. simpl.
    split; [done|]. by apply (assoc_ok_insert cp id).
  - unfold handleAssociationReleaseRequest.
    destruct (FindIE msg IETypeNodeID) as [ie|]; [|done]. go_unfold.
    destruct (go_slice _ _ _) as [id|e|p|]; try done. rewrite on_conn_eq. simpl.
    split; [done|]. by apply map_Forall_delete.
  - unfold handleHeartbeatRequest. go_unfold. by rewrite on_conn_eq.
  - done.
Qed.

Lemma cp_receive_frame now datagram addr cp :
  assoc_ok cp →
  same_sessions cp (cp_receive now datagram addr cp).1 ∧
  assoc_ok (cp_receive now datagram addr cp).1.
Proof.
  intros Ha. unfold cp_receive, zoom. go_unfold.
  destruct (receive datagram addr (transport cp)) as [t [[msg d]|e|p|]]; simpl; try done.
  destruct d as [i|h a|]; simpl; try done. rewrite discard_fst.
  by apply (run_handler_frame h now msg a (set_transport t cp)).
Qed.

(** ** Runs *)

Lemma cp_step_inv run run' : cp_step run run' → cp_inv run → cp_inv run'.
Proof.
  intros [[cp cs] i a Hi|[cp cs] i seid Hi|[cp cs] i c now resp cp' c' Hc Hn Ha
    |[cp cs] now d addr cp' r _ Hr|[cp cs] t Ht|[cp cs] now a] HI; simpl in *.
  - destruct HI as [H1 H2 H3 H4 H5]. constructor; simpl; [done..| |].
    + by apply calls_inv_same.
    + intros n k s Hn Hs. destruct (H5 n k s Hn Hs) as [?|[j Hj]]; [by left|right].
      exists j. rewrite lookup_insert_ne; [done|]. intros ->. simpl in Hj. congruence.
  - destruct HI as [H1 H2 H3 H4 H5]. constructor; simpl; [done..| |].
    + by apply calls_inv_same.
    + intros n k s Hn Hs. destruct (H5 n k s Hn Hs) as [?|[j Hj]]; [by left|right].
      exists j. rewrite lookup_insert_ne; [done|]. intros ->. simpl in Hj. congruence.
  - by eapply advance_inv.
  - destruct (cp_receive_frame now d addr cp) as [(?&?&?) ?]; [by destruct HI|].
    rewrite Hr in *. by eapply cp_inv_frame.
  - eapply cp_inv_frame; [..|exact HI]; try done. by destruct HI.
  - eapply cp_inv_frame; [..|exact HI]; try done. destruct HI as [_ _ H3 _ _]. simpl in *.
    eapply map_Forall_impl; [exact H3|]. intros node b (x & Hx & ->). unfold heard. simpl.
    destruct (decide (a = b)) as [->|Hab].
    + rewrite list_lookup_alter_eq, Hx. simpl. by eexists.
    + rewrite list_lookup_alter_ne by done. eauto.
Qed.

Lemma run_initial_inv run : run_initial run → cp_inv run.
Proof.
  destruct run as [cp cs]. intros (Ha & Hs & Hn & Hc). simpl in *.
  by constructor; simpl; rewrite ?Ha, ?Hs, ?Hn, ?Hc.
Qed.

Lemma cp_reachable run0 run : run_initial run0 → rtc cp_step run0 run → cp_inv run.
Proof.
  intros H0 Hr. apply run_initial_inv in H0. revert H0.
  induction Hr as [|x y z Hxy _ IH]; [done|]. intros Hx. by apply IH, (cp_step_inv x).
Qed.

End invariant.

(** ** The calls are runs of their steps *)

Section refinement.
Context {N : Type} `{!NorthboundStore N}.
Implicit Types cp : CPFunction N.

Section call.
Context (i : nat) (cs : gmap nat cp_call).

(** Whatever [m] does to the function's state, call [i] at [c] can do too, and
    end with [m]'s result. *)
Definition refines {B} (ret : res B → cp_call) (c : cp_call) cp (m : go (CPFunction N) B) :
    Prop :=
  ∀ cp' r, m cp = (cp', r) →
    rtc cp_step (mkRun cp (<[i := c]> cs)) (mkRun cp' (<[i := ret r]> cs)).

Lemma refines_ext {B} (ret : res B → cp_call) c cp m m' :
  m cp = m' cp → refines ret c cp m' → refines ret c cp m.
Proof. unfold refines. intros ->. done. Qed.

Lemma refines_ret {B} (ret : res B → cp_call) cp (b : B) :
  refines ret (ret (Ok b)) cp (mret b).
Proof. intros cp' r [= <- <-]. apply rtc_refl. Qed.

(** A region of the code is one [advance] of the call. *)
Lemma refines_region {A B} now resp (ret : res B → cp_call) c cp
    (m : go (CPFunction N) A) k (f : A → go (CPFunction N) B) :
  advance now resp c = and_then m k ret → (allocates c → nextSEID cp < 2 ^ 64 - 1) →
  (∀ a cp1, m cp = (cp1, Ok a) → refines ret (k a) cp1 (f a)) →
  refines ret c cp (m ≫= f).
Proof.
  intros Ha Hn Hf cp' r. unfold mbind, go_bind.
  pose proof (step_advance (mkRun cp (<[i := c]> cs)) i c now resp) as Hs. simpl in Hs.
  rewrite Ha in Hs. unfold and_then in Hs.
  assert (∀ cp1 c1, match m cp with
    | (cp, Ok a) => (cp, k a) | (cp, Err e) => (cp, ret (Err e))
    | (cp, Panic p) => (cp, ret (Panic p)) | (cp, Hang) => (cp, ret Hang)
    end = (cp1, c1) →
    cp_step (mkRun cp (<[i := c]> cs)) (mkRun cp1 (<[i := c1]> cs))) as Hstep.
  { intros cp1 c1 H1. specialize (Hs cp1 c1 (lookup_insert_eq _ _ _) Hn H1).
    by rewrite insert_insert_eq in Hs. }
  clear Hs. destruct (m cp) as [cp1 [a|e|p|]].
  - intros Hr. eapply rtc_l; [by apply Hstep|]. by apply (Hf a cp1).
  - intros [= <- <-]. by apply rtc_once, Hstep.
  - intros [= <- <-]. by apply rtc_once, Hstep.
  - intros [= <- <-]. by apply rtc_once, Hstep.
Qed.
End call.

Context (SendRequest : Message → UDPAddr → Z → Z → go (CPFunction N) Message).
(** What other goroutines do while [SendRequest] waits are steps too. *)
Definition network_steps : Prop := ∀ msg addr t1 n1 cp (cs : gmap nat cp_call),
  rtc cp_step (mkRun cp cs) (mkRun (SendRequest msg addr t1 n1 cp).1 cs).

Lemma refines_network {B} i cs (ret : res B → cp_call) c cp req addr t1 n1
    (f : Message → go (CPFunction N) B) :
  network_steps →
  (∀ resp cp1, refines i cs ret c cp1
     (resp ← lift (wrap_res (Wrapf "send request: %w" []) resp); f resp)) →
  refines i cs ret c cp
    (resp ← wrap_err (Wrapf "send request: %w" []) (SendRequest req addr t1 n1); f resp).
Proof.
  intros Hq Hf cp' r. unfold mbind, go_bind, wrap_err.
  specialize (Hq req addr t1 n1 cp (<[i := c]> cs)).
  destruct (SendRequest req addr t1 n1 cp) as [cp1 resp]. intros Hr.
  etrans; [exact Hq|]. apply (Hf resp cp1). by destruct resp.
Qed.

Lemma CreateSession_refines now a cp cs i :
  network_steps → cs !! i = None → nextSEID cp < 2 ^ 64 - 1 →
  let run := CreateSession SendRequest now (a_node a) (a_pdrs a) (a_fars a) (a_qers a)
               (a_urrs a) cp in
  rtc cp_step (mkRun cp cs) (mkRun run.1 (<[i := CreateReturned run.2]> cs)).
Proof.
  intros Hq Hi Hn. cbv zeta. destruct (CreateSession _ _ _ _ _ _ _ _) as [cp' r] eqn:Hrun.
 
  eapply rtc_l; [by apply (step_create (mkRun cp cs) i a)|]. simpl. revert cp' r Hrun.
  change (refines i cs CreateReturned (CreateStart a) cp
    (CreateSession SendRequest now (a_node a) (a_pdrs a) (a_fars a) (a_qers a) (a_urrs a))).
  apply (refines_region i cs now Hang _ _ _ _ (CreateAlloc a)); [done|done|].
  intros assoc cp1 H1.
  assert (cp1 = cp) as -> by (unfold lookup_association in H1; go_unfold;
    by destruct (association _ _); injection H1).
  eapply refines_ext; [|eapply (refines_region i cs now Hang); [reflexivity|done|]].
  { instantiate (1 := λ '(seid, req), cp ← gget;
    resp ← wrap_err (Wrapf "send request: %w" [])
             (SendRequest req (RemoteAddr assoc) (RetransmitT1 (config cp))
                (RetransmitN1 (config cp)));
    _ ← lift (check_accepted "session establishment rejected: cause=%d" resp);
    let session := new_session now seid (a_node a) (a_pdrs a) (a_fars a) (a_qers a)
                     (a_urrs a) resp in
    _ ← insert_session seid session;
    _ ← on_store (StoreSession seid session);
    mret seid). go_unfold. unfold allocSEID. go_unfold.
    by destruct (session_request _ _ _ _). }
  intros [seid req] cp2 _.
  apply (refines_network i cs CreateReturned _ cp2); [done|]. intros resp cp3.
  eapply refines_ext; [|eapply (refines_region i cs now resp); [reflexivity|done|]].
  { instantiate (1 := λ session, _ ← on_store (StoreSession seid session); mret seid).
    go_unfold. destruct resp as [resp|e|p|]; try done. simpl.
    by destruct (check_accepted _ resp). }
  intros s cp4 _. eapply (refines_region i cs now Hang); [reflexivity|done|].
  intros u cp5 _. apply refines_ret.
Qed.

Lemma DeleteSession_refines seid cp cs i :
  network_steps → cs !! i = None →
  let run := CP_DeleteSession SendRequest seid cp in
  rtc cp_step (mkRun cp cs) (mkRun run.1 (<[i := DeleteReturned run.2]> cs)).
Proof.
  intros Hq Hi. cbv zeta. destruct (CP_DeleteSession _ _ _) as [cp' r] eqn:Hrun.
  eapply rtc_l; [by apply (step_delete (mkRun cp cs) i seid)|]. simpl. revert cp' r Hrun.
  change (refines i cs DeleteReturned (DeleteStart seid) cp (CP_DeleteSession SendRequest seid)).
  apply (refines_region i cs 0 Hang _ _ _ _ (DeleteFound seid)); [done|done|].
  intros s cp1 _. eapply (refines_region i cs 0 Hang); [reflexivity|done|].
  intros assoc cp2 _.
  eapply refines_ext; [|apply (refines_network i cs DeleteReturned _ cp2
    (NewSessionDeletionRequest 0 (RemoteSEID s)) (RemoteAddr assoc)
    (RetransmitT1 (config cp2)) (RetransmitN1 (config cp2)) (λ resp,
      _ ← lift (check_accepted "session deletion rejected: cause=%d" resp);
      _ ← remove_session seid; on_store (DeleteSession seid))); [done|]]; [done|].
  intros resp cp3. eapply refines_ext; [|eapply (refines_region i cs 0 resp); [reflexivity|done|]].
  { instantiate (1 := λ _, on_store (DeleteSession seid)). go_unfold.
    destruct resp as [resp|e|p|]; try done. simpl.
    by destruct (check_accepted _ resp). }
  intros u cp4 _. eapply refines_ext; [|eapply (refines_region i cs 0 Hang); [reflexivity|done|]].
  { instantiate (1 := λ _, mret tt). go_unfold. by destruct (on_store _ _) as [? [[]|?|?|]]. }
  intros u' cp5 _. apply refines_ret.
Qed.

End refinement.

(** ** A session that only the store has *)

Section stranded.
Context {N : Type} `{!NorthboundStore N, !NorthboundLaws N}.
Implicit Types (run : cp_run N) (cp : CPFunction N).

(** A session of the store. *)
Definition stored_as cp k s : Prop := ∃ n, store cp = Some n ∧ stored n !! k = Some s.

(** Call [i] has given out SEID [k], the table has lost the session, the store
    has it, and no deletion of it is under way. *)
Record stranded i k s run : Prop := {
  st_inv : cp_inv run;
  st_call : r_calls run !! i = Some (CreateReturned (Ok k));
  st_table : sessions (r_cp run) !! k = None;
  st_store : stored_as (r_cp run) k s;
  st_deleted : ∀ j c, r_calls run !! j = Some c → deleted c ≠ Some k;
}.

Lemma stored_as_StoreSession cp cp' k s k' s' :
  on_store (StoreSession k' s') cp = (cp', Ok tt) → k ≠ k' → stored_as cp k s →
  stored_as cp' k s.
Proof.
  rewrite StoreSession_on_store. intros [= <-] Hk (n & Hn & Hs). simpl. rewrite Hn. simpl.
  eexists. split; [done|]. rewrite (proj1 (StoreSession_spec n k' s')).
  by rewrite lookup_insert_ne.
Qed.

Lemma stored_as_DeleteSession cp cp' k s k' :
  on_store (DeleteSession k') cp = (cp', Ok tt) → k ≠ k' → stored_as cp k s →
  stored_as cp' k s.
Proof.
  rewrite DeleteSession_on_store. intros [= <-] Hk (n & Hn & Hs). simpl. rewrite Hn. simpl.
  eexists. split; [done|]. rewrite (proj1 (DeleteSession_spec n k')).
  by rewrite lookup_delete_ne.
Qed.

(** What a call that neither owns nor deletes [k] does to it: nothing; and it
    does not start deleting it while the table does not have it. *)
Lemma advance_others now resp c cp cp' c' k s :
  advance now resp c cp = (cp', c') → owned c ≠ Some k → deleted c ≠ Some k →
  sessions cp !! k = None → stored_as cp k s →
  sessions cp' !! k = None ∧ stored_as cp' k s ∧ deleted c' ≠ Some k.
Proof.
  intros Ha Ho Hd Ht Hs.
  destruct c as [a|a assoc|a addr k'' req|k'' s'|r|k''|k'' s'|k'' addr req|k''|r]; simpl in *.
  - unfold and_then, lookup_association in Ha. go_unfold.
    by destruct (association _ cp); injection Ha as <- <-.
  - unfold and_then, allocSEID in Ha. go_unfold.
    by destruct (session_request _ _ _ _); injection Ha as <- <-.
  - unfold and_then, insert_session in Ha. go_unfold.
    destruct resp as [m|e|p|]; simpl in Ha; try (by injection Ha as <- <-).
    destruct (check_accepted _ m); injection Ha as <- <-; try done. simpl.
    by rewrite lookup_insert_ne by congruence.
  - unfold and_then in Ha. rewrite StoreSession_on_store in Ha. injection Ha as <- <-.
    split_and!; [done| |done].
    eapply (stored_as_StoreSession cp _ k s k'' s'); [apply StoreSession_on_store|congruence|done].
  - by injection Ha as <- <-.
  - unfold and_then, lookup_session in Ha. go_unfold.
    destruct (sessions cp !! k'') eqn:E; injection Ha as <- <-; [|done].
    split_and!; [done..|]. simpl. congruence.
  - unfold and_then, lookup_association in Ha. go_unfold.
    by destruct (association _ cp); injection Ha as <- <-.
  - unfold and_then, remove_session in Ha. go_unfold.
    destruct resp as [m|e|p|]; simpl in Ha; try (by injection Ha as <- <-).
    destruct (check_accepted _ m); injection Ha as <- <-; try done. simpl.
    by rewrite lookup_delete_ne by congruence.
  - unfold and_then in Ha. rewrite DeleteSession_on_store in Ha. injection Ha as <- <-.
    split_and!; [done| |done].
    eapply (stored_as_DeleteSession cp _ k s k''); [apply DeleteSession_on_store|congruence|done].
  - by injection Ha as <- <-.
Qed.

(** A step that leaves the calls, the table and the store alone. *)
Lemma stranded_frame i k s cp cp' cs :
  same_sessions cp cp' → cp_inv (mkRun cp' cs) →
  stranded i k s (mkRun cp cs) → stranded i k s (mkRun cp' cs).
Proof.
  intros (Hs & _ & Hst) Hi' [_ Hc Ht (n & Hn & Hk) Hd]. constructor; simpl in *; try done.
  - by rewrite Hs.
  - exists n. by rewrite Hst.
Qed.

(** A new call. *)
Lemma stranded_new i k s cp cs j c :
  cs !! j = None → deleted c = None → cp_inv (mkRun cp (<[j := c]> cs)) →
  stranded i k s (mkRun cp cs) → stranded i k s (mkRun cp (<[j := c]> cs)).
Proof.
  intros Hj Hdel Hi' [_ Hc Ht Hst Hd]. constructor; simpl in *; try done.
  - rewrite lookup_insert_ne; [done|]. intros ->. congruence.
  - intros j' c' [[<- <-]|[_ Hj']]%lookup_insert_Some; [congruence|by eapply Hd].
Qed.

Lemma stranded_step i k s run run' : cp_step run run' → stranded i k s run → stranded i k s run'.
Proof.
  intros Hstep Hst. pose proof (cp_step_inv _ _ Hstep (st_inv _ _ _ _ Hst)) as Hi'.
  destruct Hstep as [[cp cs] j a Hj|[cp cs] j seid Hj|[cp cs] j c now resp cp' c' Hc _ Ha
    |[cp cs] now d addr cp' r _ Hr|[cp cs] t Ht|[cp cs] now a]; simpl in *.
  - by apply stranded_new.
  - by apply stranded_new.
  - destruct Hst as [Hi Hcall Htab Hsto Hdel]. simpl in *.
    destruct (decide (j = i)) as [->|Hji].
    { rewrite Hcall in Hc. injection Hc as <-. injection Ha as <- <-.
      constructor; simpl; try done; [by rewrite lookup_insert_eq|].
      intros j c [[<- <-]|[_ Hj]]%lookup_insert_Some; [done|by eapply Hdel]. }
    destruct (advance_others now resp c cp cp' c' k s) as (Htab' & Hsto' & Hdel'); try done.
    { intros Ho. apply Hji. destruct Hi as [_ _ _ [_ _ _ Hdist _] _]. by eapply Hdist. }
    { by eapply Hdel. }
    constructor; simpl; try done; [by rewrite lookup_insert_ne|].
    intros j' c1 [[<- <-]|[_ Hj']]%lookup_insert_Some; [done|by eapply Hdel].
  - destruct (cp_receive_frame now d addr cp) as [Hs _]; [by destruct Hst as [[] _ _ _ _]|].
    rewrite Hr in Hs. by eapply stranded_frame.
  - by apply (stranded_frame i k s cp).
  - by apply (stranded_frame i k s cp).
Qed.

Lemma stranded_forever i k s run run' :
  stranded i k s run → rtc cp_step run run' → stranded i k s run'.
Proof. intros Hs Hr. induction Hr; [done|]. eauto using stranded_step. Qed.

(** A deletion run in full between a session's insertion and the call of the
    store: its five steps, then the store's. *)
Definition accepting : Message := NewSessionDeletionResponse 0 0 CauseRequestAccepted.

Lemma race_steps run i j k s assoc :
  r_calls run !! i = Some (CreateStoring k s) → r_calls run !! j = None →
  sessions (r_cp run) !! k = Some s →
  association (Session_NodeID s) (r_cp run) = Some assoc →
  let cp1 := set_sessions (delete k (sessions (r_cp run))) (r_cp run) in
  let cp2 := set_store ((λ n, (DeleteSession k n).1) <$> store cp1) cp1 in
  let cp3 := set_store ((λ n, (StoreSession k s n).1) <$> store cp2) cp2 in
  rtc cp_step run (mkRun cp3 (<[i := CreateReturned (Ok k)]>
                              (<[j := DeleteReturned (Ok tt)]> (r_calls run)))).
Proof.
  destruct run as [cp cs]. intros Hi Hj Hk Ha cp1 cp2 cp3. simpl in Hi, Hj, Hk, Ha.
  assert (i ≠ j) as Hij by congruence.
  assert (∀ cp0 c0 cp' c' now resp, allocates c0 = false → advance now resp c0 cp0 = (cp', c') →
    cp_step (mkRun cp0 (<[j := c0]> cs)) (mkRun cp' (<[j := c']> cs))) as Hstep.
  { intros cp0 c0 cp' c' now resp Hc0 Hadv.
    pose proof (step_advance (mkRun cp0 (<[j := c0]> cs)) j c0 now resp cp' c') as Hs. simpl in Hs.
    rewrite insert_insert_eq in Hs. apply Hs; [by rewrite lookup_insert_eq|by rewrite Hc0|done]. }
  eapply rtc_l; [by apply (step_delete (mkRun cp cs) j k)|]. simpl.
  eapply rtc_l; [apply (Hstep cp _ cp (DeleteFound k s) 0 Hang); [done|]|].
  { simpl. unfold and_then, lookup_session. go_unfold. by rewrite Hk. }
  eapply rtc_l; [apply (Hstep cp _ cp (DeleteWaiting k (RemoteAddr assoc)
    (NewSessionDeletionRequest 0 (RemoteSEID s))) 0 Hang); [done|]|].
  { simpl. unfold and_then, lookup_association. go_unfold. by rewrite Ha. }
  eapply rtc_l; [by apply (Hstep cp _ cp1 (DeleteStoring k) 0 (Ok accepting))|].
  eapply rtc_l; [apply (Hstep cp1 _ cp2 (DeleteReturned (Ok tt)) 0 Hang); [done|]|].
  { unfold advance, and_then. by rewrite DeleteSession_on_store. }
  apply rtc_once.
  pose proof (step_advance (mkRun cp2 (<[j := DeleteReturned (Ok tt)]> cs)) i (CreateStoring k s)
    0 Hang cp3 (CreateReturned (Ok k))) as Hlast.
  simpl in Hlast. apply Hlast; [by rewrite lookup_insert_ne|done|].
  unfold and_then. by rewrite StoreSession_on_store.
Qed.

End stranded.

(** ** Properties of runs *)

Section properties.
Context {N : Type} `{!NorthboundStore N, !NorthboundLaws N}.
Implicit Types (run : cp_run N) (cp : CPFunction N).

(** C6: in every state that calls, datagrams and heartbeats in any
    interleaving lead to, sessions are stored under their own SEIDs, which
    have been allocated, their rules under their ids, associations under
    their node ids, and every session is in the store or about to be. *)
Theorem cp_runs_inv run0 run : run_initial run0 → rtc cp_step run0 run → cp_inv run.
Proof. apply cp_reachable. Qed.

(** C16: no two calls of [CreateSession] are ever given the same SEID, however
    they interleave. *)
Theorem CreateSession_SEIDs_distinct run0 run i j k1 k2 :
  run_initial run0 → rtc cp_step run0 run → i ≠ j →
  r_calls run !! i = Some (CreateReturned (Ok k1)) →
  r_calls run !! j = Some (CreateReturned (Ok k2)) → k1 ≠ k2 ∧ k1 ≠ 0 ∧ k2 ≠ 0.
Proof.
  intros H0 Hr Hij H1 H2. destruct (cp_reachable _ _ H0 Hr) as [_ _ _ [_ Hown _ Hdist _] _].
  split_and!.
  - intros ->. by eapply Hij, Hdist.
  - intros ->. assert (1 ≤ 0 < nextSEID (r_cp run)) by by eapply (Hown i). lia.
  - intros ->. assert (1 ≤ 0 < nextSEID (r_cp run)) by by eapply (Hown j). lia.
Qed.

(** C21: when no call of [CreateSession] is between recording its session and
    handing it to the store, the store has every session of the table. *)
Theorem sessions_stored run0 run n k s :
  run_initial run0 → rtc cp_step run0 run →
  (∀ i s, r_calls run !! i ≠ Some (CreateStoring k s)) →
  store (r_cp run) = Some n → sessions (r_cp run) !! k = Some s → stored n !! k = Some s.
Proof.
  intros H0 Hr Hno Hn Hs. destruct (cp_reachable _ _ H0 Hr) as [_ _ _ _ Hst].
  destruct (Hst n k s Hn Hs) as [?|[i Hi]]; [done|]. by destruct (Hno i s).
Qed.

(** C38: a deletion that runs between the recording of a session and its
    hand-over to the store leaves the store with a session the table does not
    have, for good.  From every reachable state in which a call has recorded a
    session that it has not handed over yet (no deletion of it being under
    way), there is a run in which a deletion of the session and that call both
    end in success, after which, whatever happens, the table never has the
    session again and the store always does. *)
Theorem store_race run0 run i j k s assoc n0 :
  run_initial run0 → rtc cp_step run0 run →
  r_calls run !! i = Some (CreateStoring k s) → r_calls run !! j = None →
  (∀ j c, r_calls run !! j = Some c → deleted c ≠ Some k) →
  sessions (r_cp run) !! k = Some s →
  association (Session_NodeID s) (r_cp run) = Some assoc → store (r_cp run) = Some n0 →
  ∃ run1, rtc cp_step run run1 ∧
    r_calls run1 !! i = Some (CreateReturned (Ok k)) ∧
    r_calls run1 !! j = Some (DeleteReturned (Ok tt)) ∧
    ∀ run2, rtc cp_step run1 run2 →
      sessions (r_cp run2) !! k = None ∧
      ∃ n, store (r_cp run2) = Some n ∧ stored n !! k = Some s.
Proof.
  intros H0 Hr Hi Hj Hdel Hk Ha Hn. pose proof (race_steps run i j k s assoc Hi Hj Hk Ha) as Hrace.
  cbv zeta in Hrace. eexists. split; [exact Hrace|]. simpl.
  assert (i ≠ j) as Hij by congruence.
  split; [by rewrite lookup_insert_eq|].
  split; [by rewrite lookup_insert_ne, lookup_insert_eq|]. intros run2 Hr2.
  assert (stranded i k s run2) as []; [|done]. eapply stranded_forever; [|exact Hr2].
  constructor; simpl.
  - eapply cp_reachable; [exact H0|]. etrans; [exact Hr|exact Hrace].
  - by rewrite lookup_insert_eq.
  - by rewrite lookup_delete_eq.
  - unfold stored_as. simpl. rewrite Hn. simpl. eexists. split; [done|].
    by rewrite (proj1 (StoreSession_spec _ k s)), lookup_insert_eq.
  - intros j' c [[<- <-]|[_ [[<- <-]|[_ Hj']]%lookup_insert_Some]]%lookup_insert_Some;
      [done|done|by eapply Hdel].
Qed.

End properties.
