(* ===== verification/CpSpec.v ===== *)
(** * What the control plane's operations do

    The functional behaviour of [CreateSession] and [DeleteSession] around a
    network that leaves the function's own state alone, of the association
    handlers on every branch, and of the request built from a session's
    rules; then the concrete states the theorems on the control plane are
    applied to. *)
From S2P Require Import Prelude Bytes Constants Header Ie Messages Transport CpTypes Northbound Cp CpRuns.

(** ** The elements of a request *)

(** Each rule's element, without the code's error plumbing. *)
Definition pdi_ies (pdi : PacketDetectionInfo) : list IE :=
  NewSourceInterfaceIE (SourceInterface pdi) ::
  match UE_IPAddress pdi with
  | Some ip => [NewUE_IPAddressIE ip (bool_decide (IP_To4 ip = None))]
  | None => []
  end ++
  (if decide (SDFFilter pdi = EmptyString) then [] else [NewSDFFilterIE (SDFFilter pdi)]) ++
  (if decide (ApplicationID pdi = EmptyString) then []
   else [NewApplicationIDIE (ApplicationID pdi)]).

Definition pdr_ies (pdr : PDR) : list IE :=
  [NewPDR_ID_IE (PDR_ID pdr); NewPrecedenceIE (Precedence pdr)] ++
  match PDI pdr with
  | Some pdi => [mkIE IETypePDI 0 (IEs_bytes (pdi_ies pdi))]
  | None => []
  end ++
  [NewFAR_ID_IE (PDR_FAR_ID pdr)] ++
  (NewQER_ID_IE <$> QER_IDs pdr) ++ (NewURR_ID_IE <$> URR_IDs pdr).

Definition pdr_ie (pdr : PDR) : IE := mkIE IETypeCreatePDR 0 (IEs_bytes (pdr_ies pdr)).

Definition far_ies (far : FAR) : list IE :=
  [NewFAR_ID_IE (FAR_ID far); NewApplyActionIE (ApplyAction far)] ++
  match ForwardingParameters far with
  | Some fp => [mkIE IETypeForwardingParameters 0
                  (IEs_bytes [NewDestinationInterfaceIE (DestinationInterface fp)])]
  | None => []
  end.

Definition far_ie (far : FAR) : IE := mkIE IETypeCreateFAR 0 (IEs_bytes (far_ies far)).
Definition qer_ie (qer : QER) : IE :=
  mkIE IETypeCreateQER 0 (IEs_bytes [NewQER_ID_IE (QER_ID qer)]).
Definition urr_ie (urr : URR) : IE :=
  mkIE IETypeCreateURR 0 (IEs_bytes [NewURR_ID_IE (URR_ID urr)]).

Lemma marshalPDI_spec pdi : marshalPDI pdi = Ok (mkIE IETypePDI 0 (IEs_bytes (pdi_ies pdi))).
Proof.
  unfold marshalPDI, pdi_ies. rewrite NewGroupedIE_bytes.
  destruct (UE_IPAddress pdi) as [ip|]; [destruct (IP_To4 ip) eqn:E|]; repeat case_decide; done.
Qed.

Lemma marshalPDR_spec pdr : marshalPDR pdr = Ok (pdr_ie pdr).
Proof.
  unfold marshalPDR, pdr_ie, pdr_ies. destruct (PDI pdr) as [pdi|].
  - rewrite marshalPDI_spec. simpl. by rewrite NewGroupedIE_bytes.
  - simpl. by rewrite NewGroupedIE_bytes.
Qed.

Lemma marshalFAR_spec far : marshalFAR far = Ok (far_ie far).
Proof.
  unfold marshalFAR, far_ie, far_ies. destruct (ForwardingParameters far) as [fp|].
  - rewrite !NewGroupedIE_bytes. simpl. by rewrite NewGroupedIE_bytes.
  - simpl. by rewrite NewGroupedIE_bytes.
Qed.

Lemma marshal_rules_spec {R} marshal (f : R → IE) rules :
  (∀ r, marshal r = Ok (f r)) → marshal_rules marshal rules = Ok (f <$> rules).
Proof.
  intros Hm. unfold marshal_rules.
  rewrite (fold_res_Ok _ (λ ies r, ies ++ [f r])) by (intros; by rewrite Hm).
  by rewrite foldl_snoc.
Qed.

Lemma session_request_bytes pdrs fars qers urrs :
  session_request pdrs fars qers urrs =
    Ok (NewSessionEstablishmentRequest 0 0 (pdr_ie <$> pdrs) (far_ie <$> fars)
          (qer_ie <$> qers) (urr_ie <$> urrs)).
Proof.
  unfold session_request, marshalPDRs, marshalFARs, marshalQERs, marshalURRs.
  rewrite (marshal_rules_spec marshalPDR pdr_ie) by apply marshalPDR_spec. simpl.
  rewrite (marshal_rules_spec marshalFAR far_ie) by apply marshalFAR_spec. simpl.
  rewrite (marshal_rules_spec marshalQER qer_ie) by (intros; apply NewGroupedIE_bytes). simpl.
  rewrite (marshal_rules_spec marshalURR urr_ie) by (intros; apply NewGroupedIE_bytes). done.
Qed.

(** ** Sessions *)

(** The response accepts the request. *)
Definition accepted (resp : Message) : bool :=
  match FindIE resp IETypeCause with
  | Some ie => match GetCause ie with Ok c => c =? CauseRequestAccepted | _ => false end
  | None => false
  end.

Definition is_error {A} (r : res A) : bool := match r with Err _ => true | _ => false end.

Lemma check_accepted_spec rejected resp :
  if accepted resp then check_accepted rejected resp = Ok tt
  else is_error (check_accepted rejected resp).
Proof.
  unfold accepted, check_accepted. destruct (FindIE _ _) as [ie|]; [|done].
  destruct (GetCause ie) as [c|e|p|]; [|done..]. by destruct (c =? _).
Qed.

(** The map a list of rules is turned into. *)
Lemma by_id_lookup {R} (id : R → Z) rules i : by_id id rules !! i = last_with id rules i.
Proof. unfold by_id. rewrite last_with_stored, lookup_empty. apply option_union_right_id. Qed.

Section spec.
Context {N : Type} `{!NorthboundStore N, !NorthboundLaws N}.
Implicit Types cp : CPFunction N.

Context (SendRequest : Message → UDPAddr → Z → Z → go (CPFunction N) Message).

(** While the call waits, only the transport changes. *)
Definition quiet : Prop := ∀ msg addr t1 n1 cp,
  ∃ t, (SendRequest msg addr t1 n1 cp).1 = set_transport t cp.

(** What the store of the function holds, when it has one. *)
Definition in_store cp : option (gmap Z Session) := stored <$> store cp.

(** Recording a session, in the table and in the store. *)
Definition record (session : Session) cp : CPFunction N :=
  (on_store (StoreSession (LocalSEID session) session)
     (set_sessions (<[LocalSEID session := session]> (sessions cp)) cp)).1.

Lemma record_spec session cp :
  let seid := LocalSEID session in
  sessions (record session cp) = <[seid := session]> (sessions cp) ∧
  in_store (record session cp) = <[seid := session]> <$> in_store cp ∧
  nextSEID (record session cp) = nextSEID cp ∧
  associations (record session cp) = associations cp.
Proof.
  unfold record. rewrite StoreSession_on_store. split_and!; [done| |done..].
  unfold in_store. simpl. destruct (store cp) as [n|]; [|done]. simpl. f_equal.
  apply StoreSession_spec.
Qed.

(** [CreateSession] with its request written out and its locked regions run. *)
Lemma CreateSession_run now node pdrs fars qers urrs cp :
  let seid := nextSEID cp in
  CreateSession SendRequest now node pdrs fars qers urrs cp =
  match association node cp with
  | None => (cp, Err (Errorf "no association with node %s" [AStr node]))
  | Some assoc =>
    let '(cp, resp) :=
      SendRequest (NewSessionEstablishmentRequest 0 0 (pdr_ie <$> pdrs) (far_ie <$> fars)
                     (qer_ie <$> qers) (urr_ie <$> urrs))
        (RemoteAddr assoc) (RetransmitT1 (config cp)) (RetransmitN1 (config cp))
        (set_nextSEID (u64 (seid + 1)) cp) in
    match resp with
    | Ok m =>
      if accepted m
      then (record (new_session now seid node pdrs fars qers urrs m) cp, Ok seid)
      else (cp, _ ← check_accepted "session establishment rejected: cause=%d" m; Ok seid)
    | Err e => (cp, Err (Wrapf "send request: %w" [] e))
    | Panic p => (cp, Panic p)
    | Hang => (cp, Hang)
    end
  end.
Proof.
  intros seid. unfold CreateSession, lookup_association, allocSEID, insert_session. go_unfold.
  destruct (association node cp) as [assoc|]; [|done].
  rewrite session_request_bytes. unfold wrap_err. fold seid.
  change (config (set_nextSEID _ cp)) with (config cp).
  destruct (SendRequest _ _ _ _ _) as [cp1 [m|e|p|]]; [|done..].
  pose proof (check_accepted_spec "session establishment rejected: cause=%d" m) as Hc.
  destruct (accepted m).
  - rewrite Hc. unfold record. cbn [new_session LocalSEID].
    by rewrite !StoreSession_on_store.
  - by destruct (check_accepted _ m).
Qed.

(** A refused request ends in an error. *)
Lemma refused_error {A} rejected m (a : A) :
  accepted m = false → is_error (_ ← check_accepted rejected m; Ok a).
Proof.
  intros Hm. pose proof (check_accepted_spec rejected m) as Hc. rewrite Hm in Hc.
  by destruct (check_accepted rejected m).
Qed.

(** C9: [CreateSession] on every branch, [SendRequest] being any function that
    leaves the sessions alone.  Without an association nothing happens;
    otherwise a SEID is used up, the request sent holds the rules' elements in
    order, and exactly an accepting response records a session, in the table
    and in the store: under the new SEID, with the SEID of the response's header
    as the remote one, the node, the time, and the last rule for each id. *)
Theorem CreateSession_spec now node pdrs fars qers urrs cp :
  quiet →
  let seid := nextSEID cp in
  let '(cp', r) := CreateSession SendRequest now node pdrs fars qers urrs cp in
  match association node cp with
  | None => cp' = cp ∧ r = Err (Errorf "no association with node %s" [AStr node])
  | Some assoc =>
    let req := NewSessionEstablishmentRequest 0 0 (pdr_ie <$> pdrs) (far_ie <$> fars)
                 (qer_ie <$> qers) (urr_ie <$> urrs) in
    let '(_, resp) := SendRequest req (RemoteAddr assoc) (RetransmitT1 (config cp))
                        (RetransmitN1 (config cp)) (set_nextSEID (u64 (seid + 1)) cp) in
    nextSEID cp' = u64 (seid + 1) ∧ associations cp' = associations cp ∧
    match resp with
    | Ok m =>
      if accepted m
      then let session := new_session now seid node pdrs fars qers urrs m in
           r = Ok seid ∧ sessions cp' = <[seid := session]> (sessions cp) ∧
           in_store cp' = <[seid := session]> <$> in_store cp ∧
           LocalSEID session = seid ∧ RemoteSEID session = SEID (Header m) ∧
           Session_NodeID session = node ∧ CreatedAt session = now ∧
           (∀ i, PDRs session !! i = last_with PDR_ID pdrs i) ∧
           (∀ i, FARs session !! i = last_with FAR_ID fars i) ∧
           (∀ i, QERs session !! i = last_with QER_ID qers i) ∧
           (∀ i, URRs session !! i = last_with URR_ID urrs i)
      else is_error r ∧ sessions cp' = sessions cp ∧ in_store cp' = in_store cp
    | Err e =>
      r = Err (Wrapf "send request: %w" [] e) ∧
      sessions cp' = sessions cp ∧ in_store cp' = in_store cp
    | _ => returned r = false ∧ sessions cp' = sessions cp ∧ in_store cp' = in_store cp
    end
  end.
Proof.
  intros Hq seid. rewrite CreateSession_run. fold seid.
  destruct (association node cp) as [assoc|]; [|done].
  set (req := NewSessionEstablishmentRequest _ _ _ _ _ _). cbv zeta.
  destruct (Hq req (RemoteAddr assoc) (RetransmitT1 (config cp)) (RetransmitN1 (config cp))
    (set_nextSEID (u64 (seid + 1)) cp)) as [t Ht].
  destruct (SendRequest _ _ _ _ _) as [cp1 resp]. simpl in Ht. subst cp1.
  destruct resp as [m|e|p|]; cbv beta iota; [|by split_and!..].
  destruct (accepted m) eqn:Hm.
  - destruct (record_spec (new_session now seid node pdrs fars qers urrs m)
      (set_transport t (set_nextSEID (u64 (seid + 1)) cp))) as (H1 & H2 & H3 & H4).
    split_and!; try done; try (intros; apply by_id_lookup).
  - split_and!; try done. by apply refused_error.
Qed.

(** C15: [DeleteSession] on every branch: the session and its association must
    exist; the request names the session's remote SEID; exactly an accepting
    response removes the session, from the table and from the store. *)
Theorem CP_DeleteSession_spec seid cp :
  quiet →
  let '(cp', r) := CP_DeleteSession SendRequest seid cp in
  match sessions cp !! seid with
  | None => cp' = cp ∧ r = Err (Errorf "session %d not found" [AInt seid])
  | Some s =>
    match association (Session_NodeID s) cp with
    | None => cp' = cp ∧ r = Err (Errorf "no association with node %s" [AStr (Session_NodeID s)])
    | Some assoc =>
      let '(_, resp) := SendRequest (NewSessionDeletionRequest 0 (RemoteSEID s))
                          (RemoteAddr assoc) (RetransmitT1 (config cp))
                          (RetransmitN1 (config cp)) cp in
      nextSEID cp' = nextSEID cp ∧ associations cp' = associations cp ∧
      match resp with
      | Ok m =>
        if accepted m
        then r = Ok tt ∧ sessions cp' = delete seid (sessions cp) ∧
             in_store cp' = delete seid <$> in_store cp
        else is_error r ∧ sessions cp' = sessions cp ∧ in_store cp' = in_store cp
      | Err e =>
        r = Err (Wrapf "send request: %w" [] e) ∧
        sessions cp' = sessions cp ∧ in_store cp' = in_store cp
      | _ => returned r = false ∧ sessions cp' = sessions cp ∧ in_store cp' = in_store cp
      end
    end
  end.
Proof.
  intros Hq. unfold CP_DeleteSession, lookup_session, lookup_association, remove_session.
  go_unfold. destruct (sessions cp !! seid) as [s|]; [|done].
  destruct (association _ cp) as [assoc|]; [|done]. unfold wrap_err.
  set (req := NewSessionDeletionRequest _ _).
  destruct (Hq req (RemoteAddr assoc) (RetransmitT1 (config cp)) (RetransmitN1 (config cp)) cp)
    as [t Ht].
  destruct (SendRequest _ _ _ _ _) as [cp1 resp]. simpl in Ht. subst cp1.
  destruct resp as [m|e|p|]; [|done..].
  pose proof (check_accepted_spec "session deletion rejected: cause=%d" m) as Hc.
  destruct (accepted m).
  - rewrite Hc, DeleteSession_on_store. split_and!; try done. unfold in_store. simpl.
    destruct (store cp) as [n|]; [|done]. simpl. f_equal. apply DeleteSession_spec.
  - by destruct (check_accepted _ m).
Qed.

(** ** Associations *)

(** The node id of a message, past the octet that gives its type. *)
Definition node_of (msg : Message) : option (res (list byte)) :=
  (λ ie, match Value ie with [] => Panic SliceBoundsOutOfRange | _ :: id => Ok id end)
    <$> FindIE msg IETypeNodeID.

Lemma go_slice_tail (v : list byte) :
  go_slice v 1 (len v) =
    match v with [] => Panic SliceBoundsOutOfRange | _ :: id => Ok id end.
Proof.
  destruct v as [|b id]; [done|]. rewrite go_slice_Ok by (unfold len; simpl; lia).
  f_equal. simpl. rewrite drop_0. apply take_ge. unfold len. simpl. lia.
Qed.

(** C20: an association setup request with a node id and a recovery timestamp
    binds the node to the sender's address, whatever was bound before, and
    leaves every other node and the sessions alone; without one of the two
    elements it is an error and changes nothing; and an empty node id element
    panics. *)
Theorem handleAssociationSetupRequest_spec now msg addr cp :
  assoc_ok cp →
  let '(cp', r) := handleAssociationSetupRequest now msg addr cp in
  match node_of msg, FindIE msg IETypeRecoveryTimeStamp with
  | None, _ | Some _, None => cp' = cp ∧ is_error r
  | Some (Ok id), Some _ =>
    association (string_of_bytes id) cp' = Some (mkAssociation id addr 0 [] None now) ∧
    (∀ node, node ≠ string_of_bytes id → association node cp' = association node cp) ∧
    same_sessions cp cp' ∧
    (conn (transport cp'), r) =
      SendResponse (NewAssociationSetupResponse (SequenceNumber (Header msg)) (nodeID cp)
        CauseRequestAccepted (recoveryTS cp)) addr (conn (transport cp))
  | Some _, Some _ => cp' = cp ∧ r = Panic SliceBoundsOutOfRange
  end.
Proof.
  intros Ha. unfold handleAssociationSetupRequest, node_of.
  destruct (FindIE msg IETypeNodeID) as [ie|]; [|done].
  destruct (FindIE _ _); simpl; [|by destruct (Value ie)].
  rewrite go_slice_tail. destruct (Value ie) as [|b id]; [done|]. go_unfold.
  rewrite on_conn_eq. unfold association. simpl. split_and!; [..|done|].
  - rewrite lookup_insert_eq. simpl. by rewrite list_lookup_middle.
  - intros node Hn. rewrite lookup_insert_ne by done.
    destruct (associations cp !! node) as [a|] eqn:Hna; [|done]. simpl.
    destruct (Ha _ _ Hna) as (x & Hx & _). by rewrite lookup_app_l by (by eapply lookup_lt_Some).
  - symmetry. apply surjective_pairing.
Qed.

(** C35: an association release request removes exactly its node, known or
    not, and is always accepted; the node's sessions stay. *)
Theorem handleAssociationReleaseRequest_spec msg addr cp :
  let '(cp', r) := handleAssociationReleaseRequest msg addr cp in
  match node_of msg with
  | None => cp' = cp ∧ is_error r
  | Some (Ok id) =>
    associations cp' = delete (string_of_bytes id) (associations cp) ∧
    assocs cp' = assocs cp ∧ same_sessions cp cp' ∧
    (conn (transport cp'), r) =
      SendResponse (NewAssociationReleaseResponse (SequenceNumber (Header msg)) (nodeID cp)
        CauseRequestAccepted) addr (conn (transport cp))
  | Some _ => cp' = cp ∧ r = Panic SliceBoundsOutOfRange
  end.
Proof.
  unfold handleAssociationReleaseRequest, node_of.
  destruct (FindIE msg IETypeNodeID) as [ie|]; [|done]. simpl. rewrite go_slice_tail.
  destruct (Value ie) as [|b id]; [done|]. go_unfold. rewrite on_conn_eq. simpl.
  split_and!; try done. symmetry. apply surjective_pairing.
Qed.

(** ** The receive loop *)

(** The handlers come back, but for the node id they cut out of an empty
    element. *)
Definition empty_node_id_element (msg : Message) : Prop :=
  ∃ ie, FindIE msg IETypeNodeID = Some ie ∧ Value ie = [].

(** Answering comes back. *)
Lemma SendResponse_comes_back msg addr c : returned (SendResponse msg addr c).2.
Proof. unfold SendResponse. rewrite send_spec. by destruct (write_result _ _). Qed.

Lemma cp_response_returned msg addr cp :
  returned (on_conn (SendResponse msg addr) cp).2 = true.
Proof. rewrite on_conn_eq. apply Is_true_true, SendResponse_comes_back. Qed.

Lemma setup_returned now msg addr cp :
  returned (handleAssociationSetupRequest now msg addr cp).2 = false ↔
  empty_node_id_element msg ∧ FindIE msg IETypeRecoveryTimeStamp ≠ None.
Proof.
  unfold handleAssociationSetupRequest, empty_node_id_element.
  destruct (FindIE msg IETypeNodeID) as [ie|];
    [|split; [done|by intros [(ie & [=] & _) _]]].
  destruct (FindIE msg IETypeRecoveryTimeStamp) as [ie2|]; [|split; [done|by intros [_ []]]].
  rewrite go_slice_tail. go_unfold. destruct (Value ie) as [|b id] eqn:E.
  - split; [|done]. intros _. split; [by exists ie|done].
  - rewrite cp_response_returned. split; [done|].
    intros [(ie' & [= <-] & He) _]. congruence.
Qed.

Lemma release_returned msg addr cp :
  returned (handleAssociationReleaseRequest msg addr cp).2 = false ↔ empty_node_id_element msg.
Proof.
  unfold handleAssociationReleaseRequest, empty_node_id_element.
  destruct (FindIE msg IETypeNodeID) as [ie|]; [|split; [done|by intros (ie & [=] & _)]].
  rewrite go_slice_tail. go_unfold. destruct (Value ie) as [|b id] eqn:E.
  - split; [|done]. intros _. by exists ie.
  - rewrite cp_response_returned. split; [done|].
    intros (ie' & [= <-] & He). congruence.
Qed.

Lemma cp_handler_returned h now msg addr cp :
  returned (run_handler h now msg addr cp).2 = false ↔
  empty_node_id_element msg ∧
  (h = HAssociationReleaseRequest ∨
   h = HAssociationSetupRequest ∧ FindIE msg IETypeRecoveryTimeStamp ≠ None).
Proof.
  destruct h; cbn [run_handler].
  - rewrite setup_returned. split; [by intros []; auto|by intros [? [|[]]]].
  - rewrite release_returned. split; [auto|by intros []].
  - unfold handleHeartbeatRequest. go_unfold. rewrite cp_response_returned.
    split; [done|by intros [_ [|[]]]].
  - split; [done|by intros [_ [|[]]]].
Qed.

(** C39: the control plane's receive loop, handlers included, panics on exactly
    these datagrams: those whose header is complete and announces an end past
    the 65535 bytes of the receive buffer, and those that reach the association
    release handler, or with a recovery timestamp the association setup
    handler, with an empty node id element. *)
Theorem cp_receive_panics_iff now datagram addr cp :
  len (buf (transport cp)) = 65535 → len datagram ≤ 65535 →
  let header := (MessageHeader_Unmarshal datagram MessageHeader_zero).1 in
  returned (cp_receive now datagram addr cp).2 = false ↔
  (header_fits datagram = true ∧ 65535 < MessageHeader_Len header + MessageLength header) ∨
  ∃ t msg h, receive datagram addr (transport cp) = (t, Ok (msg, ToHandler h addr)) ∧
    empty_node_id_element msg ∧
    (h = HAssociationReleaseRequest ∨
     h = HAssociationSetupRequest ∧ FindIE msg IETypeRecoveryTimeStamp ≠ None).
Proof.
  intros Hb Hd header. pose proof (receive_panics (transport cp) datagram addr Hb Hd) as Hp.
  assert (oversize datagram = true ↔ header_fits datagram = true ∧
    65535 < MessageHeader_Len header + MessageLength header) as <-.
  { unfold oversize. fold header. by rewrite andb_true_iff, Z.ltb_lt. }
  unfold cp_receive, zoom, mbind, go_bind.
  destruct (receive datagram addr (transport cp)) as [t [[msg [i|h a|]]|e|p|]] eqn:Hrec;
    apply (f_equal negb) in Hp; rewrite negb_involutive in Hp; cbn [snd returned negb] in Hp;
    rewrite <- Hp; cbn [snd returned].
  2: { assert (a = addr) as -> by (by eapply receive_addr).
    rewrite discard_returned, cp_handler_returned. split.
    - intros [He Hh]. right. by exists t, msg, h.
    - intros [|(t' & msg' & h' & [= <- <- <-] & He & Hh)]; done. }
  all: split; [auto; done|].
  all: intros [?|(t' & msg' & h' & [=] & _)]; done.
Qed.

End spec.

(** ** A run *)

Definition demo_cp0 : CPFunction MemoryStore :=
  mkCPFunction (mkConfig "cp1" ":8805" 10 3 3) (bytes_of_string "cp1") 1000
    (registerHandlers (NewTransport demo_conn)) ∅ [] ∅ 1 (Some NewMemoryStore).

Definition demo_setup : Message :=
  marshalled (NewAssociationSetupRequest 1 (bytes_of_string "up1") 900).
Definition demo_release : Message :=
  marshalled (NewAssociationReleaseRequest 2 (bytes_of_string "up1")).

(** The user plane has set up its association. *)
Definition demo_cp1 := (cp_receive 5 (Message_bytes demo_setup) demo_addr demo_cp0).1.

Definition demo_args : create_args :=
  mkCreateArgs "up1"
    [mkPDR 7 100 (Some (mkPacketDetectionInfo 0 "internet" (Some (byte_of_Z <$> [10; 0; 0; 1]))
       "permit out 17 from any to assigned" "ip4")) 3 [5] []]
    [mkFAR 3 2 (Some (mkForwardingParams 1 "internet"))] [mkQER 5 0 1 1 0 0] [].

(** A network on which every request is accepted, the SEID echoed. *)
Definition demo_send (req : Message) (addr : UDPAddr) (t1 n1 : Z) :
    go (CPFunction MemoryStore) Message := λ cp,
  (cp, Ok (NewSessionEstablishmentResponse (SequenceNumber (Header req)) (SEID (Header req))
             CauseRequestAccepted 1)).

Definition demo_create := CreateSession demo_send 6 (a_node demo_args) (a_pdrs demo_args)
  (a_fars demo_args) (a_qers demo_args) (a_urrs demo_args).

(** One session, then another, then the first one deleted. *)
Definition demo_cp2 := (demo_create demo_cp1).1.
Definition demo_cp3 := (demo_create demo_cp2).1.
Definition demo_cp4 := (CP_DeleteSession demo_send 1 demo_cp3).1.

Lemma demo_quiet : quiet demo_send.
Proof. intros msg addr t1 n1 cp. exists (transport cp). by destruct cp. Qed.

Lemma demo_network_steps : network_steps demo_send.
Proof. intros msg addr t1 n1 cp cs. apply rtc_refl. Qed.

Definition demo_run0 : cp_run MemoryStore := mkRun demo_cp0 ∅.
Definition demo_run2 : cp_run MemoryStore :=
  mkRun demo_cp2 (<[0%nat := CreateReturned (Ok 1)]> ∅).
Definition demo_run3 : cp_run MemoryStore :=
  mkRun demo_cp3 (<[1%nat := CreateReturned (Ok 2)]> (<[0%nat := CreateReturned (Ok 1)]> ∅)).

Lemma demo_run0_initial : run_initial demo_run0.
Proof. done. Qed.

Lemma demo_cp1_reachable : rtc cp_step demo_run0 (mkRun demo_cp1 ∅).
Proof.
  apply rtc_once. eapply (step_datagram demo_run0 5 (Message_bytes demo_setup) demo_addr);
    [done|apply surjective_pairing].
Qed.

Lemma demo_create_steps cp cs i r :
  cs !! i = None → nextSEID cp < 2 ^ 64 - 1 → (demo_create cp).2 = r →
  rtc cp_step (mkRun cp cs) (mkRun (demo_create cp).1 (<[i := CreateReturned r]> cs)).
Proof.
  intros Hi Hn <-.
  by apply (CreateSession_refines demo_send 6 demo_args); [apply demo_network_steps|..].
Qed.

Lemma demo_run2_reachable : rtc cp_step demo_run0 demo_run2.
Proof.
  etrans; [apply demo_cp1_reachable|]. by apply demo_create_steps; vm_compute.
Qed.

Lemma demo_run3_reachable : rtc cp_step demo_run0 demo_run3.
Proof.
  etrans; [apply demo_run2_reachable|]. by apply demo_create_steps; vm_compute.
Qed.

(** ** Witnesses *)

Lemma cp_runs_inv_witness :
  rtc cp_step demo_run0 demo_run3 ∧ cp_inv demo_run3 ∧
  (LocalSEID <$> sessions (r_cp demo_run3) !! 2) = Some 2.
Proof.
  split; [apply demo_run3_reachable|]. split; [|by vm_compute].
  apply (cp_runs_inv demo_run0); [apply demo_run0_initial|apply demo_run3_reachable].
Defined.

Lemma CreateSession_SEIDs_distinct_witness : (1 : Z) ≠ 2 ∧ (1 : Z) ≠ 0 ∧ (2 : Z) ≠ 0.
Proof.
  apply (CreateSession_SEIDs_distinct demo_run0 demo_run3 0 1 1 2);
    [apply demo_run0_initial|apply demo_run3_reachable|done|done|done].
Defined.

(** The store and the session of the run, by their names. *)
Definition demo_store2 : MemoryStore := default NewMemoryStore (store demo_cp2).
Definition demo_session1 : Session :=
  default (new_session 0 0 EmptyString [] [] [] [] Message_zero) (sessions demo_cp2 !! 1).

Lemma demo_default {A} (o : option A) d : bool_decide (is_Some o) = true → o = Some (default d o).
Proof. intros [x ->]%bool_decide_eq_true_1. done. Qed.

Lemma sessions_stored_witness :
  stored demo_store2 !! 1 = Some demo_session1 ∧ LocalSEID demo_session1 = 1.
Proof.
  split; [|by vm_compute].
  apply (sessions_stored demo_run0 demo_run2 demo_store2 1 demo_session1
    demo_run0_initial demo_run2_reachable).
  - intros i s'. simpl. rewrite lookup_insert_Some, lookup_empty. naive_solver.
  - apply (demo_default (store demo_cp2)). by vm_compute.
  - apply (demo_default (sessions demo_cp2 !! 1)). by vm_compute.
Defined.

Lemma CreateSession_spec_witness :
  (demo_create demo_cp1).2 = Ok 1 ∧
  ∃ s, LocalSEID s = 1 ∧ sessions demo_cp2 = <[1 := s]> (sessions demo_cp1) ∧
    in_store demo_cp2 = <[1 := s]> <$> in_store demo_cp1.
Proof.
  pose proof (CreateSession_spec demo_send 6 (a_node demo_args) (a_pdrs demo_args)
    (a_fars demo_args) (a_qers demo_args) (a_urrs demo_args) demo_cp1 demo_quiet) as H.
  change (CreateSession demo_send 6 (a_node demo_args) (a_pdrs demo_args)
    (a_fars demo_args) (a_qers demo_args) (a_urrs demo_args)) with demo_create in H.
  unfold demo_cp2. destruct (demo_create demo_cp1) as [cp' r]. cbn [fst snd].
  destruct (association (a_node demo_args) demo_cp1) as [assoc|] eqn:Ha;
    [|exfalso; by vm_compute in Ha].
  cbv beta iota zeta delta [demo_send] in H.
  assert (nextSEID demo_cp1 = 1) as Hn by by vm_compute. rewrite Hn in H.
  destruct H as (_ & _ & H). clear Ha.
  match type of H with context [accepted ?m] =>
    assert (accepted m = true) as Hacc by by vm_compute end.
  rewrite Hacc in H. clear Hacc Hn. destruct H as (-> & -> & -> & _). split; [reflexivity|].
  eexists. split; [|split; reflexivity].
  done.
Defined.

Lemma CP_DeleteSession_spec_witness :
  (CP_DeleteSession demo_send 1 demo_cp3).2 = Ok tt ∧
  sessions demo_cp4 = delete 1 (sessions demo_cp3) ∧
  in_store demo_cp4 = delete 1 <$> in_store demo_cp3.
Proof.
  pose proof (CP_DeleteSession_spec demo_send 1 demo_cp3 demo_quiet) as H.
  unfold demo_cp4. destruct (CP_DeleteSession demo_send 1 demo_cp3) as [cp' r].
  cbn [fst snd].
  assert (Session_NodeID <$> sessions demo_cp3 !! 1 = Some "up1") as Hs by by vm_compute.
  destruct (sessions demo_cp3 !! 1) as [s|]; [|discriminate Hs].
  cbn in Hs. injection Hs as Hs. rewrite Hs in H.
  destruct (association "up1" demo_cp3) as [assoc|] eqn:Ha; [|exfalso; by vm_compute in Ha].
  cbv beta iota zeta delta [demo_send] in H. destruct H as (_ & _ & H).
  clear Ha Hs.
  match type of H with context [accepted ?m] =>
    assert (accepted m = true) as Hacc by by vm_compute end.
  rewrite Hacc in H. exact H.
Defined.

Lemma handleAssociationSetupRequest_spec_witness :
  association "up1" (handleAssociationSetupRequest 5 demo_setup demo_addr demo_cp0).1 =
    Some (mkAssociation (bytes_of_string "up1") demo_addr 0 [] None 5).
Proof.
  pose proof (handleAssociationSetupRequest_spec 5 demo_setup demo_addr demo_cp0 ltac:(done)) as H.
  destruct (handleAssociationSetupRequest 5 demo_setup demo_addr demo_cp0) as [cp' r].
  assert (node_of demo_setup = Some (Ok (bytes_of_string "up1"))) as Hid by by vm_compute.
  assert (FindIE demo_setup IETypeRecoveryTimeStamp = Some (NewRecoveryTimeStampIE 900)) as Hr
    by by vm_compute.
  rewrite Hid, Hr in H. by destruct H as [H _].
Defined.


(** A setup request whose node id element is empty. *)
Definition demo_empty_setup : Message :=
  marshalled (mkMessage (node_header MsgTypeAssociationSetupRequest 1)
    [mkIE IETypeNodeID 0 []; NewRecoveryTimeStampIE 0]).

Lemma cp_receive_panics_iff_witness :
  returned (cp_receive 5 (byte_of_Z <$> [0x20; 1; 0xff; 0xff; 0; 0; 1; 0]) demo_addr
    demo_cp1).2 = false ∧
  returned (cp_receive 5 (Message_bytes demo_setup) demo_addr demo_cp0).2 ≠ false ∧
  returned (cp_receive 5 (Message_bytes demo_empty_setup) demo_addr demo_cp0).2 = false.
Proof.
  split_and!.
  - apply cp_receive_panics_iff; [by vm_compute|by vm_compute|]. left. by vm_compute.
  - by vm_compute.
  - apply cp_receive_panics_iff; [by vm_compute|by vm_compute|]. right.
    exists (receive (Message_bytes demo_empty_setup) demo_addr (transport demo_cp0)).1,
      demo_empty_setup, HAssociationSetupRequest. split; [|split].
    + rewrite (surjective_pairing (receive _ _ _)) at 1. f_equal.
    + exists (mkIE IETypeNodeID 0 []). by split.
    + right. by split.
Defined.

(** ** A race *)

(** A session's establishment up to its recording; then [store_race] deletes it
    before it is handed to the store. *)
Definition move (now : Z) (resp : res Message) (i : nat) (run : cp_run MemoryStore) :
    cp_run MemoryStore :=
  let '(cp, c) := advance now resp (default (CreateReturned Hang) (r_calls run !! i))
                    (r_cp run) in
  mkRun cp (<[i := c]> (r_calls run)).

Definition race0 : cp_run MemoryStore := mkRun demo_cp1 (<[0%nat := CreateStart demo_args]> ∅).
Definition race3 : cp_run MemoryStore :=
  move 6 (Ok accepting) 0 (move 6 Hang 0 (move 6 Hang 0 race0)).

Lemma move_step now resp i run :
  bool_decide (is_Some (r_calls run !! i)) = true → nextSEID (r_cp run) < 2 ^ 64 - 1 →
  cp_step run (move now resp i run).
Proof.
  intros [c Hc]%bool_decide_eq_true_1 Hn. unfold move. rewrite Hc. simpl.
  destruct (advance _ _ _ _) as [cp' c'] eqn:Ha. by eapply step_advance.
Qed.

Lemma race3_reachable : rtc cp_step demo_run0 race3.
Proof.
  etrans; [apply demo_cp1_reachable|].
  eapply rtc_l; [by apply (step_create (mkRun demo_cp1 ∅) 0 demo_args)|].
  eapply rtc_l; [apply (move_step 6 Hang 0 race0); by vm_compute|].
  eapply rtc_l; [apply (move_step 6 Hang 0 (move 6 Hang 0 race0)); by vm_compute|].
  apply rtc_once. apply (move_step 6 (Ok accepting) 0 (move 6 Hang 0 (move 6 Hang 0 race0)));
    by vm_compute.
Qed.

Definition race_session : Session :=
  default (new_session 0 0 EmptyString [] [] [] [] Message_zero) (sessions (r_cp race3) !! 1).
Definition race_assoc : Association :=
  default (mkAssociation [] demo_addr 0 [] None 0)
    (association (Session_NodeID race_session) (r_cp race3)).
Definition race_store : MemoryStore := default NewMemoryStore (store (r_cp race3)).

Lemma race3_calls : r_calls race3 = <[0%nat := CreateStoring 1 race_session]> ∅.
Proof. by vm_compute. Qed.

Lemma store_race_witness :
  ∃ run1, rtc cp_step race3 run1 ∧
    r_calls run1 !! 0%nat = Some (CreateReturned (Ok 1)) ∧
    r_calls run1 !! 1%nat = Some (DeleteReturned (Ok tt)) ∧
    ∀ run2, rtc cp_step run1 run2 →
      sessions (r_cp run2) !! 1 = None ∧
      ∃ n, store (r_cp run2) = Some n ∧ stored n !! 1 = Some race_session.
Proof.
  apply (store_race demo_run0 race3 0 1 1 race_session race_assoc race_store
    demo_run0_initial race3_reachable).
  - by rewrite race3_calls.
  - by rewrite race3_calls.
  - intros j c. rewrite race3_calls, lookup_insert_Some, lookup_empty. naive_solver.
  - apply (demo_default (sessions (r_cp race3) !! 1)). by vm_compute.
  - apply (demo_default (association _ (r_cp race3))). by vm_compute.
  - apply (demo_default (store (r_cp race3))). by vm_compute.
Defined.
