(* ===== verification/Grpc.v ===== *)
(** * The northbound gRPC server

    [pkg/cp/grpc.go]: the four methods of the control plane's service, which
    turn the messages of [api/pfcp/v1] into the rules of [cp.go] and call it,
    with the functions of [net] they use.

    Over the wire a nested message may be missing, which is a nil pointer in
    Go and [None] here; an element of a repeated field is never nil. *)
From stdpp Require Import pretty.
From S2P Require Import Prelude Bytes Constants Header Ie Messages Transport CpTypes Northbound Cp CpRuns CpSpec.

(** ** The messages of the service *)

Module Pb.

Record PacketDetectionInfo := mkPacketDetectionInfo {
  SourceInterface : Z;
  SdfFilter : string;
  UeIpAddress : string;
  NetworkInstance : string;
  ApplicationId : string;
}.

Record PDR := mkPDR {
  PDR_Id : Z;
  Precedence : Z;
  Pdi : option PacketDetectionInfo;
  FarId : Z;
}.

Record ForwardingParameters := mkForwardingParameters {
  DestinationInterface : Z;
  FP_NetworkInstance : string;
}.

Record FAR := mkFAR {
  FAR_Id : Z;
  ApplyAction : Z;
  ForwardingParams : option ForwardingParameters;
}.

Record QER := mkQER { QER_Id : Z; GateStatus : Z; MbrUplink : Z; MbrDownlink : Z }.
Record URR := mkURR { URR_Id : Z; MeasurementMethod : Z }.

Record CreateSessionRequest := mkCreateSessionRequest {
  NodeId : string;
  Pdrs : list PDR;
  Fars : list FAR;
  Qers : list QER;
  Urrs : list URR;
}.

Record CreateSessionResponse := mkCreateSessionResponse { Seid : Z }.
Record DeleteSessionResponse := mkDeleteSessionResponse { Success : bool }.

Record Association := mkAssociation {
  Assoc_NodeId : string;
  RemoteAddr : string;
  EstablishedAt : Z;
}.

End Pb.

(** ** [net.ParseIP]

    After [netip.ParseAddr]: the first dot or colon tells the two forms apart;
    an address with a zone is refused. *)

Definition c_dot : byte := x2e.
Definition c_colon : byte := x3a.

Definition decimal_digit (b : byte) : option Z :=
  let c := Z_of_byte b in if decide (48 ≤ c ≤ 57) then Some (c - 48) else None.

Definition hex_digit (b : byte) : option Z :=
  let c := Z_of_byte b in
  if decide (48 ≤ c ≤ 57) then Some (c - 48)
  else if decide (97 ≤ c ≤ 102) then Some (c - 97 + 10)
  else if decide (65 ≤ c ≤ 70) then Some (c - 65 + 10)
  else None.

(** [parseIPv4Fields]: [val] and [digLen] are those of the octet being read,
    [fields] the octets before it. *)
Fixpoint v4_fields (s : list byte) (val digLen : Z) (fields : list byte) : option (list byte) :=
  match s with
  | [] => if len fields <? 3 then None else Some (fields ++ [byte_of_Z val])
  | c :: s' =>
    match decimal_digit c with
    | Some d =>
      if (digLen =? 1) && (val =? 0) then None
      else
        let val := val * 10 + d in
        if 255 <? val then None else v4_fields s' val (digLen + 1) fields
    | None =>
      if decide (c = c_dot) then
        if (digLen =? 0) || bool_decide (s' = []) then None
        else if len fields =? 3 then None
        else v4_fields s' 0 0 (fields ++ [byte_of_Z val])
      else None
    end
  end.

Definition parseIPv4Fields (s : list byte) : option (list byte) := v4_fields s 0 0 [].

(** The hexadecimal number at the front: how many digits, its value, and what
    follows. *)
Fixpoint hex_field (s : list byte) (off acc : Z) : option (Z * Z * list byte) :=
  match s with
  | [] => Some (off, acc, [])
  | c :: s' =>
    match hex_digit c with
    | Some d =>
      let acc := Z.lor (Z.shiftl acc 4) d in
      if 3 <? off then None
      else if 65535 <? acc then None
      else hex_field s' (off + 1) acc
    | None => Some (off, acc, s)
    end
  end.

(** The loop of [parseIPv6], [for i < 16]: [ip] holds the bytes read so far,
    two more each round; eight rounds at most. *)
Fixpoint v6_fields (rounds : nat) (s ip : list byte) (ellipsis : option nat) :
    option (list byte * list byte * option nat) :=
  match rounds with
  | O => Some (s, ip, ellipsis)
  | S rounds =>
    match hex_field s 0 0 with
    | None => None
    | Some (off, acc, rest) =>
      if off =? 0 then None
      else
        let ip' := ip ++ [byte_of_Z (Z.shiftr acc 8); byte_of_Z acc] in
        match rest with
        | [] => Some ([], ip', ellipsis)
        | c :: rest' =>
          if decide (c = c_dot) then
            if bool_decide (ellipsis = None) && negb (len ip =? 12) then None
            else if 16 <? len ip + 4 then None
            else match parseIPv4Fields s with
                 | None => None
                 | Some fields => Some ([], ip ++ fields, ellipsis)
                 end
          else if decide (c = c_colon) then
            match rest' with
            | [] => None
            | c2 :: rest2 =>
              if decide (c2 = c_colon) then
                match ellipsis with
                | Some _ => None
                | None =>
                  match rest2 with
                  | [] => Some ([], ip', Some (length ip'))
                  | _ => v6_fields rounds rest2 ip' (Some (length ip'))
                  end
                end
              else v6_fields rounds rest' ip' ellipsis
            end
          else None
        end
    end
  end.

Definition parseIPv6 (s : list byte) : option (list byte) :=
  let '(s, ellipsis) :=
    match s with
    | c1 :: c2 :: s' =>
      if decide (c1 = c_colon ∧ c2 = c_colon) then (s', Some 0%nat) else (s, None)
    | _ => (s, None)
    end in
  if bool_decide (s = [] ∧ ellipsis = Some 0%nat) then Some (replicate 16 x00)
  else
    match v6_fields 8 s [] ellipsis with
    | Some ([], ip, ellipsis) =>
      match ellipsis with
      | None => if len ip <? 16 then None else Some ip
      | Some e =>
        if len ip <? 16
        then Some (take e ip ++ replicate (16 - length ip) x00 ++ drop e ip)
        else None
      end
    | _ => None
    end.

(** The scan of [ParseAddr]. *)
Fixpoint parse_addr (scan s : list byte) : option (list byte) :=
  match scan with
  | [] => None
  | c :: scan =>
    if decide (c = c_dot) then (v4InV6Prefix ++.) <$> parseIPv4Fields s
    else if decide (c = c_colon) then parseIPv6 s
    else if decide (c = x25) then None
    else parse_addr scan s
  end.

(** A percent sign starts a zone or is out of place. *)
Definition ParseIP (s : list byte) : option (list byte) :=
  if decide (x25 ∈ s) then None else parse_addr s s.

(** ** [net.UDPAddr.String] *)

Fixpoint join_with (sep : string) (parts : list string) : string :=
  match parts with
  | [] => EmptyString
  | [p] => p
  | p :: parts => p +:+ sep +:+ join_with sep parts
  end.

Definition hex_char (d : Z) : string :=
  string_of_bytes [byte_of_Z (if d <? 10 then 48 + d else 97 + (d - 10))].

(** [appendHex]: no leading zeros. *)
Definition hex_string (v : Z) : string :=
  (if 0x1000 <=? v then hex_char (Z.shiftr v 12) else EmptyString) +:+
  (if 0x100 <=? v then hex_char (Z.land (Z.shiftr v 8) 0xf) else EmptyString) +:+
  (if 0x10 <=? v then hex_char (Z.land (Z.shiftr v 4) 0xf) else EmptyString) +:+
  hex_char (Z.land v 0xf).

Fixpoint u16s (bs : list byte) : list Z :=
  match bs with b0 :: b1 :: bs => be_get [b0; b1] :: u16s bs | _ => [] end.

(** The number of zeros in front. *)
Fixpoint zeros (fs : list Z) : nat :=
  match fs with f :: fs => if f =? 0 then S (zeros fs) else O | [] => O end.

(** The first of the longest runs of two zeros or more. *)
Definition longest_zeros (fs : list Z) : option (nat * nat) :=
  foldl (λ best i,
    let l := zeros (drop i fs) in
    if (2 <=? Z.of_nat l) &&
       (match best with Some (s, e) => Z.of_nat (e - s) | None => 0 end <? Z.of_nat l)
    then Some (i, i + l)%nat else best) None (seq 0 8).

Definition string6 (ip : list byte) : string :=
  let fs := u16s ip in
  match longest_zeros fs with
  | None => join_with ":" (hex_string <$> fs)
  | Some (s, e) =>
    join_with ":" (hex_string <$> take s fs) +:+ "::" +:+ join_with ":" (hex_string <$> drop e fs)
  end.

(** [IP.String], for an address that is not empty. *)
Definition IP_String (ip : list byte) : string :=
  if decide (length ip ≠ 4 ∧ length ip ≠ 16)%nat then
    "?" +:+ join_with EmptyString ((λ b, hex_char (Z.shiftr (Z_of_byte b) 4) +:+
                                         hex_char (Z.land (Z_of_byte b) 0xf)) <$> ip)
  else
    match IP_To4 ip with
    | Some ip4 => join_with "." ((λ b, pretty (Z_of_byte b)) <$> ip4)
    | None => string6 ip
    end.

Definition JoinHostPort (host port : string) : string :=
  if decide (c_colon ∈ bytes_of_string host) then "[" +:+ host +:+ "]:" +:+ port
  else host +:+ ":" +:+ port.

Definition UDPAddr_String (a : UDPAddr) : string :=
  let ip := match IP a with [] => EmptyString | _ => IP_String (IP a) end in
  let host := if decide (Zone a = EmptyString) then ip else ip +:+ "%" +:+ Zone a in
  JoinHostPort host (pretty (Port a)).

(** [time.Time.Unix], a time being its nanoseconds since the epoch. *)
Definition Unix (t : Z) : Z := t / 1000000000.

(** ** The methods *)

(** The body of the loop over the detection rules; [pdr.Pdi] is followed
    without a check. *)
Definition pdr_of_pb (pdr : Pb.PDR) : res PDR :=
  match Pb.Pdi pdr with
  | None => Panic NilDereference
  | Some pdi =>
    let ueIP := if decide (Pb.UeIpAddress pdi = EmptyString) then None
                else ParseIP (bytes_of_string (Pb.UeIpAddress pdi)) in
    Ok (mkPDR (u16 (Pb.PDR_Id pdr)) (Pb.Precedence pdr)
          (Some (mkPacketDetectionInfo (u8 (Pb.SourceInterface pdi)) (Pb.NetworkInstance pdi)
                   ueIP (Pb.SdfFilter pdi) (Pb.ApplicationId pdi)))
          (Pb.FarId pdr) [] [])
  end.

Definition far_of_pb (far : Pb.FAR) : res FAR :=
  match Pb.ForwardingParams far with
  | None => Panic NilDereference
  | Some fp =>
    Ok (mkFAR (Pb.FAR_Id far) (u8 (Pb.ApplyAction far))
          (Some (mkForwardingParams (u8 (Pb.DestinationInterface fp)) (Pb.FP_NetworkInstance fp))))
  end.

Definition qer_of_pb (qer : Pb.QER) : QER :=
  mkQER (Pb.QER_Id qer) (u8 (Pb.GateStatus qer)) (Pb.MbrUplink qer) (Pb.MbrDownlink qer) 0 0.

Definition urr_of_pb (urr : Pb.URR) : URR :=
  mkURR (Pb.URR_Id urr) (u8 (Pb.MeasurementMethod urr)) 0 0 0.

(** [for i, x := range xs { ys[i] = f(x) }]. *)
Definition translate {A B} (f : A → res B) (xs : list A) : res (list B) :=
  fold_res (λ ys x, y ← f x; Ok (ys ++ [y])) [] xs.

Section server.
Context {N : Type} `{!NorthboundStore N}.
Implicit Types cp : CPFunction N.

Section calls.
Variable SendRequest : Message → UDPAddr → Z → Z → go (CPFunction N) Message.

Definition grpc_CreateSession (now : Z) (req : Pb.CreateSessionRequest) :
    go (CPFunction N) Pb.CreateSessionResponse :=
  pdrs ← lift (translate pdr_of_pb (Pb.Pdrs req));
  fars ← lift (translate far_of_pb (Pb.Fars req));
  let qers := qer_of_pb <$> Pb.Qers req in
  let urrs := urr_of_pb <$> Pb.Urrs req in
  seid ← wrap_err (Wrapf "create session: %w" [])
           (CreateSession SendRequest now (Pb.NodeId req) pdrs fars qers urrs);
  mret (Pb.mkCreateSessionResponse seid).

Definition grpc_ModifySession : go (CPFunction N) bool :=
  throw (Errorf "ModifySession not implemented yet" []).

Definition grpc_DeleteSession (seid : Z) : go (CPFunction N) Pb.DeleteSessionResponse :=
  _ ← wrap_err (Wrapf "delete session: %w" []) (CP_DeleteSession SendRequest seid);
  mret (Pb.mkDeleteSessionResponse true).

End calls.

(** [order] is the order in which the range over the map finds the
    associations: a permutation of its entries. *)
Definition grpc_ListAssociations (order : gmap string nat → list (string * nat)) :
    go (CPFunction N) (list Pb.Association) :=
  cp ← gget;
  lift (translate (λ '(node, a),
    match assocs cp !! a with
    | None => Panic NilDereference
    | Some assoc => Ok (Pb.mkAssociation node (UDPAddr_String (RemoteAddr assoc))
                          (Unix (EstablishedAt assoc)))
    end) (order (associations cp))).

End server.

(** ** What the translations keep

    The fields of a rule of the request that reach the control plane, and how. *)

Definition has_pdi (q : Pb.PDR) : bool := bool_decide (is_Some (Pb.Pdi q)).
Definition has_parameters (q : Pb.FAR) : bool := bool_decide (is_Some (Pb.ForwardingParams q)).

Definition pdr_carries (q : Pb.PDR) (p : PDR) : Prop :=
  PDR_ID p = Pb.PDR_Id q mod 2 ^ 16 ∧ Precedence p = Pb.Precedence q ∧
  PDR_FAR_ID p = Pb.FarId q ∧ QER_IDs p = [] ∧ URR_IDs p = [] ∧
  ∃ d pdi, Pb.Pdi q = Some d ∧ PDI p = Some pdi ∧
    SourceInterface pdi = Pb.SourceInterface d mod 2 ^ 8 ∧
    NetworkInstance pdi = Pb.NetworkInstance d ∧
    UE_IPAddress pdi = ParseIP (bytes_of_string (Pb.UeIpAddress d)) ∧
    SDFFilter pdi = Pb.SdfFilter d ∧ ApplicationID pdi = Pb.ApplicationId d.

Definition far_carries (q : Pb.FAR) (f : FAR) : Prop :=
  FAR_ID f = Pb.FAR_Id q ∧ ApplyAction f = Pb.ApplyAction q mod 2 ^ 8 ∧
  ∃ d fp, Pb.ForwardingParams q = Some d ∧ ForwardingParameters f = Some fp ∧
    DestinationInterface fp = Pb.DestinationInterface d mod 2 ^ 8 ∧
    FP_NetworkInstance fp = Pb.FP_NetworkInstance d.

Definition qer_carries (q : Pb.QER) (r : QER) : Prop :=
  QER_ID r = Pb.QER_Id q ∧ GateStatus r = Pb.GateStatus q mod 2 ^ 8 ∧
  MBR_UL r = Pb.MbrUplink q ∧ MBR_DL r = Pb.MbrDownlink q ∧ GBR_UL r = 0 ∧ GBR_DL r = 0.

Definition urr_carries (q : Pb.URR) (r : URR) : Prop :=
  URR_ID r = Pb.URR_Id q ∧ MeasurementMethod r = Pb.MeasurementMethod q mod 2 ^ 8 ∧
  ReportingTriggers r = 0 ∧ VolumeThreshold r = 0 ∧ TimeThreshold r = 0.

(** The guard of the code on an empty address changes nothing. *)
Lemma ParseIP_guard s :
  (if decide (s = EmptyString) then None else ParseIP (bytes_of_string s)) =
  ParseIP (bytes_of_string s).
Proof. by case_decide as E; [rewrite E|]. Qed.

Lemma pdr_of_pb_spec q :
  if has_pdi q then ∃ p, pdr_of_pb q = Ok p ∧ pdr_carries q p
  else pdr_of_pb q = Panic NilDereference.
Proof.
  unfold has_pdi, pdr_of_pb, pdr_carries. destruct (Pb.Pdi q) as [d|]; [|done].
  cbn [bool_decide is_Some]. eexists. split; [done|]. split_and!; try done.
  do 2 eexists. split_and!; try done. apply ParseIP_guard.
Qed.

Lemma far_of_pb_spec q :
  if has_parameters q then ∃ f, far_of_pb q = Ok f ∧ far_carries q f
  else far_of_pb q = Panic NilDereference.
Proof.
  unfold has_parameters, far_of_pb, far_carries.
  destruct (Pb.ForwardingParams q) as [d|]; [|done].
  eexists. split; [done|]. split_and!; try done. by do 2 eexists.
Qed.

Lemma qers_carry qs : Forall2 qer_carries qs (qer_of_pb <$> qs).
Proof. apply Forall2_fmap_r, Forall_Forall2_diag, Forall_true. by intros. Qed.

Lemma urrs_carry qs : Forall2 urr_carries qs (urr_of_pb <$> qs).
Proof. apply Forall2_fmap_r, Forall_Forall2_diag, Forall_true. by intros. Qed.

(** A loop over rules reaches its end unless one of them is refused. *)
Lemma translate_spec {A B} (f : A → res B) (good : A → bool) (carries : A → B → Prop) p xs :
  (∀ x, if good x then ∃ y, f x = Ok y ∧ carries x y else f x = Panic p) →
  if forallb good xs then ∃ ys, translate f xs = Ok ys ∧ Forall2 carries xs ys
  else translate f xs = Panic p.
Proof.
  intros Hf. unfold translate.
  assert (∀ acc, if forallb good xs
    then ∃ ys, fold_res (λ ys x, y ← f x; Ok (ys ++ [y])) acc xs = Ok (acc ++ ys) ∧
           Forall2 carries xs ys
    else fold_res (λ ys x, y ← f x; Ok (ys ++ [y])) acc xs = Panic p) as H; [|apply (H [])].
  induction xs as [|x xs IH]; intros acc; [exists []; by rewrite app_nil_r|].
  simpl. specialize (Hf x). destruct (good x); [|by rewrite Hf].
  destruct Hf as (y & -> & Hy). simpl. specialize (IH (acc ++ [y])).
  destruct (forallb good xs); [|done]. destruct IH as (ys & -> & Hys).
  exists (y :: ys). rewrite <- app_assoc. split; [done|by constructor].
Qed.

(** ** The theorem *)

Section spec.
Context {N : Type} `{!NorthboundStore N, !NorthboundLaws N}.
Implicit Types cp : CPFunction N.
Context (SendRequest : Message → UDPAddr → Z → Z → go (CPFunction N) Message).

(** C40: the [CreateSession] of the service, [SendRequest] being any function
    that leaves the sessions alone.  A detection rule without its detection
    information, or a forwarding rule without its parameters, is a nil pointer
    that panics before anything has changed.  Otherwise the rules carry the
    request's fields, ids of detection rules cut to 16 bits, gates, actions,
    methods and interfaces to 8, an address that does not parse dropped; the
    answer holds the SEID exactly when the user plane accepts, and then the
    session is recorded with the last rule for each id that is left; and the
    errors of the call come back wrapped. *)
Theorem grpc_CreateSession_spec now req cp :
  quiet SendRequest →
  let seid := nextSEID cp in
  let '(cp', r) := grpc_CreateSession SendRequest now req cp in
  if forallb has_pdi (Pb.Pdrs req) && forallb has_parameters (Pb.Fars req) then
    match association (Pb.NodeId req) cp with
    | None =>
      cp' = cp ∧
      r = Err (Wrapf "create session: %w" []
                 (Errorf "no association with node %s" [AStr (Pb.NodeId req)]))
    | Some assoc =>
      ∃ pdrs fars qers urrs,
        Forall2 pdr_carries (Pb.Pdrs req) pdrs ∧ Forall2 far_carries (Pb.Fars req) fars ∧
        Forall2 qer_carries (Pb.Qers req) qers ∧ Forall2 urr_carries (Pb.Urrs req) urrs ∧
        let '(_, resp) :=
          SendRequest (NewSessionEstablishmentRequest 0 0 (pdr_ie <$> pdrs) (far_ie <$> fars)
                         (qer_ie <$> qers) (urr_ie <$> urrs))
            (RemoteAddr assoc) (RetransmitT1 (config cp)) (RetransmitN1 (config cp))
            (set_nextSEID (u64 (seid + 1)) cp) in
        match resp with
        | Ok m =>
          if accepted m
          then r = Ok (Pb.mkCreateSessionResponse seid) ∧
               ∃ session,
                 sessions cp' = <[seid := session]> (sessions cp) ∧
                 in_store cp' = <[seid := session]> <$> in_store cp ∧
                 RemoteSEID session = SEID (Header m) ∧
                 Session_NodeID session = Pb.NodeId req ∧
                 (∀ i, PDRs session !! i = last_with PDR_ID pdrs i) ∧
                 (∀ i, FARs session !! i = last_with FAR_ID fars i) ∧
                 (∀ i, QERs session !! i = last_with QER_ID qers i) ∧
                 (∀ i, URRs session !! i = last_with URR_ID urrs i)
          else (∃ e, r = Err (Wrapf "create session: %w" [] e)) ∧
               sessions cp' = sessions cp ∧ in_store cp' = in_store cp
        | Err e =>
          r = Err (Wrapf "create session: %w" [] (Wrapf "send request: %w" [] e)) ∧
          sessions cp' = sessions cp ∧ in_store cp' = in_store cp
        | _ => returned r = false ∧ sessions cp' = sessions cp ∧ in_store cp' = in_store cp
        end
    end
  else cp' = cp ∧ r = Panic NilDereference.
Proof.
  intros Hq seid. unfold grpc_CreateSession.
  pose proof (translate_spec _ _ _ _ (Pb.Pdrs req) pdr_of_pb_spec) as Hp.
  pose proof (translate_spec _ _ _ _ (Pb.Fars req) far_of_pb_spec) as Hf.
  destruct (forallb has_pdi _); [|go_unfold; by rewrite Hp]. destruct Hp as (pdrs & Hpe & Hp).
  destruct (forallb has_parameters _); [|go_unfold; by rewrite Hpe, Hf].
  destruct Hf as (fars & Hfe & Hf). go_unfold. rewrite Hpe, Hfe. unfold wrap_err.
  rewrite CreateSession_run. fold seid.
  destruct (association (Pb.NodeId req) cp) as [assoc|]; [|done]. cbn [andb].
  pose proof (qers_carry (Pb.Qers req)) as Hqr. pose proof (urrs_carry (Pb.Urrs req)) as Hu.
  set (qers := qer_of_pb <$> Pb.Qers req) in *. set (urrs := urr_of_pb <$> Pb.Urrs req) in *.
  set (msg := NewSessionEstablishmentRequest _ _ _ _ _ _). cbv zeta.
  destruct (Hq msg (RemoteAddr assoc) (RetransmitT1 (config cp)) (RetransmitN1 (config cp))
    (set_nextSEID (u64 (seid + 1)) cp)) as [t Ht].
  destruct (SendRequest msg _ _ _ _) as [cp1 resp] eqn:Hs. simpl in Ht. subst cp1.
  destruct resp as [m|e|p|]; [destruct (accepted m) eqn:Hm|..].
  - exists pdrs, fars, qers, urrs. fold msg. rewrite Hs, Hm. split_and!; try done.
    destruct (record_spec (new_session now seid (Pb.NodeId req) pdrs fars qers urrs m)
      (set_transport t (set_nextSEID (u64 (seid + 1)) cp))) as (H1 & H2 & _).
    eexists. split_and!; [exact H1|exact H2|done..| | | |]; intros; apply by_id_lookup.
  - pose proof (refused_error "session establishment rejected: cause=%d" m seid Hm) as He.
    destruct (check_accepted _ m ≫= _) as [|e| |]; try done.
    exists pdrs, fars, qers, urrs. fold msg. rewrite Hs, Hm. split_and!; try done. by eexists.
  - exists pdrs, fars, qers, urrs. fold msg. rewrite Hs. by split_and!.
  - exists pdrs, fars, qers, urrs. fold msg. rewrite Hs. by split_and!.
  - exists pdrs, fars, qers, urrs. fold msg. rewrite Hs. by split_and!.
Qed.

End spec.

(** ** Examples and a witness *)

Definition parsed (s : string) : option (list Z) := map Z_of_byte <$> ParseIP (bytes_of_string s).

Example ParseIP_v4 : parsed "10.0.0.1" = Some [0; 0; 0; 0; 0; 0; 0; 0; 0; 0; 255; 255; 10; 0; 0; 1].
Proof. by vm_compute. Qed.

Example ParseIP_v6 :
  parsed "2001:db8::10.0.0.1" = Some [32; 1; 13; 184; 0; 0; 0; 0; 0; 0; 0; 0; 10; 0; 0; 1].
Proof. by vm_compute. Qed.

Example ParseIP_refused : parsed <$> ["10.0.0"; "010.0.0.1"; "256.0.0.1"; "1::2::3"; "fe80::1%en0"] =
  [None; None; None; None; None].
Proof. by vm_compute. Qed.

Example UDPAddr_String_v4 : UDPAddr_String demo_addr = "127.0.0.1:8805".
Proof. by vm_compute. Qed.

(** The id of the rule, 65543, is cut to 7. *)
Definition demo_rpc : Pb.CreateSessionRequest :=
  Pb.mkCreateSessionRequest "up1"
    [Pb.mkPDR 65543 100 (Some (Pb.mkPacketDetectionInfo 0 EmptyString "10.0.0.1" "internet" "ip4")) 3]
    [Pb.mkFAR 3 2 (Some (Pb.mkForwardingParameters 1 "internet"))] [] [].

Definition demo_rpc_create := grpc_CreateSession demo_send 6 demo_rpc.

Lemma grpc_CreateSession_spec_witness :
  (demo_rpc_create demo_cp1).2 = Ok (Pb.mkCreateSessionResponse 1) ∧
  ∃ session, sessions (demo_rpc_create demo_cp1).1 = <[1 := session]> (sessions demo_cp1) ∧
    is_Some (PDRs session !! 7) ∧ PDRs session !! 65543 = None.
Proof.
  pose proof (grpc_CreateSession_spec demo_send 6 demo_rpc demo_cp1 demo_quiet) as H.
  change (grpc_CreateSession demo_send 6 demo_rpc) with demo_rpc_create in H.
  destruct (demo_rpc_create demo_cp1) as [cp' r]. cbn [fst snd].
  destruct (association (Pb.NodeId demo_rpc) demo_cp1) as [assoc|] eqn:Ha;
    [|exfalso; by vm_compute in Ha].
  clear Ha. cbn [forallb demo_rpc Pb.Pdrs Pb.Fars has_pdi andb] in H.
  assert (nextSEID demo_cp1 = 1) as Hn by by vm_compute. rewrite Hn in H.
  destruct H as (pdrs & fars & qers & urrs & Hp & _ & _ & _ & H).
  cbv beta iota zeta delta [demo_send] in H.
  match type of H with context [accepted ?m] =>
    assert (accepted m = true) as Hacc by by vm_compute end.
  rewrite Hacc in H. destruct H as (-> & s & -> & _ & _ & _ & H & _). split; [done|].
  exists s. split; [done|]. apply Forall2_cons_inv_l in Hp as (p & ? & (Hid & _) & Hp & ->).
  apply Forall2_nil_inv_l in Hp as ->. rewrite !H. cbn in Hid.
  unfold last_with. rewrite !filter_cons, Hid. by eexists.
Defined.
