(* ===== verification/System.v ===== *)
(** * The two functions together

    What the control plane's requests come to at the user plane: a session's
    rules, marshalled by the control plane, sent as a datagram, received and
    read back by the user plane, and the response on its way back.  The names
    of the user plane's data are the short ones here; the control plane's
    carry their file's name. *)
From S2P Require Import Prelude Bytes Constants Header Ie Messages Transport CpTypes Northbound Cp CpRuns CpSpec UpTypes Dataplane Mock Up UpMock.

(** ** Elements that fit *)

(** No enterprise id. *)
Definition plain (ie : IE) : Prop := 0 ≤ Type_ ie < 32768 ∧ EnterpriseID ie = 0.

#[export] Instance plain_dec ie : Decision (plain ie).
Proof. unfold plain. apply _. Defined.

(** In a list of elements that fills less than 2^16 bytes, every element has
    a wire form of its own. *)
Lemma plain_IE_ok ies : Forall plain ies → len (IEs_bytes ies) < 65536 → Forall IE_ok ies.
Proof.
  induction 1 as [|[t e v] ies [Ht He] Hp IH]; intros Hl; [by constructor|]. simpl in *. subst e.
  change (IEs_bytes (mkIE t 0 v :: ies)) with (IE_bytes (mkIE t 0 v) ++ IEs_bytes ies) in Hl.
  rewrite len_app, IE_bytes_len in Hl. unfold IE_length in Hl. simpl in Hl.
  rewrite leb_false in Hl by lia. pose proof (len_nonneg (IEs_bytes ies)).
  pose proof (len_nonneg v). constructor; [apply IE_ok_simple; lia|apply IH; lia].
Qed.

Lemma IEs_bytes_in ie ies : ie ∈ ies → len (IE_bytes ie) ≤ len (IEs_bytes ies).
Proof.
  intros (l1 & l2 & ->)%list_elem_of_split.
  rewrite IEs_bytes_app. change (IEs_bytes (ie :: l2)) with (IE_bytes ie ++ IEs_bytes l2).
  rewrite !len_app. pose proof (len_nonneg (IEs_bytes l1)).
  pose proof (len_nonneg (IEs_bytes l2)). lia.
Qed.

(** ... and so have the elements grouped inside it. *)
Lemma grouped_IE_ok t inner ies :
  mkIE t 0 (IEs_bytes inner) ∈ ies → 0 ≤ t < 32768 → Forall plain inner →
  len (IEs_bytes ies) < 65536 → Forall IE_ok inner ∧ len (IEs_bytes inner) < 65536.
Proof.
  intros Hin Ht Hp Hl. apply IEs_bytes_in in Hin. rewrite IE_bytes_len in Hin.
  unfold IE_length in Hin. simpl in Hin. rewrite leb_false in Hin by lia.
  split; [apply plain_IE_ok; [done|lia]|lia].
Qed.

Lemma Forall_plain_fmap {R} (f : R → IE) rs : (∀ r, plain (f r)) → Forall plain (f <$> rs).
Proof. intros Hf. induction rs; constructor; auto. Qed.

Lemma pdi_ies_plain pdi : Forall plain (pdi_ies pdi).
Proof.
  unfold pdi_ies. constructor; [by_compute|]. rewrite !Forall_app. split_and!.
  - destruct (CpTypes.UE_IPAddress pdi) as [ip|]; [|done]. constructor; [|done].
    unfold NewUE_IPAddressIE. by destruct (bool_decide _).
  - case_decide; [done|]. by repeat constructor.
  - case_decide; [done|]. by repeat constructor.
Qed.

Lemma pdr_ies_plain p : Forall plain (pdr_ies p).
Proof.
  unfold pdr_ies. rewrite !Forall_app. split_and!.
  - repeat constructor; done.
  - destruct (CpTypes.PDI p); repeat constructor; done.
  - repeat constructor; done.
  - by apply Forall_plain_fmap.
  - by apply Forall_plain_fmap.
Qed.

Lemma far_ies_plain f : Forall plain (far_ies f).
Proof.
  unfold far_ies. rewrite Forall_app. split.
  - repeat constructor; done.
  - destruct (ForwardingParameters f); repeat constructor; done.
Qed.

(** ** What the user plane makes of the control plane's rules *)

(** The SDF filter and the address stay in their wire form; the network
    instance is not sent. *)
Definition up_PDI (pdi : PacketDetectionInfo) : PDI :=
  mkPDI (u8 (CpTypes.SourceInterface pdi))
    (if decide (CpTypes.SDFFilter pdi = EmptyString) then []
     else Value (NewSDFFilterIE (CpTypes.SDFFilter pdi)))
    match CpTypes.UE_IPAddress pdi with
    | Some ip => string_of_bytes (Value (NewUE_IPAddressIE ip (bool_decide (IP_To4 ip = None))))
    | None => EmptyString
    end
    EmptyString (CpTypes.ApplicationID pdi).

(** The precedence and the lists of QERs and URRs are lost. *)
Definition up_PDR (p : CpTypes.PDR) : PDR :=
  mkPDR (u16 (CpTypes.PDR_ID p)) 0 (u32 (CpTypes.PDR_FAR_ID p))
    (Some (match CpTypes.PDI p with Some pdi => up_PDI pdi | None => PDI_zero end)).

(** The forwarding parameters are lost. *)
Definition up_FAR (f : CpTypes.FAR) : FAR :=
  mkFAR (u32 (CpTypes.FAR_ID f)) (u8 (CpTypes.ApplyAction f)).

(** One element of the PDI each. *)
Lemma read_SourceInterface q i :
  set_pdi_field q (NewSourceInterfaceIE i) =
    Ok (mkPDI (u8 i) (SDFFilter q) (UE_IPAddress q) (NetworkInstance q) (ApplicationID q)).
Proof. unfold set_pdi_field. simpl. by rewrite Z_of_byte_of_Z. Qed.

Lemma read_UE_IPAddress q ip v6 :
  set_pdi_field q (NewUE_IPAddressIE ip v6) =
    Ok (mkPDI (SourceInterface q) (SDFFilter q)
          (string_of_bytes (Value (NewUE_IPAddressIE ip v6))) (NetworkInstance q)
          (ApplicationID q)).
Proof. by destruct v6. Qed.

Lemma read_SDFFilter q fd :
  set_pdi_field q (NewSDFFilterIE fd) =
    Ok (mkPDI (SourceInterface q) (Value (NewSDFFilterIE fd)) (UE_IPAddress q)
          (NetworkInstance q) (ApplicationID q)).
Proof. done. Qed.

Lemma read_ApplicationID q a :
  set_pdi_field q (NewApplicationIDIE a) =
    Ok (mkPDI (SourceInterface q) (SDFFilter q) (UE_IPAddress q) (NetworkInstance q) a).
Proof.
  trans (Ok (mkPDI (SourceInterface q) (SDFFilter q) (UE_IPAddress q) (NetworkInstance q)
    (string_of_bytes (bytes_of_string a)))); [done|by rewrite string_of_bytes_of_string].
Qed.

Lemma read_pdi pdi : fold_res set_pdi_field PDI_zero (pdi_ies pdi) = Ok (up_PDI pdi).
Proof.
  unfold pdi_ies, up_PDI. cbn [fold_res]. rewrite read_SourceInterface. cbn [mbind res_bind].
  destruct (decide (CpTypes.SDFFilter pdi = EmptyString)) as [Hs|Hs],
    (decide (CpTypes.ApplicationID pdi = EmptyString)) as [Ha|Ha], (CpTypes.UE_IPAddress pdi);
    rewrite ?Ha; cbn [app fold_res];
    rewrite ?read_UE_IPAddress; cbn [mbind res_bind]; rewrite ?read_SDFFilter;
    cbn [mbind res_bind]; rewrite ?read_ApplicationID; done.
Qed.

(** One element of the detection rule each. *)
Lemma read_PDR_ID p i :
  set_pdr_field p (NewPDR_ID_IE i) =
    Ok (mkPDR (u16 i) (Precedence p) (PDR_FAR_ID p) (PDR_PDI p)).
Proof. unfold set_pdr_field. by rewrite GetPDR_ID_New. Qed.

Lemma read_Precedence p i :
  set_pdr_field p (NewPrecedenceIE i) = Ok (mkPDR (PDR_ID p) 0 (PDR_FAR_ID p) (PDR_PDI p)).
Proof. done. Qed.

Lemma read_FAR_ID p i :
  set_pdr_field p (NewFAR_ID_IE i) = Ok (mkPDR (PDR_ID p) (Precedence p) (u32 i) (PDR_PDI p)).
Proof. unfold set_pdr_field. by rewrite GetFAR_ID_New. Qed.

Lemma read_PDI id prec far pdi :
  Forall IE_ok (pdi_ies pdi) →
  set_pdr_field (mkPDR id prec far (Some PDI_zero))
    (mkIE IETypePDI 0 (IEs_bytes (pdi_ies pdi))) = Ok (mkPDR id prec far (Some (up_PDI pdi))).
Proof.
  intros Hok. unfold set_pdr_field. simpl. rewrite ParseGroupedIE_bytes by done.
  by rewrite fold_on_pdi, (read_pdi pdi).
Qed.

(** The elements the switch does not name. *)
Lemma read_ignored p (f : Z → IE) ids :
  (∀ q i, set_pdr_field q (f i) = Ok q) → fold_res set_pdr_field p (f <$> ids) = Ok p.
Proof. intros Hf. induction ids as [|i ids IH]; simpl; [done|]. by rewrite Hf. Qed.

Lemma read_pdr p :
  len (IEs_bytes (pdr_ies p)) < 65536 →
  fold_res set_pdr_field PDR_zero (pdr_ies p) = Ok (up_PDR p).
Proof.
  intros Hl.
  assert (∀ pdi, CpTypes.PDI p = Some pdi → Forall IE_ok (pdi_ies pdi)) as Hpdi.
  { intros pdi Hpdi. eapply (grouped_IE_ok IETypePDI); [|done|apply pdi_ies_plain|exact Hl].
    unfold pdr_ies. rewrite Hpdi. set_solver. }
  assert (∀ q, fold_res set_pdr_field q (NewFAR_ID_IE (CpTypes.PDR_FAR_ID p) ::
      (NewQER_ID_IE <$> QER_IDs p) ++ (NewURR_ID_IE <$> URR_IDs p)) =
    Ok (mkPDR (PDR_ID q) (Precedence q) (u32 (CpTypes.PDR_FAR_ID p)) (PDR_PDI q))) as Hrest.
  { intros q. cbn [fold_res]. rewrite read_FAR_ID. cbn [mbind res_bind].
    rewrite fold_res_app, (read_ignored _ NewQER_ID_IE) by done. cbn [mbind res_bind].
    by rewrite (read_ignored _ NewURR_ID_IE). }
  unfold pdr_ies, up_PDR. cbn [app fold_res].
  rewrite read_PDR_ID. cbn [mbind res_bind]. rewrite read_Precedence. cbn [mbind res_bind].
  destruct (CpTypes.PDI p) as [pdi|]; cbn [app fold_res].
  - cbn [PDR_zero PDR_ID PDR_FAR_ID PDR_PDI].
    rewrite read_PDI by auto. exact (Hrest (mkPDR _ 0 0 (Some (up_PDI pdi)))).
  - exact (Hrest (mkPDR _ 0 0 (Some PDI_zero))).
Qed.

Lemma read_far f : fold_res set_far_field FAR_zero (far_ies f) = Ok (up_FAR f).
Proof.
  unfold far_ies, up_FAR. cbn [fold_res app].
  assert (∀ q i, set_far_field q (NewFAR_ID_IE i) = Ok (mkFAR (u32 i) (ApplyAction q))) as ->
    by (intros; unfold set_far_field; by rewrite GetFAR_ID_New).
  cbn [mbind res_bind].
  assert (∀ q a, set_far_field q (NewApplyActionIE a) = Ok (mkFAR (FAR_ID q) (u8 a))) as ->
    by (intros; unfold set_far_field; simpl; by rewrite Z_of_byte_of_Z).
  by destruct (ForwardingParameters f).
Qed.

(** ** A datagram's way *)

(** [msg.Header.SequenceNumber = t.nextSeqNum()]. *)
Definition numbered (n : Z) (msg : Message) : Message :=
  mkMessage (set_SequenceNumber n (Header msg)) (IEs msg).

(** The request that [CreateSession] builds, once the transport has numbered
    it. *)
Definition establishment_request (n : Z) (pdrs : list CpTypes.PDR) (fars : list CpTypes.FAR)
    (qers : list CpTypes.QER) (urrs : list CpTypes.URR) : Message :=
  NewSessionEstablishmentRequest n 0 (pdr_ie <$> pdrs) (far_ie <$> fars) (qer_ie <$> qers)
    (urr_ie <$> urrs).

Lemma session_request_numbered n pdrs fars qers urrs req :
  session_request pdrs fars qers urrs = Ok req →
  numbered n req = establishment_request n pdrs fars qers urrs.
Proof. rewrite session_request_bytes. by intros [= <-]. Qed.

Lemma session_message_ok t n seid ies :
  is_u8 t → in_width 24 n → is_u64 seid → Forall plain ies → len (IEs_bytes ies) < 65536 →
  Message_ok (mkMessage (session_header t n seid) ies).
Proof.
  intros. constructor; simpl; [|done|done|by apply plain_IE_ok|done].
  constructor; simpl; done || by_compute.
Qed.

(** A marshalled message that fits the receive buffer reaches the dispatch as
    its sender's [Marshal] left it. *)
Lemma receive_marshalled {H} m addr (t : Transport H) :
  Message_ok m → len (Message_bytes m) ≤ len (buf t) →
  ∃ b, len b = len (buf t) ∧
    receive (Message_bytes m) addr t =
      let '(t', d) := handleMessage (marshalled m) addr (set_buf b t) in
      (t', Ok (marshalled m, d)).
Proof.
  intros Hok Hl. destruct (Message_Marshal_total m) as [bs Hbs].
  assert (Message_bytes m = bs) as Hb by (unfold Message_bytes; by rewrite Hbs).
  rewrite Hb in *. unfold receive, mbind, go_bind, read_message, ReadFromUDP.
  replace (Nat.min (length bs) (length (buf t))) with (length bs) by (unfold len in Hl; lia).
  rewrite take_ge by lia. exists (bs ++ drop (length bs) (buf t)). split.
  - unfold len in *. rewrite length_app, length_drop. lia.
  - by rewrite (Message_Unmarshal_Marshal _ _ _ _ Hok Hbs).
Qed.

(** Handled by the handler of its type, unless its number is that of a
    pending request. *)
Lemma handleMessage_handler {H} m addr (t : Transport H) h :
  pending t !! SequenceNumber (Header m) = None →
  handlers t !! MessageType (Header m) = Some h → handleMessage m addr t = (t, ToHandler h addr).
Proof. intros Hp Hh. unfold handleMessage, lookup_message. by rewrite Hp, Hh. Qed.

(** ** The user plane on the control plane's request *)

Lemma FindAllIEs_app t ies1 ies2 h :
  FindAllIEs (mkMessage h (ies1 ++ ies2)) t =
    FindAllIEs (mkMessage h ies1) t ++ FindAllIEs (mkMessage h ies2) t.
Proof. unfold FindAllIEs. simpl. by rewrite List.filter_app. Qed.

Lemma FindAllIEs_all {R} (f : R → IE) t rs h :
  (∀ r, Type_ (f r) = t) → FindAllIEs (mkMessage h (f <$> rs)) t = f <$> rs.
Proof.
  intros Hf. unfold FindAllIEs. cbn [IEs]. induction rs as [|r rs IH]; [done|].
  rewrite fmap_cons. cbn [List.filter]. by rewrite Hf, Z.eqb_refl, IH.
Qed.

Lemma FindAllIEs_none {R} (f : R → IE) t rs h :
  (∀ r, Type_ (f r) ≠ t) → FindAllIEs (mkMessage h (f <$> rs)) t = [].
Proof.
  intros Hf. unfold FindAllIEs. cbn [IEs]. induction rs as [|r rs IH]; [done|].
  rewrite fmap_cons. cbn [List.filter]. by rewrite (Prelude.eqb_false _ _ (Hf r)), IH.
Qed.

Lemma FindAllIEs_request n pdrs fars qers urrs :
  FindAllIEs (marshalled (establishment_request n pdrs fars qers urrs)) IETypeCreatePDR
    = pdr_ie <$> pdrs ∧
  FindAllIEs (marshalled (establishment_request n pdrs fars qers urrs)) IETypeCreateFAR
    = far_ie <$> fars.
Proof.
  unfold marshalled, establishment_request, NewSessionEstablishmentRequest. cbn [IEs Header app].
  rewrite !FindAllIEs_app. split.
  - rewrite (FindAllIEs_all pdr_ie), (FindAllIEs_none far_ie), (FindAllIEs_none qer_ie),
      (FindAllIEs_none urr_ie) by done. by rewrite !app_nil_r.
  - rewrite (FindAllIEs_none pdr_ie), (FindAllIEs_all far_ie), (FindAllIEs_none qer_ie),
      (FindAllIEs_none urr_ie) by done. by rewrite !app_nil_r.
Qed.

Lemma request_plain pdrs fars qers urrs n :
  Forall plain (IEs (establishment_request n pdrs fars qers urrs)).
Proof.
  unfold establishment_request, NewSessionEstablishmentRequest. cbn [IEs app].
  rewrite !Forall_app. split_and!; by apply Forall_plain_fmap.
Qed.

(** The rules of a session as the user plane indexes them. *)
Lemma by_id_fmap {R U} (id : R → Z) (id' : U → Z) (f : R → U) rs (m : gmap Z R) :
  (∀ r, r ∈ rs → id' (f r) = id r) →
  foldl (λ m r, <[id' (f r) := f r]> m) (f <$> m) rs =
    f <$> foldl (λ m r, <[id r := r]> m) m rs.
Proof.
  revert m. induction rs as [|r rs IH]; intros m Hid; [done|]. simpl.
  rewrite Hid, <- fmap_insert by set_solver. apply IH. set_solver.
Qed.

Lemma by_id_read {R U} (id : R → Z) (id' : U → Z) (f : R → U) rs :
  (∀ r, r ∈ rs → id' (f r) = id r) →
  foldl (λ m r, <[id' (f r) := f r]> m) ∅ rs = f <$> by_id id rs.
Proof. intros Hid. unfold by_id. by rewrite <- (by_id_fmap id id' f), fmap_empty. Qed.

Section end_to_end.
Context {D : Type} `{!Dataplane D, !DataplaneLaws D}.
Implicit Types (up : UPFunction D) (s : Session) (d : D).

(** The dataplane's calls come back. *)
Context (InstallPDR_returns : ∀ seid p d, returned (InstallPDR seid p d).2).
Context (InstallFAR_returns : ∀ seid f d, returned (InstallFAR seid f d).2).

Lemma discard_Ok_returned {A} (m : go D A) d : returned (m d).2 → discard m d = ((m d).1, Ok tt).
Proof. unfold discard. by destruct (m d) as [d' [a|e|p|]]. Qed.

Lemma create_PDRs_run seid ps s d :
  (∀ p, p ∈ ps → len (IEs_bytes (pdr_ies p)) < 65536) →
  ∃ d', for_each (pdr_ie <$> ps) (create_PDR seid) (s, d) =
    ((foldl (λ s p, put_PDR (up_PDR p) s) s ps, d'), Ok tt).
Proof.
  revert s d. induction ps as [|p ps IH]; intros s d Hl; [by exists d|].
  cbn [fmap list_fmap for_each]. unfold mbind, go_bind, create_PDR at 1. simpl.
  rewrite ParseGroupedIE_bytes
    by (apply plain_IE_ok; [apply pdr_ies_plain|apply Hl; set_solver]).
  rewrite read_pdr by (apply Hl; set_solver). rewrite discard_Ok_returned by done.
  apply IH. intros. apply Hl. set_solver.
Qed.

Lemma create_FARs_run seid fs s d :
  (∀ f, f ∈ fs → len (IEs_bytes (far_ies f)) < 65536) →
  ∃ d', for_each (far_ie <$> fs) (create_FAR seid) (s, d) =
    ((foldl (λ s f, put_FAR (up_FAR f) s) s fs, d'), Ok tt).
Proof.
  revert s d. induction fs as [|f fs IH]; intros s d Hl; [by exists d|].
  cbn [fmap list_fmap for_each]. unfold mbind, go_bind, create_FAR at 1. simpl.
  rewrite ParseGroupedIE_bytes
    by (apply plain_IE_ok; [apply far_ies_plain|apply Hl; set_solver]).
  rewrite read_far, discard_Ok_returned by done.
  apply IH. intros. apply Hl. set_solver.
Qed.

Lemma put_PDRs ps s :
  foldl (λ s p, put_PDR (up_PDR p) s) s ps =
    mkSession (LocalSEID s) (RemoteSEID s)
      (foldl (λ m p, <[PDR_ID (up_PDR p) := up_PDR p]> m) (PDRs s) ps) (FARs s) (QERs s)
      (URRs s) (CreatedAt s).
Proof. revert s. induction ps as [|p ps IH]; intros s; [by destruct s|]. simpl. by rewrite IH. Qed.

Lemma put_FARs fs s :
  foldl (λ s f, put_FAR (up_FAR f) s) s fs =
    mkSession (LocalSEID s) (RemoteSEID s) (PDRs s)
      (foldl (λ m f, <[FAR_ID (up_FAR f) := up_FAR f]> m) (FARs s) fs) (QERs s)
      (URRs s) (CreatedAt s).
Proof. revert s. induction fs as [|f fs IH]; intros s; [by destruct s|]. simpl. by rewrite IH. Qed.

(** The user plane's copy of a session of the control plane. *)
Definition up_session (now seid : Z) (pdrs : list CpTypes.PDR) (fars : list CpTypes.FAR) :
    Session :=
  mkSession seid 0 (up_PDR <$> by_id CpTypes.PDR_ID pdrs) (up_FAR <$> by_id CpTypes.FAR_ID fars)
    ∅ ∅ now.

Lemma establish_loops_request seid now n pdrs fars qers urrs d :
  len (IEs_bytes (IEs (establishment_request n pdrs fars qers urrs))) < 65536 →
  (∀ p, p ∈ pdrs → is_u16 (CpTypes.PDR_ID p)) →
  (∀ f, f ∈ fars → is_u32 (CpTypes.FAR_ID f)) →
  ∃ d', establish_loops seid (marshalled (establishment_request n pdrs fars qers urrs))
      (mkSession seid 0 ∅ ∅ ∅ ∅ now, d) = ((up_session now seid pdrs fars, d'), Ok tt).
Proof.
  intros Hl Hp Hf. unfold establish_loops.
  destruct (FindAllIEs_request n pdrs fars qers urrs) as [-> ->].
  unfold establishment_request, NewSessionEstablishmentRequest in Hl. cbn [IEs app] in Hl.
  destruct (create_PDRs_run seid pdrs (mkSession seid 0 ∅ ∅ ∅ ∅ now) d) as [d1 H1].
  { intros p Hin. eapply (grouped_IE_ok IETypeCreatePDR); [|done|apply pdr_ies_plain|exact Hl].
    rewrite !elem_of_app, !list_elem_of_fmap. left. left. left. by exists p. }
  rewrite put_PDRs in H1. cbn [LocalSEID RemoteSEID PDRs FARs QERs URRs CreatedAt] in H1.
  rewrite (by_id_read CpTypes.PDR_ID PDR_ID up_PDR) in H1
    by (intros; simpl; by apply u16_id, Hp).
  destruct (create_FARs_run seid fars (mkSession seid 0
    (up_PDR <$> by_id CpTypes.PDR_ID pdrs) ∅ ∅ ∅ now) d1) as [d2 H2].
  { intros f Hin. eapply (grouped_IE_ok IETypeCreateFAR); [|done|apply far_ies_plain|exact Hl].
    rewrite !elem_of_app, !list_elem_of_fmap. left. left. right. by exists f. }
  rewrite put_FARs in H2. cbn [LocalSEID RemoteSEID PDRs FARs QERs URRs CreatedAt] in H2.
  rewrite (by_id_read CpTypes.FAR_ID FAR_ID up_FAR) in H2
    by (intros; simpl; by apply u32_id, Hf).
  exists d2. unfold mbind, go_bind. rewrite H1. exact H2.
Qed.

(** A user plane that is up: it has a full receive buffer and its handlers,
    and no request of its own waits under the number [n]. *)
Record ready (n : Z) up : Prop := {
  rd_buf : len (buf (transport up)) = 65535;
  rd_handlers : handlers (transport up) = handlers (registerHandlers (NewTransport
    (conn (transport up))));
  rd_pending : pending (transport up) !! n = None;
}.

Lemma ready_handler n up h t :
  ready n up → handlers (registerHandlers (NewTransport (conn (transport up)))) !! t = Some h →
  handlers (transport up) !! t = Some h.
Proof. intros [_ -> _]. done. Qed.

(** The datagram of a request is handled by its handler. *)
Lemma up_receive_request now m addr up h :
  Message_ok m → len (Message_bytes m) ≤ 65535 → ready (SequenceNumber (Header m)) up →
  handlers (registerHandlers (NewTransport (conn (transport up)))) !! MessageType (Header m)
    = Some h →
  ∃ b, len b = 65535 ∧ up_receive now (Message_bytes m) addr up =
    discard (run_handler h now (marshalled m) addr)
      (set_transport (set_buf b (transport up)) up).
Proof.
  intros Hok Hl Hr Hh. destruct (receive_marshalled m addr (transport up) Hok) as (b & Hb & Hrec);
    [by rewrite (rd_buf _ _ Hr)|].
  exists b. split; [by rewrite Hb, (rd_buf _ _ Hr)|].
  rewrite (handleMessage_handler _ _ _ h) in Hrec;
    [|by apply (rd_pending _ _ Hr)|by apply (ready_handler _ _ _ _ Hr)].
  unfold up_receive, zoom, mbind, go_bind. by rewrite Hrec.
Qed.

Lemma Message_bytes_len m :
  len (Message_bytes m) = MessageHeader_Len (Header m) + len (IEs_bytes (IEs m)).
Proof.
  destruct (Message_Marshal_bytes m) as (hb & Hhb & Hm). unfold Message_bytes. rewrite Hm.
  rewrite len_app. by rewrite (MessageHeader_Marshal_length _ _ Hhb).
Qed.

(** Rules the control plane can send to one user plane in one datagram. *)
Record sendable (n : Z) (pdrs : list CpTypes.PDR) (fars : list CpTypes.FAR)
    (qers : list CpTypes.QER) (urrs : list CpTypes.URR) : Prop := {
  se_number : in_width 24 n;
  se_length : ∀ req, session_request pdrs fars qers urrs = Ok req →
    len (Message_bytes (numbered n req)) ≤ 65535;
  se_PDRs : ∀ p, p ∈ pdrs → is_u16 (CpTypes.PDR_ID p);
  se_FARs : ∀ f, f ∈ fars → is_u32 (CpTypes.FAR_ID f);
}.

Lemma sendable_length n pdrs fars qers urrs :
  sendable n pdrs fars qers urrs →
  len (Message_bytes (establishment_request n pdrs fars qers urrs)) ≤ 65535.
Proof. intros Hs. exact (se_length _ _ _ _ _ Hs _ (session_request_bytes _ _ _ _)). Qed.

Lemma sendable_ok n pdrs fars qers urrs :
  sendable n pdrs fars qers urrs → Message_ok (establishment_request n pdrs fars qers urrs).
Proof.
  intros Hs. pose proof (sendable_length _ _ _ _ _ Hs) as Hl. destruct Hs as [Hn _ _ _].
  rewrite Message_bytes_len in Hl.
  pose proof (MessageHeader_Len_bound (Header (establishment_request n pdrs fars qers urrs))).
  apply session_message_ok; [by_compute|done|by_compute|apply (request_plain pdrs fars qers urrs n)|].
  change (_ ++ _) with (IEs (establishment_request n pdrs fars qers urrs)). lia.
Qed.

(** The receive loop on a session establishment request: the handler's
    outcome. *)
Lemma establish_received now n addr up pdrs fars qers urrs :
  Z.of_nat (size (sessions up)) < 2 ^ 64 - 1 → ready n up → sendable n pdrs fars qers urrs →
  ∃ seid d b, allocSEID up = Ok seid ∧ len b = 65535 ∧
    up_receive now (Message_bytes (establishment_request n pdrs fars qers urrs)) addr up =
    discard (on_conn (SendResponse (NewSessionEstablishmentResponse n 0 CauseRequestAccepted seid)
        addr))
      (set_sessions (<[seid := up_session now seid pdrs fars]> (sessions up))
        (set_dataplane d (set_transport (set_buf b (transport up)) up))).
Proof.
  intros Hsz Hr Hs. destruct (allocSEID_total up Hsz) as (seid & Ha & _).
  destruct (up_receive_request now (establishment_request n pdrs fars qers urrs) addr up
    HSessionEstablishmentRequest) as (b & Hb & ->);
    [by apply sendable_ok|by apply sendable_length|done|done|].
  destruct (establish_loops_request seid now n pdrs fars qers urrs (dataplane up))
    as [d Hloop]; [|by apply Hs..|].
  { pose proof (sendable_length _ _ _ _ _ Hs) as Hl. rewrite Message_bytes_len in Hl.
    pose proof (MessageHeader_Len_bound (Header (establishment_request n pdrs fars qers urrs))).
    lia. }
  exists seid, d, b. split_and!; [done..|]. unfold discard. simpl.
  rewrite (establish_run _ _ _ _ seid) by done. simpl. by rewrite Hloop.
Qed.

(** Answering always comes back, and touches the connection only. *)
Lemma discard_response msg addr up :
  discard (on_conn (SendResponse msg addr)) up =
    (set_transport (set_conn (SendResponse msg addr (conn (transport up))).1 (transport up)) up,
     Ok tt).
Proof.
  unfold discard. rewrite on_conn_spec.
  pose proof (SendResponse_returns msg addr (conn (transport up))) as Hr.
  by destruct (SendResponse msg addr (conn (transport up))) as [c [[]|e|p|]].
Qed.

(** C2: the request that [CreateSession] builds from a session's rules always
    is built, and, numbered and sent as one datagram, becomes a session of the
    user plane that holds, under their ids, what the user plane keeps of each
    rule; the dataplane ends up with exactly those detection rules (and
    forwarding rules, if there is a detection rule); the other sessions are
    untouched; and the answer names the new SEID. *)
Theorem establishment_end_to_end now n addr up pdrs fars qers urrs :
  up_inv up → Z.of_nat (size (sessions up)) < 2 ^ 64 - 1 → ready n up →
  sendable n pdrs fars qers urrs →
  ∃ req up' seid, session_request pdrs fars qers urrs = Ok req ∧
    up_receive now (Message_bytes (numbered n req)) addr up = (up', Ok tt) ∧
    sessions up !! seid = None ∧
    sessions up' = <[seid := up_session now seid pdrs fars]> (sessions up) ∧
    (∀ i, installed_pdr (dataplane up') seid i = up_PDR <$> by_id CpTypes.PDR_ID pdrs !! i) ∧
    (by_id CpTypes.PDR_ID pdrs ≠ ∅ → ∀ i,
       installed_far (dataplane up') seid i = up_FAR <$> by_id CpTypes.FAR_ID fars !! i) ∧
    conn (transport up') = (SendResponse
      (NewSessionEstablishmentResponse n 0 CauseRequestAccepted seid) addr
      (conn (transport up))).1.
Proof.
  intros Hi Hsz Hr Hs.
  destruct (establish_received now n addr up pdrs fars qers urrs Hsz Hr Hs)
    as (seid & d & b & Ha & Hb & Hrec).
  rewrite discard_response in Hrec. destruct (allocSEID_total up Hsz) as (seid' & Ha' & _ & Hn & _).
  rewrite Ha in Ha'. injection Ha' as <-. eexists _, _, seid.
  split; [apply session_request_bytes|]. split; [exact Hrec|].
  assert (up_inv (set_transport _ _)) as Hi'
    by (by eapply up_receive_inv).
  destruct Hi' as [_ _ Hp Hf _]. split_and!; [done|done| | |done].
  - intros i. rewrite Hp. simpl. rewrite lookup_insert_eq. simpl. by rewrite lookup_fmap.
  - intros Hne i. simpl in Hf. specialize (Hf seid (up_session now seid pdrs fars)).
    rewrite lookup_insert_eq in Hf. simpl in *. rewrite <- lookup_fmap.
    apply (Hf eq_refl). left. simpl. by rewrite fmap_empty_iff.
Qed.

(** ** Deleting a session *)

Context (DeleteSession_returns : ∀ seid d, returned (Dataplane.DeleteSession seid d).2).

(** What was written first between two states of the connection, as its
    receiver reads it. *)
Definition answer (before after : UDPConn) : option Message :=
  match drop (length (written before)) (written after) with
  | (datagram, _) :: _ =>
    match Message_Unmarshal (gs_of datagram) Message_zero with
    | (m, Ok _) => Some m
    | _ => None
    end
  | [] => None
  end.

Lemma answer_response msg addr c :
  Message_ok msg → write_result c (writes c) = None →
  answer c (SendResponse msg addr c).1 = Some (marshalled msg).
Proof.
  intros Hok Hw. destruct (Message_Marshal_total msg) as [bs Hbs].
  unfold SendResponse, send, wrap_err. rewrite Hbs. unfold WriteToUDP. rewrite Hw.
  unfold answer. simpl. rewrite drop_app_length.
  pose proof (Message_Unmarshal_Marshal _ _ _ [] Hok Hbs) as Hu. rewrite app_nil_r in Hu.
  unfold gs_of. by rewrite Hu.
Qed.

Lemma establishment_response_ok n seid c :
  in_width 24 n → Message_ok (NewSessionEstablishmentResponse n 0 c seid).
Proof.
  intros Hn. apply session_message_ok; [by_compute|done|by_compute| |done].
  by repeat constructor.
Qed.

Lemma deletion_response_ok n c :
  in_width 24 n → Message_ok (NewSessionDeletionResponse n 0 c).
Proof.
  intros Hn. apply session_message_ok; [by_compute|done|by_compute| |done].
  by repeat constructor.
Qed.

Lemma deletion_request_ok n seid :
  in_width 24 n → is_u64 seid → Message_ok (NewSessionDeletionRequest n seid).
Proof. intros Hn Hs. by apply session_message_ok; [by_compute|..]. Qed.

(** The receive loop on a deletion request for SEID 0: no session has it. *)
Lemma deletion_received now n addr up :
  up_inv up → ready n up → in_width 24 n →
  ∃ d b, up_receive now (Message_bytes (NewSessionDeletionRequest n 0)) addr up =
    (set_transport (set_conn (SendResponse (NewSessionDeletionResponse n 0 CauseRequestAccepted)
        addr (conn (transport up))).1 (set_buf b (transport up)))
      (set_dataplane d (set_sessions (sessions up) (set_transport (set_buf b (transport up)) up))),
     Ok tt).
Proof.
  intros Hi Hr Hn.
  destruct (up_receive_request now (NewSessionDeletionRequest n 0) addr up
    HSessionDeletionRequest) as (b & Hb & ->);
    [by apply deletion_request_ok; [|by_compute]|done|done|done|].
  exists (Dataplane.DeleteSession 0 (dataplane up)).1, b.
  simpl. unfold handleSessionDeletionRequest, gmodify. unfold discard at 1.
  unfold mbind, go_bind. simpl.
  assert (sessions up !! 0 = None) as H0.
  { destruct (sessions up !! 0) as [s|] eqn:E; [|done].
    apply (inv_SEID _ Hi) in E as (_ & _ & ?). done. }
  rewrite delete_id by done. unfold zoom. simpl.
  pose proof (DeleteSession_returns 0 (dataplane up)) as Hd.
  unfold discard. simpl.
  destruct (Dataplane.DeleteSession 0 (dataplane up)) as [d' [[]|e|p|]]; simpl in *; try done.
  all: rewrite on_conn_spec; simpl;
    pose proof (SendResponse_returns (NewSessionDeletionResponse n 0 CauseRequestAccepted) addr
      (conn (transport up))) as Hs;
    by destruct (SendResponse _ addr _) as [c [[]|e2|p2|]].
Qed.

(** C11: a session is never deleted at the user plane.  The user plane answers
    an establishment with the SEID of the request, which is 0; the control
    plane records it as the remote SEID; so its deletion request names SEID 0,
    and the user plane accepts it and keeps the session. *)
Theorem deletion_keeps_session now1 now2 n1 n2 addr up pdrs fars qers urrs node :
  up_inv up → Z.of_nat (size (sessions up)) < 2 ^ 64 - 1 →
  ready n1 up → ready n2 up → in_width 24 n2 → sendable n1 pdrs fars qers urrs →
  (∀ k, write_result (conn (transport up)) k = None) →
  ∃ req up1 up2 seid resp1 resp2, session_request pdrs fars qers urrs = Ok req ∧
    up_receive now1 (Message_bytes (numbered n1 req)) addr up = (up1, Ok tt) ∧
    answer (conn (transport up)) (conn (transport up1)) = Some resp1 ∧ accepted resp1 ∧
    sessions up1 !! seid = Some (up_session now1 seid pdrs fars) ∧
    let session := new_session now1 1 node pdrs fars qers urrs resp1 in
    up_receive now2 (Message_bytes
      (numbered n2 (NewSessionDeletionRequest 0 (CpTypes.RemoteSEID session)))) addr up1
      = (up2, Ok tt) ∧
    answer (conn (transport up1)) (conn (transport up2)) = Some resp2 ∧ accepted resp2 ∧
    sessions up2 = sessions up1.
Proof.
  intros Hi Hsz Hr1 Hr2 Hn2 Hs Hw.
  destruct (establish_received now1 n1 addr up pdrs fars qers urrs Hsz Hr1 Hs)
    as (seid & d & b & _ & Hb & Hrec).
  rewrite discard_response in Hrec.
  set (resp := NewSessionEstablishmentResponse n1 0 CauseRequestAccepted seid) in *.
  match type of Hrec with _ = (?u, _) => set (up1 := u) in * end.
  assert (up_inv up1) as Hi1 by (by eapply up_receive_inv).
  assert (ready n2 up1) as Hr by (destruct Hr2; constructor; done).
  destruct (deletion_received now2 n2 addr up1 Hi1 Hr Hn2) as (d2 & b2 & Hrec2).
  eexists _, up1, _, seid, (marshalled resp),
    (marshalled (NewSessionDeletionResponse n2 0 CauseRequestAccepted)).
  split; [apply session_request_bytes|]. split; [exact Hrec|]. split.
  { apply answer_response; [apply establishment_response_ok, Hs|apply Hw]. }
  split; [done|]. split; [simpl; apply lookup_insert_eq|].
  cbv zeta. split; [exact Hrec2|]. split; [|done].
  apply answer_response; [by apply deletion_response_ok|]. simpl.
  unfold SendResponse. destruct (send_marshalled addr resp (conn (transport up))) as (c & r & Hc & _).
  rewrite Hc. simpl. unfold send in Hc. destruct (wrap_err _ _ _) as [m [bs|e|p|]]; simplify_eq/=;
    try apply Hw.
  unfold WriteToUDP in Hc. rewrite Hw in Hc. injection Hc as _ <- _. apply Hw.
Qed.

End end_to_end.
(** ** Witnesses *)

Lemma mock_install_PDR_returns seid p (d : MockDataplane) : returned (InstallPDR seid p d).2.
Proof. done. Qed.
Lemma mock_install_FAR_returns seid f (d : MockDataplane) : returned (InstallFAR seid f d).2.
Proof. done. Qed.
Lemma mock_delete_returns seid (d : MockDataplane) :
  returned (Dataplane.DeleteSession seid d).2.
Proof. done. Qed.

Lemma demo_up0_ready n : ready n demo_up0.
Proof. constructor; [by vm_compute|done|done]. Qed.

Lemma demo_sendable :
  sendable 9 (a_pdrs demo_args) (a_fars demo_args) (a_qers demo_args) (a_urrs demo_args).
Proof.
  constructor; [by_compute|..].
  - intros req Hreq. rewrite (session_request_numbered _ _ _ _ _ _ Hreq). by vm_compute.
  - intros p. unfold demo_args, a_pdrs. rewrite list_elem_of_singleton. intros ->. by_compute.
  - intros f. unfold demo_args, a_fars. rewrite list_elem_of_singleton. intros ->. by_compute.
Qed.

Lemma establishment_end_to_end_witness :
  ∃ req up' seid, session_request (a_pdrs demo_args) (a_fars demo_args) (a_qers demo_args)
      (a_urrs demo_args) = Ok req ∧
    up_receive 5 (Message_bytes (numbered 9 req)) demo_addr demo_up0 = (up', Ok tt) ∧
    sessions demo_up0 !! seid = None ∧
    sessions up' = <[seid := up_session 5 seid (a_pdrs demo_args) (a_fars demo_args)]>
      (sessions demo_up0) ∧
    (∀ i, installed_pdr (dataplane up') seid i =
       up_PDR <$> by_id CpTypes.PDR_ID (a_pdrs demo_args) !! i) ∧
    (by_id CpTypes.PDR_ID (a_pdrs demo_args) ≠ ∅ → ∀ i,
       installed_far (dataplane up') seid i =
         up_FAR <$> by_id CpTypes.FAR_ID (a_fars demo_args) !! i) ∧
    conn (transport up') = (SendResponse
      (NewSessionEstablishmentResponse 9 0 CauseRequestAccepted seid) demo_addr
      (conn (transport demo_up0))).1.
Proof.
  apply establishment_end_to_end.
  - apply mock_install_PDR_returns.
  - apply mock_install_FAR_returns.
  - apply up_initial_inv, demo_up0_initial.
  - done.
  - apply demo_up0_ready.
  - apply demo_sendable.
Defined.

Lemma deletion_keeps_session_witness :
  ∃ (up2 : UPFunction MockDataplane) seid, sessions up2 !! seid =
    Some (up_session 5 seid (a_pdrs demo_args) (a_fars demo_args)).
Proof.
  destruct (deletion_keeps_session mock_install_PDR_returns mock_install_FAR_returns
    mock_delete_returns 5 6 9 10 demo_addr demo_up0 (a_pdrs demo_args) (a_fars demo_args)
    (a_qers demo_args) (a_urrs demo_args) "up1") as
    (req & up1 & up2 & seid & resp1 & resp2 & _ & _ & _ & _ & Hs & _ & _ & _ & H2).
  - apply up_initial_inv, demo_up0_initial.
  - done.
  - apply demo_up0_ready.
  - apply demo_up0_ready.
  - by_compute.
  - apply demo_sendable.
  - done.
  - exists up2, seid. by rewrite H2.
Defined.

(** ** A control plane crash *)

(** An association setup request whose node id element is empty. *)
Definition empty_node_id (n : Z) : Message :=
  mkMessage (node_header MsgTypeAssociationSetupRequest n)
    [mkIE IETypeNodeID 0 []; NewRecoveryTimeStampIE 0].

Lemma empty_node_id_ok n : in_width 24 n → Message_ok (empty_node_id n).
Proof.
  intros Hn. constructor; simpl; try done. constructor; simpl; done || by_compute.
Qed.

(** C28: one datagram of twenty bytes, an association setup request with an
    empty node id element, panics the control plane's receive loop, whatever
    its state, as long as no request of its own waits under the datagram's
    sequence number. *)
Theorem empty_node_id_panics {N} `{!NorthboundStore N} now n addr (cp : CPFunction N) :
  in_width 24 n → len (buf (Cp.transport cp)) = 65535 →
  handlers (Cp.transport cp) !! MsgTypeAssociationSetupRequest
    = Some HAssociationSetupRequest →
  pending (Cp.transport cp) !! n = None →
  len (Message_bytes (empty_node_id n)) = 20 ∧
  (cp_receive now (Message_bytes (empty_node_id n)) addr cp).2 = Panic SliceBoundsOutOfRange.
Proof.
  intros Hn Hb Hh Hp. split; [by rewrite Message_bytes_len|].
  destruct (receive_marshalled (empty_node_id n) addr (Cp.transport cp) (empty_node_id_ok n Hn))
    as (b & Hb' & Hrec); [by rewrite Message_bytes_len, Hb|].
  rewrite (handleMessage_handler _ _ _ HAssociationSetupRequest) in Hrec by done.
  unfold cp_receive, zoom. unfold mbind, go_bind. by rewrite Hrec.
Qed.

Lemma empty_node_id_panics_witness :
  len (Message_bytes (empty_node_id 1)) = 20 ∧
  (cp_receive 5 (Message_bytes (empty_node_id 1)) demo_addr demo_cp0).2
    = Panic SliceBoundsOutOfRange.
Proof. apply empty_node_id_panics; [by_compute|by vm_compute|done|done]. Defined.
