(* ===== verification/Sdf.v ===== *)
(** * The SDF filter parser

    [pkg/dataplane/vpp/sdf_parser.go], over byte lists: an SDF Filter
    element's value, the flow description inside it, and its ports; with the
    functions of [strings] and [strconv] that the parser uses. *)
From S2P Require Import Prelude Bytes Ie.

(** ** [strings] and [strconv] *)

(** The number of bytes of the white space character (of [unicode.IsSpace],
    in UTF-8) that the text starts with, 0 if it starts with none.  The first
    byte of such a character is never a continuation byte, so looking at
    every byte finds those that decoding the text would find. *)
Definition space_at (bs : list byte) : nat :=
  match Z_of_byte <$> take 3 bs with
  | b0 :: rest =>
    if decide (b0 ∈ [9; 10; 11; 12; 13; 32]) then 1%nat
    else match rest with
    | b1 :: rest =>
      if decide (b0 = 0xc2 ∧ (b1 = 0x85 ∨ b1 = 0xa0)) then 2%nat
      else match rest with
      | b2 :: _ =>
        if decide ((b0 = 0xe1 ∧ b1 = 0x9a ∧ b2 = 0x80) ∨
                   (b0 = 0xe2 ∧ b1 = 0x80 ∧
                     (0x80 ≤ b2 ≤ 0x8a ∨ b2 = 0xa8 ∨ b2 = 0xa9 ∨ b2 = 0xaf)) ∨
                   (b0 = 0xe2 ∧ b1 = 0x81 ∧ b2 = 0x9f) ∨
                   (b0 = 0xe3 ∧ b1 = 0x80 ∧ b2 = 0x80)) then 3%nat
        else 0%nat
      | [] => 0%nat
      end
    | [] => 0%nat
    end
  | [] => 0%nat
  end.

(** A field that has ended, unless it is empty. *)
Definition flush (cur : list byte) : list (list byte) :=
  match cur with [] => [] | _ => [cur] end.

(** [strings.Fields]: [skip] bytes of a white space character are left to
    pass over, [cur] is the field read so far. *)
Fixpoint fields_loop (skip : nat) (cur bs : list byte) : list (list byte) :=
  match bs with
  | [] => flush cur
  | b :: bs' =>
    match skip with
    | S skip => fields_loop skip cur bs'
    | O =>
      match space_at bs with
      | O => fields_loop 0 (cur ++ [b]) bs'
      | S n => flush cur ++ fields_loop n [] bs'
      end
    end
  end.

Definition Fields (bs : list byte) : list (list byte) := fields_loop 0 [] bs.

(** [strings.ToLower], for comparison with a word in ASCII: the ASCII letters
    and the two other characters whose lower case is an ASCII letter (U+0130
    and U+212A).  Every other character keeps bytes outside ASCII, in the
    code's result too. *)
Definition lower_byte (b : byte) : byte :=
  if decide (65 ≤ Z_of_byte b ≤ 90) then byte_of_Z (Z_of_byte b + 32) else b.

Fixpoint ToLower (bs : list byte) : list byte :=
  match bs with
  | xc4 :: xb0 :: bs' => byte_of_Z 0x69 :: ToLower bs'
  | xe2 :: x84 :: xaa :: bs' => byte_of_Z 0x6b :: ToLower bs'
  | b :: bs' => lower_byte b :: ToLower bs'
  | [] => []
  end.

(** [strings.Contains(s, c)] for a one-byte [c]. *)
Definition Contains (bs : list byte) (c : byte) : bool := bool_decide (c ∈ bs).

(** [strings.Split(s, c)] for a one-byte [c]. *)
Fixpoint Split (bs : list byte) (c : byte) : list (list byte) :=
  match bs with
  | [] => [[]]
  | b :: bs' =>
    if decide (b = c) then [] :: Split bs' c
    else match Split bs' c with
         | part :: parts => (b :: part) :: parts
         | [] => [[b]]
         end
  end.

(** [strconv.ParseUint(s, 10, bitSize)], [None] for an error: the digits are
    read from the left, and a value past the bit size is an error at once. *)
Fixpoint parse_digits (bitSize n : Z) (bs : list byte) : option Z :=
  match bs with
  | [] => Some n
  | b :: bs' =>
    let d := Z_of_byte b in
    if decide (48 ≤ d ≤ 57) then
      let n1 := n * 10 + (d - 48) in
      if n1 <? 2 ^ bitSize then parse_digits bitSize n1 bs' else None
    else None
  end.

Definition ParseUint (bs : list byte) (bitSize : Z) : option Z :=
  match bs with [] => None | _ => parse_digits bitSize 0 bs end.

(** ** Filters *)

Record SDFFilter := mkSDFFilter {
  FlowDescription : string;
  Action : string;
  Direction : string;
  Protocol : Z;
  SrcAddr : string;
  DstAddr : string;
  PortStart : Z;
  PortEnd : Z;
  AddressFamily : Z;
  ToS : Z;
  SPI : Z;
  FlowLabel : Z;
  FilterID : Z;
}.

#[export] Instance SDFFilter_eq_dec : EqDecision SDFFilter.
Proof. solve_decision. Defined.

Definition SDFFilter_zero : SDFFilter :=
  mkSDFFilter EmptyString EmptyString EmptyString 0 EmptyString EmptyString 0 0 0 0 0 0 0.

Definition set_ports (start end_ : Z) (f : SDFFilter) : SDFFilter :=
  mkSDFFilter (FlowDescription f) (Action f) (Direction f) (Protocol f) (SrcAddr f) (DstAddr f)
    start end_ (AddressFamily f) (ToS f) (SPI f) (FlowLabel f) (FilterID f).
Definition set_ToS (v : Z) (f : SDFFilter) : SDFFilter :=
  mkSDFFilter (FlowDescription f) (Action f) (Direction f) (Protocol f) (SrcAddr f) (DstAddr f)
    (PortStart f) (PortEnd f) (AddressFamily f) v (SPI f) (FlowLabel f) (FilterID f).
Definition set_SPI (v : Z) (f : SDFFilter) : SDFFilter :=
  mkSDFFilter (FlowDescription f) (Action f) (Direction f) (Protocol f) (SrcAddr f) (DstAddr f)
    (PortStart f) (PortEnd f) (AddressFamily f) (ToS f) v (FlowLabel f) (FilterID f).
Definition set_FlowLabel (v : Z) (f : SDFFilter) : SDFFilter :=
  mkSDFFilter (FlowDescription f) (Action f) (Direction f) (Protocol f) (SrcAddr f) (DstAddr f)
    (PortStart f) (PortEnd f) (AddressFamily f) (ToS f) (SPI f) v (FilterID f).
Definition set_FilterID (v : Z) (f : SDFFilter) : SDFFilter :=
  mkSDFFilter (FlowDescription f) (Action f) (Direction f) (Protocol f) (SrcAddr f) (DstAddr f)
    (PortStart f) (PortEnd f) (AddressFamily f) (ToS f) (SPI f) (FlowLabel f) v.

Definition parsePortRange (portRange : list byte) (sdf : SDFFilter) : res SDFFilter :=
  if Contains portRange x2d then
    let ports := Split portRange x2d in
    if negb (len ports =? 2)
    then Err (Errorf "invalid port range: %s" [AStr (string_of_bytes portRange)])
    else
      p0 ← go_index ports 0;
      match ParseUint p0 16 with
      | None => Err (Errorf "invalid start port: %s" [AStr (string_of_bytes p0)])
      | Some start =>
        p1 ← go_index ports 1;
        match ParseUint p1 16 with
        | None => Err (Errorf "invalid end port: %s" [AStr (string_of_bytes p1)])
        | Some end_ => Ok (set_ports (u16 start) (u16 end_) sdf)
        end
      end
  else
    match ParseUint portRange 16 with
    | None => Err (Errorf "invalid port: %s" [AStr (string_of_bytes portRange)])
    | Some port => Ok (set_ports (u16 port) (u16 port) sdf)
    end.

(** The switch on the protocol's name. *)
Definition parse_protocol (protoStr : list byte) : res Z :=
  let l := ToLower protoStr in
  if decide (l = bytes_of_string "tcp") then Ok 6
  else if decide (l = bytes_of_string "udp") then Ok 17
  else if decide (l = bytes_of_string "icmp") then Ok 1
  else if decide (l = bytes_of_string "icmpv6") then Ok 58
  else if decide (l = bytes_of_string "ip") then Ok 0
  else match ParseUint protoStr 8 with
       | None => Err (Errorf "invalid protocol: %s" [AStr (string_of_bytes protoStr)])
       | Some proto => Ok (u8 proto)
       end.

Definition parseFlowDescription (flowDesc : list byte) : res SDFFilter :=
  let parts := Fields flowDesc in
  if len parts <? 7
  then Err (Errorf "invalid flow description: %s" [AStr (string_of_bytes flowDesc)])
  else
    action ← go_index parts 0;
    direction ← go_index parts 1;
    protoStr ← go_index parts 2;
    proto ← parse_protocol protoStr;
    from ← go_index parts 3;
    if negb (bool_decide (from = bytes_of_string "from"))
    then Err (Errorf "expected 'from', got: %s" [AStr (string_of_bytes from)])
    else
      src ← go_index parts 4;
      to ← go_index parts 5;
      if negb (bool_decide (to = bytes_of_string "to"))
      then Err (Errorf "expected 'to', got: %s" [AStr (string_of_bytes to)])
      else
        dst ← go_index parts 6;
        let family := if Contains src x3a || Contains dst x3a then 1 else 0 in
        let sdf := mkSDFFilter (string_of_bytes flowDesc) (string_of_bytes action)
          (string_of_bytes direction) proto (string_of_bytes src) (string_of_bytes dst)
          0 0 family 0 0 0 0 in
        if 7 <? len parts then ports ← go_index parts 7; parsePortRange ports sdf else Ok sdf.

(** [if len(v) < offset+n { return error }; v[offset : offset+n]]. *)
Definition read_at (v : list byte) (offset n : Z) (missing : string) : res (list byte) :=
  if len v <? offset + n then Err (Errorf missing []) else go_slice v offset (offset + n).

(** [if flag != 0 { ... }]: an optional part of [n] bytes, stored by [set]. *)
Definition optional_part (flag : Z) (v : list byte) (n : Z) (missing : string)
    (set : list byte → SDFFilter → SDFFilter) (st : SDFFilter * Z) : res (SDFFilter * Z) :=
  let '(sdf, offset) := st in
  if flag =? 0 then Ok (sdf, offset)
  else bs ← read_at v offset n missing; Ok (set bs sdf, offset + n).

Definition parseSDFFilter (v : list byte) : res SDFFilter :=
  if len v <? 2 then Err (Errorf "SDF filter too short: %d bytes" [AInt (len v)])
  else
    flagsByte ← go_index v 0;
    let flags := Z_of_byte flagsByte in
    let fdFlag := Z.land flags 0x01 in
    let ttcFlag := Z.land flags 0x02 in
    let spiFlag := Z.land flags 0x04 in
    let flFlag := Z.land flags 0x08 in
    let bidFlag := Z.land flags 0x10 in
    let offset := 2 in
    st ←
      (if fdFlag =? 0 then Ok (SDFFilter_zero, offset)
       else
         fdLenBytes ← read_at v offset 2 "SDF filter missing Flow Description length";
         let fdLen := be_get fdLenBytes in
         let offset := offset + 2 in
         flowDesc ← read_at v offset fdLen "SDF filter Flow Description truncated";
         sdf ← parseFlowDescription flowDesc;
         Ok (sdf, offset + fdLen));
    st ← optional_part ttcFlag v 2 "SDF filter missing ToS/Traffic Class"
           (λ bs, set_ToS (be_get bs)) st;
    st ← optional_part spiFlag v 4 "SDF filter missing SPI" (λ bs, set_SPI (be_get bs)) st;
    st ← optional_part flFlag v 3 "SDF filter missing Flow Label"
           (λ bs, set_FlowLabel (Z.land (be_get bs) 0x000FFFFF)) st;
    st ← optional_part bidFlag v 4 "SDF filter missing Filter ID"
           (λ bs, set_FilterID (be_get bs)) st;
    Ok st.1.

(** ** Lemmas *)

Lemma read_at_returned v offset n missing :
  0 ≤ offset → 0 ≤ n → returned (read_at v offset n missing).
Proof.
  intros Ho Hn. unfold read_at. destruct (Z.ltb_spec (len v) (offset + n)); [done|].
  by rewrite go_slice_Ok by lia.
Qed.

Lemma returned_bind {A B} (r : res A) (f : A → res B) :
  returned r → (∀ a, r = Ok a → returned (f a)) → returned (r ≫= f).
Proof. destruct r; simpl; auto. Qed.

(** An element that is there, read with its index checked. *)
Lemma index_returned {A B} (l : list A) i (f : A → res B) :
  0 ≤ i < len l → (∀ x, go_index l i = Ok x → returned (f x)) →
  returned (x ← go_index l i; f x).
Proof. intros Hi Hf. apply returned_bind; [by apply go_index_returned|done]. Qed.

Lemma parsePortRange_returned p f : returned (parsePortRange p f).
Proof.
  unfold parsePortRange. destruct (Contains p x2d); [|by destruct (ParseUint p 16)].
  destruct (Z.eqb_spec (len (Split p x2d)) 2); [|done]. simpl.
  apply index_returned; [lia|]. intros p0 _. destruct (ParseUint p0 16); [|done].
  apply index_returned; [lia|]. intros p1 _. by destruct (ParseUint p1 16).
Qed.

Lemma parse_protocol_returned p : returned (parse_protocol p).
Proof. unfold parse_protocol. repeat case_decide; try done. by destruct (ParseUint _ _). Qed.

Lemma parseFlowDescription_returned fd : returned (parseFlowDescription fd).
Proof.
  unfold parseFlowDescription. destruct (Z.ltb_spec (len (Fields fd)) 7); [done|].
  do 3 (apply index_returned; [lia|]; intros ? _).
  apply returned_bind; [apply parse_protocol_returned|]. intros proto _.
  apply index_returned; [lia|]; intros ? _. case_match; [done|].
  do 2 (apply index_returned; [lia|]; intros ? _). case_match; [done|].
  apply index_returned; [lia|]; intros ? _.
  destruct (Z.ltb_spec 7 (len (Fields fd))); [|done].
  apply index_returned; [lia|]; intros ? _. apply parsePortRange_returned.
Qed.

(** A step of the parser: what it keeps of the offset. *)
Definition offset_ok (r : res (SDFFilter * Z)) : Prop :=
  returned r ∧ ∀ st, r = Ok st → 0 ≤ st.2.

Lemma optional_part_ok flag v n missing set st :
  0 ≤ n → 0 ≤ st.2 → offset_ok (optional_part flag v n missing set st).
Proof.
  destruct st as [sdf offset]. simpl. intros Hn Ho. unfold optional_part.
  destruct (flag =? 0); [split; [done|by intros st [= <-]]|].
  pose proof (read_at_returned v offset n missing Ho Hn) as Hr.
  destruct (read_at v offset n missing) as [bs|e|p|]; try done; (split; [done|]); try done.
  intros st [= <-]. simpl. lia.
Qed.

Lemma offset_ok_bind {B} (r : res (SDFFilter * Z)) (f : SDFFilter * Z → res B) :
  offset_ok r → (∀ st, 0 ≤ st.2 → returned (f st)) → returned (r ≫= f).
Proof. intros [Hr Ho] Hf. apply returned_bind; auto. Qed.

Lemma parseSDFFilter_no_panic v : returned (parseSDFFilter v).
Proof.
  unfold parseSDFFilter. destruct (Z.ltb_spec (len v) 2); [done|].
  apply index_returned; [lia|]; intros flags _. apply offset_ok_bind.
  - destruct (_ =? 0); [split; [done|by intros st [= <-]]|].
    pose proof (read_at_returned v 2 2 "SDF filter missing Flow Description length"
      ltac:(lia) ltac:(lia)) as Hr.
    destruct (read_at v 2 2 _) as [bs|e|p|]; try done. cbn [mbind res_bind].
    pose proof (be_get_range bs) as [Hb _].
    pose proof (read_at_returned v (2 + 2) (be_get bs)
      "SDF filter Flow Description truncated" ltac:(lia) Hb) as Hr2.
    destruct (read_at v (2 + 2) _ _) as [fd|e|p|]; try done. cbn [mbind res_bind].
    pose proof (parseFlowDescription_returned fd) as Hr3.
    destruct (parseFlowDescription fd); try done. split; [done|].
    intros st [= <-]. simpl. lia.
  - intros st Hst. do 4 (apply offset_ok_bind;
      [apply optional_part_ok; [lia|assumption]|clear dependent st; intros st Hst]). done.
Qed.

(** The element the control plane builds for a filter is read back as the
    filter's own text. *)
Lemma parseSDFFilter_New fd :
  len (bytes_of_string fd) < 65536 →
  parseSDFFilter (Value (NewSDFFilterIE fd)) = parseFlowDescription (bytes_of_string fd).
Proof.
  intros Hl. rewrite NewSDFFilterIE_value. set (bs := bytes_of_string fd) in *. cbn [Value].
  pose proof (len_nonneg bs).
  assert (∀ m, read_at (byte_of_Z 1 :: x00 :: PutUint16 (len bs) ++ bs) 2 2 m
    = Ok (PutUint16 (len bs))) as H1.
  { intros m. unfold read_at. rewrite ltb_false.
    - by apply (go_slice_app [byte_of_Z 1; x00] (PutUint16 (len bs)) bs).
    - unfold len. simpl. lia. }
  assert (∀ m, read_at (byte_of_Z 1 :: x00 :: PutUint16 (len bs) ++ bs) (2 + 2) (len bs) m
    = Ok bs) as H2.
  { intros m. unfold read_at. rewrite ltb_false by (unfold len; simpl; lia).
    rewrite <- (app_nil_r bs) at 2.
    by apply (go_slice_app ([byte_of_Z 1; x00] ++ PutUint16 (len bs)) bs []). }
  unfold parseSDFFilter. rewrite ltb_false by (unfold len; simpl; lia).
  change (go_index (byte_of_Z 1 :: _) 0) with (Ok (byte_of_Z 1)). cbn [mbind res_bind].
  change (Z_of_byte (byte_of_Z 1)) with 1.
  cbn [Z.land Pos.land Z.of_N Z.eqb Pos.eqb]. rewrite H1. cbn [mbind res_bind].
  rewrite Uint16_Put, u16_id by (widths; lia). rewrite H2. cbn [mbind res_bind].
  by destruct (parseFlowDescription bs).
Qed.

(** ** Printing a flow description *)

Definition printable (b : byte) : Prop := 33 ≤ Z_of_byte b ≤ 126.
#[export] Instance printable_dec b : Decision (printable b).
Proof. unfold printable. apply _. Defined.

Definition token (t : list byte) : Prop := t ≠ [] ∧ Forall printable t.

#[export] Instance token_dec t : Decision (token t).
Proof. unfold token. apply _. Defined.

(** Decimal digits, most significant first. *)
Fixpoint digits (fuel : nat) (n : Z) : list byte :=
  match fuel with
  | O => []
  | S fuel =>
    if n <? 10 then [byte_of_Z (48 + n)] else digits fuel (n / 10) ++ [byte_of_Z (48 + n mod 10)]
  end.
Definition decimal (n : Z) : list byte := digits 20 n.

Fixpoint join (toks : list (list byte)) : list byte :=
  match toks with
  | [] => []
  | [t] => t
  | t :: toks => t ++ x20 :: join toks
  end.

(** A flow description with a numeric protocol and an optional port range. *)
Record flow := mkFlow {
  fl_action : list byte;
  fl_direction : list byte;
  fl_protocol : Z;
  fl_src : list byte;
  fl_dst : list byte;
  fl_ports : option (Z * Z);
}.

Definition flow_text (f : flow) : list byte :=
  join ([fl_action f; fl_direction f; decimal (fl_protocol f); bytes_of_string "from"; fl_src f;
         bytes_of_string "to"; fl_dst f] ++
        match fl_ports f with
        | Some (s, e) => [decimal s ++ x2d :: decimal e]
        | None => []
        end).

Definition flow_filter (f : flow) : SDFFilter :=
  let '(s, e) := default (0, 0) (fl_ports f) in
  mkSDFFilter (string_of_bytes (flow_text f)) (string_of_bytes (fl_action f))
    (string_of_bytes (fl_direction f)) (fl_protocol f) (string_of_bytes (fl_src f))
    (string_of_bytes (fl_dst f)) s e
    (if Contains (fl_src f) x3a || Contains (fl_dst f) x3a then 1 else 0) 0 0 0 0.

Record flow_ok (f : flow) : Prop := {
  fo_action : token (fl_action f);
  fo_direction : token (fl_direction f);
  fo_protocol : is_u8 (fl_protocol f);
  fo_src : token (fl_src f);
  fo_dst : token (fl_dst f);
  fo_ports : ∀ s e, fl_ports f = Some (s, e) → is_u16 s ∧ is_u16 e;
}.

Lemma space_at_printable b bs : printable b → space_at (b :: bs) = 0%nat.
Proof.
  unfold printable. intros Hb. unfold space_at. cbn [take fmap list_fmap].
  rewrite decide_False.
  2: { rewrite !elem_of_cons, elem_of_nil. lia. }
  destruct (Z_of_byte <$> take 2 bs) as [|b1 [|b2 ?]]; [done|by rewrite decide_False by lia|].
  by rewrite !decide_False by lia.
Qed.

Lemma fields_token tok cur rest :
  Forall printable tok → fields_loop 0 cur (tok ++ rest) = fields_loop 0 (cur ++ tok) rest.
Proof.
  intros Ht. revert cur. induction Ht as [|b tok Hb Ht IH]; intros cur.
  - by rewrite app_nil_r.
  - cbn [app fields_loop]. rewrite space_at_printable by done. rewrite IH.
    by rewrite <- app_assoc.
Qed.

Lemma Fields_join toks : Forall token toks → Fields (join toks) = toks.
Proof.
  induction 1 as [|t toks [Hne Ht] Hts IH]; [done|]. unfold Fields in *.
  assert (flush t = [t]) as Hf by by destruct t.
  destruct toks as [|t2 toks].
  - cbn [join]. rewrite <- (app_nil_r t) at 1. rewrite fields_token by done. done.
  - cbn [join]. cbn [join] in IH. rewrite fields_token by done. cbn [app fields_loop].
    change (space_at (x20 :: _)) with 1%nat. cbn [app]. rewrite Hf. cbn [app].
    f_equal. exact IH.
Qed.

Lemma digit_range n : 0 ≤ n < 10 → Z_of_byte (byte_of_Z (48 + n)) = 48 + n.
Proof. intros. rewrite Z_of_byte_of_Z. apply u8_id. widths. lia. Qed.

Definition is_digit (b : byte) : Prop := 48 ≤ Z_of_byte b ≤ 57.

Lemma digits_spec fuel n :
  0 ≤ n < 10 ^ Z.of_nat fuel → (fuel ≠ 0)%nat → digits fuel n ≠ [] ∧ Forall is_digit (digits fuel n).
Proof.
  revert n. induction fuel as [|fuel IH]; intros n Hn Hf; [done|]. cbn [digits].
  destruct (Z.ltb_spec n 10).
  - split; [done|]. constructor; [|done]. unfold is_digit. rewrite digit_range; lia.
  - assert (fuel ≠ 0%nat) as Hf' by (intros ->; simpl in Hn; lia).
    destruct (IH (n / 10)) as [Hne Hd]; [|done|].
    { rewrite Nat2Z.inj_succ, Z.pow_succ_r in Hn by lia.
      split; [apply Z.div_pos; lia|apply Z.div_lt_upper_bound; lia]. }
    split; [by destruct (digits fuel _)|]. apply Forall_app. split; [done|].
    constructor; [|done]. unfold is_digit.
    pose proof (Z.mod_pos_bound n 10 ltac:(lia)). rewrite digit_range; lia.
Qed.

Lemma parse_digits_digits bits fuel n rest :
  0 ≤ n < 2 ^ bits → n < 10 ^ Z.of_nat fuel → (fuel ≠ 0)%nat →
  parse_digits bits 0 (digits fuel n ++ rest) = parse_digits bits n rest.
Proof.
  assert (∀ m d rest, 0 ≤ d < 10 → m * 10 + d < 2 ^ bits →
    parse_digits bits m (byte_of_Z (48 + d) :: rest) = parse_digits bits (m * 10 + d) rest)
    as Hstep.
  { intros m d r Hd Hm. cbn [parse_digits]. rewrite digit_range by lia.
    rewrite decide_True by lia. replace (m * 10 + (48 + d - 48)) with (m * 10 + d) by lia.
    by rewrite ltb_true by lia. }
  revert n rest. induction fuel as [|fuel IH]; intros n rest Hn Hb Hf; [done|]. cbn [digits].
  destruct (Z.ltb_spec n 10).
  - cbn [app]. rewrite Hstep by lia. done.
  - assert (fuel ≠ 0%nat) as Hf' by (intros ->; simpl in Hb; lia).
    rewrite Nat2Z.inj_succ, Z.pow_succ_r in Hb by lia.
    pose proof (Z.div_mod n 10 ltac:(lia)). pose proof (Z.mod_pos_bound n 10 ltac:(lia)).
    rewrite <- app_assoc, IH; [|lia..|done]. cbn [app]. rewrite Hstep by lia. f_equal. lia.
Qed.

Lemma ParseUint_decimal bits n :
  0 ≤ n < 2 ^ bits → n < 10 ^ 20 → ParseUint (decimal n) bits = Some n.
Proof.
  intros Hn Hb. destruct (digits_spec 20 n) as [Hne _]; [lia|done|]. unfold decimal, ParseUint.
  destruct (digits 20 n) as [|b bs] eqn:E; [done|]. rewrite <- E.
  rewrite <- (app_nil_r (digits 20 n)). by rewrite parse_digits_digits by (done || lia).
Qed.

Lemma decimal_token n : 0 ≤ n < 10 ^ 20 → token (decimal n).
Proof.
  intros Hn. destruct (digits_spec 20 n) as [Hne Hd]; [lia|done|]. split; [done|].
  eapply List.Forall_impl; [|exact Hd]. unfold is_digit, printable. intros. simpl in *. lia.
Qed.

Lemma ToLower_digit b bs : is_digit b → ToLower (b :: bs) = b :: ToLower bs.
Proof.
  unfold is_digit. intros Hb.
  assert (lower_byte b = b) as Hl by (unfold lower_byte; by rewrite decide_False by lia).
  rewrite <- Hl at 2. clear Hl.
  destruct b; try done; exfalso; revert Hb; vm_compute; intros [_ Hb]; by apply Hb.
Qed.

(** A text that starts with a digit is not the name of a protocol. *)
Lemma parse_protocol_decimal n : is_u8 n → parse_protocol (decimal n) = Ok n.
Proof.
  widths. intros Hn. destruct (digits_spec 20 n) as [Hne Hd]; [lia|done|].
  unfold parse_protocol, decimal in *.
  destruct (digits 20 n) as [|b bs] eqn:E; [done|]. apply Forall_cons_1 in Hd as [Hb _].
  rewrite ToLower_digit by done.
  assert (∀ c l, 97 ≤ Z_of_byte c → b :: ToLower bs ≠ c :: l) as Hneq.
  { intros c l Hc [= -> _]. unfold is_digit in Hb. lia. }
  do 5 (rewrite decide_False by (by apply Hneq)).
  rewrite <- E. change (digits 20 n) with (decimal n).
  rewrite ParseUint_decimal by lia. rewrite u8_id by (widths; lia). done.
Qed.

Lemma Split_digits ds c rest :
  Forall (λ b, b ≠ c) ds → Split (ds ++ c :: rest) c = ds :: Split rest c.
Proof.
  induction 1 as [|b ds Hb Hd IH]; cbn [app Split]; [by rewrite decide_True|].
  by rewrite decide_False, IH by done.
Qed.

Lemma Split_none ds c : Forall (λ b, b ≠ c) ds → Split ds c = [ds].
Proof.
  induction 1 as [|b ds Hb Hd IH]; cbn [Split]; [done|]. by rewrite decide_False, IH by done.
Qed.

Lemma decimal_no_dash n : 0 ≤ n < 10 ^ 20 → Forall (λ b, b ≠ x2d) (decimal n).
Proof.
  intros Hn. destruct (digits_spec 20 n) as [_ Hd]; [lia|done|].
  eapply List.Forall_impl; [|exact Hd]. unfold is_digit. intros b Hb ->.
  revert Hb. vm_compute. intros [Hb _]. by apply Hb.
Qed.

Lemma parsePortRange_decimal s e f :
  is_u16 s → is_u16 e → parsePortRange (decimal s ++ x2d :: decimal e) f = Ok (set_ports s e f).
Proof.
  widths. intros Hs He. unfold parsePortRange, Contains. rewrite bool_decide_true by set_solver.
  rewrite Split_digits, Split_none by (apply decimal_no_dash; lia).
  change (len [decimal s; decimal e] =? 2) with true.
  cbn [negb]. index_known. rewrite ParseUint_decimal by lia.
  index_known. rewrite ParseUint_decimal by lia. by rewrite !u16_id.
Qed.

Lemma range_token s e : is_u16 s → is_u16 e → token (decimal s ++ x2d :: decimal e).
Proof.
  widths. intros Hs He. destruct (decimal_token s) as [Hne Hp]; [lia|].
  destruct (decimal_token e) as [_ Hp']; [lia|]. split; [by destruct (decimal s)|].
  apply Forall_app. split; [done|]. constructor; [by_compute|done].
Qed.

Lemma flow_tokens f : flow_ok f →
  Forall token ([fl_action f; fl_direction f; decimal (fl_protocol f); bytes_of_string "from";
    fl_src f; bytes_of_string "to"; fl_dst f] ++
    match fl_ports f with Some (s, e) => [decimal s ++ x2d :: decimal e] | None => [] end).
Proof.
  intros [Ha Hd Hp Hs Ht Hr]. apply Forall_app. split.
  - assert (token (decimal (fl_protocol f))) as Hdec by (apply decimal_token; widths; lia).
    assert (token (bytes_of_string "from")) as Hfrom by by_compute.
    assert (token (bytes_of_string "to")) as Hto by by_compute.
    repeat (apply List.Forall_cons; [assumption|]). apply List.Forall_nil.
  - destruct (fl_ports f) as [[s e]|]; [|done]. destruct (Hr s e eq_refl).
    constructor; [by apply range_token|done].
Qed.

Lemma parseFlowDescription_text f :
  flow_ok f → parseFlowDescription (flow_text f) = Ok (flow_filter f).
Proof.
  intros Hf. pose proof (flow_tokens f Hf) as Ht. destruct Hf as [_ _ Hp _ _ Hr].
  unfold parseFlowDescription, flow_filter. set (text := flow_text f).
  assert (Fields text = _) as -> by (by apply Fields_join). clearbody text.
  destruct (fl_ports f) as [[s e]|]; cbn [app].
  - destruct (Hr s e eq_refl). rewrite ltb_false by (unfold len; simpl; lia).
    do 3 index_known. rewrite parse_protocol_decimal by done. cbn [mbind res_bind].
    index_known. rewrite bool_decide_true by done. cbn [negb].
    do 2 index_known. rewrite bool_decide_true by done. cbn [negb]. index_known.
    rewrite ltb_true by (unfold len; simpl; lia). index_known.
    by rewrite parsePortRange_decimal.
  - rewrite ltb_false by (unfold len; simpl; lia).
    do 3 index_known. rewrite parse_protocol_decimal by done. cbn [mbind res_bind].
    index_known. rewrite bool_decide_true by done. cbn [negb].
    do 2 index_known. rewrite bool_decide_true by done. cbn [negb]. index_known.
    by rewrite ltb_false by (unfold len; simpl; lia).
Qed.

(** ** Properties *)

(** C13: the value of the element that the control plane builds from a printed
    flow description (any text for the addresses, a numeric protocol, an
    optional port range) is parsed to the filter the description prints, on
    top of the parser of every optional part being skipped. *)
Theorem SDFFilter_roundtrip f :
  flow_ok f → len (flow_text f) < 65536 →
  parseSDFFilter (Value (NewSDFFilterIE (string_of_bytes (flow_text f)))) = Ok (flow_filter f).
Proof.
  intros Hf Hl. rewrite parseSDFFilter_New; rewrite bytes_of_string_of_bytes; [|done].
  by apply parseFlowDescription_text.
Qed.

Definition sample_flow : flow :=
  mkFlow (bytes_of_string "permit") (bytes_of_string "out") 17 (bytes_of_string "10.0.0.0/8")
    (bytes_of_string "any") (Some (5000, 5002)).

Lemma sample_flow_ok : flow_ok sample_flow.
Proof.
  constructor; try by_compute. intros s e. simpl. intros [= <- <-]. by_compute.
Qed.

Lemma SDFFilter_roundtrip_witness :
  parseSDFFilter (Value (NewSDFFilterIE (string_of_bytes (flow_text sample_flow))))
    = Ok (flow_filter sample_flow) ∧
  PortEnd (flow_filter sample_flow) = 5002.
Proof.
  split; [|done]. apply SDFFilter_roundtrip; [apply sample_flow_ok|by vm_compute].
Defined.

(** C31: the parser returns, a filter or an error, on every sequence of bytes. *)
Theorem parseSDFFilter_returns v : returned (parseSDFFilter v).
Proof. apply parseSDFFilter_no_panic. Qed.
