(* ===== verification/Vpp.v ===== *)
(** * The VPP dataplane

    [pkg/dataplane/vpp/vpp.go] and [pkg/dataplane/vpp/l2_filters.go]: the
    rules of each session and the punt registrations sent to VPP.

    VPP itself, behind the govpp channel, is not part of the code: [vpp_reply]
    tells what it answers to a request, given the requests before it.  The
    order in which a range over a Go map finds the detection rules is a
    parameter of the operations, and so is the number of rounds after which
    the model gives up on the loop over the ports: what is proved holds for
    every order and every number of rounds. *)
From stdpp Require Import pretty.
From S2P Require Import Prelude Bytes Ie Sdf UpTypes Dataplane.

(** ** The binary API *)

Inductive AddressFamily := ADDRESS_IP4 | ADDRESS_IP6.

(** [punt.Punt] with its union. *)
Inductive Punt :=
  | PuntL4 (af : AddressFamily) (protocol port : Z)
  | PuntIPProto (af : AddressFamily) (protocol : Z).

Inductive VPPRequest :=
  | SetPunt (isAdd : bool) (punt : Punt)
  | ClassifyAddDelTable (isAdd : bool) (tableIndex nbuckets memorySize skipNVectors matchNVectors
      nextTableIndex missNextIndex maskLen : Z) (mask : list byte)
      (currentDataFlag currentDataOffset : Z).

#[export] Instance AddressFamily_eq_dec : EqDecision AddressFamily.
Proof. solve_decision. Defined.
#[export] Instance Punt_eq_dec : EqDecision Punt.
Proof. solve_decision. Defined.
#[export] Instance VPPRequest_eq_dec : EqDecision VPPRequest.
Proof. solve_decision. Defined.

(** A reply: its return value and, for a new table, its index. *)
Record VPPReply := mkVPPReply { Retval : Z; NewTableIndex : Z }.

Record sessionState := mkSessionState {
  ss_SEID : Z;
  ss_pdrs : gmap Z PDR;
  ss_fars : gmap Z FAR;
  puntReg : gmap string bool;
}.

(** [vpp_requests] are the requests sent on the channel so far. *)
Record VPPDataplane := mkVPPDataplane {
  vpp_sessions : gmap Z sessionState;
  vpp_requests : list VPPRequest;
  vpp_reply : list VPPRequest → VPPRequest → goerror + VPPReply;
}.

(** [v.ch.SendRequest(req).ReceiveReply(reply)]. *)
Definition send_request (req : VPPRequest) : go VPPDataplane VPPReply := λ v,
  let v' := mkVPPDataplane (vpp_sessions v) (vpp_requests v ++ [req]) (vpp_reply v) in
  match vpp_reply v (vpp_requests v) req with
  | inl e => (v', Err e)
  | inr r => (v', Ok r)
  end.

Definition vppErrorString (retval : Z) : string :=
  if retval =? 0 then "Success"
  else if retval =? -1 then "Unspecified Error"
  else if retval =? -2 then "System call error"
  else if retval =? -3 then "Invalid worker"
  else if retval =? -4 then "Invalid interface"
  else if retval =? -5 then "Invalid sub-interface"
  else if retval =? -6 then "Unimplemented"
  else if retval =? -7 then "Invalid value"
  else if retval =? -8 then "Invalid destination address"
  else if retval =? -9 then "Invalid source address"
  else "Error " +:+ pretty retval.

(** ** Application filters *)

Record L2Filter := mkL2Filter { L2_Name : string; EtherType : Z; L2_Protocol : Z }.

Definition l2FilterRegistry : gmap string L2Filter := list_to_map [
  ("ARP", mkL2Filter "ARP" 0x0806 0);
  ("PPPOE_DISCOVERY", mkL2Filter "PPPoE Discovery" 0x8863 0);
  ("PPPOE_SESSION", mkL2Filter "PPPoE Session" 0x8864 0);
  ("LLDP", mkL2Filter "LLDP" 0x88cc 0);
  ("DOT1Q", mkL2Filter "802.1Q VLAN" 0x8100 0);
  ("IPV6", mkL2Filter "IPv6" 0x86dd 0)].

Definition GetL2Filter (applicationID : string) : option L2Filter :=
  l2FilterRegistry !! applicationID.

(** ** State *)

Definition set_vpp_sessions (m : gmap Z sessionState) (v : VPPDataplane) : VPPDataplane :=
  mkVPPDataplane m (vpp_requests v) (vpp_reply v).

(** [v.sessions[seid]] is a pointer: its fields are written in place. *)
Definition on_session (seid : Z) (f : sessionState → sessionState) (v : VPPDataplane) :
    VPPDataplane := set_vpp_sessions (alter f seid (vpp_sessions v)) v.

Definition set_pdrs (m : gmap Z PDR) (s : sessionState) : sessionState :=
  mkSessionState (ss_SEID s) m (ss_fars s) (puntReg s).
Definition set_fars (m : gmap Z FAR) (s : sessionState) : sessionState :=
  mkSessionState (ss_SEID s) (ss_pdrs s) m (puntReg s).
Definition set_puntReg (m : gmap string bool) (s : sessionState) : sessionState :=
  mkSessionState (ss_SEID s) (ss_pdrs s) (ss_fars s) m.

(** [fmt.Sprintf("pdr-%d", pdr.ID)]. *)
Definition puntKey (pdrID : Z) : string := "pdr-" +:+ pretty pdrID.

(** [session.puntReg[puntKey] = true]. *)
Definition set_punt (seid pdrID : Z) : go VPPDataplane () :=
  gmodify (on_session seid (λ s, set_puntReg (<[puntKey pdrID := true]> (puntReg s)) s)).

(** ** Punts *)

(** One registration: the request, and the check of the reply. *)
Definition set_L4_punt (af : AddressFamily) (protocol port : Z) : go VPPDataplane () :=
  reply ← wrap_err (Wrapf "set L4 punt port %d: %w" [AInt port])
            (send_request (SetPunt true (PuntL4 af protocol port)));
  if Retval reply =? 0 then mret tt
  else throw (Errorf "VPPApiError: %s (%d) for port %d"
                [AStr (vppErrorString (Retval reply)); AInt (Retval reply); AInt port]).

Definition set_proto_punt (af : AddressFamily) (protocol : Z) : go VPPDataplane () :=
  reply ← wrap_err (Wrapf "set IP proto punt: %w" [])
            (send_request (SetPunt true (PuntIPProto af protocol)));
  if Retval reply =? 0 then mret tt
  else throw (Errorf "VPPApiError: %s (%d) for proto %d"
                [AStr (vppErrorString (Retval reply)); AInt (Retval reply); AInt protocol]).

(** [for port := start; port <= end; port++], the counter a [uint16]. *)
Fixpoint punt_ports (fuel : nat) (af : AddressFamily) (protocol port end_ : Z) :
    go VPPDataplane () :=
  if port <=? end_ then
    match fuel with
    | O => lift Hang
    | S fuel =>
      _ ← set_L4_punt af protocol port;
      punt_ports fuel af protocol (u16 (port + 1)) end_
    end
  else mret tt.

Definition configureL2PuntForPDR (seid : Z) (pdr : PDR) : go VPPDataplane () :=
  match PDR_PDI pdr with
  | None => lift (Panic NilDereference)
  | Some pdi =>
    match GetL2Filter (ApplicationID pdi) with
    | None => throw (Errorf "unknown Application ID: %s" [AStr (ApplicationID pdi)])
    | Some _ => set_punt seid (PDR_ID pdr)
    end
  end.

(** The registrations of an SDF filter. *)
Definition punt_filter (fuel : nat) (f : Sdf.SDFFilter) : go VPPDataplane () :=
  let af := if Sdf.AddressFamily f =? 1 then ADDRESS_IP6 else ADDRESS_IP4 in
  let isL4Protocol := (Protocol f =? 6) || (Protocol f =? 17) || (Protocol f =? 132) in
  let hasPorts := (0 <? PortStart f) || (0 <? PortEnd f) in
  if isL4Protocol && hasPorts
  then punt_ports fuel af (Protocol f) (PortStart f) (PortEnd f)
  else set_proto_punt af (Protocol f).

Definition configurePuntForPDR (fuel : nat) (seid : Z) (pdr : PDR) : go VPPDataplane () :=
  v ← gget;
  match vpp_sessions v !! seid with
  | None => lift (Panic NilDereference)
  | Some session =>
    if default false (puntReg session !! puntKey (PDR_ID pdr)) then mret tt
    else
      match PDR_PDI pdr with
      | None => lift (Panic NilDereference)
      | Some pdi =>
        if negb (bool_decide (ApplicationID pdi = EmptyString))
        then configureL2PuntForPDR seid pdr
        else if len (UpTypes.SDFFilter pdi) =? 0
        then throw (Errorf "PDR %d has no SDF filter or Application ID" [AInt (PDR_ID pdr)])
        else
          sdfFilter ← lift (wrap_res (Wrapf "parse SDF filter: %w" [])
                              (parseSDFFilter (UpTypes.SDFFilter pdi)));
          _ ← punt_filter fuel sdfFilter;
          set_punt seid (PDR_ID pdr)
      end
  end.

(** ** The dataplane's operations *)

Definition vpp_InstallPDR (seid : Z) (pdr : PDR) : go VPPDataplane () :=
  _ ← gmodify (λ v,
    match vpp_sessions v !! seid with
    | Some _ => v
    | None => set_vpp_sessions (<[seid := mkSessionState seid ∅ ∅ ∅]> (vpp_sessions v)) v
    end);
  gmodify (on_session seid (λ s, set_pdrs (<[PDR_ID pdr := pdr]> (ss_pdrs s)) s)).

Definition vpp_RemovePDR (seid pdrID : Z) : go VPPDataplane () :=
  v ← gget;
  match vpp_sessions v !! seid with
  | None => throw (Errorf "session %d not found" [AInt seid])
  | Some session =>
    match ss_pdrs session !! pdrID with
    | None => throw (Errorf "PDR %d not found in session %d" [AInt pdrID; AInt seid])
    | Some _ => gmodify (on_session seid (λ s, set_pdrs (delete pdrID (ss_pdrs s)) s))
    end
  end.

(** [order] is the order the range over [session.pdrs] takes. *)
Definition vpp_InstallFAR (order : gmap Z PDR → list PDR) (fuel : nat) (seid : Z) (far : FAR) :
    go VPPDataplane () :=
  v ← gget;
  match vpp_sessions v !! seid with
  | None => throw (Errorf "session %d not found" [AInt seid])
  | Some session =>
    _ ← gmodify (on_session seid (λ s, set_fars (<[FAR_ID far := far]> (ss_fars s)) s));
    if negb (Z.land (ApplyAction far) 0x02 =? 0) then
      for_each (order (ss_pdrs session)) (λ pdr,
        if PDR_FAR_ID pdr =? FAR_ID far
        then wrap_err (Wrapf "configure punt: %w" []) (configurePuntForPDR fuel seid pdr)
        else mret tt)
    else mret tt
  end.

Definition vpp_RemoveFAR (seid farID : Z) : go VPPDataplane () :=
  v ← gget;
  match vpp_sessions v !! seid with
  | None => throw (Errorf "session %d not found" [AInt seid])
  | Some _ => gmodify (on_session seid (λ s, set_fars (delete farID (ss_fars s)) s))
  end.

Definition vpp_InstallQER (seid : Z) (qer : QER) : go VPPDataplane () := mret tt.
Definition vpp_RemoveQER (seid qerID : Z) : go VPPDataplane () := mret tt.
Definition vpp_InstallURR (seid : Z) (urr : URR) : go VPPDataplane () := mret tt.
Definition vpp_RemoveURR (seid urrID : Z) : go VPPDataplane () := mret tt.

Definition vpp_DeleteSession (seid : Z) : go VPPDataplane () :=
  v ← gget;
  match vpp_sessions v !! seid with
  | None => throw (Errorf "session %d not found" [AInt seid])
  | Some _ => gmodify (λ v, set_vpp_sessions (delete seid (vpp_sessions v)) v)
  end.

(** [^uint32(0)]. *)
Definition no_index : Z := 2 ^ 32 - 1.

Definition createClassifyTable : go VPPDataplane Z :=
  let mask := replicate 48 xff in
  reply ← send_request (ClassifyAddDelTable true no_index 2 (Z.shiftl 2 20) 0 3 no_index no_index
                          (len mask) mask 0 0);
  if Retval reply =? 0 then mret (NewTableIndex reply)
  else throw (Errorf "VPPApiError: %s (%d)"
                [AStr (vppErrorString (Retval reply)); AInt (Retval reply)]).

Definition deleteClassifyTable (tableIdx : Z) : go VPPDataplane () :=
  reply ← send_request (ClassifyAddDelTable false tableIdx 0 0 0 0 0 0 0 [] 0 0);
  if Retval reply =? 0 then mret tt
  else throw (Errorf "VPP API error: %d" [AInt (Retval reply)]).

Definition deregisterPunt (farID : Z) : go VPPDataplane () := mret tt.

(** ** The rules are what the operations make them *)

(** The rules of a session, punts aside. *)
Definition rules (v : VPPDataplane) (seid : Z) : option (gmap Z PDR * gmap Z FAR) :=
  (λ s, (ss_pdrs s, ss_fars s)) <$> vpp_sessions v !! seid.

(** A call that touches no rule. *)
Definition keeps_rules {A} (m : go VPPDataplane A) : Prop :=
  ∀ v seid, rules (m v).1 seid = rules v seid.

Lemma keeps_bind {A B} (m : go VPPDataplane A) (f : A → go VPPDataplane B) :
  keeps_rules m → (∀ a, keeps_rules (f a)) → keeps_rules (m ≫= f).
Proof.
  intros Hm Hf v seid. unfold mbind, go_bind. specialize (Hm v seid).
  destruct (m v) as [v' [a|e|p|]]; simpl in *; [by rewrite Hf|done..].
Qed.

Lemma keeps_wrap {A} w (m : go VPPDataplane A) : keeps_rules m → keeps_rules (wrap_err w m).
Proof.
  intros Hm v seid. unfold wrap_err. specialize (Hm v seid).
  by destruct (m v) as [v' [a|e|p|]].
Qed.

Lemma keeps_lift {A} (r : res A) : keeps_rules (lift r).
Proof. done. Qed.

Lemma keeps_gget : keeps_rules gget.
Proof. done. Qed.

Lemma keeps_send req : keeps_rules (send_request req).
Proof. intros v seid. unfold send_request. by destruct (vpp_reply v _ req). Qed.

Lemma keeps_set_punt seid id : keeps_rules (set_punt seid id).
Proof.
  intros v s. unfold set_punt, gmodify, on_session, set_vpp_sessions, rules. simpl.
  rewrite lookup_alter. case_decide as E; [subst|done]. by destruct (vpp_sessions v !! s).
Qed.

#[local] Hint Resolve keeps_bind keeps_wrap keeps_lift keeps_gget keeps_send keeps_set_punt
  : pfcp.

Lemma keeps_L4 af p port : keeps_rules (set_L4_punt af p port).
Proof.
  apply keeps_bind; [auto with pfcp|]. intros r. destruct (Retval r =? 0); apply keeps_lift.
Qed.

Lemma keeps_proto af p : keeps_rules (set_proto_punt af p).
Proof.
  apply keeps_bind; [auto with pfcp|]. intros r. destruct (Retval r =? 0); apply keeps_lift.
Qed.

Lemma keeps_ports fuel af p port e : keeps_rules (punt_ports fuel af p port e).
Proof.
  revert port. induction fuel as [|fuel IH]; intros port; simpl; destruct (port <=? e);
    try apply keeps_lift. apply keeps_bind; [apply keeps_L4|auto].
Qed.

Lemma keeps_configure fuel seid pdr : keeps_rules (configurePuntForPDR fuel seid pdr).
Proof.
  apply keeps_bind; [auto with pfcp|]. intros v.
  destruct (vpp_sessions v !! seid) as [s|]; [|apply keeps_lift].
  destruct (default false _); [apply keeps_lift|].
  destruct (PDR_PDI pdr) as [pdi|] eqn:Hpdi; [|apply keeps_lift].
  destruct (negb _).
  { unfold configureL2PuntForPDR. rewrite Hpdi.
    destruct (GetL2Filter _); auto with pfcp. }
  destruct (_ =? 0); [apply keeps_lift|]. apply keeps_bind; [auto with pfcp|]. intros f.
  apply keeps_bind; [|auto with pfcp]. unfold punt_filter.
  destruct (_ && _); [apply keeps_ports|apply keeps_proto].
Qed.

(** The session's rules, rewritten in place. *)
Lemma rules_on_session seid f v s :
  rules (on_session seid f v) s =
    if decide (s = seid)
    then (λ x, (ss_pdrs (f x), ss_fars (f x))) <$> vpp_sessions v !! s else rules v s.
Proof.
  unfold rules, on_session, set_vpp_sessions. simpl.
  destruct (decide (s = seid)) as [->|Hs]; [|by rewrite lookup_alter_ne].
  rewrite lookup_alter_eq. by destruct (vpp_sessions v !! seid).
Qed.

Lemma vpp_InstallFAR_rules order fuel seid far v s :
  rules (vpp_InstallFAR order fuel seid far v).1 s =
    if decide (s = seid)
    then (λ r, (r.1, <[FAR_ID far := far]> r.2)) <$> rules v s else rules v s.
Proof.
  unfold vpp_InstallFAR. go_unfold.
  destruct (vpp_sessions v !! seid) as [ses|] eqn:Hs.
  - set (v' := on_session seid _ v).
    assert (∀ s, rules v' s = if decide (s = seid)
      then (λ r, (r.1, <[FAR_ID far := far]> r.2)) <$> rules v s else rules v s) as Hv'.
    { intros k. unfold v'. rewrite rules_on_session. case_decide; [|done].
      unfold rules. by destruct (vpp_sessions v !! k). }
    rewrite <- Hv'. destruct (negb _); [|done].
    apply (for_each_inv (λ v, rules v s = rules v' s)); [done|].
    intros pdr v1 _ <-. destruct (_ =? _); [|done].
    apply keeps_wrap, keeps_configure.
  - simpl. case_decide; [|done]. subst. unfold rules. by rewrite Hs.
Qed.

Lemma vpp_InstallPDR_rules seid pdr v s :
  rules (vpp_InstallPDR seid pdr v).1 s =
    if decide (s = seid)
    then let r := default (∅, ∅) (rules v s) in Some (<[PDR_ID pdr := pdr]> r.1, r.2)
    else rules v s.
Proof.
  unfold vpp_InstallPDR. go_unfold. simpl. rewrite rules_on_session.
  destruct (decide (s = seid)) as [->|Hs].
  - unfold rules. destruct (vpp_sessions v !! seid) as [x|] eqn:E.
    + by rewrite E.
    + simpl. by rewrite lookup_insert_eq.
  - unfold rules. destruct (vpp_sessions v !! seid) as [x|]; [done|].
    simpl. by rewrite lookup_insert_ne.
Qed.

Lemma vpp_DeleteSession_rules seid v s :
  rules (vpp_DeleteSession seid v).1 s = if decide (s = seid) then None else rules v s.
Proof.
  unfold vpp_DeleteSession. go_unfold. destruct (vpp_sessions v !! seid) as [x|] eqn:E; simpl.
  - unfold rules. simpl. rewrite lookup_delete. repeat case_decide; by simplify_eq.
  - case_decide; [|done]. subst. unfold rules. by rewrite E.
Qed.

Section laws.
Context (order : gmap Z PDR → list PDR) (fuel : nat).

#[export] Instance vpp_dataplane : Dataplane VPPDataplane := {
  InstallPDR := vpp_InstallPDR;
  RemovePDR := vpp_RemovePDR;
  InstallFAR := vpp_InstallFAR order fuel;
  RemoveFAR := vpp_RemoveFAR;
  InstallQER := vpp_InstallQER;
  RemoveQER := vpp_RemoveQER;
  InstallURR := vpp_InstallURR;
  RemoveURR := vpp_RemoveURR;
  DeleteSession := vpp_DeleteSession;
}.

(** A rule as the views see it. *)
Definition vpp_pdr (v : VPPDataplane) (seid i : Z) : option PDR :=
  rules v seid ≫= (λ r, r.1 !! i).
Definition vpp_far (v : VPPDataplane) (seid i : Z) : option FAR :=
  rules v seid ≫= (λ r, r.2 !! i).

(** VPP takes forwarding rules for the sessions it knows, and an error in a
    punt comes after the rule has been recorded. *)
#[export] Instance vpp_laws : DataplaneLaws VPPDataplane.
Proof.
  refine {| installed_pdr := vpp_pdr; installed_far := vpp_far;
            has_session v s := is_Some (rules v s) |}; intros;
    cbn [InstallPDR InstallFAR DeleteSession vpp_dataplane]; unfold vpp_pdr, vpp_far;
    rewrite ?vpp_InstallPDR_rules, ?vpp_InstallFAR_rules, ?vpp_DeleteSession_rules.
  - destruct (decide (s = seid)) as [->|Hs]; [|by rewrite decide_False by naive_solver].
    simpl. rewrite lookup_insert.
    destruct (rules d seid); simpl; repeat case_decide; naive_solver.
  - destruct (decide (s = seid)) as [->|Hs]; [|done]. by destruct (rules d seid).
  - destruct (decide (s = seid)); naive_solver.
  - destruct (decide (s = seid)) as [->|Hs]; [|done]. by destruct (rules d seid).
  - destruct (decide (s = seid)) as [->|Hs]; [|by rewrite decide_False by naive_solver].
    destruct H as [r ->]. simpl. rewrite lookup_insert. repeat case_decide; naive_solver.
  - by rewrite decide_False.
  - destruct (decide (s = seid)) as [->|Hs]; [|done]. by rewrite fmap_is_Some.
  - by destruct (decide (s = seid)).
  - by destruct (decide (s = seid)).
  - by rewrite decide_False.
Defined.

End laws.

(** ** Punts *)

(** VPP accepts every request. *)
Definition accepting (v : VPPDataplane) : Prop :=
  ∀ log req, ∃ i, vpp_reply v log req = inr (mkVPPReply 0 i).

(** The requests [reqs] have been sent on top. *)
Definition sent (reqs : list VPPRequest) (v : VPPDataplane) : VPPDataplane :=
  mkVPPDataplane (vpp_sessions v) (vpp_requests v ++ reqs) (vpp_reply v).

Lemma sent_sent r1 r2 v : sent r2 (sent r1 v) = sent (r1 ++ r2) v.
Proof. unfold sent. simpl. by rewrite app_assoc. Qed.

Lemma sent_nil v : sent [] v = v.
Proof. unfold sent. rewrite app_nil_r. by destruct v. Qed.

Lemma set_L4_punt_accepted af p port v :
  accepting v → set_L4_punt af p port v = (sent [SetPunt true (PuntL4 af p port)] v, Ok tt).
Proof.
  intros Ha. unfold set_L4_punt, send_request, wrap_err. go_unfold.
  destruct (Ha (vpp_requests v) (SetPunt true (PuntL4 af p port))) as [i ->]. done.
Qed.

(** The registrations of the ports from [start] to [end_]. *)
Definition port_punts (af : AddressFamily) (p start end_ : Z) : list VPPRequest :=
  (λ port, SetPunt true (PuntL4 af p port)) <$> seqZ start (end_ - start + 1).

Lemma punt_ports_accepted fuel af p start end_ v :
  accepting v → 0 ≤ start → end_ < 65535 → end_ - start + 1 ≤ Z.of_nat fuel →
  punt_ports fuel af p start end_ v = (sent (port_punts af p start end_) v, Ok tt).
Proof.
  revert start v. induction fuel as [|fuel IH]; intros start v Ha Hs He Hf; cbn [punt_ports];
    destruct (Z.leb_spec start end_); try lia.
  1,3: unfold port_punts; rewrite seqZ_nil by lia; by rewrite sent_nil.
  unfold mbind, go_bind. rewrite set_L4_punt_accepted by done.
  rewrite u16_id by (widths; lia). rewrite IH by (done || lia). rewrite sent_sent. do 2 f_equal.
  unfold port_punts. rewrite (seqZ_cons start) by lia. cbn [app fmap list_fmap].
  do 3 f_equal; lia.
Qed.

(** With the last port 65535 the counter wraps around and the loop goes on. *)
Lemma punt_ports_wrap fuel af p start v :
  accepting v → 0 ≤ start ≤ 65535 → (punt_ports fuel af p start 65535 v).2 = Hang.
Proof.
  revert start v. induction fuel as [|fuel IH]; intros start v Ha Hs; cbn [punt_ports];
    rewrite (leb_true start 65535) by lia; [done|].
  unfold mbind, go_bind. rewrite set_L4_punt_accepted by done. apply IH; [done|].
  pose proof (u16_width (start + 1)). widths. lia.
Qed.

(** A detection rule whose filter asks for ports of a transport protocol. *)
Record port_filter (pdr : PDR) (f : Sdf.SDFFilter) : Prop := {
  pf_pdi : ∃ pdi, PDR_PDI pdr = Some pdi ∧ ApplicationID pdi = EmptyString ∧
    parseSDFFilter (UpTypes.SDFFilter pdi) = Ok f;
  pf_protocol : Protocol f ∈ [6; 17; 132];
  pf_start : 0 ≤ PortStart f ≤ 65535;
  pf_end : 0 < PortEnd f ≤ 65535;
}.

Definition filter_af (f : Sdf.SDFFilter) : AddressFamily :=
  if Sdf.AddressFamily f =? 1 then ADDRESS_IP6 else ADDRESS_IP4.

(** The rule's punt has not been registered. *)
Definition unregistered (v : VPPDataplane) (seid : Z) (pdr : PDR) : Prop :=
  ∃ s, vpp_sessions v !! seid = Some s ∧ puntReg s !! puntKey (PDR_ID pdr) ≠ Some true.

Lemma configure_ports fuel seid pdr f v :
  port_filter pdr f → unregistered v seid pdr →
  configurePuntForPDR fuel seid pdr v =
    (_ ← punt_ports fuel (filter_af f) (Protocol f) (PortStart f) (PortEnd f);
     set_punt seid (PDR_ID pdr)) v.
Proof.
  intros [(pdi & Hpdi & Happ & Hparse) Hproto Hs He] (s & Hses & Hreg).
  unfold configurePuntForPDR. go_unfold. rewrite Hses.
  replace (default false (puntReg s !! puntKey (PDR_ID pdr))) with false
    by (by destruct (puntReg s !! _) as [[]|]).
  rewrite Hpdi, bool_decide_true by done. cbn [negb].
  destruct (Z.eqb_spec (len (UpTypes.SDFFilter pdi)) 0) as [Hz|_].
  { unfold parseSDFFilter in Hparse. rewrite Hz in Hparse. done. }
  rewrite Hparse. cbn [wrap_res]. unfold punt_filter. fold (filter_af f).
  replace (_ || _ || _) with true by (symmetry; rewrite !orb_true_iff, !Z.eqb_eq; set_solver).
  replace (_ || _) with true by (symmetry; rewrite orb_true_iff, !Z.ltb_lt; lia). done.
Qed.

(** ** Properties *)

(** C14: when the last port is below 65535, the loop over the ports ends, and VPP
    is asked to punt exactly the ports of the range, each once and in order;
    the rule's punt then counts as registered. *)
Theorem punt_ports_exact fuel seid pdr f v :
  accepting v → port_filter pdr f → unregistered v seid pdr →
  PortEnd f < 65535 → 65536 ≤ Z.of_nat fuel →
  let '(v', r) := configurePuntForPDR fuel seid pdr v in
  r = Ok tt ∧
  vpp_requests v' = vpp_requests v ++
    port_punts (filter_af f) (Protocol f) (PortStart f) (PortEnd f) ∧
  (∃ s, vpp_sessions v' !! seid = Some s ∧ puntReg s !! puntKey (PDR_ID pdr) = Some true) ∧
  ∀ k, rules v' k = rules v k.
Proof.
  intros Ha Hf Hu He Hfuel. pose proof (keeps_configure fuel seid pdr v) as Hk.
  rewrite (configure_ports fuel seid pdr f) in * by done.
  destruct Hf as [_ _ Hs _]. destruct Hu as (s & Hses & _).
  unfold mbind, go_bind in *. rewrite punt_ports_accepted in * by (done || lia).
  unfold set_punt, gmodify in *. split_and!; [done|done| |exact Hk].
  simpl. rewrite lookup_alter_eq, Hses. eexists. split; [done|].
  simpl. apply lookup_insert_eq.
Qed.

(** C29: when the last port is 65535, the loop never ends: however many rounds it
    is given, and with every request accepted, it is still running. *)
Theorem punt_ports_endless fuel seid pdr f v :
  accepting v → port_filter pdr f → unregistered v seid pdr → PortEnd f = 65535 →
  (configurePuntForPDR fuel seid pdr v).2 = Hang.
Proof.
  intros Ha Hf Hu He. rewrite (configure_ports fuel seid pdr f) by done.
  destruct Hf as [_ _ Hs _]. rewrite He.
  pose proof (punt_ports_wrap fuel (filter_af f) (Protocol f) (PortStart f) v Ha Hs) as Hh.
  unfold mbind, go_bind. by destruct (punt_ports _ _ _ _ _ v) as [v' [[]|e|p|]].
Qed.

(** C30: removing a detection rule leaves its punt registered, so a rule
    installed later under the same id never gets a punt of its own: nothing
    is sent to VPP for it, whatever it filters. *)
Theorem punt_survives_removal fuel seid pdr v s :
  vpp_sessions v !! seid = Some s → puntReg s !! puntKey (PDR_ID pdr) = Some true →
  let v' := (vpp_InstallPDR seid pdr (vpp_RemovePDR seid (PDR_ID pdr) v).1).1 in
  vpp_pdr v' seid (PDR_ID pdr) = Some pdr ∧
  configurePuntForPDR fuel seid pdr v' = (v', Ok tt) ∧ vpp_requests v' = vpp_requests v.
Proof.
  intros Hs Hp. cbv zeta.
  assert (∃ v1 s1, (vpp_RemovePDR seid (PDR_ID pdr) v).1 = v1 ∧
    vpp_sessions v1 !! seid = Some s1 ∧ puntReg s1 = puntReg s ∧
    vpp_requests v1 = vpp_requests v) as (v1 & s1 & -> & Hs1 & Hreg & Hreq).
  { unfold vpp_RemovePDR. go_unfold. rewrite Hs. destruct (ss_pdrs s !! PDR_ID pdr).
    - do 2 eexists. split; [done|]. simpl. by rewrite lookup_alter_eq, Hs.
    - by exists v, s. }
  unfold vpp_InstallPDR. go_unfold. simpl. rewrite Hs1.
  set (v2 := on_session _ _ _).
  assert (vpp_sessions v2 !! seid = Some (set_pdrs (<[PDR_ID pdr := pdr]> (ss_pdrs s1)) s1))
    as Hs2 by (simpl; by rewrite lookup_alter_eq, Hs1).
  split_and!; [|..|done].
  - unfold vpp_pdr, rules. rewrite Hs2. simpl. apply lookup_insert_eq.
  - unfold configurePuntForPDR. go_unfold. rewrite Hs2. simpl. by rewrite Hreg, Hp.
Qed.

(** ** A run *)

Definition demo_reply (log : list VPPRequest) (req : VPPRequest) : goerror + VPPReply :=
  inr (mkVPPReply 0 7).
Definition demo_vpp : VPPDataplane := mkVPPDataplane ∅ [] demo_reply.

(** Rule 7, with ports 5000 to 5002 of UDP, and the same up to 65535. *)
Definition demo_rule (f : flow) : PDR :=
  mkPDR 7 0 3 (Some (mkPDI 0 (Value (NewSDFFilterIE (string_of_bytes (flow_text f))))
    EmptyString EmptyString EmptyString)).
Definition wide_flow : flow :=
  mkFlow (fl_action sample_flow) (fl_direction sample_flow) 17 (fl_src sample_flow)
    (fl_dst sample_flow) (Some (65000, 65535)).
Definition demo_vpp1 : VPPDataplane := (vpp_InstallPDR 1 (demo_rule sample_flow) demo_vpp).1.
Definition demo_vpp2 : VPPDataplane :=
  (configurePuntForPDR 4 1 (demo_rule sample_flow) demo_vpp1).1.

Lemma demo_accepting : accepting demo_vpp1.
Proof. intros log req. by exists 7. Qed.

Lemma demo_unregistered f : unregistered demo_vpp1 1 (demo_rule f).
Proof. eexists. split; [by vm_compute|done]. Qed.

Lemma demo_port_filter f :
  parseSDFFilter (Value (NewSDFFilterIE (string_of_bytes (flow_text f)))) = Ok (flow_filter f) →
  Protocol (flow_filter f) = 17 → 0 ≤ PortStart (flow_filter f) ≤ 65535 →
  0 < PortEnd (flow_filter f) ≤ 65535 → port_filter (demo_rule f) (flow_filter f).
Proof.
  intros Hp Hproto Hs He. constructor; [by eexists|rewrite Hproto; set_solver|done|done].
Qed.

Lemma punt_ports_exact_witness :
  vpp_requests (configurePuntForPDR (Z.to_nat 65536) 1 (demo_rule sample_flow) demo_vpp1).1 =
    [SetPunt true (PuntL4 ADDRESS_IP4 17 5000); SetPunt true (PuntL4 ADDRESS_IP4 17 5001);
     SetPunt true (PuntL4 ADDRESS_IP4 17 5002)].
Proof.
  pose proof (punt_ports_exact (Z.to_nat 65536) 1 (demo_rule sample_flow)
    (flow_filter sample_flow) demo_vpp1 demo_accepting) as H.
  destruct (configurePuntForPDR (Z.to_nat 65536) 1 (demo_rule sample_flow) demo_vpp1) as [v r].
  cbn [fst].
  destruct H as (_ & -> & _).
  - apply demo_port_filter; [by vm_compute|done|by vm_compute|by vm_compute].
  - apply demo_unregistered.
  - by vm_compute.
  - lia.
  - by vm_compute.
Defined.

Lemma punt_ports_endless_witness :
  (configurePuntForPDR 1000 1 (demo_rule wide_flow) demo_vpp1).2 = Hang.
Proof.
  apply (punt_ports_endless 1000 1 (demo_rule wide_flow) (flow_filter wide_flow) demo_vpp1
    demo_accepting); [|apply demo_unregistered|done].
  apply demo_port_filter; [by vm_compute|done|by vm_compute|by vm_compute].
Defined.

Lemma punt_survives_removal_witness :
  let pdr := demo_rule wide_flow in
  let v' := (vpp_InstallPDR 1 pdr (vpp_RemovePDR 1 7 demo_vpp2).1).1 in
  len (vpp_requests demo_vpp2) = 3 ∧ vpp_pdr v' 1 7 = Some pdr ∧
  configurePuntForPDR 1000 1 pdr v' = (v', Ok tt) ∧ vpp_requests v' = vpp_requests demo_vpp2.
Proof.
  cbv zeta. split; [by vm_compute|].
  apply (punt_survives_removal 1000 1 (demo_rule wide_flow) demo_vpp2
    (default (mkSessionState 0 ∅ ∅ ∅) (vpp_sessions demo_vpp2 !! 1))); by vm_compute.
Defined.
